(* ===== verification/_CoqProject ===== *)
-Q . S2P
Prelude.v
Core.v
Codec.v
Crc.v
Message.v
Framing.v
Identity.v
Health.v
Eligibility.v
Device.v
Observation.v
Change.v
Pipeline.v
Clocks.v
Registration.v
WireFormats.v
ObservationCodec.v
AdminPayload.v
FleetState.v
FleetSteps.v
FleetInv.v
FleetSafety.v
FleetIngest.v
FleetWitness.v
SnapshotCodec.v
Store.v
CodecWitness.v
Typed.v
Coordinator.v
CoordinatorSafety.v
Runs.v
Protocol.v
FleetTyped.v
Agent.v
EndToEnd.v
EndToEndWitness.v
Fairness.v
System.v
RunsWitness.v
SystemWitness.v
Effects.v
Cuda.v
CudaBackend.v
CudaWitness.v
Lifecycle.v
LifecycleWitness.v
Transport.v
SocketOwner.v
TransportWitness.v
Wire.v
WireWitness.v
Accessors.v
Json.v
Cli.v
CliWitness.v
Examples.v
AgentStart.v
AgentWire.v
AgentWireWitness.v
