(* ===== verification/Prelude.v ===== *)
(** * GPU Fleet Agent: a verification development

    The program is a C++ control plane for a fleet of GPUs. Agents
    ([src/src/agent/agent.cpp]) probe the devices of a machine and publish
    observations over framed TCP; one coordinator
    ([src/src/coordinator/coordinator.cpp]) keeps the authoritative fleet state
    ([include/gpufleetagent/fleet/fleet_state.hpp]), decides which devices may be
    scheduled, fences stale incarnations, and persists the state. This library
    models the program from the bytes up to the two processes, as executable
    definitions, and proves what makes it correct. Paths below are relative to
    [include/gpufleetagent] unless they start with [src/].

    ** The files, bottom up

    - [Prelude]: notations ([fleet_scope]), machine integers ([wrap], [is_u]),
      bytes, tactics, the hint databases [fleet], [codec] and [writer], generic
      lemmas.
    - [Core]: [Status], [Error], [Result] with its monad, [StrongId] and
      [Generation] as phantom-typed 64-bit values, versions, the class [Enum8]
      of byte-backed enumerations ([core/], [types/]). An enumeration carries a
      constructor [Raw b] for bytes without an enumerator, since the source casts
      unchecked bytes.
    - [Codec]: [ByteWriter], [ByteReader], and the contract [parses T p bytes v]:
      the parser reads exactly these bytes to this value, and fails with an error
      in [T] on every strict prefix. Each codec's round trip, truncation and
      garbage theorems are one application of it. [Crc]: the bitwise CRC-32 and
      the detection of any one changed byte ([core/codec.hpp]).
    - [Message], [Framing]: the control protocol ([protocol/]). [scan] is the body
      of [FrameDecoder::feed]; [pump], [drain] and [stream_chunks] the loop its
      callers run.
    - [Identity], [Health], [Eligibility], [Device], [Observation], [Change],
      [Pipeline]: one file per header of the same name: the pure core that turns
      a probe into health, eligibility and change records.
      [Clocks]: the clock interface and its two implementations ([core/clock.hpp]).
    - [Registration], [WireFormats], [ObservationCodec], [AdminPayload],
      [SnapshotCodec]: the wire formats of each payload. [Store]: the persisted
      file and how it is replaced, with the outcome of every C library call, the
      removals included, as an input ([persistence/store.hpp]). [Typed]: what each
      decoder accepts lies in the range of its C++ types ([yields], the other half
      of the contract [parses]).
    - [FleetState]: the store's operations, each one atomic transition because
      each runs under the store's mutex; what was committed before an error stays
      committed, as in the source. [FleetSteps]: the operations as labels [Op],
      histories [run_ops], and the elementary transitions [micro] every operation
      is a sequence of. [FleetInv]: the evolution of one record, the invariant
      [fleet_wf], and [fleet_wf_from], the same from any restored snapshot, but for
      what that snapshot had otherwise. [FleetSafety], [FleetIngest]: the properties
      of histories.
    - [Coordinator]: [dispatch] branch by branch, the life of a connection, the
      liveness scan, [start], and [server_step], the interleaving of the threads
      at the granularity of the store's lock. [CoordinatorSafety]: every step is at
      most one operation of the store, and what follows. [Runs]: the same steps as a
      function of a label ([server_do]), so that a history is a list of labels.
      [Protocol]: an abstract machine of requests, without bytes or buffers, and the
      refinement: the events read off a run of the coordinator are a run of that
      machine. [FleetTyped]: the
      type invariant [fleet_typed] of every reachable state, and recovery from any
      of them. [Fairness]: runs without end in which the liveness thread keeps
      acting.
    - [Agent]: the handshake, publication, polling and reconnection over any
      instance of the class [DeviceBackend]. [EndToEnd]: agent and coordinator
      together, against the interface [BackendLaws] that a backend discharges.
      [AgentStart]: the options, the choice of the backend by name, [run] and
      [stop] on their two threads. [AgentWire]: [reconnect_loop] over a socket
      library, one connect, send and receive at a time.
    - [System]: one coordinator, any number of agents and of administrative
      clients, joined by connections that carry bytes in pieces of any size, late,
      or not at all, sends that fail after any part of their frame, and restarts of
      the coordinator at any point ([sys_step]).
    - [Effects]: routines that call a library outside the sources, a function of
      the library's state with a log of its calls, and a small program logic over
      the handles they hold ([holds], [settle]). [Cuda]: the validation sequence
      and its kernel over a parameter for the CUDA runtime
      ([src/src/cuda/cuda_validation.cpp]); [CudaBackend]: enumeration and the
      probe ([src/src/cuda/cuda_backend.cpp]), an instance of [DeviceBackend] that
      discharges [BackendLaws]. [Transport]: [TcpStream] and [TcpListener] over a
      parameter for Winsock ([src/src/transport/transport.cpp]); [SocketOwner]:
      who owns a socket through moves and destructors.
    - [Lifecycle]: the coordinator's threads from [start] to [stop] as program
      points that interleave. [Wire]: a connection's handler as it runs over its
      socket.
    - [Json], [Cli]: the command line tool ([src/tools/gpufleet.cpp]), its request
      over the socket library like the rest, and a reader for the JSON it prints. [Examples]: the programs of [src/examples] and
      [src/consumer/main.cpp], each as what it prints and returns. [Accessors]: the
      small functions the other files have no use for.
    - [FleetWitness], [CodecWitness], [EndToEndWitness], [CudaWitness],
      [LifecycleWitness], [TransportWitness], [WireWitness], [CliWitness],
      [RunsWitness], [SystemWitness], [AgentWireWitness]: concrete
      fleets, a simulated CUDA runtime, a scripted socket library: the instances
      of the theorems and the behaviours worth knowing.

    ** What is shown

    - Placement safety: in every state the running coordinator can reach, from
      any state file and whatever bytes its clients send, a device held
      schedulable has fresh evidence, is present, is neither quarantined nor
      draining, and has proven health ([network_placement_safe], and
      [process_placement_safe] through starts and stops on any schedule of the
      threads); in the whole system it was probed on the backend of an agent, by the
      incarnation and at the time its record names, and every check of that probe
      succeeded ([schedulable_device_was_probed]). Quarantine and drain persist until
      ended by name; the invariant holds in every history, from any restored snapshot
      ([fleet_invariant]).
    - The protocol: each request of a run has the effect and the verdict the abstract
      machine gives it, bindings and losses included ([coordinator_refines_protocol]).
    - Types: every integer of a reachable store is in the range of its C++ type, every
      node and worker under its own id, and every text bounded
      ([coordinator_well_typed]); so is whatever a decoder accepts
      ([decoders_typed]).
    - Authority: evidence is installed only under the current epoch, by the
      registered worker's current incarnation; a fenced incarnation is refused
      unless another was admitted and it was admitted again after that
      ([fenced_incarnation_refused]); generations and the epoch never move back; a live incarnation is
      not displaced; a stale epoch is refused.
    - Progress: the handshake of a fresh incarnation registers it, every later
      snapshot and heartbeat of the session is accepted, and a device whose probe
      proves every check becomes schedulable, for a CUDA device as for any other.
      [stop] always returns, with every thread joined ([stop_returns]). A worker
      that falls silent is marked lost and its devices leave scheduling, on every
      run in which the liveness thread keeps acting ([silent_worker_withdrawn]).
    - Recovery: a save acknowledged in any reachable state is loaded back
      ([reachable_state_recovered]).
    - Evidence: a validation succeeds exactly when every step was executed and the
      result matched the reference or was not a number; it leaves no device memory
      allocated on any path; the kernel computes the reference whatever order its
      threads run in, without overflow; a device whose successful calls do what is
      documented validates exactly when its calls succeed and the memory comes back.
    - Sockets: every path closes what it opens, once; all bytes are delivered in
      order and the loop ends when the peer drains; messages sent are the messages
      received; a handler over its socket does what the pure connection does, and
      an agent over its socket what the pure agent does, on what its receives
      returned ([agent_over_socket]). A connection on which no send was cut short or
      too large is served message by message and not dropped ([system_stream_sound]).
    - The tool: what it prints as JSON reads back as the store's entries; a drain
      takes the device out of scheduling; save then recover agree, for replies that
      reach it in its 64 receives; the largest reply it can read.
    - Decisions: the evaluators equal declarative specifications; eligibility
      after an observation is characterised exactly; losing one proof never
      raises health; changes reported are the axes changed.
    - Bytes: every codec's round trip, rejection of truncation, garbage and
      corruption; independence from chunk boundaries, for the decoder and for a
      whole connection; store file saved, loaded, recovered, and what each failing
      call leaves behind ([save_replaces_or_loses]).
    - Termination: the loops over a buffer need no more fuel than its length
      ([pump_fuel], [serve_fuel], [serve_terminates]).

    ** Modelling decisions

    Machine integers are [Z] with the wrap-around written out. [double] is its
    64-bit pattern: the program only moves it. [std::map] is [gmap], iterated in
    key order where order is visible ([map_entries]). The clock, the outcomes of
    file operations and the hardware are arguments. The CUDA runtime and Winsock
    are records of functions on a state of their own; what is asked of them
    ([Conforming], [RuntimeTyped], [WinsockTyped], [Draining], [RecvBounded]) is a
    class with a concrete instance among the witnesses. A [float] is an IEEE
    binary32 computed with the Standard Library's [SpecFloat]. A
    dispatch is one step, although the source takes the store's lock twice in
    the administrative branches: the first time only to find an owner that the
    operation ignores, or the epoch it is compared with. Signed overflow in the
    freshness test is two's complement.

    [Conforming] says what the CUDA calls that report success have done, and only
    that: whether a call succeeds and how much memory is reported free are the
    runtime's to say. In [System] a send may stop after any part of its frame and the
    sender write on; one thing is assumed of the bytes that follow, that pieces of
    frames put together in that way do not have a matching CRC-32 ([unspliced]):
    what the decoder delivers from such a stream is a message that was sent. Of
    streams without such a cut nothing is assumed.

    ** Fuel

    Loops over a buffer take its length; [send_all] takes fuel and needs no more
    than the bytes plus the stalls of the peer ([send_all_terminates]); parsing the
    command line takes the number of arguments; a connection over its socket takes
    the number of turns until the coordinator stops. An agent over its socket takes
    the list of the environments it meets, one for each attempt to connect, and for
    each frame it sends the bytes of the frame plus the stalls of the peer; it is
    shown to return whenever the stalls are bounded.

    ** Not modelled

    What the CUDA runtime and Winsock do inside; the text streams behind [ostream]
    insertion and the hash of the standard library (parameters of [Accessors]); two
    threads inside [start] or [stop] at once; class declarations, deleted copies and
    the reservation of a buffer, which have no behaviour of their own. The tests and
    the benchmark only call the library. [System] asks for clocks within 64 bits and
    backends that meet [BackendLaws]; an agent's process that is replaced is another
    agent of the list. Next: an agent's progress in [System] under fair delivery. *)

From Stdlib Require Export ZArith Lia Bool.
From Stdlib Require Ascii String.
From stdpp Require Export base tactics list strings gmap sets fin_maps sorting pretty.
From Stdlib Require Export Strings.Byte.

Abbreviation ascii := Ascii.ascii (only parsing).
Open Scope Z_scope.

(** Names used with two meanings by the libraries: [byte] is always the
    eight-bit byte, [length] always the one of lists. *)
Abbreviation byte := Byte.byte.
Abbreviation length := List.length.

(* ------------------------------------------------------------------ *)
(** ** Notations *)

Declare Scope fleet_scope.
Delimit Scope fleet_scope with fleet.
Open Scope fleet_scope.

(** [v |> f]: the receiver-first call order of the source
    ([w.u64(a); w.u8(b)] becomes [w |> w_u64 a |> w_u8 b]). *)
Notation "v |> f" := (f v) (at level 49, left associativity, only parsing) : fleet_scope.

(* ------------------------------------------------------------------ *)
(** ** Machine integers

    An unsigned [w]-bit value is a [Z] in range; [wrap w] is the conversion
    C++ performs on arithmetic results and [static_cast]. *)

Definition wrap (w z : Z) : Z := z mod 2 ^ w.
Definition is_u (w z : Z) : Prop := 0 <= z < 2 ^ w.
Definition is_s (w z : Z) : Prop := - 2 ^ (w - 1) <= z < 2 ^ (w - 1).

Abbreviation is_u8 := (is_u 8).
Abbreviation is_u16 := (is_u 16).
Abbreviation is_u32 := (is_u 32).
Abbreviation is_u64 := (is_u 64).
Abbreviation is_i64 := (is_s 64).
Abbreviation is_i32 := (is_s 32).

(** Two's complement reading of an unsigned [w]-bit pattern. *)
Definition to_signed (w z : Z) : Z := if z <? 2 ^ (w - 1) then z else z - 2 ^ w.

#[global] Instance is_u_dec w z : Decision (is_u w z).
Proof. unfold is_u. apply _. Defined.
#[global] Instance is_s_dec w z : Decision (is_s w z).
Proof. unfold is_s. apply _. Defined.

(** ** Bytes *)

Definition byte_to_Z (b : byte) : Z := Z.of_N (Byte.to_N b).

(** [static_cast<std::uint8_t>(z)]. *)
Definition byte_of_Z (z : Z) : byte :=
  match Byte.of_N (Z.to_N (z mod 256)) with Some b => b | None => Byte.x00 end.

#[global] Instance byte_eq_dec : EqDecision byte := Byte.byte_eq_dec.
#[global] Instance byte_inhabited : Inhabited byte := populate Byte.x00.

(* ------------------------------------------------------------------ *)
(** ** Tactics *)

Create HintDb fleet.
Create Rewrite HintDb fleet.

(** Destructs the existentials and conjunctions of the context. *)
Ltac deex :=
  repeat match goal with
  | H : exists _, _ |- _ => destruct H
  | H : _ /\ _ |- _ => destruct H
  end.

(** Case analysis on the scrutinee of the first [if] or [match] of the goal. *)
Ltac case_branch :=
  match goal with
  | |- context [if ?b then _ else _] => destruct b eqn:?
  | |- context [match ?x with _ => _ end] => destruct x eqn:?
  end.

(** The same in a hypothesis. *)
Ltac case_branch_in H :=
  match type of H with
  | context [if ?b then _ else _] => destruct b eqn:?
  | context [match ?x with _ => _ end] => destruct x eqn:?
  end.

(** Boolean comparisons on [Z] become propositions. *)
Ltac zbool :=
  repeat match goal with
  | H : (_ <? _) = true |- _ => apply Z.ltb_lt in H
  | H : (_ <? _) = false |- _ => apply Z.ltb_ge in H
  | H : (_ <=? _) = true |- _ => apply Z.leb_le in H
  | H : (_ <=? _) = false |- _ => apply Z.leb_gt in H
  | H : (_ =? _) = true |- _ => apply Z.eqb_eq in H
  | H : (_ =? _) = false |- _ => apply Z.eqb_neq in H
  | H : (_ >? _) = _ |- _ => rewrite Z.gtb_ltb in H
  | H : (_ >=? _) = _ |- _ => rewrite Z.geb_leb in H
  | H : negb _ = true |- _ => apply negb_true_iff in H
  | H : negb _ = false |- _ => apply negb_false_iff in H
  | H : (_ && _)%bool = true |- _ => apply andb_true_iff in H as [? ?]
  | H : (_ || _)%bool = false |- _ => apply orb_false_iff in H as [? ?]
  end.

(** Closes a goal about a decision tree once its branch is known: the goal is a
    conjunction of branch conditions, or the context is contradictory. *)
Ltac branch_done :=
  intros; deex; zbool; try discriminate; try congruence; try lia;
  repeat split; try assumption; try congruence; try lia.

(** Evaluates the powers of two with a numeral exponent. *)
Ltac pow_consts :=
  repeat match goal with
  | |- context [2 ^ Zpos ?p] =>
      let x := eval vm_compute in (2 ^ Zpos p) in change (2 ^ Zpos p) with x
  | |- context [2 ^ 0] => change (2 ^ 0) with 1
  end.

(* ------------------------------------------------------------------ *)
(** ** Generic lemmas *)

Lemma wrap_small w z : is_u w z -> wrap w z = z.
Proof. intros H. apply Z.mod_small. exact H. Qed.

Lemma wrap_range w z : 0 <= w -> is_u w (wrap w z).
Proof. intros H. apply Z.mod_pos_bound. lia. Qed.

Lemma to_signed_wrap w z : 0 < w -> is_s w z -> to_signed w (wrap w z) = z.
Proof.
  unfold is_s, to_signed, wrap. intros Hw Hz.
  assert (Hp : 2 ^ w = 2 * 2 ^ (w - 1)).
  { rewrite <- Z.pow_succ_r by lia. f_equal. lia. }
  destruct (Z.ltb_spec (z mod 2 ^ w) (2 ^ (w - 1))) as [Hlt|Hge];
    destruct (Z_lt_le_dec z 0).
  - rewrite <- (Z_mod_plus_full z 1 (2 ^ w)), Z.mod_small in Hlt by lia. lia.
  - rewrite Z.mod_small in Hlt |- * by lia. lia.
  - rewrite <- (Z_mod_plus_full z 1 (2 ^ w)), Z.mod_small by lia. lia.
  - rewrite Z.mod_small in Hge by lia. lia.
Qed.

Lemma to_signed_range w z : 0 < w -> is_u w z -> is_s w (to_signed w z).
Proof.
  unfold is_u, is_s, to_signed. intros Hw Hz.
  assert (Hp : 2 ^ w = 2 * 2 ^ (w - 1)).
  { rewrite <- Z.pow_succ_r by lia. f_equal. lia. }
  destruct (Z.ltb_spec z (2 ^ (w - 1))); lia.
Qed.

Lemma byte_to_Z_range b : 0 <= byte_to_Z b < 256.
Proof. unfold byte_to_Z. pose proof (Byte.to_N_bounded b). lia. Qed.

Lemma byte_of_to_Z b : byte_of_Z (byte_to_Z b) = b.
Proof.
  unfold byte_of_Z. rewrite Z.mod_small by apply byte_to_Z_range.
  unfold byte_to_Z. by rewrite N2Z.id, Byte.of_to_N.
Qed.

Lemma byte_to_of_Z z : byte_to_Z (byte_of_Z z) = z mod 256.
Proof.
  unfold byte_of_Z, byte_to_Z.
  pose proof (Z.mod_pos_bound z 256 ltac:(lia)).
  destruct (Byte.of_N (Z.to_N (z mod 256))) as [b|] eqn:E.
  - apply Byte.to_of_N in E. rewrite E. lia.
  - apply Byte.of_N_None_iff in E. lia.
Qed.

Lemma byte_to_Z_inj a b : byte_to_Z a = byte_to_Z b -> a = b.
Proof. intros H. by rewrite <- (byte_of_to_Z a), H, byte_of_to_Z. Qed.

#[export] Hint Resolve byte_to_Z_range wrap_range : fleet.
#[export] Hint Rewrite byte_of_to_Z byte_to_of_Z : fleet.

(** A shift-and-or with a value below the shifted bits is positional notation. *)
Lemma lor_shiftl_add a b n : 0 <= n -> is_u n b -> Z.lor (Z.shiftl a n) b = a * 2 ^ n + b.
Proof.
  intros Hn Hb. rewrite <- Z.shiftl_mul_pow2 by lia.
  rewrite <- Z.lxor_lor, <- Z.add_nocarry_lxor; [reflexivity|..];
    apply Z.bits_inj'; intros i Hi; rewrite Z.land_spec, Z.bits_0;
    destruct (Z_lt_le_dec i n).
  all: try (rewrite Z.shiftl_spec_low by lia; reflexivity).
  all: rewrite <- (Z.mod_small b (2 ^ n)), Z.mod_pow2_bits_high by (unfold is_u in Hb; lia);
    apply andb_false_r.
Qed.

Lemma land_255_mod v : Z.land v 0xFF = v mod 256.
Proof. change 0xFF with (Z.ones 8). by rewrite Z.land_ones by lia. Qed.

(** Dropping one more base-256 digit. *)
Lemma div_pow2_step v n : 0 <= n -> v / 2 ^ (n + 8) * 256 + v / 2 ^ n mod 256 = v / 2 ^ n.
Proof.
  intros Hn. rewrite Z.pow_add_r, <- Z.div_div by lia.
  change (2 ^ 8) with 256. pose proof (Z.div_mod (v / 2 ^ n) 256). lia.
Qed.

(** Splitting a list whose prefix is compared with a concatenation. *)
Lemma app_split_prefix {A} (l1 l2 a e : list A) :
  l1 ++ l2 = a ++ e ->
  (exists e', l1 = a ++ e' /\ e' <> [] /\ e = e' ++ l2) \/
  (exists a', a = l1 ++ a' /\ l2 = a' ++ e).
Proof.
  revert a. induction l1 as [|x l1 IH]; intros a H; simpl in H.
  - right. exists a. auto.
  - destruct a as [|y a]; simpl in H.
    + left. exists (x :: l1). simpl. auto.
    + injection H as -> H. apply IH in H as [(e' & -> & ? & ->)|(a' & -> & ->)].
      * left. exists e'. auto.
      * right. exists a'. auto.
Qed.

(* ------------------------------------------------------------------ *)
(** ** Printed numbers

    [std::to_string] of an unsigned value and [printf]'s [%x]: digits of a
    number in a base, most significant first. Twenty decimal digits cover 64
    bits and eight hexadecimal digits cover 32. *)

Definition digit_char (d : Z) : ascii :=
  Ascii.ascii_of_N (Z.to_N (if d <? 10 then 48 + d else 87 + d)).

Fixpoint digits_go (base : Z) (fuel : nat) (n : Z) (acc : string) : string :=
  match fuel with
  | O => acc
  | S fuel' =>
      let acc' := String (digit_char (n mod base)) acc in
      if n / base =? 0 then acc' else digits_go base fuel' (n / base) acc'
  end.

Definition to_dec (n : Z) : string := digits_go 10 20 n "".

(** [std::to_string] of a signed integer. *)
Definition to_dec_signed (z : Z) : string :=
  if z <? 0 then "-" +:+ to_dec (- z) else to_dec z.

Fixpoint zeros (n : nat) : string :=
  match n with O => "" | S n' => String (digit_char 0) (zeros n') end.

(** [%0<width>x]. *)
Definition to_hex (width : nat) (n : Z) : string :=
  let s := digits_go 16 8 n "" in zeros (width - String.length s) +:+ s.

(** Reading a numeral back, used to show that printing is injective. *)
Definition digit_value (c : ascii) : Z :=
  let n := Z.of_N (Ascii.N_of_ascii c) in if n <? 58 then n - 48 else n - 87.

Fixpoint digits_value (base : Z) (s : string) (acc : Z) : Z :=
  match s with
  | "" => acc
  | String c s' => digits_value base s' (acc * base + digit_value c)
  end%string.

(** Every character of a string satisfies a predicate. *)
Fixpoint str_all (P : ascii -> bool) (s : string) : bool :=
  match s with ""%string => true | String c s' => P c && str_all P s' end.

Definition is_digit_char (c : ascii) : bool :=
  let n := Ascii.N_of_ascii c in
  ((48 <=? n) && (n <=? 57) || (97 <=? n) && (n <=? 102))%N.

(** The string has no occurrence of [c]. *)
Definition no_char (c : ascii) (s : string) : bool := str_all (fun x => negb (Ascii.eqb x c)) s.

Lemma digit_char_spec d :
  0 <= d < 16 -> digit_value (digit_char d) = d /\ is_digit_char (digit_char d) = true.
Proof.
  intros H.
  assert (exists n, d = Z.of_nat n /\ (n < 16)%nat) as (n & -> & Hn).
  { exists (Z.to_nat d). lia. }
  do 16 (destruct n as [|n]; [by vm_compute|]). lia.
Qed.

Lemma digits_value_go base fuel n acc :
  1 < base <= 16 -> 0 <= n < base ^ Z.of_nat fuel ->
  digits_value base (digits_go base fuel n acc) 0 = digits_value base acc n.
Proof.
  intros Hb. revert n acc. induction fuel as [|fuel IH]; intros n acc Hn; cbn [digits_go].
  - change (base ^ Z.of_nat 0) with 1 in Hn. by replace n with 0 by lia.
  - pose proof (Z.mod_pos_bound n base ltac:(lia)) as Hm.
    pose proof (Z.div_mod n base ltac:(lia)) as Hd.
    destruct (digit_char_spec (n mod base) ltac:(lia)) as [Hv _].
    destruct (Z.eqb_spec (n / base) 0) as [E|E].
    + cbn [digits_value]. rewrite Hv. f_equal. lia.
    + rewrite Nat2Z.inj_succ, Z.pow_succ_r in Hn by lia.
      rewrite IH.
      * cbn [digits_value]. rewrite Hv. f_equal. lia.
      * split; [apply Z.div_pos; lia | apply Z.div_lt_upper_bound; lia].
Qed.

Lemma digits_go_chars base fuel n acc :
  1 < base <= 16 -> str_all is_digit_char acc = true ->
  str_all is_digit_char (digits_go base fuel n acc) = true.
Proof.
  intros Hb. revert n acc. induction fuel as [|fuel IH]; intros n acc Ha; cbn [digits_go]; [done|].
  pose proof (Z.mod_pos_bound n base ltac:(lia)) as Hm.
  destruct (digit_char_spec (n mod base) ltac:(lia)) as [_ Hc].
  destruct (n / base =? 0); [|apply IH]; cbn [str_all]; by rewrite Hc.
Qed.

Lemma digits_value_zeros base n s : digits_value base (zeros n +:+ s) 0 = digits_value base s 0.
Proof. induction n; [done|]. cbn. exact IHn. Qed.

Lemma str_all_app P s t : str_all P (s +:+ t) = str_all P s && str_all P t.
Proof. induction s as [|c s IH]; [done|]. cbn. by rewrite <- andb_assoc, <- IH. Qed.

Lemma no_char_app c s t : no_char c (s +:+ t) = no_char c s && no_char c t.
Proof. apply str_all_app. Qed.

Lemma str_all_impl (P Q : ascii -> bool) s :
  (forall c, P c = true -> Q c = true) -> str_all P s = true -> str_all Q s = true.
Proof.
  intros HPQ. induction s as [|c s IH]; [done|]. cbn.
  rewrite !andb_true_iff. intros [? ?]. auto.
Qed.

Lemma string_length_app (s t : string) :
  String.length (s +:+ t) = (String.length s + String.length t)%nat.
Proof. induction s as [|c s IH]; [done|]. cbn. by rewrite <- IH. Qed.

Lemma digits_go_length base fuel n acc :
  (String.length (digits_go base fuel n acc) <= fuel + String.length acc)%nat.
Proof.
  revert n acc. induction fuel as [|fuel IH]; intros n acc; cbn [digits_go]; [done|].
  destruct (n / base =? 0); [cbn; lia|]. etrans; [apply IH|]. cbn. lia.
Qed.

Lemma to_dec_length n : (String.length (to_dec n) <= 20)%nat.
Proof. etrans; [apply digits_go_length|done]. Qed.

Lemma to_dec_signed_length n : (String.length (to_dec_signed n) <= 21)%nat.
Proof.
  unfold to_dec_signed. pose proof (to_dec_length n). pose proof (to_dec_length (- n)).
  destruct (n <? 0); [rewrite string_length_app; change (String.length "-") with 1%nat|]; lia.
Qed.

Lemma to_hex_length w n : (w <= 8)%nat -> (String.length (to_hex w n) <= 8)%nat.
Proof.
  intros Hw. unfold to_hex. cbv zeta. rewrite string_length_app.
  pose proof (digits_go_length 16 8 n "") as H. cbn [String.length] in H.
  assert (forall k, String.length (zeros k) = k) as Hz by (intros k; induction k; cbn; congruence).
  rewrite Hz. lia.
Qed.

Lemma to_dec_inj a b : is_u64 a -> is_u64 b -> to_dec a = to_dec b -> a = b.
Proof.
  unfold is_u, to_dec. intros Ha Hb H. apply (f_equal (fun s => digits_value 10 s 0)) in H.
  rewrite !digits_value_go in H by (pow_consts; change (10 ^ Z.of_nat 20) with 100000000000000000000; lia).
  exact H.
Qed.

Lemma to_hex_inj w a b : is_u32 a -> is_u32 b -> to_hex w a = to_hex w b -> a = b.
Proof.
  unfold is_u, to_hex. intros Ha Hb H. apply (f_equal (fun s => digits_value 16 s 0)) in H.
  rewrite !digits_value_zeros, !digits_value_go in H
    by (change (16 ^ Z.of_nat 8) with (2 ^ 32); lia).
  exact H.
Qed.

Lemma to_dec_chars n : str_all is_digit_char (to_dec n) = true.
Proof. apply digits_go_chars; [lia | done]. Qed.

Lemma to_hex_chars w n : str_all is_digit_char (to_hex w n) = true.
Proof.
  unfold to_hex. rewrite str_all_app, andb_true_iff. split.
  - generalize (w - String.length (digits_go 16 8 n ""))%nat as k. intros k. by induction k.
  - apply digits_go_chars; [lia | done].
Qed.

Lemma digits_no_char c s :
  is_digit_char c = false -> str_all is_digit_char s = true -> no_char c s = true.
Proof.
  intros Hc. apply str_all_impl. intros x Hx. apply negb_true_iff.
  destruct (Ascii.eqb_spec x c) as [->|]; congruence.
Qed.

(** A separator that does not occur in the fields splits a string uniquely. *)
Lemma separator_inj c s1 s2 t1 t2 :
  no_char c s1 = true -> no_char c s2 = true ->
  s1 +:+ String c t1 = s2 +:+ String c t2 -> s1 = s2 /\ t1 = t2.
Proof.
  revert s2. induction s1 as [|x s1 IH]; intros [|y s2] H1 H2 H;
    cbn [no_char str_all] in *.
  - by injection H as ->.
  - injection H as <- _. unfold no_char in H2. cbn in H2. by rewrite Ascii.eqb_refl in H2.
  - injection H as -> _. unfold no_char in H1. cbn in H1. by rewrite Ascii.eqb_refl in H1.
  - injection H as -> H. apply andb_true_iff in H1 as [_ H1], H2 as [_ H2].
    destruct (IH _ H1 H2 H) as [-> ->]. done.
Qed.

Lemma string_app_assoc (a b c : string) : (a +:+ b) +:+ c = a +:+ (b +:+ c).
Proof. induction a as [|x a IH]; [done|]. exact (f_equal (String x) IH). Qed.

(* ------------------------------------------------------------------ *)
(** ** What every schedule reaches *)

(** Whatever steps are taken, a state that satisfies [Q] is reached, and until then
    there is a step to take. *)
Inductive inevitable {A} (R : A -> A -> Prop) (Q : A -> Prop) (a : A) : Prop :=
  | inevitable_now : Q a -> inevitable R Q a
  | inevitable_later :
      (exists a', R a a') -> (forall a', R a a' -> inevitable R Q a') -> inevitable R Q a.

(** A schedule that stays clear of [Q] for ever. *)
Lemma avoidable {A} (R : A -> A -> Prop) (Q I : A -> Prop) a :
  (forall x, I x -> ~ Q x /\ exists y, R x y /\ I y) -> I a -> ~ inevitable R Q a.
Proof.
  intros HI Ha Hin. induction Hin as [a Hq|a _ _ IH].
  - by destruct (HI a Ha) as [Hn _].
  - destruct (HI a Ha) as (_ & y & Hr & Hy). by eapply IH.
Qed.
