(* ===== verification/Core.v ===== *)
(** * Core value types

    [core/result.hpp], [core/strong.hpp], [types/ids.hpp],
    [types/generations.hpp], [types/versions.hpp], [core/clock.hpp] and
    [version.hpp]: error values, strongly typed identifiers and generations,
    versions and timestamps. A tag index plays the role of the C++ tag type, so
    a [DeviceGeneration] cannot be compared with a [CoordinatorEpoch]. *)

From S2P Require Import Prelude.

(* ------------------------------------------------------------------ *)
(** ** Status, Error, Result *)

Inductive Status :=
  | Status_Ok | Corrupt | Truncated | OutOfBounds | InvalidEnum
  | InvalidGeneration | ProtocolMismatch | VersionMismatch | Duplicate
  | UnknownMessage | Malformed | Stale | NotAuthoritative | NotFound
  | AlreadyExists | Status_Quarantined | Status_Drained | Unsupported | Io
  | IdentityMismatch | CapacityExceeded | Rejected | Internal.

(** [to_string(Status)] of [src/core/result.cpp]. *)
Definition status_to_string (s : Status) : string :=
  match s with
  | Status_Ok => "ok" | Corrupt => "corrupt" | Truncated => "truncated"
  | OutOfBounds => "out_of_bounds" | InvalidEnum => "invalid_enum"
  | InvalidGeneration => "invalid_generation"
  | ProtocolMismatch => "protocol_mismatch"
  | VersionMismatch => "version_mismatch" | Duplicate => "duplicate"
  | UnknownMessage => "unknown_message" | Malformed => "malformed"
  | Stale => "stale" | NotAuthoritative => "not_authoritative"
  | NotFound => "not_found" | AlreadyExists => "already_exists"
  | Status_Quarantined => "quarantined" | Status_Drained => "drained"
  | Unsupported => "unsupported" | Io => "io"
  | IdentityMismatch => "identity_mismatch"
  | CapacityExceeded => "capacity_exceeded" | Rejected => "rejected"
  | Internal => "internal"
  end.

(** A structured error: a stable code and a message. *)
Record Error := MkError { err_code : Status; err_message : string }.

(** [Result<T>]: a value or an error. *)
Inductive Result (T : Type) :=
  | Ok (v : T)
  | Err (e : Error).
Arguments Ok {T} v.
Arguments Err {T} e.

(** [error_result(code, msg)]. *)
Definition error_result {T} (code : Status) (msg : string) : Result T :=
  Err (MkError code msg).

Definition result_ok {T} (r : Result T) : bool :=
  match r with Ok _ => true | Err _ => false end.

Definition result_bind {A B} (r : Result A) (k : A -> Result B) : Result B :=
  match r with Ok v => k v | Err e => Err e end.

#[global] Instance Status_eq_dec : EqDecision Status.
Proof. solve_decision. Defined.
#[global] Instance Error_eq_dec : EqDecision Error.
Proof. solve_decision. Defined.
#[global] Instance Result_eq_dec {T} `{EqDecision T} : EqDecision (Result T).
Proof. solve_decision. Defined.

(* ------------------------------------------------------------------ *)
(** ** Strong identifiers and generations *)

Inductive IdTag :=
  | FleetIdTag | NodeIdTag | WorkerIdTag | WorkerBootIdTag | DeviceIdTag
  | ObservationIdTag | CapabilityIdTag | HealthReportIdTag | LeaseIdTag
  | RegistrationIdTag | CoordinatorIdTag | AgentIdTag.

Inductive GenerationTag :=
  | CoordinatorEpochTag | FleetGenerationTag | NodeGenerationTag
  | WorkerGenerationTag | DeviceGenerationTag | ObservationGenerationTag
  | CapabilityGenerationTag | HealthGenerationTag
  | RegistrationGenerationTag | PolicyGenerationTag.

(** [StrongId<Tag, std::uint64_t>]. *)
Record StrongId (t : IdTag) := MkId { id_value : Z }.
Arguments MkId {t} _.
Arguments id_value {t} _.

(** [Generation<Tag, std::uint64_t>]. *)
Record Generation (t : GenerationTag) := MkGen { gen_value : Z }.
Arguments MkGen {t} _.
Arguments gen_value {t} _.

Abbreviation NodeId := (StrongId NodeIdTag).
Abbreviation WorkerId := (StrongId WorkerIdTag).
Abbreviation WorkerBootId := (StrongId WorkerBootIdTag).
Abbreviation DeviceId := (StrongId DeviceIdTag).
Abbreviation CapabilityId := (StrongId CapabilityIdTag).
Abbreviation RegistrationId := (StrongId RegistrationIdTag).
Abbreviation CoordinatorId := (StrongId CoordinatorIdTag).
Abbreviation AgentId := (StrongId AgentIdTag).

Abbreviation CoordinatorEpoch := (Generation CoordinatorEpochTag).
Abbreviation FleetGeneration := (Generation FleetGenerationTag).
Abbreviation NodeGeneration := (Generation NodeGenerationTag).
Abbreviation DeviceGeneration := (Generation DeviceGenerationTag).
Abbreviation ObservationGeneration := (Generation ObservationGenerationTag).
Abbreviation CapabilityGeneration := (Generation CapabilityGenerationTag).
Abbreviation HealthGeneration := (Generation HealthGenerationTag).
Abbreviation RegistrationGeneration := (Generation RegistrationGenerationTag).

Definition id_is_zero {t} (a : StrongId t) : bool := id_value a =? 0.
Definition id_eqb {t} (a b : StrongId t) : bool := id_value a =? id_value b.
Definition id_ltb {t} (a b : StrongId t) : bool := id_value a <? id_value b.
Definition id_to_string {t} (a : StrongId t) : string := to_dec (id_value a).

(** [next]: the representation is 64 bits wide and wraps to zero. *)
Definition gen_next {t} (g : Generation t) : Generation t :=
  MkGen (wrap 64 (gen_value g + 1)).
Definition gen_is_zero {t} (g : Generation t) : bool := gen_value g =? 0.
Definition gen_after {t} (g o : Generation t) : bool := gen_value g >? gen_value o.
Definition gen_eqb {t} (a b : Generation t) : bool := gen_value a =? gen_value b.
Definition gen_ltb {t} (a b : Generation t) : bool := gen_value a <? gen_value b.
Definition gen_leb {t} (a b : Generation t) : bool := gen_value a <=? gen_value b.
Definition gen_to_string {t} (g : Generation t) : string := to_dec (gen_value g).

Abbreviation id_wf a := (is_u64 (id_value a)).
Abbreviation gen_wf g := (is_u64 (gen_value g)).

#[global] Instance StrongId_eq_dec t : EqDecision (StrongId t).
Proof. solve_decision. Defined.
#[global] Instance Generation_eq_dec t : EqDecision (Generation t).
Proof. solve_decision. Defined.
#[global] Program Instance StrongId_countable t : Countable (StrongId t) :=
  inj_countable' id_value MkId _.
Next Obligation. by intros t []. Qed.

(* ------------------------------------------------------------------ *)
(** ** Versions and timestamps *)

Record SemanticVersion := MkSemanticVersion { sv_major : Z; sv_minor : Z; sv_patch : Z }.

Definition semver_eqb (a b : SemanticVersion) : bool :=
  (sv_major a =? sv_major b) && (sv_minor a =? sv_minor b) && (sv_patch a =? sv_patch b).

Definition semver_ltb (a b : SemanticVersion) : bool :=
  if negb (sv_major a =? sv_major b) then sv_major a <? sv_major b
  else if negb (sv_minor a =? sv_minor b) then sv_minor a <? sv_minor b
  else sv_patch a <? sv_patch b.

Record AgentVersion := MkAgentVersion { av_version : SemanticVersion }.
Record ProtocolVersion := MkProtocolVersion { pv_value : Z }.
Record DriverVersion := MkDriverVersion { dv_text : string }.
Record RuntimeVersion := MkRuntimeVersion { rv_major : Z; rv_minor : Z }.

#[global] Instance SemanticVersion_eq_dec : EqDecision SemanticVersion.
Proof. solve_decision. Defined.
#[global] Instance AgentVersion_eq_dec : EqDecision AgentVersion.
Proof. solve_decision. Defined.
#[global] Instance ProtocolVersion_eq_dec : EqDecision ProtocolVersion.
Proof. solve_decision. Defined.
#[global] Instance DriverVersion_eq_dec : EqDecision DriverVersion.
Proof. solve_decision. Defined.
#[global] Instance RuntimeVersion_eq_dec : EqDecision RuntimeVersion.
Proof. solve_decision. Defined.

(** Milliseconds since the Unix epoch, a signed 64-bit value; zero is the
    invalid timestamp. *)
Abbreviation Timestamp := Z (only parsing).
Abbreviation DurationMs := Z (only parsing).
Definition kInvalidTimestamp : Timestamp := 0.

Definition protocol_version : Z := 1.
Definition store_schema_version : Z := 1.

(* ------------------------------------------------------------------ *)
(** ** Lemmas *)

Lemma id_eqb_spec {t} (a b : StrongId t) : reflect (a = b) (id_eqb a b).
Proof.
  unfold id_eqb. destruct a as [x], b as [y]; simpl.
  destruct (Z.eqb_spec x y); constructor; congruence.
Qed.

Lemma gen_eqb_spec {t} (a b : Generation t) : reflect (a = b) (gen_eqb a b).
Proof.
  unfold gen_eqb. destruct a as [x], b as [y]; simpl.
  destruct (Z.eqb_spec x y); constructor; congruence.
Qed.

Lemma gen_eqb_eq {t} (a b : Generation t) : gen_eqb a b = true <-> a = b.
Proof. destruct (gen_eqb_spec a b); split; congruence. Qed.

Lemma id_eqb_eq {t} (a b : StrongId t) : id_eqb a b = true <-> a = b.
Proof. destruct (id_eqb_spec a b); split; congruence. Qed.

Lemma gen_eqb_refl {t} (a : Generation t) : gen_eqb a a = true.
Proof. by apply gen_eqb_eq. Qed.

Lemma id_eqb_refl {t} (a : StrongId t) : id_eqb a a = true.
Proof. by apply id_eqb_eq. Qed.

Lemma id_eta {t} (a : StrongId t) : MkId (id_value a) = a.
Proof. by destruct a. Qed.

Lemma gen_eta {t} (a : Generation t) : MkGen (gen_value a) = a.
Proof. by destruct a. Qed.

Lemma gen_next_wf {t} (g : Generation t) : gen_wf (gen_next g).
Proof. apply wrap_range. lia. Qed.

Lemma result_ok_inv {T} (r : Result T) : result_ok r = true -> exists v, r = Ok v.
Proof. destruct r; simpl; [eauto | discriminate]. Qed.

#[export] Hint Rewrite @gen_eqb_refl @id_eqb_refl @id_eta @gen_eta : fleet.
#[export] Hint Resolve gen_next_wf : fleet.

(** A generation that has not reached the top of its range is strictly
    followed by its successor. *)
Lemma gen_next_after {t} (g : Generation t) :
  gen_wf g -> gen_value g <> 2 ^ 64 - 1 -> gen_after (gen_next g) g = true.
Proof.
  intros Hwf Hne. unfold gen_after, gen_next; cbn [gen_value].
  unfold is_u in Hwf. rewrite wrap_small by (unfold is_u; lia).
  rewrite Z.gtb_ltb. apply Z.ltb_lt. lia.
Qed.

(* ------------------------------------------------------------------ *)
(** ** Enumerations with an underlying byte

    A C++ [enum class E : std::uint8_t] holds any byte: [static_cast<E>(b)] of
    a wire byte without an enumerator is a value that falls into the [default]
    branch of every [switch]. Each enumeration of the model has the source's
    enumerators and a last constructor [Raw] for those bytes. *)

Class Enum8 (A : Type) := {
  to_u8 : A -> Z;
  of_u8 : Z -> A;
  to_of_u8 : forall b, to_u8 (of_u8 b) = b
}.

(** The canonical values: a byte with an enumerator is not written [Raw]. *)
Definition enum_wf {A} `{Enum8 A} (a : A) : Prop :=
  is_u8 (to_u8 a) /\ of_u8 (to_u8 a) = a.

Lemma of_u8_wf {A} `{Enum8 A} b : is_u8 b -> enum_wf (of_u8 b).
Proof. intros Hb. unfold enum_wf. by rewrite to_of_u8. Qed.

(** Proves [to_of_u8] for a match on the numerals below 32. *)
Ltac enum_cases := intros [|p|p]; [reflexivity | | reflexivity];
  do 5 (try destruct p as [p|p|]; try reflexivity).

Ltac enum_wf_solve := split; [unfold is_u; cbn; lia | reflexivity].
