(* ===== verification/Codec.v ===== *)
(** * Deterministic binary codec ([core/codec.hpp])

    [ByteWriter] is the growing buffer, [ByteReader] the span with its cursor.
    A reading operation is a [Parser E]: it either fails with an [E] ([unit]
    for the operations returning [bool], [Error] for those returning
    [Result]) or yields a value and the advanced reader. The reader left behind
    by a failed read is not part of the outcome: every caller in the source
    returns at once.

    [parses T p l v] is the contract between an encoder and a decoder: on input
    starting with the bytes [l] the parser [p] returns [v] and consumes exactly
    [l], and on every strict prefix of [l] it fails with an error in [T]. It
    composes along [bind], so each codec's round trip and its rejection of
    truncated input are one proof. *)

From S2P Require Import Prelude Core.

(* ------------------------------------------------------------------ *)
(** ** CRC-32 *)

Definition kCrc32Polynomial : Z := 0xEDB88320.

(** One iteration of the inner loop. *)
Definition crc32_bit (crc : Z) : Z :=
  Z.lxor (Z.shiftr crc 1) (if Z.odd crc then kCrc32Polynomial else 0).

(** One iteration of the outer loop. *)
Definition crc32_byte (crc : Z) (b : byte) : Z :=
  Nat.iter 8 crc32_bit (Z.lxor crc (byte_to_Z b)).

Definition crc32 (data : list byte) : Z :=
  Z.lxor (foldl crc32_byte 0xFFFFFFFF data) 0xFFFFFFFF.

Definition kMaxStringLen : Z := 65535.
Definition kMaxBytesLen : Z := 0x7FFFFFFF.

(* ------------------------------------------------------------------ *)
(** ** ByteWriter *)

Abbreviation ByteWriter := (list byte) (only parsing).

(** The bytes of a [std::string], and back. *)
Abbreviation str_bytes := String.list_byte_of_string.
Abbreviation bytes_str := String.string_of_list_byte.

(** Big-endian byte sequences appended by the integer writers. *)
Definition be_byte (v shift : Z) : byte := byte_of_Z (Z.land (Z.shiftr v shift) 0xFF).
Definition be8 (v : Z) : list byte := [byte_of_Z v].
Definition be16 (v : Z) : list byte := [be_byte v 8; be_byte v 0].
Definition be32 (v : Z) : list byte :=
  [be_byte v 24; be_byte v 16; be_byte v 8; be_byte v 0].
Definition be64 (v : Z) : list byte := map (be_byte v) [56; 48; 40; 32; 24; 16; 8; 0].
Definition be64s (v : Z) : list byte := be64 (wrap 64 v).

Definition w_u8 (v : Z) (w : ByteWriter) : ByteWriter := w ++ be8 v.
Definition w_u16 (v : Z) (w : ByteWriter) : ByteWriter := w ++ be16 v.
Definition w_u32 (v : Z) (w : ByteWriter) : ByteWriter := w ++ be32 v.
Definition w_u64 (v : Z) (w : ByteWriter) : ByteWriter := w ++ be64 v.
Definition w_i64 (v : Z) (w : ByteWriter) : ByteWriter := w |> w_u64 (wrap 64 v).

(** A [double] is carried as its 64-bit pattern: the program only copies it. *)
Abbreviation double := Z (only parsing).
Definition w_f64 (bits : double) (w : ByteWriter) : ByteWriter := w |> w_u64 bits.

Definition w_raw_bytes (b : list byte) (w : ByteWriter) : ByteWriter := w ++ b.

(** The size is converted to 32 bits by [static_cast]. *)
Definition w_bytes (b : list byte) (w : ByteWriter) : ByteWriter :=
  w |> w_u32 (wrap 32 (Z.of_nat (length b))) |> w_raw_bytes b.

(** A string longer than [max_len] is cut to its first [max_len] bytes. *)
Definition clamp_bytes (max_len : Z) (s : string) : list byte :=
  let b := str_bytes s in
  if Z.of_nat (length b) >? max_len then take (Z.to_nat max_len) b else b.

Definition w_string (s : string) (max_len : Z) (w : ByteWriter) : ByteWriter :=
  w |> w_bytes (clamp_bytes max_len s).

Definition w_bool (b : bool) (w : ByteWriter) : ByteWriter := w |> w_u8 (if b then 1 else 0).

(** [for (auto& x : xs) f(w, x)]. *)
Definition w_each {A} (f : A -> ByteWriter -> ByteWriter) (xs : list A) (w : ByteWriter)
  : ByteWriter := foldl (fun w x => f x w) w xs.

(** [w.string(x, max_len)] for each element of a list of strings. *)
Definition w_text (max_len : Z) (s : string) (w : ByteWriter) : ByteWriter :=
  w |> w_string s max_len.

(** [static_cast<std::uint32_t>(v.size())]. *)
Definition count32 {A} (xs : list A) : Z := wrap 32 (Z.of_nat (length xs)).

(* ------------------------------------------------------------------ *)
(** ** ByteReader *)

Record ByteReader := MkReader { rd_data : list byte; rd_pos : nat }.

Definition reader (data : list byte) : ByteReader := MkReader data 0.

Inductive PResult (E A : Type) :=
  | POk (v : A) (r : ByteReader)
  | PFail (e : E).
Arguments POk {E A} v r.
Arguments PFail {E A} e.

Definition Parser (E A : Type) := ByteReader -> PResult E A.

#[global] Instance parser_ret {E} : MRet (Parser E) := fun A v r => POk v r.
#[global] Instance parser_bind {E} : MBind (Parser E) := fun A B k p r =>
  match p r with POk v r' => k v r' | PFail e => PFail e end.

(** [data_[pos_ + i]]; the guards keep the index in range. *)
Definition byte_at (r : ByteReader) (i : nat) : Z :=
  byte_to_Z (nth (rd_pos r + i) (rd_data r) Byte.x00).

Definition rd_size (r : ByteReader) : Z := Z.of_nat (length (rd_data r)).
Definition rd_advance (r : ByteReader) (n : nat) : ByteReader :=
  MkReader (rd_data r) (rd_pos r + n).

(** The guard shared by the integer reads: [if (pos_ + n > data_.size()) return
    false;]. *)
Definition rd_fixed (n : nat) (f : ByteReader -> Z) : Parser unit Z := fun r =>
  if Z.of_nat (rd_pos r + n) >? rd_size r then PFail tt
  else POk (f r) (rd_advance r n).

Definition rd_u8 : Parser unit Z := rd_fixed 1 (fun r => byte_at r 0).
Definition rd_u16 : Parser unit Z := rd_fixed 2 (fun r =>
  wrap 16 (Z.lor (Z.shiftl (byte_at r 0) 8) (byte_at r 1))).
Definition rd_u32 : Parser unit Z := rd_fixed 4 (fun r =>
  Z.lor (Z.lor (Z.lor (Z.shiftl (byte_at r 0) 24) (Z.shiftl (byte_at r 1) 16))
               (Z.shiftl (byte_at r 2) 8)) (byte_at r 3)).
Definition rd_u64 : Parser unit Z := rd_fixed 8 (fun r =>
  foldl (fun v i => Z.lor (wrap 64 (Z.shiftl v 8)) (byte_at r i)) 0 (seq 0 8)).

Definition rd_i64 : Parser unit Z := u ← rd_u64; mret (to_signed 64 u).
Definition rd_f64 : Parser unit double := rd_u64.

(** [b != 0] of a flag byte. *)
Definition rd_bool : Parser unit bool := b ← rd_u8; mret (negb (b =? 0)).

(** Replaces the failure of a read by the caller's own:
    [if (!r.u8(v)) return error_result(code, msg);]. *)
Definition or_fail {E E' A} (p : Parser E A) (e : E') : Parser E' A := fun r =>
  match p r with POk v r' => POk v r' | PFail _ => PFail e end.
Notation "p ?? e" := (or_fail p e) (at level 50, no associativity) : fleet_scope.

(** [if (!cond) return error;]. *)
Definition ensure {E} (cond : bool) (e : E) : Parser E unit := fun r =>
  if cond then POk tt r else PFail e.

Definition rd_raw_unchecked (n : nat) : Parser Error (list byte) := fun r =>
  POk (take n (drop (rd_pos r) (rd_data r))) (rd_advance r n).

(** The tail shared by [bytes] and [raw]: bounds check, sub-span, advance. *)
Definition rd_span (len : Z) (e : Error) : Parser Error (list byte) := fun r =>
  if Z.of_nat (rd_pos r) + len >? rd_size r then PFail e
  else rd_raw_unchecked (Z.to_nat len) r.

Definition rd_bytes (max_len : Z) : Parser Error (list byte) :=
  len ← rd_u32 ?? MkError Truncated "byte length truncated";
  _ ← ensure (negb (len >? max_len)) (MkError OutOfBounds "byte length exceeds bound");
  rd_span len (MkError Truncated "byte payload truncated").

Definition rd_raw (count : Z) : Parser Error (list byte) :=
  rd_span count (MkError Truncated "raw payload truncated").

(** Every failure of the span read is reported as [Truncated]. *)
Definition rd_string (max_len : Z) : Parser Error string :=
  b ← rd_bytes max_len ?? MkError Truncated "string payload truncated";
  mret (bytes_str b).

Definition rd_done (r : ByteReader) : bool := (rd_pos r =? length (rd_data r))%nat.

(** [for (k = 0; k < n; ++k) out.push_back(read())]. *)
Fixpoint rd_times {E A} (n : nat) (p : Parser E A) : Parser E (list A) :=
  match n with
  | O => mret []
  | S n' => x ← p; xs ← rd_times n' p; mret (x :: xs)
  end.

(** A loop whose iterations thread the value under construction. *)
Fixpoint rd_fold {E S} (n : nat) (step : S -> Parser E S) (s : S) : Parser E S :=
  match n with
  | O => mret s
  | Datatypes.S n' => s' ← step s; rd_fold n' step s'
  end.

(** Decodes a whole buffer: the fields, then [if (!r.done()) return garbage;]. *)
Definition run_decoder {A} (p : Parser Error A) (garbage : Error) (data : list byte)
  : Result A :=
  match p (reader data) with
  | PFail e => Err e
  | POk v r => if negb (rd_done r) then Err garbage else Ok v
  end.

(* ------------------------------------------------------------------ *)
(** ** The parsing contract *)

(** The reader's cursor is in range and the bytes left are [l]. *)
Definition at_rest (r : ByteReader) (l : list byte) : Prop :=
  (rd_pos r <= length (rd_data r))%nat /\ drop (rd_pos r) (rd_data r) = l.

Definition parses {E A} (T : E -> Prop) (p : Parser E A) (l : list byte) (v : A) : Prop :=
  (forall r post, at_rest r (l ++ post) -> exists r', p r = POk v r' /\ at_rest r' post) /\
  (forall r a e, at_rest r a -> l = a ++ e -> e <> [] -> exists x, p r = PFail x /\ T x).

Definition any_error {E} : E -> Prop := fun _ => True.
Definition code_is (c : Status) : Error -> Prop := fun e => err_code e = c.

(** The interface a wire format offers: a reader [p] and the bytes [put v] a
    writer produces for [v] agree on the values in [ok]. *)
Class Wire {E A} (p : Parser E A) (put : A -> list byte) (ok : A -> Prop) : Prop :=
  wire_parses : forall v, ok v -> parses any_error p (put v) v.

(** The bytes of a bounded string and of a length-prefixed blob. *)
Definition enc_bytes (b : list byte) : list byte :=
  be32 (wrap 32 (Z.of_nat (length b))) ++ b.
Definition enc_string (max_len : Z) (s : string) : list byte :=
  enc_bytes (clamp_bytes max_len s).
Definition enc_bool (b : bool) : list byte := be8 (if b then 1 else 0).

Definition str_len (s : string) : Z := Z.of_nat (length (str_bytes s)).
Definition str_fits (max_len : Z) (s : string) : Prop := str_len s <= max_len.

Create HintDb codec.

(* ------------------------------------------------------------------ *)
(** ** Lemmas: readers *)

Lemma at_rest_size r l :
  at_rest r l -> rd_size r = Z.of_nat (rd_pos r) + Z.of_nat (length l).
Proof. intros [Hle <-]. unfold rd_size. rewrite length_drop. lia. Qed.

Lemma at_rest_advance r l post :
  at_rest r (l ++ post) -> at_rest (rd_advance r (length l)) post.
Proof.
  intros [Hle Hd]. split; cbn.
  - apply (f_equal length) in Hd. rewrite length_drop, length_app in Hd. lia.
  - by rewrite <- drop_drop, Hd, drop_app_length.
Qed.

Lemma at_rest_reader data : at_rest (reader data) data.
Proof. split; cbn; [lia | apply drop_0]. Qed.

Lemma byte_at_rest r l i : at_rest r l -> byte_at r i = byte_to_Z (nth i l Byte.x00).
Proof.
  intros [Hle <-]. unfold byte_at. f_equal. revert Hle.
  generalize (rd_pos r) (rd_data r). clear.
  intros p d. revert p. induction d as [|x d IH]; intros [|p] Hle; cbn in *; try lia.
  - by destruct i.
  - reflexivity.
  - apply IH. lia.
Qed.

Lemma rd_done_spec r l : at_rest r l -> rd_done r = match l with [] => true | _ => false end.
Proof.
  intros [Hle Hd]. unfold rd_done. apply (f_equal length) in Hd.
  rewrite length_drop in Hd. destruct l; cbn in Hd.
  - apply Nat.eqb_eq. lia.
  - apply Nat.eqb_neq. lia.
Qed.

Lemma be_byte_Z v k : 0 <= k -> byte_to_Z (be_byte v k) = v / 2 ^ k mod 256.
Proof.
  intros Hk. unfold be_byte.
  by rewrite byte_to_of_Z, land_255_mod, Z.mod_mod, Z.shiftr_div_pow2 by lia.
Qed.

(* ------------------------------------------------------------------ *)
(** ** Lemmas: the contract composes *)

Lemma parses_ret {E A} (T : E -> Prop) (v : A) : parses T (mret v) [] v.
Proof.
  split.
  - intros r post H. exists r. auto.
  - intros r a e _ H He. symmetry in H. apply app_eq_nil in H as [_ ->]. congruence.
Qed.

Lemma parses_bind {E A B} (T : E -> Prop) (p : Parser E A) (k : A -> Parser E B) l1 l2 v x :
  parses T p l1 v -> parses T (k v) l2 x -> parses T (p ≫= k) (l1 ++ l2) x.
Proof.
  intros [Hp Hpt] [Hk Hkt]. split.
  - intros r post H. rewrite <- app_assoc in H.
    destruct (Hp _ _ H) as (r1 & Hr1 & H1). destruct (Hk _ _ H1) as (r2 & Hr2 & H2).
    exists r2. split; [|exact H2]. unfold mbind, parser_bind. by rewrite Hr1.
  - intros r a e H Hl He. unfold mbind, parser_bind.
    destruct (app_split_prefix _ _ _ _ Hl) as [(e' & Hl1 & He' & _)|(a' & Ha & Hl2)].
    + destruct (Hpt _ _ _ H Hl1 He') as (y & Hy & HT). rewrite Hy. eauto.
    + subst a. destruct (Hp _ _ H) as (r1 & Hr1 & H1). rewrite Hr1. eauto.
Qed.

Lemma parses_or_fail {E E' A} (T : E' -> Prop) (p : Parser E A) e l v :
  parses any_error p l v -> T e -> parses T (p ?? e) l v.
Proof.
  intros [Hp Hpt] HT. split.
  - intros r post H. destruct (Hp _ _ H) as (r' & Hr & H').
    exists r'. unfold or_fail. by rewrite Hr.
  - intros r a e' H Hl He. destruct (Hpt _ _ _ H Hl He) as (y & Hy & _).
    exists e. unfold or_fail. by rewrite Hy.
Qed.

Lemma parses_weaken {E A} (T T' : E -> Prop) (p : Parser E A) l v :
  (forall e, T e -> T' e) -> parses T p l v -> parses T' p l v.
Proof.
  intros HT [Hp Hpt]. split; [exact Hp|].
  intros r a e H Hl He. destruct (Hpt _ _ _ H Hl He) as (y & Hy & Hy'). eauto.
Qed.

Lemma parses_ensure {E} (T : E -> Prop) cond (e : E) :
  cond = true -> parses T (ensure cond e) [] tt.
Proof. intros ->. apply (parses_ret T tt). Qed.

Lemma parses_map {E A B} (T : E -> Prop) (p : Parser E A) (f : A -> B) l v :
  parses T p l v -> parses T (x ← p; mret (f x)) l (f v).
Proof.
  intros H. rewrite <- (app_nil_r l). eapply parses_bind; [exact H|]. apply parses_ret.
Qed.

Lemma parses_wire {E A} (T : E -> Prop) (p : Parser E A) put ok `{!Wire p put ok} v :
  (forall e, T e) -> ok v -> parses T p (put v) v.
Proof. intros HT Hok. eapply parses_weaken; [|by apply wire_parses]. auto. Qed.

Lemma parses_times {E A} (T : E -> Prop) (p : Parser E A) (put : A -> list byte) (xs : list A) :
  Forall (fun x => parses T p (put x) x) xs ->
  parses T (rd_times (length xs) p) (concat (map put xs)) xs.
Proof.
  induction 1 as [|x xs Hx _ IH]; cbn [rd_times length map concat].
  - apply parses_ret.
  - eapply parses_bind; [exact Hx|]. by apply parses_map.
Qed.

(** Each iteration reads one item and updates the state by [f]. *)
Fixpoint steps_parse {E S A} (T : E -> Prop) (step : S -> Parser E S) (put : A -> list byte)
  (f : S -> A -> S) (xs : list A) (s : S) : Prop :=
  match xs with
  | [] => True
  | x :: xs' => parses T (step s) (put x) (f s x) /\ steps_parse T step put f xs' (f s x)
  end.

Lemma parses_fold {E S A} (T : E -> Prop) (step : S -> Parser E S) (put : A -> list byte) f xs s :
  steps_parse T step put f xs s ->
  parses T (rd_fold (length xs) step s) (concat (map put xs)) (foldl f s xs).
Proof.
  revert s. induction xs as [|x xs IH]; intros s; cbn [steps_parse rd_fold length map concat foldl].
  - intros _. apply parses_ret.
  - intros [Hx Hxs]. eapply parses_bind; [exact Hx|]. by apply IH.
Qed.

(** Whole buffers: a decoder whose body meets the contract for the encoding [l]
    accepts [l], rejects its strict prefixes with an error in [T] and its
    extensions with the garbage error. *)
Section RunDecoder.
Context {A : Type} {T : Error -> Prop} {p : Parser Error A} {g : Error}
  {l : list byte} {v : A}.
Context (Hparses : parses T p l v).

Lemma run_decoder_ok : run_decoder p g l = Ok v.
Proof using Hparses.
  destruct Hparses as [Hp _]. unfold run_decoder.
  destruct (Hp (reader l) []) as (r & Hr & H).
  { rewrite app_nil_r. apply at_rest_reader. }
  by rewrite Hr, (rd_done_spec _ _ H).
Qed.

Lemma run_decoder_truncated a e :
  l = a ++ e -> e <> [] -> exists x, run_decoder p g a = Err x /\ T x.
Proof using Hparses.
  intros Hl He. destruct Hparses as [_ Hpt]. unfold run_decoder.
  destruct (Hpt _ _ _ (at_rest_reader a) Hl He) as (y & Hy & HT). rewrite Hy. eauto.
Qed.

Lemma run_decoder_garbage e : e <> [] -> run_decoder p g (l ++ e) = Err g.
Proof using Hparses.
  intros He. destruct Hparses as [Hp _]. unfold run_decoder.
  destruct (Hp (reader (l ++ e)) e (at_rest_reader _)) as (r & Hr & H).
  rewrite Hr, (rd_done_spec _ _ H). by destruct e.
Qed.

End RunDecoder.

(* ------------------------------------------------------------------ *)
(** ** Lemmas: primitive formats *)

Lemma parses_fixed (T : unit -> Prop) n f l v :
  T tt -> length l = n ->
  (forall r post, at_rest r (l ++ post) -> f r = v) ->
  parses T (rd_fixed n f) l v.
Proof.
  intros HT Hn Hf. unfold rd_fixed. split.
  - intros r post H. pose proof (at_rest_size _ _ H) as Hs.
    rewrite length_app in Hs.
    destruct (Z.of_nat (rd_pos r + n) >? rd_size r) eqn:E; zbool; [lia|].
    rewrite (Hf _ _ H). eexists. split; [reflexivity|]. subst n. by apply at_rest_advance.
  - intros r a e H Hl He. pose proof (at_rest_size _ _ H) as Hs.
    apply (f_equal length) in Hl. rewrite length_app in Hl.
    assert (length e <> 0%nat) by (destruct e; cbn; congruence).
    destruct (Z.of_nat (rd_pos r + n) >? rd_size r) eqn:E; zbool; [eauto|lia].
Qed.

#[export] Instance wire_u8 : Wire rd_u8 be8 is_u8.
Proof.
  intros v Hv. apply parses_fixed; [exact I | reflexivity|].
  intros r post H. rewrite (byte_at_rest _ _ _ H). cbn.
  rewrite byte_to_of_Z. by apply Z.mod_small.
Qed.

(** The leading digit of a number needs no reduction. *)
Lemma top_digit v n : 0 <= n -> is_u (n + 8) v -> v / 2 ^ n mod 256 = v / 2 ^ n.
Proof.
  unfold is_u. rewrite Z.add_comm. intros Hn Hv. apply Z.mod_small. split.
  - apply Z.div_pos; lia.
  - apply Z.div_lt_upper_bound; [lia|]. rewrite Z.pow_add_r in Hv by lia. lia.
Qed.

Lemma be_digit v n : 0 <= n -> 0 <= v / 2 ^ n mod 256 < 256.
Proof. intros _. apply Z.mod_pos_bound. lia. Qed.

(** One more digit appended to the leading digits of a number. *)
Lemma lor_digit a v n :
  0 <= n -> a = v / 2 ^ (n + 8) -> Z.lor (Z.shiftl a 8) (v / 2 ^ n mod 256) = v / 2 ^ n.
Proof.
  intros Hn ->. rewrite lor_shiftl_add by (unfold is_u; try apply Z.mod_pos_bound; lia).
  by apply div_pow2_step.
Qed.

#[export] Instance wire_u16 : Wire rd_u16 be16 is_u16.
Proof.
  intros v Hv. apply parses_fixed; [exact I | reflexivity|].
  intros r post H. rewrite !(byte_at_rest _ _ _ H). cbn [nth app be16].
  rewrite !be_byte_Z by lia. rewrite (top_digit v 8) by (lia || exact Hv).
  rewrite (lor_digit _ v 0) by (reflexivity || lia). rewrite Z.div_1_r. by apply wrap_small.
Qed.

#[export] Instance wire_u32 : Wire rd_u32 be32 is_u32.
Proof.
  intros v Hv. apply parses_fixed; [exact I | reflexivity|].
  intros r post H. rewrite !(byte_at_rest _ _ _ H). cbn [nth app be32].
  rewrite !be_byte_Z by lia. rewrite (top_digit v 24) by (lia || exact Hv).
  transitivity (Z.lor (Z.shiftl (Z.lor (Z.shiftl (Z.lor (Z.shiftl (v / 2 ^ 24) 8)
    (v / 2 ^ 16 mod 256)) 8) (v / 2 ^ 8 mod 256)) 8) (v / 2 ^ 0 mod 256)).
  { rewrite !Z.shiftl_lor, !Z.shiftl_shiftl by lia. reflexivity. }
  rewrite (lor_digit _ v 16), (lor_digit _ v 8), (lor_digit _ v 0) by (reflexivity || lia).
  apply Z.div_1_r.
Qed.

Lemma be64_step v m n :
  is_u64 v -> 0 <= n -> m = n + 8 ->
  Z.lor (wrap 64 (Z.shiftl (v / 2 ^ m) 8)) (v / 2 ^ n mod 256) = v / 2 ^ n.
Proof.
  intros Hv Hn ->. unfold is_u in Hv. rewrite wrap_small; [by apply lor_digit|].
  rewrite Z.shiftl_mul_pow2 by lia. unfold is_u.
  pose proof (div_pow2_step v n Hn). pose proof (be_digit v n Hn).
  assert (0 <= v / 2 ^ (n + 8)) by (apply Z.div_pos; lia).
  assert (v / 2 ^ n <= v) by (apply Z.div_le_upper_bound; nia). lia.
Qed.

#[export] Instance wire_u64 : Wire rd_u64 be64 is_u64.
Proof.
  intros v Hv. apply parses_fixed; [exact I | reflexivity|].
  intros r post H. cbn [foldl seq]. rewrite !(byte_at_rest _ _ _ H).
  cbn [nth app be64 map]. rewrite !be_byte_Z by lia.
  replace (Z.lor (wrap 64 (Z.shiftl 0 8)) (v / 2 ^ 56 mod 256)) with (v / 2 ^ 56).
  2:{ change (wrap 64 (Z.shiftl 0 8)) with 0. rewrite Z.lor_0_l.
      symmetry. apply top_digit; [lia | exact Hv]. }
  rewrite (be64_step v 56 48), (be64_step v 48 40), (be64_step v 40 32), (be64_step v 32 24),
    (be64_step v 24 16), (be64_step v 16 8), (be64_step v 8 0) by (assumption || lia).
  apply Z.div_1_r.
Qed.

#[export] Instance wire_i64 : Wire rd_i64 be64s is_i64.
Proof.
  intros v Hv. rewrite <- (to_signed_wrap 64 v) at 2 by (lia || assumption).
  unfold rd_i64. apply parses_map. apply (wire_u64 (wrap 64 v)). apply wrap_range. lia.
Qed.

#[export] Instance wire_f64 : Wire rd_f64 be64 is_u64 := wire_u64.

#[export] Instance wire_bool : Wire rd_bool enc_bool (fun _ => True).
Proof.
  intros v _. unfold rd_bool, enc_bool.
  replace v with (negb ((if v then 1 else 0) =? 0)) at 2 by (by destruct v).
  apply (parses_map _ _ (fun b => negb (b =? 0))). apply wire_u8. destruct v; unfold is_u; lia.
Qed.

(** Every sequence of bytes of the right length is the encoding of a value. *)
Lemma be_byte_intro v k b : 0 <= k -> v / 2 ^ k mod 256 = byte_to_Z b -> be_byte v k = b.
Proof. intros Hk H. apply byte_to_Z_inj. by rewrite be_byte_Z. Qed.

Lemma be8_surj l : length l = 1%nat -> exists v, is_u8 v /\ l = be8 v.
Proof.
  destruct l as [|b [|? ?]]; try discriminate. intros _. exists (byte_to_Z b).
  split; [apply byte_to_Z_range|]. unfold be8. by rewrite byte_of_to_Z.
Qed.

Lemma be16_surj l : length l = 2%nat -> exists v, is_u16 v /\ l = be16 v.
Proof.
  destruct l as [|a [|b [|? ?]]]; try discriminate. intros _.
  pose proof (byte_to_Z_range a). pose proof (byte_to_Z_range b).
  exists (byte_to_Z a * 256 + byte_to_Z b). split; [unfold is_u; lia|]. unfold be16.
  by rewrite (be_byte_intro _ 8 a), (be_byte_intro _ 0 b) by (pow_consts; Z.to_euclidean_division_equations; lia).
Qed.

Lemma be32_surj l : length l = 4%nat -> exists v, is_u32 v /\ l = be32 v.
Proof.
  destruct l as [|a [|b [|c [|d [|? ?]]]]]; try discriminate. intros _.
  pose proof (byte_to_Z_range a). pose proof (byte_to_Z_range b).
  pose proof (byte_to_Z_range c). pose proof (byte_to_Z_range d).
  exists (byte_to_Z a * 2 ^ 24 + byte_to_Z b * 2 ^ 16 + byte_to_Z c * 2 ^ 8 + byte_to_Z d).
  split; [unfold is_u; lia|]. unfold be32.
  rewrite (be_byte_intro _ 24 a), (be_byte_intro _ 16 b), (be_byte_intro _ 8 c),
    (be_byte_intro _ 0 d) by (pow_consts; Z.to_euclidean_division_equations; lia). reflexivity.
Qed.

Lemma be64_surj l : length l = 8%nat -> exists v, is_u64 v /\ l = be64 v.
Proof.
  intros Hl. rewrite <- (take_drop 4 l).
  destruct (be32_surj (take 4 l)) as (h & Hh & ->); [rewrite length_take; lia|].
  destruct (be32_surj (drop 4 l)) as (w & Hw & ->); [rewrite length_drop; lia|].
  exists (h * 2 ^ 32 + w). unfold is_u in *. split; [lia|]. unfold be64, be32. cbn [map app].
  set (v := h * 2 ^ 32 + w).
  rewrite (be_byte_intro v 56 (be_byte h 24)), (be_byte_intro v 48 (be_byte h 16)),
    (be_byte_intro v 40 (be_byte h 8)), (be_byte_intro v 32 (be_byte h 0)),
    (be_byte_intro v 24 (be_byte w 24)), (be_byte_intro v 16 (be_byte w 16)),
    (be_byte_intro v 8 (be_byte w 8)), (be_byte_intro v 0 (be_byte w 0));
    [reflexivity|try lia; rewrite be_byte_Z by lia; subst v; revert Hh Hw; pow_consts;
     intros; Z.to_euclidean_division_equations; lia..].
Qed.

Lemma be8_length v : length (be8 v) = 1%nat. Proof. reflexivity. Qed.
Lemma be16_length v : length (be16 v) = 2%nat. Proof. reflexivity. Qed.
Lemma be32_length v : length (be32 v) = 4%nat. Proof. reflexivity. Qed.
Lemma be64_length v : length (be64 v) = 8%nat. Proof. reflexivity. Qed.

(** A reader whose format law holds inverts the encoding, so the encoding is
    injective. *)
Lemma wire_inj {A} (p : Parser unit A) put ok `{!Wire p put ok} v1 v2 :
  ok v1 -> ok v2 -> put v1 = put v2 -> v1 = v2.
Proof.
  intros H1 H2 Heq.
  destruct (proj1 (wire_parses v1 H1) (reader (put v1)) []) as (r1 & E1 & _).
  { rewrite app_nil_r. apply at_rest_reader. }
  destruct (proj1 (wire_parses v2 H2) (reader (put v2)) []) as (r2 & E2 & _).
  { rewrite app_nil_r. apply at_rest_reader. }
  rewrite Heq in E1. congruence.
Qed.

Lemma parses_span (T : Error -> Prop) e (b : list byte) :
  T e -> parses T (rd_span (Z.of_nat (length b)) e) b b.
Proof.
  intros HT. unfold rd_span, rd_raw_unchecked. split.
  - intros r post H. pose proof (at_rest_size _ _ H) as Hs. rewrite length_app in Hs.
    destruct (Z.of_nat (rd_pos r) + Z.of_nat (length b) >? rd_size r) eqn:E; zbool; [lia|].
    rewrite Nat2Z.id. destruct H as [Hle Hd]. rewrite Hd, take_app_length.
    eexists. split; [reflexivity|]. apply at_rest_advance. by split.
  - intros r a e' H Hl He. pose proof (at_rest_size _ _ H) as Hs.
    apply (f_equal length) in Hl. rewrite length_app in Hl.
    assert (length e' <> 0%nat) by (destruct e'; cbn; congruence).
    destruct (Z.of_nat (rd_pos r) + Z.of_nat (length b) >? rd_size r) eqn:E; zbool; [eauto|lia].
Qed.

Lemma parses_raw (b : list byte) : parses any_error (rd_raw (Z.of_nat (length b))) b b.
Proof. by apply parses_span. Qed.

#[export] Instance wire_bytes max_len :
  Wire (rd_bytes max_len) enc_bytes
    (fun b => Z.of_nat (length b) <= max_len /\ is_u32 (Z.of_nat (length b))).
Proof.
  intros b [Hmax Hu]. unfold rd_bytes, enc_bytes. rewrite (wrap_small _ _ Hu).
  eapply parses_bind; [apply parses_or_fail; [apply (wire_u32 _ Hu)|exact I]|].
  rewrite <- (app_nil_l b) at 2. eapply parses_bind; [|by apply parses_span].
  apply parses_ensure. apply negb_true_iff. rewrite Z.gtb_ltb. apply Z.ltb_ge. exact Hmax.
Qed.

Lemma str_len_length s : str_len s = Z.of_nat (String.length s).
Proof.
  unfold str_len. induction s as [|c s IH]; [done|].
  change (str_bytes (String c s)) with (Ascii.byte_of_ascii c :: str_bytes s).
  cbn [List.length String.length]. rewrite !Nat2Z.inj_succ. by f_equal.
Qed.

Lemma str_len_app s t : str_len (s +:+ t) = str_len s + str_len t.
Proof. rewrite !str_len_length, string_length_app. lia. Qed.

Lemma fits_app m n s t : str_fits m s -> str_fits n t -> str_fits (m + n) (s +:+ t).
Proof. unfold str_fits. rewrite str_len_app. lia. Qed.

Lemma fits_le m n s : str_fits m s -> m <= n -> str_fits n s.
Proof. unfold str_fits. lia. Qed.

Lemma to_dec_fits n : str_fits 20 (to_dec n).
Proof. unfold str_fits. rewrite str_len_length. pose proof (to_dec_length n). lia. Qed.

Lemma to_dec_signed_fits n : str_fits 21 (to_dec_signed n).
Proof. unfold str_fits. rewrite str_len_length. pose proof (to_dec_signed_length n). lia. Qed.

Lemma to_hex_fits w n : (w <= 8)%nat -> str_fits 8 (to_hex w n).
Proof. intros Hw. unfold str_fits. rewrite str_len_length. pose proof (to_hex_length w n Hw). lia. Qed.

Lemma clamp_fits max_len s : str_fits max_len s -> clamp_bytes max_len s = str_bytes s.
Proof.
  unfold str_fits, str_len, clamp_bytes. intros H.
  destruct (_ >? _) eqn:E; [zbool; lia|reflexivity].
Qed.

#[export] Instance wire_string max_len :
  Wire (rd_string max_len) (enc_string max_len) (fun s => str_fits max_len s /\ max_len < 2 ^ 32).
Proof.
  intros s [Hfit Hmax]. unfold rd_string, enc_string. rewrite (clamp_fits _ _ Hfit).
  rewrite <- (String.string_of_list_byte_of_string s) at 2.
  apply (parses_map _ _ (fun b => bytes_str b)). unfold str_fits, str_len in Hfit.
  apply parses_or_fail; [|exact I]. apply (wire_bytes max_len). unfold is_u. split; lia.
Qed.

(** A list whose items have a wire format, preceded by its 32-bit count. *)
Lemma parses_times_wire {E A} (T : E -> Prop) (p : Parser E A) put ok `{!Wire p put ok}
    (xs : list A) :
  (forall e, T e) -> Forall ok xs ->
  parses T (rd_times (length xs) p) (concat (map put xs)) xs.
Proof.
  intros HT H. apply parses_times. eapply Forall_impl; [exact H|].
  intros x Hx. eapply parses_wire; eauto.
Qed.

(* ------------------------------------------------------------------ *)
(** ** Lemmas: writers *)

Lemma w_u8_app v w : w_u8 v w = w ++ be8 v. Proof. reflexivity. Qed.
Lemma w_u16_app v w : w_u16 v w = w ++ be16 v. Proof. reflexivity. Qed.
Lemma w_u32_app v w : w_u32 v w = w ++ be32 v. Proof. reflexivity. Qed.
Lemma w_u64_app v w : w_u64 v w = w ++ be64 v. Proof. reflexivity. Qed.
Lemma w_i64_app v w : w_i64 v w = w ++ be64s v. Proof. reflexivity. Qed.
Lemma w_f64_app v w : w_f64 v w = w ++ be64 v. Proof. reflexivity. Qed.
Lemma w_bool_app b w : w_bool b w = w ++ enc_bool b. Proof. reflexivity. Qed.
Lemma w_raw_app b w : w_raw_bytes b w = w ++ b. Proof. reflexivity. Qed.

Lemma w_bytes_app b w : w_bytes b w = w ++ enc_bytes b.
Proof.
  unfold w_bytes, w_raw_bytes, w_u32, enc_bytes. by rewrite <- app_assoc.
Qed.

Lemma w_string_app s n w : w_string s n w = w ++ enc_string n s.
Proof. apply w_bytes_app. Qed.

Lemma w_each_app {A} (f : A -> ByteWriter -> ByteWriter) (put : A -> list byte) :
  (forall x w, f x w = w ++ put x) ->
  forall xs w, w_each f xs w = w ++ concat (map put xs).
Proof.
  intros Hf xs. unfold w_each. induction xs as [|x xs IH]; intros w; cbn.
  - by rewrite app_nil_r.
  - by rewrite IH, Hf, <- app_assoc.
Qed.

Lemma w_each_text n xs w : w_each (w_text n) xs w = w ++ concat (map (enc_string n) xs).
Proof. apply w_each_app. intros x w'. apply w_string_app. Qed.

Lemma w_each_u8 {A} (f : A -> Z) xs w :
  w_each (fun x => w_u8 (f x)) xs w = w ++ concat (map (fun x => be8 (f x)) xs).
Proof. by apply w_each_app. Qed.

(** The element count of a list short enough for its 32-bit field. *)
Lemma count32_small {A} (xs : list A) n :
  Z.of_nat (length xs) <= n -> n < 2 ^ 32 -> count32 xs = Z.of_nat (length xs).
Proof. intros H Hn. apply wrap_small. unfold is_u. lia. Qed.

Lemma count32_range {A} (xs : list A) : is_u32 (count32 xs).
Proof. apply wrap_range. lia. Qed.

(** The bound check after a count. *)
Lemma count32_bound {A} (xs : list A) n :
  Z.of_nat (length xs) <= n -> n < 2 ^ 32 -> negb (count32 xs >? n) = true.
Proof.
  intros H Hn. rewrite (count32_small xs n H Hn). apply negb_true_iff.
  rewrite Z.gtb_ltb. apply Z.ltb_ge. exact H.
Qed.

(** The items after their count. *)
Lemma parses_counted {E A} (T : E -> Prop) (p : Parser E A) (put : A -> list byte)
    (ok : A -> Prop) (xs : list A) n :
  Z.of_nat (length xs) <= n -> n < 2 ^ 32 ->
  (forall x, ok x -> parses T p (put x) x) -> Forall ok xs ->
  parses T (rd_times (Z.to_nat (count32 xs)) p) (concat (map put xs)) xs.
Proof.
  intros H Hn Hp Hall. rewrite (count32_small xs n H Hn), Nat2Z.id. apply parses_times.
  eapply Forall_impl; [exact Hall|exact Hp].
Qed.

Create Rewrite HintDb writer.
#[export] Hint Rewrite w_u8_app w_u16_app w_u32_app w_u64_app w_i64_app w_f64_app
  w_bool_app w_raw_app w_bytes_app w_string_app @w_each_text : writer.

(** Puts the output of a writer in the shape [field1 ++ (field2 ++ ... ++ [])]. *)
Ltac writer_norm :=
  autorewrite with writer; rewrite <- ?app_assoc; cbn [app].

(** A byte read is a byte. *)
Lemma rd_u8_range r v r' : rd_u8 r = POk v r' -> is_u8 v.
Proof.
  unfold rd_u8, rd_fixed. case_branch; [discriminate|]. intros [= <- _]. apply byte_to_Z_range.
Qed.

Lemma enc_bytes_length b : length (enc_bytes b) = (4 + length b)%nat.
Proof. unfold enc_bytes. by rewrite length_app, be32_length. Qed.
Lemma enc_string_length n s : str_fits n s -> length (enc_string n s) = (4 + length (str_bytes s))%nat.
Proof. intros H. unfold enc_string. by rewrite enc_bytes_length, clamp_fits. Qed.
Lemma enc_bool_length b : length (enc_bool b) = 1%nat.
Proof. reflexivity. Qed.

Global Opaque rd_u8 rd_u16 rd_u32 rd_u64 rd_i64 rd_f64 rd_bool rd_bytes rd_string rd_raw.
Global Opaque be8 be16 be32 be64 be64s enc_bool enc_bytes enc_string.

(** The reader's bound and the writer's may differ: what counts is that the
    string fits both. *)
Lemma parses_string n n' s :
  str_fits n s -> n < 2 ^ 32 -> str_fits n' s ->
  parses any_error (rd_string n) (enc_string n' s) s.
Proof.
  intros Hn Hmax Hn'.
  assert (enc_string n' s = enc_string n s) as ->.
  { Transparent enc_string. unfold enc_string. by rewrite !clamp_fits. }
  apply wire_parses. auto.
Qed.

Lemma parses_bytes n b :
  Z.of_nat (length b) <= n -> n < 2 ^ 32 -> parses any_error (rd_bytes n) (enc_bytes b) b.
Proof. intros Hb Hn. apply wire_parses. unfold is_u. lia. Qed.

Lemma parses_ret_eq {E A} (T : E -> Prop) (v v' : A) : v' = v -> parses T (mret v') [] v.
Proof. intros ->. apply parses_ret. Qed.

Lemma str_fits_le n n' s : str_fits n s -> n <= n' -> str_fits n' s.
Proof. unfold str_fits. lia. Qed.

Global Opaque enc_string.

#[export] Hint Resolve parses_ret : codec.
#[export] Hint Extern 1 (parses any_error (rd_string _) (enc_string _ _) _) =>
  apply parses_string; [eassumption | reflexivity | eapply str_fits_le; [eassumption | cbv; discriminate]]
  : codec.
#[export] Hint Extern 1 (parses any_error (rd_bytes _) _ _) =>
  apply parses_bytes; [eassumption | reflexivity] : codec.
#[export] Hint Extern 2 (parses any_error _ _ _) =>
  eapply wire_parses; cbn beta; try eassumption; done : codec.
#[export] Hint Resolve count32_range : codec.
#[export] Hint Extern 1 (parses any_error rd_u32 (be32 (count32 _)) _) =>
  apply wire_u32, count32_range : codec.

(** Discharges what a single read owes: its bytes, or the truth of its error. *)
Ltac parses_read :=
  apply parses_or_fail; [solve [eauto with codec] | solve [reflexivity | auto]].

(** One step of a decoder against the head of an encoding: [ensure] reads
    nothing, every other read consumes [put v]. *)
Ltac parses_field :=
  lazymatch goal with
  | |- parses _ (mbind _ (ensure _ _)) ?l _ =>
      apply (parses_bind _ _ _ [] l tt _);
      [apply parses_ensure; first [assumption | eapply count32_bound; [eassumption | reflexivity]
                                   | idtac] | cbn beta]
  | |- parses _ (mbind _ (rd_times _ _)) (_ ++ _) _ =>
      eapply parses_bind;
      [eapply parses_counted; [eassumption | reflexivity | | eassumption];
       first [solve [intros; parses_read] | solve [eauto with codec] | idtac] | cbn beta]
  | |- parses _ (mbind _ (or_fail _ _)) (_ ++ _) _ =>
      eapply parses_bind; [parses_read|cbn beta]
  | |- parses _ (mbind _ _) (_ ++ _) _ =>
      eapply parses_bind; [solve [eauto with codec]|cbn beta]
  | |- parses _ (mbind _ (or_fail _ _)) ?l _ =>
      rewrite <- (app_nil_r l);
      eapply parses_bind; [parses_read|cbn beta]
  end.

(** The whole decoder: the fields in order, then the rebuilt record, left as an
    equation with its identifiers and generations rewritten away. *)
Ltac parses_fields :=
  repeat (parses_field; try assumption);
  try (apply parses_ret_eq; rewrite ?id_eta, ?gen_eta).
