(* ===== verification/Crc.v ===== *)
(** * CRC-32: error detection

    The CRC step is a bijection of the 32-bit state and linear over [xor], so
    the checksum detects every error confined to four consecutive bytes, in
    particular every change of one byte. The framing and persistence theorems
    rest on these lemmas. *)

From S2P Require Import Prelude Core Codec.

(** The four bytes of a window as one little-endian number. *)
Fixpoint le_value (l : list byte) : Z :=
  match l with [] => 0 | b :: l' => Z.lxor (byte_to_Z b) (Z.shiftl (le_value l') 8) end.

(* ------------------------------------------------------------------ *)
(** ** Ranges *)

Lemma lxor_range w a b : 0 <= w -> is_u w a -> is_u w b -> is_u w (Z.lxor a b).
Proof.
  intros Hw Ha Hb. replace (Z.lxor a b) with (Z.lxor a b mod 2 ^ w).
  { apply Z.mod_pos_bound. lia. }
  apply Z.bits_inj'. intros i Hi. destruct (Z_lt_le_dec i w).
  - by rewrite Z.mod_pow2_bits_low by lia.
  - rewrite Z.mod_pow2_bits_high by lia. rewrite Z.lxor_spec.
    rewrite <- (wrap_small _ _ Ha), <- (wrap_small _ _ Hb). unfold wrap.
    by rewrite !Z.mod_pow2_bits_high by lia.
Qed.

Lemma crc32_bit_range c : is_u32 c -> is_u32 (crc32_bit c).
Proof.
  intros H. apply lxor_range; [lia| |].
  - rewrite Z.shiftr_div_pow2 by lia. unfold is_u in *. split.
    + apply Z.div_pos; lia.
    + apply Z.div_lt_upper_bound; lia.
  - destruct (Z.odd c); unfold is_u, kCrc32Polynomial; lia.
Qed.

Lemma byte_u32 b : is_u32 (byte_to_Z b).
Proof. pose proof (byte_to_Z_range b). unfold is_u. lia. Qed.

Lemma iter_bit_range n c : is_u32 c -> is_u32 (Nat.iter n crc32_bit c).
Proof. intros H. induction n; cbn; [done | by apply crc32_bit_range]. Qed.

Lemma xor_byte_range c b : is_u32 c -> is_u32 (Z.lxor c (byte_to_Z b)).
Proof. intros H. apply lxor_range; [lia | done | apply byte_u32]. Qed.

Lemma crc32_byte_range c b : is_u32 c -> is_u32 (crc32_byte c b).
Proof. intros H. exact (iter_bit_range 8 _ (xor_byte_range c b H)). Qed.

Lemma crc32_fold_range l c : is_u32 c -> is_u32 (foldl crc32_byte c l).
Proof.
  revert c. induction l as [|b l IH]; intros c H; cbn [foldl]; [done|].
  by apply IH, crc32_byte_range.
Qed.

Lemma crc32_range data : is_u32 (crc32 data).
Proof.
  apply lxor_range; [lia | apply crc32_fold_range | ]; unfold is_u; lia.
Qed.

(* ------------------------------------------------------------------ *)
(** ** The step is injective *)

Lemma lxor_cancel_l a b c : Z.lxor a b = Z.lxor a c -> b = c.
Proof.
  intros H. apply (f_equal (Z.lxor a)) in H.
  by rewrite <- !Z.lxor_assoc, !Z.lxor_nilpotent, !Z.lxor_0_l in H.
Qed.

Lemma lxor_cancel_r a b c : Z.lxor a c = Z.lxor b c -> a = b.
Proof. rewrite !(Z.lxor_comm _ c). apply lxor_cancel_l. Qed.

(** The low bit shifted out is the top bit of the next state. *)
Lemma crc32_bit_top c : is_u32 c -> Z.testbit (crc32_bit c) 31 = Z.odd c.
Proof.
  intros H. unfold crc32_bit. rewrite Z.lxor_spec, Z.shiftr_spec by lia.
  rewrite <- (wrap_small _ _ H) at 1. unfold wrap.
  rewrite Z.mod_pow2_bits_high by lia. by destruct (Z.odd c).
Qed.

Lemma crc32_bit_inj c d :
  is_u32 c -> is_u32 d -> crc32_bit c = crc32_bit d -> c = d.
Proof.
  intros Hc Hd H. pose proof (crc32_bit_top c Hc) as Ht.
  rewrite H, crc32_bit_top in Ht by done.
  unfold crc32_bit in H. rewrite Ht in H. apply lxor_cancel_r in H.
  rewrite (Z.div2_odd c), (Z.div2_odd d), !Z.div2_spec. congruence.
Qed.

Lemma iter_bit_inj n c d :
  is_u32 c -> is_u32 d -> Nat.iter n crc32_bit c = Nat.iter n crc32_bit d -> c = d.
Proof.
  intros Hc Hd. induction n; cbn; [done|]. intros H.
  apply IHn, crc32_bit_inj; [..|done]; by apply iter_bit_range.
Qed.

Lemma crc32_byte_inj c d b :
  is_u32 c -> is_u32 d -> crc32_byte c b = crc32_byte d b -> c = d.
Proof.
  intros Hc Hd. unfold crc32_byte. generalize 8%nat as n. intros n H.
  apply iter_bit_inj in H; auto using xor_byte_range. by apply lxor_cancel_r in H.
Qed.

Lemma crc32_fold_inj l c d :
  is_u32 c -> is_u32 d -> foldl crc32_byte c l = foldl crc32_byte d l -> c = d.
Proof.
  revert c d. induction l as [|b l IH]; intros c d Hc Hd H; cbn [foldl] in H; [done|].
  apply (crc32_byte_inj c d b Hc Hd), IH; auto using crc32_byte_range.
Qed.

(* ------------------------------------------------------------------ *)
(** ** The step is linear *)

Lemma crc32_bit_linear a b : crc32_bit (Z.lxor a b) = Z.lxor (crc32_bit a) (crc32_bit b).
Proof.
  unfold crc32_bit. rewrite Z.shiftr_lxor.
  assert (Z.odd (Z.lxor a b) = xorb (Z.odd a) (Z.odd b)) as ->.
  { rewrite <- !Z.bit0_odd. apply Z.lxor_spec. }
  rewrite !(Z.lxor_assoc (Z.shiftr a 1)). f_equal.
  rewrite (Z.lxor_comm _ (Z.lxor (Z.shiftr b 1) _)), !Z.lxor_assoc. f_equal.
  destruct (Z.odd a), (Z.odd b); reflexivity.
Qed.

Lemma iter_bit_linear n a b :
  Nat.iter n crc32_bit (Z.lxor a b) =
    Z.lxor (Nat.iter n crc32_bit a) (Nat.iter n crc32_bit b).
Proof. induction n; [done|]. by rewrite !Nat.iter_succ, IHn, crc32_bit_linear. Qed.

Lemma crc32_bit_even x : crc32_bit (Z.shiftl x 1) = x.
Proof.
  unfold crc32_bit.
  assert (Z.odd (Z.shiftl x 1) = false) as ->.
  { rewrite <- Z.bit0_odd. by rewrite Z.shiftl_spec_low by lia. }
  rewrite Z.lxor_0_r, Z.shiftr_shiftl_l by lia. apply Z.shiftl_0_r.
Qed.

Lemma iter_bit_shift n x : Nat.iter n crc32_bit (Z.shiftl x (Z.of_nat n)) = x.
Proof.
  revert x. induction n as [|n IH]; intros x; [apply Z.shiftl_0_r|].
  rewrite Nat.iter_succ_r, Nat2Z.inj_succ, <- Z.add_1_r.
  rewrite <- Z.shiftl_shiftl by lia. rewrite crc32_bit_even. apply IH.
Qed.

(** A window of bytes enters the state as one number. *)
Lemma crc32_window l s :
  foldl crc32_byte s l = Nat.iter (8 * length l) crc32_bit (Z.lxor s (le_value l)).
Proof.
  revert s. induction l as [|b l IH]; intros s; cbn [foldl le_value length].
  - by rewrite Z.lxor_0_r.
  - rewrite IH. replace (8 * S (length l))%nat with (8 * length l + 8)%nat by lia.
    rewrite Nat.iter_add. f_equal. unfold crc32_byte.
    by rewrite <- Z.lxor_assoc, (iter_bit_linear 8 (Z.lxor s _)), (iter_bit_shift 8).
Qed.

Lemma le_value_cons b l : le_value (b :: l) = byte_to_Z b + 256 * le_value l.
Proof.
  cbn [le_value]. pose proof (byte_to_Z_range b).
  rewrite Z.lxor_comm, <- Z.add_nocarry_lxor.
  - rewrite Z.shiftl_mul_pow2 by lia. change (2 ^ 8) with 256. lia.
  - apply Z.bits_inj'. intros i Hi. rewrite Z.land_spec, Z.bits_0.
    destruct (Z_lt_le_dec i 8).
    + by rewrite Z.shiftl_spec_low by lia.
    + rewrite <- (Z.mod_small (byte_to_Z b) (2 ^ 8)), Z.mod_pow2_bits_high by lia.
      apply andb_false_r.
Qed.

Lemma le_value_range l : is_u (8 * Z.of_nat (length l)) (le_value l).
Proof.
  induction l as [|b l IH]; [unfold is_u; cbn; lia|].
  rewrite le_value_cons. pose proof (byte_to_Z_range b). unfold is_u in *.
  cbn [length]. rewrite Nat2Z.inj_succ, Z.mul_succ_r, Z.pow_add_r by lia.
  change (2 ^ 8) with 256. lia.
Qed.

Lemma le_value_inj l1 l2 : length l1 = length l2 -> le_value l1 = le_value l2 -> l1 = l2.
Proof.
  revert l2. induction l1 as [|b1 l1 IH]; intros [|b2 l2] Hlen H; cbn in Hlen; try lia; [done|].
  rewrite !le_value_cons in H.
  pose proof (byte_to_Z_range b1). pose proof (byte_to_Z_range b2).
  f_equal; [apply byte_to_Z_inj; lia | apply IH; lia].
Qed.

(* ------------------------------------------------------------------ *)
(** ** Detection *)

(** Two messages that differ only inside a window of at most four bytes have
    different checksums. *)
Lemma crc32_burst pre mid1 mid2 post :
  length mid1 = length mid2 -> (length mid1 <= 4)%nat ->
  crc32 (pre ++ mid1 ++ post) = crc32 (pre ++ mid2 ++ post) -> mid1 = mid2.
Proof.
  intros Hlen H4 H. unfold crc32 in H. apply lxor_cancel_r in H.
  rewrite !foldl_app in H.
  assert (Hs : is_u32 (foldl crc32_byte 0xFFFFFFFF pre)).
  { apply crc32_fold_range. unfold is_u. lia. }
  apply crc32_fold_inj in H; try by apply crc32_fold_range.
  revert Hs H. generalize (foldl crc32_byte 0xFFFFFFFF pre). intros s Hs H.
  rewrite !crc32_window, Hlen in H.
  assert (Hw : forall l, (length l <= 4)%nat -> is_u32 (le_value l)).
  { intros l Hl. pose proof (le_value_range l). unfold is_u in *.
    assert (2 ^ (8 * Z.of_nat (length l)) <= 2 ^ 32) by (apply Z.pow_le_mono_r; lia). lia. }
  apply iter_bit_inj in H; try (apply lxor_range; [lia | done | apply Hw; lia]).
  apply lxor_cancel_l in H. by apply le_value_inj.
Qed.

Lemma crc32_byte_change pre x y post :
  crc32 (pre ++ x :: post) = crc32 (pre ++ y :: post) -> x = y.
Proof.
  intros H. assert ([x] = [y]) as [= E]; [|exact E].
  eapply (crc32_burst pre [x] [y] post); [reflexivity | cbn; lia | exact H].
Qed.

(** The check value of the CRC-32 catalogue: the checksum of "123456789". *)
Example crc32_check_value : crc32 (str_bytes "123456789") = 0xCBF43926.
Proof. vm_compute. reflexivity. Qed.

(** A checksummed block [body ++ be32 (crc32 body)]: two blocks of the same
    length that agree everywhere except possibly in one byte are equal. *)
Definition checksummed (body : list byte) : list byte := body ++ be32 (crc32 body).

Lemma checksummed_change body body' pre x y post :
  length body = length body' ->
  checksummed body = pre ++ x :: post -> checksummed body' = pre ++ y :: post -> x = y.
Proof.
  unfold checksummed. intros Hlen Hb Hb'.
  destruct (app_split_prefix _ _ _ _ Hb) as [(e & -> & He & Htail)|(p & -> & Htail)].
  - destruct e as [|z e]; [done|]. cbn in Htail. injection Htail as <- ->.
    destruct (app_split_prefix _ _ _ _ Hb') as [(e' & -> & He' & Htail')|(p' & -> & _)].
    + destruct e' as [|z' e']; [done|]. cbn in Htail'. injection Htail' as <- Htail'.
      rewrite !length_app in Hlen. cbn in Hlen.
      apply app_inj_1 in Htail' as [-> Hcrc]; [|lia].
      apply (wire_inj rd_u32 be32 is_u32) in Hcrc; try apply crc32_range.
      symmetry in Hcrc. by apply crc32_byte_change in Hcrc.
    + rewrite !length_app in Hlen. cbn in Hlen. lia.
  - rewrite <- app_assoc in Hb'. apply app_inj_1 in Hb' as [<- Hb']; [|done].
    rewrite Hb' in Htail. apply app_inv_head in Htail. congruence.
Qed.

(** Comparing the stored checksum as a number or as its four bytes is the same. *)
Lemma crc_compare crc l :
  is_u32 crc -> length l = 4%nat ->
  exists stored r, rd_u32 (reader l) = POk stored r /\
    (crc =? stored) = bool_decide (be32 crc = l).
Proof.
  intros Hc Hl. destruct (be32_surj l Hl) as (v & Hv & ->).
  destruct (proj1 (wire_u32 v Hv) (reader (be32 v)) []) as (r & Hr & _).
  { rewrite app_nil_r. apply at_rest_reader. }
  exists v, r. split; [exact Hr|]. destruct (Z.eqb_spec crc v) as [->|Hne].
  - by rewrite bool_decide_eq_true_2.
  - rewrite bool_decide_eq_false_2; [reflexivity|]. intros E.
    by apply Hne, (wire_inj rd_u32 be32 is_u32).
Qed.
