(* ===== verification/Message.v ===== *)
(** * Control-protocol messages ([protocol/message.hpp], [protocol/codec.hpp])

    The typed message envelope and its binary codec. [decode_message] is the
    source's function field by field; its round trip, its rejection of
    truncated input and of trailing bytes are one application of the parsing
    contract of [Codec]. *)

From S2P Require Import Prelude Core Codec.

Module MessageType.

Inductive MessageType :=
  | HELLO | REGISTER | REGISTER_ACK | HEARTBEAT | DEVICE_SNAPSHOT
  | HEALTH_REPORT | CAPABILITY_REPORT | DRAIN | UNDRAIN | QUARANTINE
  | CLEAR_QUARANTINE | SNAPSHOT_REQUEST | SNAPSHOT_RESPONSE | ACK | ERROR
  | EPOCH_ROLL | SAVE
  | Raw (b : Z).

Definition to_byte (t : MessageType) : Z :=
  match t with
  | HELLO => 1 | REGISTER => 2 | REGISTER_ACK => 3 | HEARTBEAT => 4
  | DEVICE_SNAPSHOT => 5 | HEALTH_REPORT => 6 | CAPABILITY_REPORT => 7
  | DRAIN => 8 | UNDRAIN => 9 | QUARANTINE => 10 | CLEAR_QUARANTINE => 11
  | SNAPSHOT_REQUEST => 12 | SNAPSHOT_RESPONSE => 13 | ACK => 14 | ERROR => 15
  | EPOCH_ROLL => 16 | SAVE => 17
  | Raw b => b
  end.

Definition of_byte (b : Z) : MessageType :=
  match b with
  | 1 => HELLO | 2 => REGISTER | 3 => REGISTER_ACK | 4 => HEARTBEAT
  | 5 => DEVICE_SNAPSHOT | 6 => HEALTH_REPORT | 7 => CAPABILITY_REPORT
  | 8 => DRAIN | 9 => UNDRAIN | 10 => QUARANTINE | 11 => CLEAR_QUARANTINE
  | 12 => SNAPSHOT_REQUEST | 13 => SNAPSHOT_RESPONSE | 14 => ACK | 15 => ERROR
  | 16 => EPOCH_ROLL | 17 => SAVE
  | _ => Raw b
  end.

Definition to_string (t : MessageType) : string :=
  match t with
  | HELLO => "HELLO" | REGISTER => "REGISTER" | REGISTER_ACK => "REGISTER_ACK"
  | HEARTBEAT => "HEARTBEAT" | DEVICE_SNAPSHOT => "DEVICE_SNAPSHOT"
  | HEALTH_REPORT => "HEALTH_REPORT" | CAPABILITY_REPORT => "CAPABILITY_REPORT"
  | DRAIN => "DRAIN" | UNDRAIN => "UNDRAIN" | QUARANTINE => "QUARANTINE"
  | CLEAR_QUARANTINE => "CLEAR_QUARANTINE" | SNAPSHOT_REQUEST => "SNAPSHOT_REQUEST"
  | SNAPSHOT_RESPONSE => "SNAPSHOT_RESPONSE" | ACK => "ACK" | ERROR => "ERROR"
  | EPOCH_ROLL => "EPOCH_ROLL" | SAVE => "SAVE" | Raw _ => "UNKNOWN"
  end.

#[global] Instance eq_dec : EqDecision MessageType.
Proof. solve_decision. Defined.
#[global] Program Instance enum : Enum8 MessageType :=
  {| to_u8 := to_byte; of_u8 := of_byte |}.
Next Obligation. enum_cases. Qed.

End MessageType.

Abbreviation MessageType := MessageType.MessageType.

Definition valid_message_type (v : Z) : bool := (v >=? 1) && (v <=? 17).

Record Message := MkMessage {
  m_type : MessageType;
  m_coordinator : CoordinatorId;
  m_epoch : CoordinatorEpoch;
  m_worker_boot : WorkerBootId;
  m_worker : WorkerId;
  m_node : NodeId;
  m_agent : AgentId;
  m_reg_gen : RegistrationGeneration;
  m_obs_gen : ObservationGeneration;
  m_health_gen : HealthGeneration;
  m_device_gen : DeviceGeneration;
  m_cap_gen : CapabilityGeneration;
  m_request_id : Z;
  m_ok : bool;
  m_reason : string;
  m_payload : list byte
}.

(** The default-initialised message of a given type. *)
Definition new_message (t : MessageType) : Message :=
  MkMessage t (MkId 0) (MkGen 0) (MkId 0) (MkId 0) (MkId 0) (MkId 0) (MkGen 0) (MkGen 0)
    (MkGen 0) (MkGen 0) (MkGen 0) 0 true "" [].

Definition encode_message (m : Message) : list byte :=
  ([] : ByteWriter)
    |> w_u8 (to_u8 (m_type m))
    |> w_u64 (id_value (m_coordinator m))
    |> w_u64 (gen_value (m_epoch m))
    |> w_u64 (id_value (m_worker_boot m))
    |> w_u64 (id_value (m_worker m))
    |> w_u64 (id_value (m_node m))
    |> w_u64 (id_value (m_agent m))
    |> w_u64 (gen_value (m_reg_gen m))
    |> w_u64 (gen_value (m_obs_gen m))
    |> w_u64 (gen_value (m_health_gen m))
    |> w_u64 (gen_value (m_device_gen m))
    |> w_u64 (gen_value (m_cap_gen m))
    |> w_u64 (m_request_id m)
    |> w_bool (m_ok m)
    |> w_string (m_reason m) kMaxStringLen
    |> w_bytes (m_payload m).

(** The body of [decode_message]: every read in order, without the final
    [done] check. *)
Definition message_body : Parser Error Message :=
  ty ← rd_u8 ?? MkError Truncated "message type truncated";
  _ ← ensure (valid_message_type ty) (MkError InvalidEnum "unknown message type");
  coordinator ← rd_u64 ?? MkError Truncated "coordinator truncated";
  epoch ← rd_u64 ?? MkError Truncated "epoch truncated";
  worker_boot ← rd_u64 ?? MkError Truncated "worker_boot truncated";
  worker ← rd_u64 ?? MkError Truncated "worker truncated";
  node ← rd_u64 ?? MkError Truncated "node truncated";
  agent ← rd_u64 ?? MkError Truncated "agent truncated";
  reg_gen ← rd_u64 ?? MkError Truncated "reg_gen truncated";
  obs_gen ← rd_u64 ?? MkError Truncated "obs_gen truncated";
  health_gen ← rd_u64 ?? MkError Truncated "health_gen truncated";
  device_gen ← rd_u64 ?? MkError Truncated "device_gen truncated";
  cap_gen ← rd_u64 ?? MkError Truncated "cap_gen truncated";
  request_id ← rd_u64 ?? MkError Truncated "request_id truncated";
  ok ← rd_bool ?? MkError Truncated "ok truncated";
  reason ← rd_string 4096 ?? MkError Truncated "reason truncated";
  payload ← rd_bytes kMaxBytesLen ?? MkError Truncated "payload truncated";
  mret (MkMessage (of_u8 ty) (MkId coordinator) (MkGen epoch) (MkId worker_boot)
    (MkId worker) (MkId node) (MkId agent) (MkGen reg_gen) (MkGen obs_gen) (MkGen health_gen)
    (MkGen device_gen) (MkGen cap_gen) request_id ok reason payload).

Definition decode_message (data : list byte) : Result Message :=
  run_decoder message_body (MkError Malformed "trailing garbage after message") data.

(** What [decode_message] accepts: values in range, an enumerated type, a
    reason of at most 4096 bytes, a payload below 2 GiB. *)
Record message_wf (m : Message) : Prop := {
  mw_type : valid_message_type (to_u8 (m_type m)) = true /\ enum_wf (m_type m);
  mw_coordinator : id_wf (m_coordinator m);
  mw_epoch : gen_wf (m_epoch m);
  mw_worker_boot : id_wf (m_worker_boot m);
  mw_worker : id_wf (m_worker m);
  mw_node : id_wf (m_node m);
  mw_agent : id_wf (m_agent m);
  mw_reg_gen : gen_wf (m_reg_gen m);
  mw_obs_gen : gen_wf (m_obs_gen m);
  mw_health_gen : gen_wf (m_health_gen m);
  mw_device_gen : gen_wf (m_device_gen m);
  mw_cap_gen : gen_wf (m_cap_gen m);
  mw_request_id : is_u64 (m_request_id m);
  mw_reason : str_fits 4096 (m_reason m);
  mw_payload : Z.of_nat (length (m_payload m)) <= kMaxBytesLen
}.

(* ------------------------------------------------------------------ *)
(** ** Lemmas *)

Lemma message_parses m :
  message_wf m -> parses (code_is Truncated) message_body (encode_message m) m.
Proof.
  intros [[Hv [Hu8 Hty]]]. unfold encode_message, message_body. writer_norm.
  parses_fields. rewrite Hty. by destruct m.
Qed.

(** The fixed fields take 106 bytes. *)
Lemma encode_message_length m :
  str_fits kMaxStringLen (m_reason m) ->
  length (encode_message m) = (106 + length (str_bytes (m_reason m)) + length (m_payload m))%nat.
Proof.
  intros H. unfold encode_message. writer_norm.
  rewrite !length_app, enc_bytes_length, (enc_string_length _ _ H), enc_bool_length, !be64_length.
  rewrite be8_length. lia.
Qed.

(* ------------------------------------------------------------------ *)
(** ** Properties *)

(** Round trip of the control protocol: decoding an encoded well-formed message
    yields that message. *)
Theorem message_roundtrip m :
  message_wf m -> decode_message (encode_message m) = Ok m.
Proof. intros H. exact (run_decoder_ok (message_parses m H)). Qed.

(** Every strict prefix of an encoded message is rejected as truncated. *)
Theorem message_truncation_rejected m cut rest :
  message_wf m -> encode_message m = cut ++ rest -> rest <> [] ->
  exists e, decode_message cut = Err e /\ err_code e = Truncated.
Proof. intros H. exact (run_decoder_truncated (message_parses m H) cut rest). Qed.

(** Bytes after an encoded message are rejected as garbage. *)
Theorem message_trailing_garbage_rejected m extra :
  message_wf m -> extra <> [] ->
  decode_message (encode_message m ++ extra) =
    error_result Malformed "trailing garbage after message".
Proof. intros H. exact (run_decoder_garbage (message_parses m H) extra). Qed.

Definition sample_message : Message :=
  MkMessage MessageType.HEARTBEAT (MkId 1) (MkGen 3) (MkId 100) (MkId 10) (MkId 1) (MkId 11)
    (MkGen 2) (MkGen 7) (MkGen 1) (MkGen 4) (MkGen 0) 42 false "stale" [Byte.x01; Byte.xff].

Lemma sample_message_wf : message_wf sample_message.
Proof.
  split; try (split; [reflexivity|]); try enum_wf_solve;
    vm_compute; try (split; congruence); congruence.
Qed.

Lemma message_roundtrip_witness :
  message_wf sample_message /\ decode_message (encode_message sample_message) = Ok sample_message.
Proof. split; [apply sample_message_wf | apply message_roundtrip, sample_message_wf]. Defined.

Example message_roundtrip_computes :
  decode_message (encode_message sample_message) = Ok sample_message.
Proof. vm_compute. reflexivity. Qed.
