(* ===== verification/Framing.v ===== *)
(** * Framing ([protocol/framing.hpp])

    [encode_frame] and the incremental [FrameDecoder]. The decoder's state is
    its buffer; [feed] is the source's function, and [drain]/[stream_chunks]
    the loop its callers run around it ([while (res == FrameReady) ... res =
    dec.feed({})]), over the chunks the transport delivers. *)

From S2P Require Import Prelude Core Codec Crc Message.

Definition kFrameMagic : Z := 0x47464C41.
Definition kMaxPayloadLength : Z := 16 * 1024 * 1024.
Definition kFrameHeader : nat := 11.
Definition kFrameTrailer : nat := 4.

Record Frame := MkFrame { f_type : MessageType; f_payload : list byte }.

(** The bytes covered by the CRC. *)
Definition frame_signed_part (type : MessageType) (payload : list byte) : list byte :=
  ([] : ByteWriter)
    |> w_u32 kFrameMagic
    |> w_u16 (wrap 16 protocol_version)
    |> w_u8 (to_u8 type)
    |> w_u32 (wrap 32 (Z.of_nat (length payload)))
    |> w_raw_bytes payload.

Definition encode_frame (type : MessageType) (payload : list byte) : list byte :=
  let w := frame_signed_part type payload in
  let crc := crc32 w in
  w ++ (([] : ByteWriter) |> w_u32 crc).

Inductive FeedResult :=
  | NeedMore
  | FrameReady (f : Frame)
  | FeedError (error : string).

(** The four header reads at the start of [feed]. *)
Definition frame_header : Parser string (Z * Z * Z * Z) :=
  magic ← rd_u32 ?? "frame header truncated"%string;
  ver ← rd_u16 ?? "frame header truncated"%string;
  type ← rd_u8 ?? "frame header truncated"%string;
  payload_len ← rd_u32 ?? "frame header truncated"%string;
  mret (magic, ver, type, payload_len).

(** [feed] once the new bytes are in the buffer; the second component is the
    buffer left behind. *)
Definition scan (buf : list byte) : FeedResult * list byte :=
  if (length buf <? kFrameHeader + kFrameTrailer)%nat then (NeedMore, buf)
  else match frame_header (reader buf) with
  | PFail e => (FeedError e, buf)
  | POk (magic, ver, type, payload_len) _ =>
      if negb (magic =? kFrameMagic) then (FeedError "bad frame magic", buf)
      else if negb (ver =? protocol_version) then (FeedError "unknown protocol version", buf)
      else if negb (valid_message_type type) then
        (FeedError "invalid enum message type", buf)
      else if payload_len >? kMaxPayloadLength then (FeedError "oversized payload", buf)
      else
        let total := Z.of_nat kFrameHeader + payload_len + Z.of_nat kFrameTrailer in
        if Z.of_nat (length buf) <? total then (NeedMore, buf)
        else
          let signed := Z.to_nat (total - 4) in
          match rd_u32 (reader (take 4 (drop signed buf))) with
          | PFail _ => (FeedError "frame crc truncated", buf)
          | POk stored_crc _ =>
              let calc_crc := crc32 (take signed buf) in
              if negb (calc_crc =? stored_crc) then (FeedError "frame crc mismatch", buf)
              else
                (FrameReady (MkFrame (of_u8 type)
                   (take (Z.to_nat payload_len) (drop kFrameHeader buf))),
                 drop (Z.to_nat total) buf)
          end
  end.

Definition feed (buf data : list byte) : FeedResult * list byte := scan (buf ++ data).

(** How a run of the decoder over the available bytes ends. *)
Inductive StreamEnd :=
  | Starved                      (* NeedMore: waits for the next chunk *)
  | Broken (error : string).     (* Error: the caller drops the connection *)

(** The callers' loop: frames are taken while [feed] reports [FrameReady]. A
    frame consumes at least fifteen bytes, so the buffer's length is enough
    fuel (lemma [pump_fuel]). *)
Fixpoint pump (fuel : nat) (buf : list byte) : list Frame * StreamEnd * list byte :=
  match fuel with
  | O => ([], Starved, buf)
  | S n =>
      match scan buf with
      | (FrameReady f, buf') => let '(fs, e, b) := pump n buf' in (f :: fs, e, b)
      | (NeedMore, buf') => ([], Starved, buf')
      | (FeedError m, buf') => ([], Broken m, buf')
      end
  end.

Definition drain (buf : list byte) : list Frame * StreamEnd * list byte :=
  pump (S (length buf)) buf.

(** A connection: chunks arrive one after the other until an error. *)
Fixpoint stream_chunks (buf : list byte) (chunks : list (list byte))
  : list Frame * StreamEnd * list byte :=
  match chunks with
  | [] => ([], Starved, buf)
  | c :: cs =>
      match drain (buf ++ c) with
      | (fs, Broken m, b) => (fs, Broken m, b)
      | (fs, Starved, b) => let '(fs', e, b') := stream_chunks b cs in (fs ++ fs', e, b')
      end
  end.

(** What a caller observes of a run: the frames, then either the error or the
    bytes still buffered. *)
Definition stream_view (r : list Frame * StreamEnd * list byte)
  : list Frame * (list byte + string) :=
  match r with
  | (fs, Starved, b) => (fs, inl b)
  | (fs, Broken m, _) => (fs, inr m)
  end.

Definition frame_wf (f : Frame) : Prop :=
  enum_wf (f_type f) /\ valid_message_type (to_u8 (f_type f)) = true /\
  Z.of_nat (length (f_payload f)) <= kMaxPayloadLength.

(* ------------------------------------------------------------------ *)
(** ** Lemmas: what [scan] computes from the header fields *)

(** The header laid out as its four fields. *)
Definition header_bytes (magic ver type len : Z) : list byte :=
  be32 magic ++ be16 ver ++ be8 type ++ be32 len.

Lemma header_parses magic ver type len :
  is_u32 magic -> is_u16 ver -> is_u8 type -> is_u32 len ->
  parses (fun _ => True) frame_header (header_bytes magic ver type len) (magic, ver, type, len).
Proof.
  intros. unfold header_bytes, frame_header. rewrite <- (app_nil_r (be32 len)).
  repeat (eapply parses_bind; [apply parses_or_fail; [eauto with codec|exact I]|cbn beta]).
  apply parses_ret.
Qed.

Lemma header_length magic ver type len : length (header_bytes magic ver type len) = 11%nat.
Proof. reflexivity. Qed.

(** [scan] on a buffer whose header is known. *)
Definition scan_fields (magic ver type len : Z) (rest : list byte) : FeedResult * list byte :=
  let buf := header_bytes magic ver type len ++ rest in
  if negb (magic =? kFrameMagic) then (FeedError "bad frame magic", buf)
  else if negb (ver =? protocol_version) then (FeedError "unknown protocol version", buf)
  else if negb (valid_message_type type) then (FeedError "invalid enum message type", buf)
  else if len >? kMaxPayloadLength then (FeedError "oversized payload", buf)
  else if Z.of_nat (length rest) <? len + 4 then (NeedMore, buf)
  else
    let payload := take (Z.to_nat len) rest in
    if negb (bool_decide (be32 (crc32 (header_bytes magic ver type len ++ payload)) =
                          take 4 (drop (Z.to_nat len) rest)))
    then (FeedError "frame crc mismatch", buf)
    else (FrameReady (MkFrame (of_u8 type) payload), drop (Z.to_nat (len + 4)) rest).

Lemma header_split buf :
  (11 <= length buf)%nat ->
  exists magic ver type len rest,
    is_u32 magic /\ is_u16 ver /\ is_u8 type /\ is_u32 len /\
    buf = header_bytes magic ver type len ++ rest.
Proof.
  intros H.
  assert (Hcut : forall n (l : list byte), (n <= length l)%nat ->
    exists a b, length a = n /\ l = a ++ b /\ length b = (length l - n)%nat).
  { intros n l Hn. exists (take n l), (drop n l).
    rewrite take_drop, length_take, length_drop. repeat split; lia. }
  destruct (Hcut 4%nat buf ltac:(lia)) as (h1 & b1 & E1 & -> & L1).
  destruct (Hcut 2%nat b1 ltac:(lia)) as (h2 & b2 & E2 & -> & L2).
  destruct (Hcut 1%nat b2 ltac:(lia)) as (h3 & b3 & E3 & -> & L3).
  destruct (Hcut 4%nat b3 ltac:(lia)) as (h4 & b4 & E4 & -> & L4).
  destruct (be32_surj _ E1) as (magic & ? & ->), (be16_surj _ E2) as (ver & ? & ->),
    (be8_surj _ E3) as (type & ? & ->), (be32_surj _ E4) as (len & ? & ->).
  exists magic, ver, type, len, b4. unfold header_bytes. by rewrite <- !app_assoc.
Qed.

Lemma scan_spec magic ver type len rest :
  is_u32 magic -> is_u16 ver -> is_u8 type -> is_u32 len -> (4 <= length rest)%nat ->
  scan (header_bytes magic ver type len ++ rest) = scan_fields magic ver type len rest.
Proof.
  intros Hm Hv Ht Hl Hr. unfold scan, scan_fields.
  rewrite length_app, header_length.
  destruct (Nat.ltb_spec (11 + length rest) (kFrameHeader + kFrameTrailer)) as [H|_];
    [unfold kFrameHeader, kFrameTrailer in H; lia|].
  destruct (proj1 (header_parses _ _ _ _ Hm Hv Ht Hl) _ rest (at_rest_reader _))
    as (r & -> & _).
  do 3 (destruct (negb (_ =? _)) || destruct (negb (valid_message_type _)); [reflexivity|]).
  destruct (len >? kMaxPayloadLength); [reflexivity|].
  replace (Z.of_nat (11 + length rest) <?
           Z.of_nat kFrameHeader + len + Z.of_nat kFrameTrailer)
    with (Z.of_nat (length rest) <? len + 4)
    by (unfold kFrameHeader, kFrameTrailer;
        destruct (Z.ltb_spec (Z.of_nat (length rest)) (len + 4));
        symmetry; [apply Z.ltb_lt | apply Z.ltb_ge]; lia).
  destruct (Z.ltb_spec (Z.of_nat (length rest)) (len + 4)) as [|Hlen]; [reflexivity|].
  unfold is_u in Hl. unfold kFrameHeader, kFrameTrailer.
  replace (Z.to_nat (Z.of_nat 11 + len + Z.of_nat 4 - 4)) with (11 + Z.to_nat len)%nat by lia.
  replace (Z.to_nat (Z.of_nat 11 + len + Z.of_nat 4)) with (11 + Z.to_nat (len + 4))%nat by lia.
  rewrite <- (header_length magic ver type len).
  rewrite !take_app_add', !drop_app_add', drop_app_length by reflexivity.
  destruct (crc_compare (crc32 (header_bytes magic ver type len ++ take (Z.to_nat len) rest))
    (take 4 (drop (Z.to_nat len) rest))) as (stored & r' & -> & ->); [apply crc32_range| |].
  - rewrite length_take, length_drop. lia.
  - reflexivity.
Qed.

(* ------------------------------------------------------------------ *)
(** ** Lemmas: [scan] is stable under more input *)

Lemma scan_short buf : (length buf < 15)%nat -> scan buf = (NeedMore, buf).
Proof.
  intros H. unfold scan.
  destruct (Nat.ltb_spec (length buf) (kFrameHeader + kFrameTrailer)) as [|Hge]; [done|].
  unfold kFrameHeader, kFrameTrailer in Hge. lia.
Qed.

(** A buffer that is long enough is scanned through its header fields. *)
Lemma scan_long buf :
  (15 <= length buf)%nat ->
  exists magic ver type len rest,
    is_u32 len /\ (4 <= length rest)%nat /\ buf = header_bytes magic ver type len ++ rest /\
    forall more, scan (buf ++ more) = scan_fields magic ver type len (rest ++ more).
Proof.
  intros H. destruct (header_split buf) as (m & v & t & l & rest & Hm & Hv & Ht & Hl & ->);
    [lia|].
  rewrite length_app, header_length in H.
  exists m, v, t, l, rest. repeat split; try apply Hl; [lia|].
  intros more. rewrite <- app_assoc. apply scan_spec; try done. rewrite length_app. lia.
Qed.

Lemma scan_extend buf more :
  match scan buf with
  | (NeedMore, rest) => rest = buf
  | (FrameReady f, rest) =>
      scan (buf ++ more) = (FrameReady f, rest ++ more) /\ (length rest < length buf)%nat
  | (FeedError m, rest) => rest = buf /\ scan (buf ++ more) = (FeedError m, buf ++ more)
  end.
Proof.
  destruct (Nat.lt_ge_cases (length buf) 15) as [Hs|Hl]; [by rewrite scan_short|].
  destruct (scan_long _ Hl) as (m & v & t & l & rest & Hu & Hr & Hbuf & Hscan).
  pose proof (Hscan []) as H0. rewrite !app_nil_r in H0.
  rewrite H0, Hscan. subst buf. unfold scan_fields. rewrite <- !app_assoc.
  do 2 (destruct (negb (_ =? _)); [done|]). destruct (negb (valid_message_type t)); [done|].
  destruct (l >? kMaxPayloadLength); [done|].
  destruct (Z.ltb_spec (Z.of_nat (length rest)) (l + 4)) as [|Hlen]; [done|].
  unfold is_u in Hu.
  destruct (Z.ltb_spec (Z.of_nat (length (rest ++ more))) (l + 4)) as [Hc|_];
    [rewrite length_app in Hc; lia|].
  rewrite !take_app_le, !drop_app_le by lia.
  rewrite (take_app_le _ _ 4) by (rewrite length_drop; lia).
  destruct (negb _); [done|]. split; [done|].
  rewrite length_drop, length_app. lia.
Qed.

(* ------------------------------------------------------------------ *)
(** ** Lemmas: the callers' loop *)

(** Fuel beyond the buffer's length changes nothing. *)
Lemma pump_fuel n1 n2 buf :
  (length buf < n1)%nat -> (length buf < n2)%nat -> pump n1 buf = pump n2 buf.
Proof.
  revert n2 buf. induction n1 as [|n1 IH]; intros [|n2] buf H1 H2; try lia. cbn.
  pose proof (scan_extend buf []) as Hs.
  destruct (scan buf) as [[|f|e] rest]; [done| |done].
  destruct Hs as [_ Hlt]. by rewrite (IH n2 rest) by lia.
Qed.

Lemma drain_unfold buf :
  drain buf =
    match scan buf with
    | (FrameReady f, rest) => let '(fs, e, b) := drain rest in (f :: fs, e, b)
    | (NeedMore, rest) => ([], Starved, rest)
    | (FeedError m, rest) => ([], Broken m, rest)
    end.
Proof.
  unfold drain at 1. cbn [pump]. pose proof (scan_extend buf []) as Hs.
  destruct (scan buf) as [[|f|e] rest]; [done| |done].
  destruct Hs as [_ Hlt]. unfold drain. by rewrite (pump_fuel _ (S (length rest)) rest) by lia.
Qed.

Lemma drain_app a b :
  drain (a ++ b) =
    match drain a with
    | (fs, Starved, rest) => let '(fs', e, b') := drain (rest ++ b) in (fs ++ fs', e, b')
    | (fs, Broken m, rest) => (fs, Broken m, rest ++ b)
    end.
Proof.
  induction a as [a IH] using (well_founded_induction (well_founded_ltof _ length)).
  unfold ltof in IH. rewrite (drain_unfold a). pose proof (scan_extend a b) as Hs.
  destruct (scan a) as [[|f|m] rest].
  - subst rest. by destruct (drain (a ++ b)) as [[fs e] b'].
  - destruct Hs as [Hs Hlt]. rewrite drain_unfold, Hs, (IH rest Hlt).
    destruct (drain rest) as [[fs [|m]] r]; [|done].
    by destruct (drain (r ++ b)) as [[fs' e] b'].
  - destruct Hs as [-> Hs]. by rewrite drain_unfold, Hs.
Qed.

Lemma drain_starved_stuck a fs rest :
  drain a = (fs, Starved, rest) -> drain rest = ([], Starved, rest).
Proof.
  revert fs. induction a as [a IH] using (well_founded_induction (well_founded_ltof _ length)).
  unfold ltof in IH. intros fs H. rewrite drain_unfold in H.
  pose proof (scan_extend a []) as Hs. destruct (scan a) as [[|f|m] b] eqn:E.
  - injection H as <- <-. subst b. by rewrite drain_unfold, E.
  - destruct Hs as [_ Hlt]. destruct (drain b) as [[fs' e] b'] eqn:Hb.
    injection H as <- -> ->. by eapply IH.
  - discriminate.
Qed.

Lemma stream_chunks_view buf chunks :
  drain buf = ([], Starved, buf) ->
  stream_view (stream_chunks buf chunks) = stream_view (drain (buf ++ concat chunks)).
Proof.
  revert buf. induction chunks as [|c cs IH]; intros buf Hbuf; cbn [stream_chunks concat].
  - by rewrite app_nil_r, Hbuf.
  - rewrite app_assoc, (drain_app (buf ++ c)).
    destruct (drain (buf ++ c)) as [[fs [|m]] r] eqn:E; [|done].
    pose proof (IH r (drain_starved_stuck _ _ _ E)) as IHr.
    destruct (stream_chunks r cs) as [[fs1 [|m1]] b1], (drain (r ++ concat cs)) as [[fs2 [|m2]] b2];
      cbn in *; congruence.
Qed.

Lemma encode_frame_shape type payload :
  encode_frame type payload =
    header_bytes kFrameMagic protocol_version (to_u8 type) (wrap 32 (Z.of_nat (length payload)))
    ++ payload
    ++ be32 (crc32 (header_bytes kFrameMagic protocol_version (to_u8 type)
                      (wrap 32 (Z.of_nat (length payload))) ++ payload)).
Proof.
  assert (frame_signed_part type payload =
    header_bytes kFrameMagic protocol_version (to_u8 type)
      (wrap 32 (Z.of_nat (length payload))) ++ payload) as E.
  { unfold frame_signed_part, header_bytes. writer_norm. reflexivity. }
  unfold encode_frame. rewrite E. writer_norm. reflexivity.
Qed.

Lemma scan_encoded f rest :
  frame_wf f -> scan (encode_frame (f_type f) (f_payload f) ++ rest) = (FrameReady f, rest).
Proof.
  intros ((Hu8 & Hty) & Hvalid & Hlen). unfold kMaxPayloadLength in Hlen.
  rewrite encode_frame_shape, wrap_small by (unfold is_u; lia).
  rewrite <- app_assoc. rewrite scan_spec; try done; try (unfold is_u; cbn; lia);
    [|rewrite !length_app, be32_length; lia].
  unfold scan_fields. rewrite !Z.eqb_refl, Hvalid. cbn [negb].
  destruct f as [ty pl]; cbn [f_type f_payload] in *.
  destruct (Z.gtb_spec (Z.of_nat (length pl)) kMaxPayloadLength) as [Hc|_];
    [unfold kMaxPayloadLength in Hc; lia|].
  set (hdr := header_bytes _ _ _ _). set (crc := be32 (crc32 (hdr ++ pl))).
  assert (Hcrc : length crc = 4%nat) by reflexivity.
  rewrite Nat2Z.id, <- !app_assoc, take_app_length, drop_app_length.
  fold crc. rewrite (take_app_length' crc), bool_decide_eq_true_2, Hty by done. cbn [negb].
  destruct (Z.ltb_spec (Z.of_nat (length (pl ++ crc ++ rest))) (Z.of_nat (length pl) + 4))
    as [Hc|_]; [rewrite !length_app in Hc; lia|].
  replace (Z.to_nat (Z.of_nat (length pl) + 4)) with (length pl + 4)%nat by lia.
  by rewrite drop_app_add', (drop_app_length' crc).
Qed.

Lemma drain_encoded fs :
  Forall frame_wf fs ->
  drain (concat (map (fun f => encode_frame (f_type f) (f_payload f)) fs)) = (fs, Starved, []).
Proof.
  induction 1 as [|f fs Hf _ IH]; cbn [map concat].
  - by rewrite drain_unfold, scan_short by (cbn; lia).
  - by rewrite drain_unfold, scan_encoded, IH.
Qed.

(** A delivered frame was a checksummed block at the head of the buffer. *)
Lemma scan_ready_inv buf f rest :
  scan buf = (FrameReady f, rest) ->
  exists magic ver type len,
    is_u32 len /\ Z.of_nat (length (f_payload f)) = len /\
    buf = checksummed (header_bytes magic ver type len ++ f_payload f) ++ rest.
Proof.
  intros H. destruct (Nat.lt_ge_cases (length buf) 15) as [Hs|Hl].
  { by rewrite scan_short in H. }
  destruct (scan_long _ Hl) as (m & v & t & l & body & Hu & Hr & -> & Hscan).
  specialize (Hscan []). rewrite !app_nil_r in Hscan. rewrite Hscan in H. clear Hscan.
  unfold scan_fields in H. do 4 (case_branch_in H; [done|]).
  destruct (Z.ltb_spec (Z.of_nat (length body)) (l + 4)) as [|Hlen]; [done|].
  case_branch_in H; [done|]. zbool. apply bool_decide_eq_true in Heqb3.
  injection H as <- <-. cbn [f_payload]. unfold is_u in Hu.
  exists m, v, t, l. split; [exact Hu|]. split; [rewrite length_take; lia|].
  unfold checksummed. rewrite Heqb3, <- !app_assoc. f_equal.
  replace (Z.to_nat (l + 4)) with (Z.to_nat l + 4)%nat by lia.
  by rewrite <- drop_drop, take_drop, take_drop.
Qed.

Lemma header_len_field magic ver type len rest :
  take 4 (drop 7 (header_bytes magic ver type len ++ rest)) = be32 len.
Proof.
  unfold header_bytes. rewrite <- !app_assoc, (app_assoc (be16 ver)), (app_assoc (be32 magic)).
  by rewrite drop_app_length', take_app_length'.
Qed.

(** Changing one byte outside the window read by [take 4 (drop 7 _)] leaves it. *)
Lemma len_field_unchanged pre (x y : byte) post :
  (length pre < 7 \/ 11 <= length pre)%nat -> (11 <= length (pre ++ x :: post))%nat ->
  take 4 (drop 7 (pre ++ x :: post)) = take 4 (drop 7 (pre ++ y :: post)).
Proof.
  rewrite length_app. cbn. intros [H|H] Hlen.
  - rewrite !drop_app_ge by lia. by destruct (7 - length pre)%nat eqn:E; [lia|].
  - rewrite !drop_app_le, !take_app_le by (rewrite ?length_drop; lia). done.
Qed.

(* ------------------------------------------------------------------ *)
(** ** Properties *)

(** The decoder is insensitive to how the transport cuts the stream: feeding any
    sequence of chunks yields the frames, and then the error or the buffered
    rest, of feeding their concatenation at once. *)
Theorem stream_chunking_invariant chunks :
  stream_view (stream_chunks [] chunks) = stream_view (drain (concat chunks)).
Proof. apply stream_chunks_view. reflexivity. Qed.

(** Whatever the chunk boundaries, a stream of encoded frames is delivered as
    exactly those frames, in order, with nothing left in the buffer. *)
Theorem frames_delivered_in_order fs chunks :
  Forall frame_wf fs ->
  concat chunks = concat (map (fun f => encode_frame (f_type f) (f_payload f)) fs) ->
  stream_view (stream_chunks [] chunks) = (fs, inl []).
Proof.
  intros Hfs Hc. rewrite stream_chunks_view by reflexivity. cbn [app].
  by rewrite Hc, drain_encoded.
Qed.

(** C36. One changed byte anywhere but in the length field keeps a frame from being
    delivered: the decoder reports an error or waits, it never hands out a
    frame. *)
Theorem corrupted_frame_not_delivered f pre x y post :
  frame_wf f ->
  encode_frame (f_type f) (f_payload f) = pre ++ x :: post -> x <> y ->
  (length pre < 7 \/ 11 <= length pre)%nat ->
  forall g rest, scan (pre ++ y :: post) <> (FrameReady g, rest).
Proof.
  intros (_ & _ & Hlen) Henc Hxy Hpos g rest Hscan. unfold kMaxPayloadLength in Hlen.
  rewrite encode_frame_shape, wrap_small in Henc by (unfold is_u; lia).
  rewrite app_assoc in Henc. set (body := header_bytes _ _ _ _ ++ f_payload f) in *.
  destruct (scan_ready_inv _ _ _ Hscan) as (m & v & t & l & Hu & Hl & Hbuf).
  assert (l = Z.of_nat (length (f_payload f))) as ->.
  { apply (wire_inj rd_u32 be32 is_u32); [done | unfold is_u; lia|].
    rewrite <- (header_len_field m v t l (g.(f_payload) ++ be32 (crc32 (header_bytes m v t l
      ++ f_payload g)) ++ rest)), <- (header_len_field kFrameMagic protocol_version
      (to_u8 (f_type f)) (Z.of_nat (length (f_payload f))) (f_payload f ++ be32 (crc32 body))).
    rewrite !app_assoc. fold body. unfold checksummed in Hbuf. rewrite <- Hbuf, Henc.
    symmetry. apply len_field_unchanged; [done|]. rewrite <- Henc. unfold body.
    rewrite !length_app, header_length. lia. }
  apply Hxy.
  assert (length (pre ++ x :: post) = length (pre ++ y :: post)) as Heq
    by (rewrite !length_app; done).
  rewrite <- Henc, Hbuf in Heq. unfold checksummed, body in Heq.
  rewrite !length_app, !header_length, !be32_length in Heq.
  destruct rest as [|? ?]; [|cbn in Heq; lia]. rewrite app_nil_r in Hbuf.
  eapply (checksummed_change body); [|exact Henc | symmetry; exact Hbuf].
  unfold body. rewrite !length_app, !header_length. lia.
Qed.

Definition sample_frame : Frame := MkFrame MessageType.HELLO [Byte.x01; Byte.x02; Byte.x03].

Lemma sample_frame_wf : frame_wf sample_frame.
Proof. split; [enum_wf_solve|]. split; [reflexivity | vm_compute; discriminate]. Qed.

(** Two frames cut in three chunks, one boundary inside the first header. *)
Lemma frames_delivered_in_order_witness :
  let bytes := encode_frame MessageType.HELLO [Byte.x01; Byte.x02; Byte.x03] in
  stream_view (stream_chunks [] [take 5 bytes; drop 5 bytes ++ take 9 bytes; drop 9 bytes])
    = ([sample_frame; sample_frame], inl []).
Proof.
  apply (frames_delivered_in_order [sample_frame; sample_frame]).
  - repeat constructor; apply sample_frame_wf.
  - vm_compute. reflexivity.
Defined.

(** The frame above with the first payload byte changed. *)
Lemma corrupted_frame_not_delivered_witness :
  scan (take 11 (encode_frame MessageType.HELLO [Byte.x01; Byte.x02; Byte.x03]) ++
        Byte.x09 :: drop 12 (encode_frame MessageType.HELLO [Byte.x01; Byte.x02; Byte.x03]))
  <> (FrameReady (MkFrame MessageType.HELLO [Byte.x09; Byte.x02; Byte.x03]), []).
Proof.
  apply (corrupted_frame_not_delivered sample_frame _ Byte.x01);
    [apply sample_frame_wf | vm_compute; reflexivity | discriminate | right; vm_compute; lia].
Defined.
