(* ===== verification/Identity.v ===== *)
(** * Device identity ([identity/device_identity.hpp])

    The durable identity of a device, its equality and stability test, and the
    canonical string that keys the fleet's device map. *)

From S2P Require Import Prelude Core.

Module AcceleratorVendor.

Inductive AcceleratorVendor := Unknown | Nvidia | Amd | Intel | Raw (b : Z).

Definition to_byte (v : AcceleratorVendor) : Z :=
  match v with Unknown => 0 | Nvidia => 1 | Amd => 2 | Intel => 3 | Raw b => b end.

Definition of_byte (b : Z) : AcceleratorVendor :=
  match b with 0 => Unknown | 1 => Nvidia | 2 => Amd | 3 => Intel | _ => Raw b end.

Definition to_string (v : AcceleratorVendor) : string :=
  match v with Nvidia => "nvidia" | Amd => "amd" | Intel => "intel" | _ => "unknown" end.

#[global] Instance eq_dec : EqDecision AcceleratorVendor.
Proof. solve_decision. Defined.
#[global] Program Instance enum : Enum8 AcceleratorVendor :=
  {| to_u8 := to_byte; of_u8 := of_byte |}.
Next Obligation. enum_cases. Qed.

End AcceleratorVendor.

Abbreviation AcceleratorVendor := AcceleratorVendor.AcceleratorVendor.

Record PciAddress := MkPci { pci_domain : Z; pci_bus : Z; pci_device : Z; pci_function : Z }.

(** [snprintf("%04x:%02x:%02x.%01x", ...)]: at most 8+1+4+1+4+1+4 characters, so
    the 32-byte buffer never truncates. *)
Definition pci_to_string (p : PciAddress) : string :=
  to_hex 4 (pci_domain p) +:+ ":" +:+ to_hex 2 (pci_bus p) +:+ ":" +:+
  to_hex 2 (pci_device p) +:+ "." +:+ to_hex 1 (pci_function p).

Record DeviceUuid := MkUuid { uuid_value : string }.
Definition uuid_empty (u : DeviceUuid) : bool := bool_decide (uuid_value u = "").

Record ComputeCapability := MkCC { cc_major : Z; cc_minor : Z }.
Definition cc_zero : ComputeCapability := MkCC 0 0.
Definition cc_eqb (a b : ComputeCapability) : bool :=
  (cc_major a =? cc_major b) && (cc_minor a =? cc_minor b).
Definition cc_ltb (a b : ComputeCapability) : bool :=
  if negb (cc_major a =? cc_major b) then cc_major a <? cc_major b
  else cc_minor a <? cc_minor b.
Definition cc_leb (a b : ComputeCapability) : bool := cc_ltb a b || cc_eqb a b.
Definition cc_gtb (a b : ComputeCapability) : bool := cc_ltb b a.
Definition cc_geb (a b : ComputeCapability) : bool := negb (cc_ltb a b).
Definition cc_to_string (c : ComputeCapability) : string :=
  to_dec (cc_major c) +:+ "." +:+ to_dec (cc_minor c).
Definition cc_sm_string (c : ComputeCapability) : string :=
  if cc_major c =? 0 then "unknown"
  else "sm_" +:+ to_dec (cc_major c) +:+ to_dec (cc_minor c).

Record MigPartition := MkMig { mig_gpu_instance_id : Z; mig_compute_instance_id : Z }.

#[global] Instance PciAddress_eq_dec : EqDecision PciAddress.
Proof. solve_decision. Defined.
#[global] Instance DeviceUuid_eq_dec : EqDecision DeviceUuid.
Proof. solve_decision. Defined.
#[global] Instance ComputeCapability_eq_dec : EqDecision ComputeCapability.
Proof. solve_decision. Defined.
#[global] Instance MigPartition_eq_dec : EqDecision MigPartition.
Proof. solve_decision. Defined.

Record DeviceIdentity := MkIdentity {
  id_vendor : AcceleratorVendor;
  id_vendor_name : string;
  id_uuid : DeviceUuid;
  id_pci : PciAddress;
  id_architecture : string;
  id_compute_capability : ComputeCapability;
  id_total_physical_memory : Z;
  id_numa_node : Z;
  id_driver_version : DriverVersion;
  id_runtime_version : RuntimeVersion;
  id_mig : MigPartition;
  id_parent_device : option DeviceId
}.

(** The default-initialised identity. *)
Definition identity_default : DeviceIdentity :=
  MkIdentity AcceleratorVendor.Unknown "" (MkUuid "") (MkPci 0 0 0 0) "" cc_zero 0 (-1)
    (MkDriverVersion "") (MkRuntimeVersion 0 0) (MkMig 0 0) None.

(** [operator==]: every field. *)
Definition identity_eqb (a b : DeviceIdentity) : bool :=
  bool_decide (id_vendor a = id_vendor b) &&
  bool_decide (id_vendor_name a = id_vendor_name b) &&
  bool_decide (id_uuid a = id_uuid b) && bool_decide (id_pci a = id_pci b) &&
  bool_decide (id_architecture a = id_architecture b) &&
  cc_eqb (id_compute_capability a) (id_compute_capability b) &&
  (id_total_physical_memory a =? id_total_physical_memory b) &&
  (id_numa_node a =? id_numa_node b) &&
  bool_decide (dv_text (id_driver_version a) = dv_text (id_driver_version b)) &&
  (rv_major (id_runtime_version a) =? rv_major (id_runtime_version b)) &&
  (rv_minor (id_runtime_version a) =? rv_minor (id_runtime_version b)) &&
  bool_decide (id_mig a = id_mig b) &&
  bool_decide (id_parent_device a = id_parent_device b).

Definition is_stable (d : DeviceIdentity) : bool :=
  let p := id_pci d in
  let has_pci := negb (pci_domain p =? 0) || negb (pci_bus p =? 0) ||
                 negb (pci_device p =? 0) || negb (pci_function p =? 0) in
  let has_uuid := negb (uuid_empty (id_uuid d)) in
  let has_arch := negb (bool_decide (id_architecture d = "")) &&
                  negb (cc_eqb (id_compute_capability d) cc_zero) in
  has_uuid || (has_pci && has_arch).

Definition canonical_device_identity (d : DeviceIdentity) : string :=
  AcceleratorVendor.to_string (id_vendor d) +:+ "|" +:+
  id_vendor_name d +:+ "|" +:+
  uuid_value (id_uuid d) +:+ "|" +:+
  pci_to_string (id_pci d) +:+ "|" +:+
  id_architecture d +:+ "|" +:+
  cc_to_string (id_compute_capability d) +:+ "|" +:+
  to_dec (id_total_physical_memory d) +:+ "|" +:+
  dv_text (id_driver_version d).

#[global] Instance DeviceIdentity_eq_dec : EqDecision DeviceIdentity.
Proof. solve_decision. Defined.

(** The part of an identity the canonical string is meant to distinguish. *)
Definition identity_key_fields (d : DeviceIdentity) :=
  (id_vendor d, id_vendor_name d, id_uuid d, id_pci d, id_architecture d,
   id_compute_capability d, id_total_physical_memory d, id_driver_version d).

Definition bar : ascii := Ascii.ascii_of_N 124.
Definition colon : ascii := Ascii.ascii_of_N 58.
Definition dot : ascii := Ascii.ascii_of_N 46.

(** Field widths as declared, an enumerated vendor, and no separator inside the
    free-text fields that precede another field. *)
Record key_ok (d : DeviceIdentity) : Prop := {
  ko_vendor : match id_vendor d with AcceleratorVendor.Raw _ => False | _ => True end;
  ko_vendor_name : no_char bar (id_vendor_name d) = true;
  ko_uuid : no_char bar (uuid_value (id_uuid d)) = true;
  ko_arch : no_char bar (id_architecture d) = true;
  ko_domain : is_u32 (pci_domain (id_pci d));
  ko_bus : is_u16 (pci_bus (id_pci d));
  ko_device : is_u16 (pci_device (id_pci d));
  ko_function : is_u16 (pci_function (id_pci d));
  ko_cc_major : is_u32 (cc_major (id_compute_capability d));
  ko_cc_minor : is_u32 (cc_minor (id_compute_capability d));
  ko_memory : is_u64 (id_total_physical_memory d)
}.

(* ------------------------------------------------------------------ *)
(** ** Lemmas *)

Lemma cc_eqb_eq a b : cc_eqb a b = true <-> a = b.
Proof.
  destruct a as [a1 a2], b as [b1 b2]. unfold cc_eqb; cbn.
  rewrite andb_true_iff, !Z.eqb_eq. split; [intros [-> ->]; done | intros [= -> ->]; done].
Qed.

Lemma u16_u32 z : is_u16 z -> is_u32 z.
Proof. unfold is_u. lia. Qed.

Lemma u32_u64 z : is_u32 z -> is_u64 z.
Proof. unfold is_u. lia. Qed.

(** Splits the equation of two strings with a separator between their fields. *)
Ltac split_at H c :=
  apply (separator_inj c) in H as [? H];
  [| solve [eauto using digits_no_char, to_hex_chars, to_dec_chars]
   | solve [eauto using digits_no_char, to_hex_chars, to_dec_chars]].

Lemma pci_to_string_inj p q :
  is_u32 (pci_domain p) -> is_u16 (pci_bus p) -> is_u16 (pci_device p) ->
  is_u16 (pci_function p) -> is_u32 (pci_domain q) -> is_u16 (pci_bus q) ->
  is_u16 (pci_device q) -> is_u16 (pci_function q) ->
  pci_to_string p = pci_to_string q -> p = q.
Proof.
  intros. destruct p as [a b c d], q as [a' b' c' d']; cbn in *.
  match goal with H : pci_to_string _ = _ |- _ => unfold pci_to_string in H; cbn in H;
    rename H into E end.
  split_at E colon. split_at E colon. split_at E dot.
  f_equal; eauto using to_hex_inj, u16_u32.
Qed.

Lemma cc_to_string_inj a b :
  is_u32 (cc_major a) -> is_u32 (cc_minor a) -> is_u32 (cc_major b) -> is_u32 (cc_minor b) ->
  cc_to_string a = cc_to_string b -> a = b.
Proof.
  intros. destruct a as [x y], b as [x' y']; cbn in *.
  match goal with H : cc_to_string _ = _ |- _ => unfold cc_to_string in H; cbn in H;
    rename H into E end.
  split_at E dot. f_equal; eauto using to_dec_inj, u32_u64.
Qed.

(** Neither numeric field contains the separator. *)
Lemma pci_to_string_bar p : no_char bar (pci_to_string p) = true.
Proof.
  unfold pci_to_string. rewrite !no_char_app.
  rewrite !(digits_no_char bar (to_hex _ _) eq_refl (to_hex_chars _ _)). reflexivity.
Qed.

Lemma cc_to_string_bar c : no_char bar (cc_to_string c) = true.
Proof.
  unfold cc_to_string. rewrite !no_char_app.
  rewrite !(digits_no_char bar (to_dec _) eq_refl (to_dec_chars _)). reflexivity.
Qed.

Lemma vendor_to_string_bar v : no_char bar (AcceleratorVendor.to_string v) = true.
Proof. by destruct v. Qed.

Lemma vendor_to_string_inj v w :
  match v with AcceleratorVendor.Raw _ => False | _ => True end ->
  match w with AcceleratorVendor.Raw _ => False | _ => True end ->
  AcceleratorVendor.to_string v = AcceleratorVendor.to_string w -> v = w.
Proof. by destruct v, w. Qed.

Lemma identity_eqb_iff a b : identity_eqb a b = true <-> a = b.
Proof.
  unfold identity_eqb. rewrite !andb_true_iff, !bool_decide_eq_true, cc_eqb_eq, !Z.eqb_eq.
  destruct a as [? ? ? ? ? ? ? ? [?] [? ?] ? ?], b as [? ? ? ? ? ? ? ? [?] [? ?] ? ?]; cbn.
  split; [intros; deex; congruence | intros [=]; subst; tauto].
Qed.

(* ------------------------------------------------------------------ *)
(** ** Properties *)

(** [operator==] on identities is equality of every field. *)
Theorem identity_eqb_spec a b : identity_eqb a b = true <-> a = b.
Proof. apply identity_eqb_iff. Qed.

(** The device map's key identifies the device: two identities whose free-text
    fields contain no separator and that have the same canonical string agree on
    every field the string prints. *)
Theorem canonical_identity_injective a b :
  key_ok a -> key_ok b ->
  canonical_device_identity a = canonical_device_identity b ->
  identity_key_fields a = identity_key_fields b.
Proof.
  intros [] [] H. unfold canonical_device_identity in H.
  do 7 (apply (separator_inj bar) in H as [? H];
    [| by auto using vendor_to_string_bar, pci_to_string_bar, cc_to_string_bar,
         digits_no_char, to_dec_chars ..]).
  unfold identity_key_fields.
  destruct a as [va na [ua] pa aa ca ma numa [da] ra mia para],
    b as [vb nb [ub] pb ab cb mb numb [db] rb mib parb]; cbn in *.
  repeat f_equal; eauto using vendor_to_string_inj, pci_to_string_inj, cc_to_string_inj, to_dec_inj.
Qed.

(** A PCI address alone never makes an identity stable. *)
Theorem pci_alone_not_stable d :
  uuid_empty (id_uuid d) = true ->
  (id_architecture d = "" \/ id_compute_capability d = cc_zero) -> is_stable d = false.
Proof.
  intros Hu Ha. unfold is_stable. rewrite Hu. cbn [negb orb].
  apply andb_false_intro2. destruct Ha as [-> | ->]; [done|].
  by rewrite (proj2 (cc_eqb_eq cc_zero cc_zero) eq_refl), andb_false_r.
Qed.

Definition sample_identity : DeviceIdentity :=
  MkIdentity AcceleratorVendor.Nvidia "NVIDIA" (MkUuid "GPU-w10") (MkPci 0 1 2 0) "blackwell"
    (MkCC 12 0) 34359738368 (-1) (MkDriverVersion "13040") (MkRuntimeVersion 13 0) (MkMig 0 0) None.

Lemma sample_identity_key_ok : key_ok sample_identity.
Proof. split; vm_compute; try done; split; congruence. Qed.

(** The same card seen on another NUMA node and as a MIG slice. *)
Definition sample_identity_mig : DeviceIdentity :=
  MkIdentity AcceleratorVendor.Nvidia "NVIDIA" (MkUuid "GPU-w10") (MkPci 0 1 2 0) "blackwell"
    (MkCC 12 0) 34359738368 1 (MkDriverVersion "13040") (MkRuntimeVersion 13 0) (MkMig 3 1)
    (Some (MkId 1)).

Lemma sample_identity_mig_key_ok : key_ok sample_identity_mig.
Proof. split; vm_compute; try done; split; congruence. Qed.

Lemma canonical_identity_injective_witness :
  identity_key_fields sample_identity = identity_key_fields sample_identity_mig.
Proof.
  exact (canonical_identity_injective _ _ sample_identity_key_ok sample_identity_mig_key_ok eq_refl).
Defined.

(** The key does not include the NUMA node, the MIG partition or the parent
    device: a MIG slice that reports its card's UUID shares the card's key. *)
Example canonical_identity_ignores_mig :
  canonical_device_identity sample_identity = canonical_device_identity sample_identity_mig /\
  sample_identity <> sample_identity_mig.
Proof. split; [reflexivity | discriminate]. Qed.

Lemma pci_alone_not_stable_witness :
  is_stable (MkIdentity AcceleratorVendor.Nvidia "NVIDIA" (MkUuid "") (MkPci 0 1 0 0) ""
    (MkCC 12 0) 0 (-1) (MkDriverVersion "") (MkRuntimeVersion 0 0) (MkMig 0 0) None) = false.
Proof. apply pci_alone_not_stable; [reflexivity | left; reflexivity]. Defined.

Example canonical_identity_sample :
  canonical_device_identity sample_identity =
    "nvidia|NVIDIA|GPU-w10|0000:01:02.0|blackwell|12.0|34359738368|13040".
Proof. vm_compute. reflexivity. Qed.
