(* ===== verification/Health.v ===== *)
(** * Health evaluation ([health/health_state.hpp], [health/health_evaluator.hpp])

    The typed health state, the signals it is derived from, and the
    deterministic evaluator. *)

From S2P Require Import Prelude Core.

Module HealthState.

Inductive HealthState :=
  | UNKNOWN | HEALTHY | DEGRADED | UNHEALTHY | DRAINING | DRAINED | OFFLINE | LOST
  | RECOVERING | QUARANTINED
  | Raw (b : Z).

Definition to_byte (s : HealthState) : Z :=
  match s with
  | UNKNOWN => 0 | HEALTHY => 1 | DEGRADED => 2 | UNHEALTHY => 3 | DRAINING => 4
  | DRAINED => 5 | OFFLINE => 6 | LOST => 7 | RECOVERING => 8 | QUARANTINED => 9
  | Raw b => b
  end.

Definition of_byte (b : Z) : HealthState :=
  match b with
  | 0 => UNKNOWN | 1 => HEALTHY | 2 => DEGRADED | 3 => UNHEALTHY | 4 => DRAINING
  | 5 => DRAINED | 6 => OFFLINE | 7 => LOST | 8 => RECOVERING | 9 => QUARANTINED
  | _ => Raw b
  end.

Definition to_string (s : HealthState) : string :=
  match s with
  | UNKNOWN => "UNKNOWN" | HEALTHY => "HEALTHY" | DEGRADED => "DEGRADED"
  | UNHEALTHY => "UNHEALTHY" | DRAINING => "DRAINING" | DRAINED => "DRAINED"
  | OFFLINE => "OFFLINE" | LOST => "LOST" | RECOVERING => "RECOVERING"
  | QUARANTINED => "QUARANTINED" | Raw _ => "UNKNOWN"
  end.

#[global] Instance eq_dec : EqDecision HealthState.
Proof. solve_decision. Defined.
#[global] Program Instance enum : Enum8 HealthState :=
  {| to_u8 := to_byte; of_u8 := of_byte |}.
Next Obligation. enum_cases. Qed.

End HealthState.

Abbreviation HealthState := HealthState.HealthState.

Definition is_health_availability_gating (s : HealthState) : bool :=
  match s with
  | HealthState.QUARANTINED | HealthState.DRAINED | HealthState.DRAINING
  | HealthState.OFFLINE | HealthState.LOST | HealthState.UNHEALTHY
  | HealthState.UNKNOWN => true
  | _ => false
  end.

Record HealthSignals := MkSignals {
  hs_enumerated : bool;
  hs_device_present : bool;
  hs_was_known : bool;
  hs_driver_runtime_ok : bool;
  hs_cuda_init_ok : bool;
  hs_memory_alloc_ok : bool;
  hs_kernel_exec_ok : bool;
  hs_sync_ok : bool;
  hs_mem_roundtrip_ok : bool;
  hs_fatal_error : bool;
  hs_temperature_within_limits : bool;
  hs_power_within_limits : bool;
  hs_consecutive_failures : Z;
  hs_observation_stale : bool;
  hs_explicitly_drained : bool;
  hs_inflight_work_remaining : bool;
  hs_quarantined : bool;
  hs_last_validation_ok : bool;
  hs_failure_threshold : Z
}.

Record HealthResult := MkHealth { h_state : HealthState; h_explanation : string }.

Definition core_ok (s : HealthSignals) : bool :=
  hs_memory_alloc_ok s && hs_kernel_exec_ok s && hs_sync_ok s && hs_mem_roundtrip_ok s.

Definition evaluate_health (s : HealthSignals) : HealthResult :=
  if hs_quarantined s then
    MkHealth HealthState.QUARANTINED
      "quarantined: administratively or automatically fenced; ineligible until validly cleared"
  else if hs_explicitly_drained s then
    if hs_inflight_work_remaining s then
      MkHealth HealthState.DRAINING
        "draining: rejecting new eligibility, in-flight work still reported present"
    else
      MkHealth HealthState.DRAINED
        "drained: rejecting new eligibility and awaiting drain completion"
  else if negb (hs_device_present s) then
    if negb (hs_was_known s) then
      MkHealth HealthState.OFFLINE
        "offline: device not enumerable and never previously observed"
    else
      MkHealth HealthState.LOST
        "lost: device was present but has disappeared and is not enumerable"
  else if hs_fatal_error s then
    MkHealth HealthState.UNHEALTHY "unhealthy: fatal accelerator error recorded"
  else if negb (hs_driver_runtime_ok s) then
    MkHealth HealthState.UNHEALTHY "unhealthy: driver or runtime availability failed"
  else if negb (hs_cuda_init_ok s) then
    MkHealth HealthState.UNHEALTHY "unhealthy: CUDA initialization failed"
  else if hs_consecutive_failures s >=? hs_failure_threshold s then
    MkHealth HealthState.UNHEALTHY
      ("unhealthy: repeated operation failures (" +:+ to_dec (hs_consecutive_failures s) +:+
       " consecutive)")
  else if hs_observation_stale s then
    MkHealth HealthState.RECOVERING
      "recovering: last evidence is stale and is not fresh enough to be authoritative"
  else if negb (core_ok s) then
    if hs_last_validation_ok s then
      MkHealth HealthState.RECOVERING
        "recovering: core validation not currently proven; last validation was OK"
    else MkHealth HealthState.UNHEALTHY "unhealthy: core device validation not proven"
  else if negb (hs_temperature_within_limits s) || negb (hs_power_within_limits s) then
    MkHealth HealthState.DEGRADED
      "degraded: core validation passed but temperature or power is outside limits"
  else
    MkHealth HealthState.HEALTHY
      "healthy: enumeration, driver/runtime, and core validation all proven".

(** The conditions all of which a HEALTHY or DEGRADED device satisfies. *)
Definition operational (s : HealthSignals) : Prop :=
  hs_quarantined s = false /\ hs_explicitly_drained s = false /\
  hs_device_present s = true /\ hs_fatal_error s = false /\
  hs_driver_runtime_ok s = true /\ hs_cuda_init_ok s = true /\
  hs_consecutive_failures s < hs_failure_threshold s /\
  hs_observation_stale s = false /\ core_ok s = true.

(** How good a health state is for execution. *)
Definition health_rank (s : HealthState) : Z :=
  match s with
  | HealthState.HEALTHY => 3
  | HealthState.DEGRADED => 2
  | HealthState.RECOVERING => 1
  | _ => 0
  end.

(** [proves_less s' s]: [s'] is [s] with some of the positive checks not proven. *)
Record proves_less (s' s : HealthSignals) : Prop := {
  pl_driver : Bool.le (hs_driver_runtime_ok s') (hs_driver_runtime_ok s);
  pl_cuda : Bool.le (hs_cuda_init_ok s') (hs_cuda_init_ok s);
  pl_alloc : Bool.le (hs_memory_alloc_ok s') (hs_memory_alloc_ok s);
  pl_kernel : Bool.le (hs_kernel_exec_ok s') (hs_kernel_exec_ok s);
  pl_sync : Bool.le (hs_sync_ok s') (hs_sync_ok s);
  pl_roundtrip : Bool.le (hs_mem_roundtrip_ok s') (hs_mem_roundtrip_ok s);
  pl_validation : Bool.le (hs_last_validation_ok s') (hs_last_validation_ok s);
  pl_temperature : Bool.le (hs_temperature_within_limits s') (hs_temperature_within_limits s);
  pl_power : Bool.le (hs_power_within_limits s') (hs_power_within_limits s);
  pl_present : hs_device_present s' = hs_device_present s;
  pl_quarantined : hs_quarantined s' = hs_quarantined s;
  pl_drained : hs_explicitly_drained s' = hs_explicitly_drained s;
  pl_fatal : hs_fatal_error s' = hs_fatal_error s;
  pl_failures : hs_consecutive_failures s' = hs_consecutive_failures s;
  pl_threshold : hs_failure_threshold s' = hs_failure_threshold s;
  pl_stale : hs_observation_stale s' = hs_observation_stale s
}.

(** The conditions that do not depend on a proven check. *)
Definition gates_open (s : HealthSignals) : bool :=
  negb (hs_quarantined s) && negb (hs_explicitly_drained s) && hs_device_present s &&
  negb (hs_fatal_error s) && (hs_consecutive_failures s <? hs_failure_threshold s).

(* ------------------------------------------------------------------ *)
(** ** Lemmas *)

(** The rank of the result as a formula of the signals. *)
Lemma health_rank_eq s :
  health_rank (h_state (evaluate_health s)) =
    if gates_open s && (hs_driver_runtime_ok s && hs_cuda_init_ok s) then
      if hs_observation_stale s then 1
      else if core_ok s then
        if hs_temperature_within_limits s && hs_power_within_limits s then 3 else 2
      else if hs_last_validation_ok s then 1 else 0
    else 0.
Proof.
  unfold evaluate_health, gates_open. rewrite Z.geb_leb, Z.leb_antisym.
  destruct (hs_quarantined s), (hs_explicitly_drained s), (hs_device_present s),
    (hs_fatal_error s), (_ <? _), (hs_driver_runtime_ok s), (hs_cuda_init_ok s);
    cbn [negb andb]; repeat case_branch; try reflexivity.
  all: destruct (core_ok s), (hs_temperature_within_limits s), (hs_power_within_limits s);
    cbn in *; congruence.
Qed.

Lemma core_ok_le s' s : proves_less s' s -> Bool.le (core_ok s') (core_ok s).
Proof.
  intros []. unfold core_ok.
  destruct (hs_memory_alloc_ok s'), (hs_kernel_exec_ok s'), (hs_sync_ok s'),
    (hs_mem_roundtrip_ok s'); cbn in *; try exact I.
  by rewrite pl_alloc0, pl_kernel0, pl_sync0, pl_roundtrip0.
Qed.

(* ------------------------------------------------------------------ *)
(** ** Properties *)

(** HEALTHY is reached exactly when every operational condition holds and the
    temperature and power are within limits. *)
Theorem healthy_iff s :
  h_state (evaluate_health s) = HealthState.HEALTHY <->
  operational s /\ hs_temperature_within_limits s = true /\ hs_power_within_limits s = true.
Proof.
  unfold evaluate_health, operational.
  destruct (hs_temperature_within_limits s), (hs_power_within_limits s); cbn [negb orb];
    repeat case_branch; cbn [h_state]; zbool; split; branch_done.
Qed.

(** DEGRADED is the same with a temperature or power limit exceeded. *)
Theorem degraded_iff s :
  h_state (evaluate_health s) = HealthState.DEGRADED <->
  operational s /\ (hs_temperature_within_limits s = false \/ hs_power_within_limits s = false).
Proof.
  unfold evaluate_health, operational.
  destruct (hs_temperature_within_limits s) eqn:?, (hs_power_within_limits s) eqn:?; cbn [negb orb];
    repeat case_branch; cbn [h_state]; zbool; split; branch_done;
    try (destruct_or!; congruence); auto.
Qed.

(** A check that is not proven can only move the result down: with fewer
    positive checks (everything else equal) the state never ranks higher. *)
Theorem unproven_check_moves_down s' s :
  proves_less s' s ->
  health_rank (h_state (evaluate_health s')) <= health_rank (h_state (evaluate_health s)).
Proof.
  intros H. rewrite !health_rank_eq.
  pose proof (core_ok_le _ _ H) as Hcore. destruct H.
  assert (gates_open s' = gates_open s) as ->.
  { unfold gates_open. by rewrite pl_present0, pl_quarantined0, pl_drained0, pl_fatal0,
      pl_failures0, pl_threshold0. }
  rewrite pl_stale0. destruct (gates_open s); [|reflexivity]. destruct (hs_observation_stale s).
  all: destruct (hs_driver_runtime_ok s'), (hs_cuda_init_ok s'); cbn in pl_driver0, pl_cuda0;
    rewrite ?pl_driver0, ?pl_cuda0; cbn [andb]; repeat case_branch; try lia.
  all: destruct (core_ok s'), (hs_last_validation_ok s'), (hs_temperature_within_limits s'),
    (hs_power_within_limits s'), (hs_temperature_within_limits s), (hs_power_within_limits s);
    cbn in *; congruence.
Qed.

(** Quarantine dominates every other signal. *)
Theorem quarantine_dominates_health s :
  hs_quarantined s = true -> h_state (evaluate_health s) = HealthState.QUARANTINED.
Proof. intros H. unfold evaluate_health. by rewrite H. Qed.

(** A fully proven device, and the same with its kernel execution unproven. *)
Definition sample_signals (kernel : bool) : HealthSignals :=
  MkSignals true true true true true true kernel true true false true true 0 false false false
    false true 3.

Lemma unproven_check_moves_down_witness :
  health_rank (h_state (evaluate_health (sample_signals false))) <=
  health_rank (h_state (evaluate_health (sample_signals true))).
Proof. apply unproven_check_moves_down. split; reflexivity || exact I. Defined.

(** Enumeration itself is never consulted: a device that was not enumerated but
    passes every other check is reported as having its enumeration proven. *)
Example healthy_without_enumeration :
  evaluate_health (MkSignals false true true true true true true true true false true true 0
    false false false false true 3)
  = MkHealth HealthState.HEALTHY
      "healthy: enumeration, driver/runtime, and core validation all proven".
Proof. reflexivity. Qed.
