(* ===== verification/Eligibility.v ===== *)
(** * Execution eligibility ([eligibility/eligibility.hpp],
      [eligibility/eligibility_evaluator.hpp])

    The evaluator as the source writes it, with its accumulating result, and an
    abstract specification: an ordered table of gates of which the first that
    applies decides. The refinement theorem identifies the two. *)

From S2P Require Import Prelude Core Health.

Module EligibilityState.

Inductive EligibilityState :=
  | UNKNOWN | ELIGIBLE | DEGRADED_ELIGIBLE | INELIGIBLE | DRAINING | STALE | QUARANTINED
  | Raw (b : Z).

Definition to_byte (s : EligibilityState) : Z :=
  match s with
  | UNKNOWN => 0 | ELIGIBLE => 1 | DEGRADED_ELIGIBLE => 2 | INELIGIBLE => 3 | DRAINING => 4
  | STALE => 5 | QUARANTINED => 6 | Raw b => b
  end.

Definition of_byte (b : Z) : EligibilityState :=
  match b with
  | 0 => UNKNOWN | 1 => ELIGIBLE | 2 => DEGRADED_ELIGIBLE | 3 => INELIGIBLE | 4 => DRAINING
  | 5 => STALE | 6 => QUARANTINED | _ => Raw b
  end.

Definition to_string (s : EligibilityState) : string :=
  match s with
  | ELIGIBLE => "ELIGIBLE" | DEGRADED_ELIGIBLE => "DEGRADED_ELIGIBLE"
  | INELIGIBLE => "INELIGIBLE" | DRAINING => "DRAINING" | STALE => "STALE"
  | QUARANTINED => "QUARANTINED" | UNKNOWN | Raw _ => "UNKNOWN"
  end.

#[global] Instance eq_dec : EqDecision EligibilityState.
Proof. solve_decision. Defined.
#[global] Program Instance enum : Enum8 EligibilityState :=
  {| to_u8 := to_byte; of_u8 := of_byte |}.
Next Obligation. enum_cases. Qed.

End EligibilityState.

Abbreviation EligibilityState := EligibilityState.EligibilityState.

Module EligibilityReason.

Inductive EligibilityReason :=
  | NONE | STALE_OBSERVATION | ARCHITECTURE_MISMATCH | INSUFFICIENT_MEMORY | DRIVER_MISMATCH
  | CUDA_UNAVAILABLE | HEALTH_FAILURE | DRAIN_POLICY | GENERATION_MISMATCH | WORKER_RESTART
  | DEVICE_DISAPPEARANCE | QUARANTINE | CAPABILITY_MISMATCH | UNKNOWN
  | Raw (b : Z).

Definition to_byte (r : EligibilityReason) : Z :=
  match r with
  | NONE => 0 | STALE_OBSERVATION => 1 | ARCHITECTURE_MISMATCH => 2 | INSUFFICIENT_MEMORY => 3
  | DRIVER_MISMATCH => 4 | CUDA_UNAVAILABLE => 5 | HEALTH_FAILURE => 6 | DRAIN_POLICY => 7
  | GENERATION_MISMATCH => 8 | WORKER_RESTART => 9 | DEVICE_DISAPPEARANCE => 10
  | QUARANTINE => 11 | CAPABILITY_MISMATCH => 12 | UNKNOWN => 13 | Raw b => b
  end.

Definition of_byte (b : Z) : EligibilityReason :=
  match b with
  | 0 => NONE | 1 => STALE_OBSERVATION | 2 => ARCHITECTURE_MISMATCH | 3 => INSUFFICIENT_MEMORY
  | 4 => DRIVER_MISMATCH | 5 => CUDA_UNAVAILABLE | 6 => HEALTH_FAILURE | 7 => DRAIN_POLICY
  | 8 => GENERATION_MISMATCH | 9 => WORKER_RESTART | 10 => DEVICE_DISAPPEARANCE
  | 11 => QUARANTINE | 12 => CAPABILITY_MISMATCH | 13 => UNKNOWN | _ => Raw b
  end.

Definition to_string (r : EligibilityReason) : string :=
  match r with
  | STALE_OBSERVATION => "stale_observation" | ARCHITECTURE_MISMATCH => "architecture_mismatch"
  | INSUFFICIENT_MEMORY => "insufficient_memory" | DRIVER_MISMATCH => "driver_mismatch"
  | CUDA_UNAVAILABLE => "cuda_unavailable" | HEALTH_FAILURE => "health_failure"
  | DRAIN_POLICY => "drain_policy" | GENERATION_MISMATCH => "generation_mismatch"
  | WORKER_RESTART => "worker_restart" | DEVICE_DISAPPEARANCE => "device_disappearance"
  | QUARANTINE => "quarantine" | CAPABILITY_MISMATCH => "capability_mismatch"
  | NONE | UNKNOWN | Raw _ => "unknown"
  end.

#[global] Instance eq_dec : EqDecision EligibilityReason.
Proof. solve_decision. Defined.
#[global] Program Instance enum : Enum8 EligibilityReason :=
  {| to_u8 := to_byte; of_u8 := of_byte |}.
Next Obligation. enum_cases. Qed.

End EligibilityReason.

Abbreviation EligibilityReason := EligibilityReason.EligibilityReason.

Record EligibilityResult := MkElig { el_state : EligibilityState; el_reasons : list EligibilityReason }.

#[global] Instance EligibilityResult_eq_dec : EqDecision EligibilityResult.
Proof. solve_decision. Defined.

Definition has_reason (r : EligibilityResult) (x : EligibilityReason) : bool :=
  existsb (fun y => bool_decide (y = x)) (el_reasons r).

Record EligibilityInput := MkEligInput {
  ei_health : HealthState;
  ei_observation_fresh : bool;
  ei_observed_generation : DeviceGeneration;
  ei_current_generation : DeviceGeneration;
  ei_architecture_match : bool;
  ei_sufficient_memory : bool;
  ei_driver_match : bool;
  ei_cuda_available : bool;
  ei_capability_match : bool;
  ei_drain_active : bool;
  ei_quarantine : bool;
  ei_worker_alive : bool;
  ei_device_present : bool;
  ei_worker_restarted : bool;
  ei_required_memory : Z;
  ei_available_memory : Z
}.

Definition baseline_eligibility (h : HealthState) : EligibilityState :=
  match h with
  | HealthState.HEALTHY => EligibilityState.ELIGIBLE
  | HealthState.DEGRADED => EligibilityState.DEGRADED_ELIGIBLE
  | HealthState.DRAINING => EligibilityState.DRAINING
  | HealthState.DRAINED => EligibilityState.DRAINING
  | HealthState.QUARANTINED => EligibilityState.QUARANTINED
  | HealthState.OFFLINE | HealthState.LOST => EligibilityState.INELIGIBLE
  | HealthState.RECOVERING => EligibilityState.STALE
  | HealthState.UNHEALTHY => EligibilityState.INELIGIBLE
  | HealthState.UNKNOWN | HealthState.Raw _ => EligibilityState.UNKNOWN
  end.

(** The result under construction, and its two updates. *)
Definition elig_init : EligibilityResult := MkElig EligibilityState.UNKNOWN [].
Definition set_and_add (s : EligibilityState) (x : EligibilityReason) (r : EligibilityResult)
  : EligibilityResult := MkElig s (el_reasons r ++ [x]).

Definition evaluate_eligibility (inp : EligibilityInput) : EligibilityResult :=
  let r := elig_init in
  if ei_quarantine inp then
    set_and_add EligibilityState.QUARANTINED EligibilityReason.QUARANTINE r
  else if ei_drain_active inp then
    set_and_add EligibilityState.DRAINING EligibilityReason.DRAIN_POLICY r
  else
    let r :=
      if ei_worker_restarted inp || negb (ei_worker_alive inp) then
        set_and_add EligibilityState.STALE EligibilityReason.WORKER_RESTART r
      else if negb (gen_eqb (ei_observed_generation inp) (ei_current_generation inp)) then
        set_and_add EligibilityState.STALE EligibilityReason.GENERATION_MISMATCH r
      else if negb (ei_observation_fresh inp) then
        set_and_add EligibilityState.STALE EligibilityReason.STALE_OBSERVATION r
      else r in
    if bool_decide (el_state r = EligibilityState.STALE) then r
    else if negb (ei_device_present inp) then
      set_and_add EligibilityState.INELIGIBLE EligibilityReason.DEVICE_DISAPPEARANCE r
    else
      let r :=
        if negb (ei_cuda_available inp) then
          set_and_add EligibilityState.INELIGIBLE EligibilityReason.CUDA_UNAVAILABLE r
        else if negb (ei_driver_match inp) then
          set_and_add EligibilityState.INELIGIBLE EligibilityReason.DRIVER_MISMATCH r
        else if negb (ei_architecture_match inp) then
          set_and_add EligibilityState.INELIGIBLE EligibilityReason.ARCHITECTURE_MISMATCH r
        else if negb (ei_sufficient_memory inp) ||
                (ei_available_memory inp <? ei_required_memory inp) then
          set_and_add EligibilityState.INELIGIBLE EligibilityReason.INSUFFICIENT_MEMORY r
        else if negb (ei_capability_match inp) then
          set_and_add EligibilityState.INELIGIBLE EligibilityReason.CAPABILITY_MISMATCH r
        else r in
      if bool_decide (el_state r = EligibilityState.INELIGIBLE) then r
      else
        match baseline_eligibility (ei_health inp) with
        | EligibilityState.ELIGIBLE => MkElig EligibilityState.ELIGIBLE (el_reasons r)
        | EligibilityState.DEGRADED_ELIGIBLE =>
            set_and_add EligibilityState.DEGRADED_ELIGIBLE EligibilityReason.HEALTH_FAILURE r
        | EligibilityState.STALE =>
            set_and_add EligibilityState.STALE EligibilityReason.STALE_OBSERVATION r
        | EligibilityState.QUARANTINED =>
            set_and_add EligibilityState.QUARANTINED EligibilityReason.QUARANTINE r
        | EligibilityState.DRAINING =>
            set_and_add EligibilityState.DRAINING EligibilityReason.DRAIN_POLICY r
        | EligibilityState.INELIGIBLE | EligibilityState.UNKNOWN | EligibilityState.Raw _ =>
            set_and_add EligibilityState.INELIGIBLE EligibilityReason.HEALTH_FAILURE r
        end.

(* ------------------------------------------------------------------ *)
(** ** Abstract specification: the first gate that applies decides *)

Definition gate_table (inp : EligibilityInput)
  : list (bool * (EligibilityState * EligibilityReason)) :=
  [ (ei_quarantine inp, (EligibilityState.QUARANTINED, EligibilityReason.QUARANTINE));
    (ei_drain_active inp, (EligibilityState.DRAINING, EligibilityReason.DRAIN_POLICY));
    (ei_worker_restarted inp || negb (ei_worker_alive inp),
      (EligibilityState.STALE, EligibilityReason.WORKER_RESTART));
    (negb (gen_eqb (ei_observed_generation inp) (ei_current_generation inp)),
      (EligibilityState.STALE, EligibilityReason.GENERATION_MISMATCH));
    (negb (ei_observation_fresh inp),
      (EligibilityState.STALE, EligibilityReason.STALE_OBSERVATION));
    (negb (ei_device_present inp),
      (EligibilityState.INELIGIBLE, EligibilityReason.DEVICE_DISAPPEARANCE));
    (negb (ei_cuda_available inp),
      (EligibilityState.INELIGIBLE, EligibilityReason.CUDA_UNAVAILABLE));
    (negb (ei_driver_match inp),
      (EligibilityState.INELIGIBLE, EligibilityReason.DRIVER_MISMATCH));
    (negb (ei_architecture_match inp),
      (EligibilityState.INELIGIBLE, EligibilityReason.ARCHITECTURE_MISMATCH));
    (negb (ei_sufficient_memory inp) || (ei_available_memory inp <? ei_required_memory inp),
      (EligibilityState.INELIGIBLE, EligibilityReason.INSUFFICIENT_MEMORY));
    (negb (ei_capability_match inp),
      (EligibilityState.INELIGIBLE, EligibilityReason.CAPABILITY_MISMATCH)) ].

(** The verdict of health alone, used when no gate applies. *)
Definition health_verdict (h : HealthState) : EligibilityResult :=
  match h with
  | HealthState.HEALTHY => MkElig EligibilityState.ELIGIBLE []
  | HealthState.DEGRADED =>
      MkElig EligibilityState.DEGRADED_ELIGIBLE [EligibilityReason.HEALTH_FAILURE]
  | HealthState.DRAINING | HealthState.DRAINED =>
      MkElig EligibilityState.DRAINING [EligibilityReason.DRAIN_POLICY]
  | HealthState.QUARANTINED =>
      MkElig EligibilityState.QUARANTINED [EligibilityReason.QUARANTINE]
  | HealthState.RECOVERING =>
      MkElig EligibilityState.STALE [EligibilityReason.STALE_OBSERVATION]
  | _ => MkElig EligibilityState.INELIGIBLE [EligibilityReason.HEALTH_FAILURE]
  end.

Fixpoint first_gate (gates : list (bool * (EligibilityState * EligibilityReason)))
  (otherwise : EligibilityResult) : EligibilityResult :=
  match gates with
  | [] => otherwise
  | (true, (s, x)) :: _ => MkElig s [x]
  | (false, _) :: gates' => first_gate gates' otherwise
  end.

Definition eligibility_spec (inp : EligibilityInput) : EligibilityResult :=
  first_gate (gate_table inp) (health_verdict (ei_health inp)).

(** The states in which work may be placed on the device. *)
Definition schedulable (s : EligibilityState) : bool :=
  match s with
  | EligibilityState.ELIGIBLE | EligibilityState.DEGRADED_ELIGIBLE => true
  | _ => false
  end.

(** No gate applies. *)
Definition gates_clear (inp : EligibilityInput) : Prop :=
  Forall (fun g => g.1 = false) (gate_table inp).

(* ------------------------------------------------------------------ *)
(** ** Lemmas *)

(** Each gate is a disjunction of at most two conditions: the case analysis on
    them decides both definitions. *)
Lemma evaluate_is_spec inp : evaluate_eligibility inp = eligibility_spec inp.
Proof.
  unfold evaluate_eligibility, eligibility_spec, gate_table.
  destruct (ei_quarantine inp); [reflexivity|]. destruct (ei_drain_active inp); [reflexivity|].
  destruct (ei_worker_restarted inp || negb (ei_worker_alive inp)); [reflexivity|].
  destruct (gen_eqb _ _); [|reflexivity]. destruct (ei_observation_fresh inp); [|reflexivity].
  destruct (ei_device_present inp); [|reflexivity].
  destruct (ei_cuda_available inp); [|reflexivity]. destruct (ei_driver_match inp); [|reflexivity].
  destruct (ei_architecture_match inp); [|reflexivity].
  destruct (negb (ei_sufficient_memory inp) || _); [reflexivity|].
  destruct (ei_capability_match inp); [|reflexivity]. by destruct (ei_health inp).
Qed.

Lemma first_gate_clear gates o :
  Forall (fun g => g.1 = false) gates -> first_gate gates o = o.
Proof. induction 1 as [|[b [s x]] gates Hb _ IH]; cbn in *; [done|]. by rewrite Hb. Qed.

Lemma first_gate_cases gates o :
  (Forall (fun g => g.1 = false) gates /\ first_gate gates o = o) \/
  exists s x, (true, (s, x)) ∈ gates /\ first_gate gates o = MkElig s [x].
Proof.
  induction gates as [|[[] [s x]] gates IH]; cbn [first_gate].
  - left. split; [constructor | done].
  - right. exists s, x. split; [apply list_elem_of_here | done].
  - destruct IH as [[IH1 IH2]|(s' & x' & IH1 & IH2)].
    + left. split; [by constructor | done].
    + right. exists s', x'. split; [by apply list_elem_of_further | done].
Qed.

Lemma gates_not_schedulable inp b s x :
  (b, (s, x)) ∈ gate_table inp -> schedulable s = false.
Proof.
  assert (Forall (fun g => schedulable g.2.1 = false) (gate_table inp)) as H
    by (repeat constructor).
  rewrite Forall_forall in H. exact (H (b, (s, x))).
Qed.

(** When the device is schedulable no gate applied and its health is proven. *)
Lemma schedulable_inv inp :
  schedulable (el_state (evaluate_eligibility inp)) = true ->
  gates_clear inp /\
  (ei_health inp = HealthState.HEALTHY \/ ei_health inp = HealthState.DEGRADED).
Proof.
  rewrite evaluate_is_spec. unfold eligibility_spec. intros H.
  destruct (first_gate_cases (gate_table inp) (health_verdict (ei_health inp)))
    as [[Hc E]|(s & x & Hin & E)]; rewrite E in H.
  - split; [exact Hc|]. destruct (ei_health inp); cbn in H; auto; discriminate.
  - cbn in H. rewrite (gates_not_schedulable _ _ _ _ Hin) in H. discriminate.
Qed.

(** What an inapplicable gate says, condition by condition. *)
Lemma gates_clear_inv inp :
  gates_clear inp ->
  ei_quarantine inp = false /\ ei_drain_active inp = false /\
  ei_worker_restarted inp = false /\ ei_worker_alive inp = true /\
  ei_observed_generation inp = ei_current_generation inp /\
  ei_observation_fresh inp = true /\ ei_device_present inp = true /\
  ei_cuda_available inp = true /\ ei_driver_match inp = true /\
  ei_architecture_match inp = true /\ ei_sufficient_memory inp = true /\
  ei_required_memory inp <= ei_available_memory inp /\ ei_capability_match inp = true.
Proof.
  unfold gates_clear, gate_table. rewrite !Forall_cons. cbn [fst].
  intros H. deex. zbool. rewrite <- gen_eqb_eq. auto 20.
Qed.

Lemma schedulable_iff_clear inp :
  schedulable (el_state (evaluate_eligibility inp)) = true <->
  gates_clear inp /\
  (ei_health inp = HealthState.HEALTHY \/ ei_health inp = HealthState.DEGRADED).
Proof.
  split; [apply schedulable_inv|]. intros [Hc Hh].
  rewrite evaluate_is_spec. unfold eligibility_spec. rewrite (first_gate_clear _ _ Hc).
  by destruct Hh as [-> | ->].
Qed.

(** DEGRADED_ELIGIBLE comes from the health verdict alone. *)
Lemma degraded_eligible_health inp :
  el_state (evaluate_eligibility inp) = EligibilityState.DEGRADED_ELIGIBLE ->
  ei_health inp = HealthState.DEGRADED.
Proof.
  rewrite evaluate_is_spec. unfold eligibility_spec. intros H.
  destruct (first_gate_cases (gate_table inp) (health_verdict (ei_health inp)))
    as [[Hc E]|(s & x & Hin & E)]; rewrite E in H; cbn in H.
  - by destruct (ei_health inp).
  - subst s. by apply gates_not_schedulable in Hin.
Qed.

(* ------------------------------------------------------------------ *)
(** ** Properties *)

(** C25. Refinement: the accumulating evaluator implements the ordered gate table. *)
Theorem evaluate_eligibility_refines_gates inp :
  evaluate_eligibility inp = eligibility_spec inp.
Proof. apply evaluate_is_spec. Qed.

(** A device is reported schedulable exactly when no gate applies and its health
    is HEALTHY or DEGRADED: never while quarantined, draining, stale, absent,
    mismatched in generation, architecture, driver, memory or capabilities. *)
Theorem schedulable_iff inp :
  schedulable (el_state (evaluate_eligibility inp)) = true <->
  gates_clear inp /\
  (ei_health inp = HealthState.HEALTHY \/ ei_health inp = HealthState.DEGRADED).
Proof. apply schedulable_iff_clear. Qed.

(** Every decision explains itself: ELIGIBLE carries no reason, every other
    state exactly one. *)
Theorem eligibility_explained inp :
  (el_state (evaluate_eligibility inp) = EligibilityState.ELIGIBLE /\
   el_reasons (evaluate_eligibility inp) = []) \/
  (el_state (evaluate_eligibility inp) <> EligibilityState.ELIGIBLE /\
   exists x, el_reasons (evaluate_eligibility inp) = [x]).
Proof.
  rewrite evaluate_is_spec. unfold eligibility_spec.
  destruct (first_gate_cases (gate_table inp) (health_verdict (ei_health inp)))
    as [[Hc ->]|(s & x & Hin & ->)].
  - destruct (ei_health inp); cbn; (by left) || (right; split; [done | eauto]).
  - right. cbn. split; [|eauto]. intros ->.
    by apply gates_not_schedulable in Hin.
Qed.
