(* ===== verification/Device.v ===== *)
(** * Capabilities and device backends ([capability/capability.hpp],
      [device/device_backend.hpp], [src/device/synthetic_backend.cpp])

    The capability model, the probe record every backend produces, the backend
    interface as a class, and the synthetic backend as an instance of it. *)

From S2P Require Import Prelude Core Identity.

Module CapabilityKind.

Inductive CapabilityKind := UNKNOWN | DISCOVERED | VALIDATED | INFERRED | Raw (b : Z).

Definition to_byte (k : CapabilityKind) : Z :=
  match k with UNKNOWN => 0 | DISCOVERED => 1 | VALIDATED => 2 | INFERRED => 3 | Raw b => b end.

Definition of_byte (b : Z) : CapabilityKind :=
  match b with 0 => UNKNOWN | 1 => DISCOVERED | 2 => VALIDATED | 3 => INFERRED | _ => Raw b end.

Definition to_string (k : CapabilityKind) : string :=
  match k with
  | DISCOVERED => "discovered" | VALIDATED => "validated" | INFERRED => "inferred"
  | _ => "unknown"
  end.

#[global] Instance eq_dec : EqDecision CapabilityKind.
Proof. solve_decision. Defined.
#[global] Program Instance enum : Enum8 CapabilityKind :=
  {| to_u8 := to_byte; of_u8 := of_byte |}.
Next Obligation. enum_cases. Qed.

End CapabilityKind.

Abbreviation CapabilityKind := CapabilityKind.CapabilityKind.

Record Capability := MkCapability {
  cap_id : CapabilityId;
  cap_name : string;
  cap_kind : CapabilityKind;
  cap_value : string;
  cap_description : string
}.

#[global] Instance Capability_eq_dec : EqDecision Capability.
Proof. solve_decision. Defined.

(** An enumerated accelerator. *)
Record EnumeratedDevice := MkEnumerated {
  ed_ordinal : Z;
  ed_identity : DeviceIdentity;
  ed_present : bool
}.

(** The probed state of one device, with its validation evidence. *)
Record DeviceProbe := MkProbe {
  p_identity : DeviceIdentity;
  p_enumerated : bool;
  p_present : bool;
  p_driver_runtime_ok : bool;
  p_cuda_init_ok : bool;
  p_total_memory : Z;
  p_used_memory : Z;
  p_free_memory : Z;
  p_temperature_c : option Z;
  p_power_w : option Z;
  p_memory_alloc_ok : bool;
  p_h2d_ok : bool;
  p_kernel_exec_ok : bool;
  p_sync_ok : bool;
  p_d2h_ok : bool;
  p_verify_ok : bool;
  p_core_validation_ok : bool;
  p_validation_detail : string;
  p_capabilities : list Capability
}.

(** The abstract [DeviceBackend]. *)
Class DeviceBackend (B : Type) := {
  backend_name : B -> string;
  backend_available : B -> bool;
  backend_enumerate : B -> Result (list EnumeratedDevice);
  backend_probe : B -> EnumeratedDevice -> Result DeviceProbe
}.

(* ------------------------------------------------------------------ *)
(** ** The synthetic backend *)

Record SyntheticDeviceBackend := MkSynthetic { sb_count : Z; sb_memory_bytes : Z }.

(** The constructor replaces a zero count by one. *)
Definition synthetic_backend (count memory_bytes : Z) : SyntheticDeviceBackend :=
  MkSynthetic (if count =? 0 then 1 else count) memory_bytes.

(** The default arguments: one device of 24 GiB. *)
Definition synthetic_default : SyntheticDeviceBackend :=
  synthetic_backend 1 (24 * 1024 * 1024 * 1024).

Definition identity_for (idx mem : Z) : string :=
  "synthetic:" +:+ to_dec idx +:+ ":" +:+ to_dec mem.

Definition synthetic_identity (b : SyntheticDeviceBackend) (i : Z) : DeviceIdentity :=
  MkIdentity AcceleratorVendor.Nvidia "synthetic" (MkUuid (identity_for i (sb_memory_bytes b)))
    (MkPci 0 0 0 0) "synthetic" (MkCC 12 0) (sb_memory_bytes b) (-1)
    (MkDriverVersion "synthetic") (MkRuntimeVersion 0 0) (MkMig 0 0) None.

Definition synthetic_enumerate (b : SyntheticDeviceBackend) : Result (list EnumeratedDevice) :=
  Ok (map (fun i => MkEnumerated (to_signed 32 (wrap 32 (Z.of_nat i)))
                        (synthetic_identity b (Z.of_nat i)) true)
        (seq 0 (Z.to_nat (sb_count b)))).

Definition synthetic_probe (b : SyntheticDeviceBackend) (device : EnumeratedDevice)
  : Result DeviceProbe :=
  Ok (MkProbe (ed_identity device) true true true true (sb_memory_bytes b) 0 (sb_memory_bytes b)
    None None true true true true true true true
    "synthetic validation OK (no physical accelerator involved)"
    [MkCapability (MkId 1) "vendor" CapabilityKind.INFERRED "synthetic"
       "synthetic vendor (not physical hardware)";
     MkCapability (MkId 2) "kernel_execution" CapabilityKind.VALIDATED "true"
       "synthetic kernel execution (no physical accelerator involved)"]).

#[export] Instance synthetic_backend_instance : DeviceBackend SyntheticDeviceBackend := {|
  backend_name := fun _ => "synthetic";
  backend_available := fun _ => true;
  backend_enumerate := synthetic_enumerate;
  backend_probe := synthetic_probe
|}.

(* ------------------------------------------------------------------ *)
(** ** Lemmas *)

Lemma identity_for_no_bar i mem : no_char bar (identity_for i mem) = true.
Proof.
  unfold identity_for. rewrite !no_char_app.
  by rewrite !(digits_no_char bar (to_dec _) eq_refl (to_dec_chars _)).
Qed.

Lemma synthetic_key_ok b i :
  is_u64 (sb_memory_bytes b) -> key_ok (synthetic_identity b i).
Proof.
  intros Hm. constructor; unfold synthetic_identity;
    cbn [id_vendor id_vendor_name id_uuid uuid_value id_pci id_architecture
         id_compute_capability id_total_physical_memory pci_domain pci_bus pci_device pci_function
         cc_major cc_minor]; try done; try (unfold is_u; lia).
  apply identity_for_no_bar.
Qed.

Lemma identity_for_inj i j mem : is_u64 i -> is_u64 j -> identity_for i mem = identity_for j mem -> i = j.
Proof.
  unfold identity_for. intros Hi Hj H. injection H as H.
  apply (separator_inj colon) in H as [H _]; [by apply to_dec_inj|..];
    by apply digits_no_char, to_dec_chars.
Qed.
