(* ===== verification/Observation.v ===== *)
(** * Observations and device state ([observation/observation.hpp])

    One published frame of evidence ([DeviceObservation]) and the coordinator's
    canonical view of a device ([DeviceState]), with the drain and quarantine
    axes. *)

From S2P Require Import Prelude Core Identity Device Health Eligibility.

Module DrainState.

Inductive DrainState := ACTIVE | DRAINING | DRAINED | Raw (b : Z).

Definition to_byte (s : DrainState) : Z :=
  match s with ACTIVE => 0 | DRAINING => 1 | DRAINED => 2 | Raw b => b end.

Definition of_byte (b : Z) : DrainState :=
  match b with 0 => ACTIVE | 1 => DRAINING | 2 => DRAINED | _ => Raw b end.

Definition to_string (s : DrainState) : string :=
  match s with DRAINING => "DRAINING" | DRAINED => "DRAINED" | ACTIVE | Raw _ => "ACTIVE" end.

#[global] Instance eq_dec : EqDecision DrainState.
Proof. solve_decision. Defined.
#[global] Program Instance enum : Enum8 DrainState :=
  {| to_u8 := to_byte; of_u8 := of_byte |}.
Next Obligation. enum_cases. Qed.

End DrainState.

Abbreviation DrainState := DrainState.DrainState.

(** [d != DrainState::ACTIVE]. *)
Definition drain_active (d : DrainState) : bool := negb (bool_decide (d = DrainState.ACTIVE)).

Record QuarantineRecord := MkQuarantine {
  q_reason : string;
  q_source : string;
  q_generation : DeviceGeneration;
  q_at : Timestamp;
  q_device_id : DeviceId;
  q_authority : CoordinatorEpoch
}.

Definition quarantine_default : QuarantineRecord :=
  MkQuarantine "" "" (MkGen 0) kInvalidTimestamp (MkId 0) (MkGen 0).

#[global] Instance QuarantineRecord_eq_dec : EqDecision QuarantineRecord.
Proof. solve_decision. Defined.

Record DeviceObservation := MkObservation {
  o_device_id : DeviceId;
  o_observation_generation : ObservationGeneration;
  o_health_generation : HealthGeneration;
  o_observed_at : Timestamp;
  o_source_worker_boot : WorkerBootId;
  o_source_worker : WorkerId;
  o_source_node : NodeId;
  o_epoch : CoordinatorEpoch;
  o_device_generation : DeviceGeneration;
  o_identity : DeviceIdentity;
  o_health : HealthState;
  o_health_explanation : string;
  o_total_memory : Z;
  o_used_memory : Z;
  o_free_memory : Z;
  o_temperature_c : option Z;
  o_power_w : option Z;
  o_capabilities : list Capability;
  o_core_validation_ok : bool;
  o_validation_detail : string;
  o_enumerated : bool;
  o_present : bool;
  o_driver_runtime_ok : bool;
  o_cuda_init_ok : bool;
  o_memory_alloc_ok : bool;
  o_h2d_ok : bool;
  o_kernel_exec_ok : bool;
  o_sync_ok : bool;
  o_d2h_ok : bool;
  o_verify_ok : bool
}.

Record DeviceState := MkDevice {
  d_device_id : DeviceId;
  d_generation : DeviceGeneration;
  d_identity : DeviceIdentity;
  d_present : bool;
  d_health : HealthState;
  d_health_explanation : string;
  d_eligibility : EligibilityState;
  d_eligibility_reasons : list EligibilityReason;
  d_drain : DrainState;
  d_quarantined : bool;
  d_quarantine : QuarantineRecord;
  d_total_memory : Z;
  d_used_memory : Z;
  d_free_memory : Z;
  d_temperature_c : option Z;
  d_power_w : option Z;
  d_capabilities : list Capability;
  d_core_validation_ok : bool;
  d_validation_detail : string;
  d_last_observed_at : Timestamp;
  d_last_validated_at : Timestamp;
  d_last_authoritative_at : Timestamp;
  d_observation_generation : ObservationGeneration;
  d_health_generation : HealthGeneration;
  d_source_worker_boot : WorkerBootId;
  d_observation_fresh : bool
}.

(** The default-initialised device state: the prior of a new device. *)
Definition device_default : DeviceState :=
  MkDevice (MkId 0) (MkGen 0) identity_default false HealthState.UNKNOWN ""
    EligibilityState.UNKNOWN [] DrainState.ACTIVE false quarantine_default 0 0 0 None None []
    false "" kInvalidTimestamp kInvalidTimestamp kInvalidTimestamp (MkGen 0) (MkGen 0) (MkId 0)
    false.

#[global] Instance DeviceObservation_eq_dec : EqDecision DeviceObservation.
Proof. solve_decision. Defined.
#[global] Instance DeviceState_eq_dec : EqDecision DeviceState.
Proof. solve_decision. Defined.

(* ------------------------------------------------------------------ *)
(** ** Field updates *)

(** [d.eligibility = s; d.eligibility_reasons = rs;] *)
Definition d_set_elig (s : EligibilityState) (rs : list EligibilityReason) (d : DeviceState)
  : DeviceState :=
  MkDevice (d_device_id d) (d_generation d) (d_identity d) (d_present d) (d_health d)
    (d_health_explanation d) s rs (d_drain d) (d_quarantined d) (d_quarantine d)
    (d_total_memory d) (d_used_memory d) (d_free_memory d) (d_temperature_c d) (d_power_w d)
    (d_capabilities d) (d_core_validation_ok d) (d_validation_detail d) (d_last_observed_at d)
    (d_last_validated_at d) (d_last_authoritative_at d) (d_observation_generation d)
    (d_health_generation d) (d_source_worker_boot d) (d_observation_fresh d).

(** [d.drain = x;] *)
Definition d_set_drain (x : DrainState) (d : DeviceState) : DeviceState :=
  MkDevice (d_device_id d) (d_generation d) (d_identity d) (d_present d) (d_health d)
    (d_health_explanation d) (d_eligibility d) (d_eligibility_reasons d) x (d_quarantined d)
    (d_quarantine d) (d_total_memory d) (d_used_memory d) (d_free_memory d) (d_temperature_c d)
    (d_power_w d) (d_capabilities d) (d_core_validation_ok d) (d_validation_detail d)
    (d_last_observed_at d) (d_last_validated_at d) (d_last_authoritative_at d)
    (d_observation_generation d) (d_health_generation d) (d_source_worker_boot d)
    (d_observation_fresh d).

(** [d.quarantined = b; d.quarantine = q;] *)
Definition d_set_quarantine (b : bool) (q : QuarantineRecord) (d : DeviceState) : DeviceState :=
  MkDevice (d_device_id d) (d_generation d) (d_identity d) (d_present d) (d_health d)
    (d_health_explanation d) (d_eligibility d) (d_eligibility_reasons d) (d_drain d) b q
    (d_total_memory d) (d_used_memory d) (d_free_memory d) (d_temperature_c d) (d_power_w d)
    (d_capabilities d) (d_core_validation_ok d) (d_validation_detail d) (d_last_observed_at d)
    (d_last_validated_at d) (d_last_authoritative_at d) (d_observation_generation d)
    (d_health_generation d) (d_source_worker_boot d) (d_observation_fresh d).

(** [d.observation_fresh = b;] *)
Definition d_set_fresh (b : bool) (d : DeviceState) : DeviceState :=
  MkDevice (d_device_id d) (d_generation d) (d_identity d) (d_present d) (d_health d)
    (d_health_explanation d) (d_eligibility d) (d_eligibility_reasons d) (d_drain d)
    (d_quarantined d) (d_quarantine d) (d_total_memory d) (d_used_memory d) (d_free_memory d)
    (d_temperature_c d) (d_power_w d) (d_capabilities d) (d_core_validation_ok d)
    (d_validation_detail d) (d_last_observed_at d) (d_last_validated_at d)
    (d_last_authoritative_at d) (d_observation_generation d) (d_health_generation d)
    (d_source_worker_boot d) b.

(** [d.present = b; d.health = h;] *)
Definition d_set_presence (b : bool) (h : HealthState) (d : DeviceState) : DeviceState :=
  MkDevice (d_device_id d) (d_generation d) (d_identity d) b h (d_health_explanation d)
    (d_eligibility d) (d_eligibility_reasons d) (d_drain d) (d_quarantined d) (d_quarantine d)
    (d_total_memory d) (d_used_memory d) (d_free_memory d) (d_temperature_c d) (d_power_w d)
    (d_capabilities d) (d_core_validation_ok d) (d_validation_detail d) (d_last_observed_at d)
    (d_last_validated_at d) (d_last_authoritative_at d) (d_observation_generation d)
    (d_health_generation d) (d_source_worker_boot d) (d_observation_fresh d).

(** [d.health_generation = g;] *)
Definition d_set_health_generation (g : HealthGeneration) (d : DeviceState) : DeviceState :=
  MkDevice (d_device_id d) (d_generation d) (d_identity d) (d_present d) (d_health d)
    (d_health_explanation d) (d_eligibility d) (d_eligibility_reasons d) (d_drain d)
    (d_quarantined d) (d_quarantine d) (d_total_memory d) (d_used_memory d) (d_free_memory d)
    (d_temperature_c d) (d_power_w d) (d_capabilities d) (d_core_validation_ok d)
    (d_validation_detail d) (d_last_observed_at d) (d_last_validated_at d)
    (d_last_authoritative_at d) (d_observation_generation d) g (d_source_worker_boot d)
    (d_observation_fresh d).

(** [cand.last_authoritative_at = t;] *)
Definition d_set_authoritative_at (t : Timestamp) (d : DeviceState) : DeviceState :=
  MkDevice (d_device_id d) (d_generation d) (d_identity d) (d_present d) (d_health d)
    (d_health_explanation d) (d_eligibility d) (d_eligibility_reasons d) (d_drain d)
    (d_quarantined d) (d_quarantine d) (d_total_memory d) (d_used_memory d) (d_free_memory d)
    (d_temperature_c d) (d_power_w d) (d_capabilities d) (d_core_validation_ok d)
    (d_validation_detail d) (d_last_observed_at d) (d_last_validated_at d) t
    (d_observation_generation d) (d_health_generation d) (d_source_worker_boot d)
    (d_observation_fresh d).
