(* ===== verification/Change.v ===== *)
(** * Change detection ([observation/change.hpp])

    The change log's records and the comparison of a candidate device state with
    the prior one. *)

From S2P Require Import Prelude Core Identity Device Health Eligibility Observation.

Module ChangeKind.

Inductive ChangeKind :=
  | DEVICE_APPEARED | DEVICE_DISAPPEARED | IDENTITY_CHANGED | DRIVER_RUNTIME_CHANGED
  | MEMORY_CAPACITY_CHANGED | HEALTH_CHANGED | CAPABILITY_CHANGED | ELIGIBILITY_CHANGED
  | WORKER_RESTARTED | OBSERVATION_STALE | DRAIN_INITIATED | DRAIN_COMPLETED
  | QUARANTINE_APPLIED | QUARANTINE_CLEARED
  | Raw (b : Z).

Definition to_byte (k : ChangeKind) : Z :=
  match k with
  | DEVICE_APPEARED => 1 | DEVICE_DISAPPEARED => 2 | IDENTITY_CHANGED => 3
  | DRIVER_RUNTIME_CHANGED => 4 | MEMORY_CAPACITY_CHANGED => 5 | HEALTH_CHANGED => 6
  | CAPABILITY_CHANGED => 7 | ELIGIBILITY_CHANGED => 8 | WORKER_RESTARTED => 9
  | OBSERVATION_STALE => 10 | DRAIN_INITIATED => 11 | DRAIN_COMPLETED => 12
  | QUARANTINE_APPLIED => 13 | QUARANTINE_CLEARED => 14 | Raw b => b
  end.

Definition of_byte (b : Z) : ChangeKind :=
  match b with
  | 1 => DEVICE_APPEARED | 2 => DEVICE_DISAPPEARED | 3 => IDENTITY_CHANGED
  | 4 => DRIVER_RUNTIME_CHANGED | 5 => MEMORY_CAPACITY_CHANGED | 6 => HEALTH_CHANGED
  | 7 => CAPABILITY_CHANGED | 8 => ELIGIBILITY_CHANGED | 9 => WORKER_RESTARTED
  | 10 => OBSERVATION_STALE | 11 => DRAIN_INITIATED | 12 => DRAIN_COMPLETED
  | 13 => QUARANTINE_APPLIED | 14 => QUARANTINE_CLEARED | _ => Raw b
  end.

Definition to_string (k : ChangeKind) : string :=
  match k with
  | DEVICE_APPEARED => "device_appeared" | DEVICE_DISAPPEARED => "device_disappeared"
  | IDENTITY_CHANGED => "identity_changed" | DRIVER_RUNTIME_CHANGED => "driver_runtime_changed"
  | MEMORY_CAPACITY_CHANGED => "memory_capacity_changed" | HEALTH_CHANGED => "health_changed"
  | CAPABILITY_CHANGED => "capability_changed" | ELIGIBILITY_CHANGED => "eligibility_changed"
  | WORKER_RESTARTED => "worker_restarted" | OBSERVATION_STALE => "observation_stale"
  | DRAIN_INITIATED => "drain_initiated" | DRAIN_COMPLETED => "drain_completed"
  | QUARANTINE_APPLIED => "quarantine_applied" | QUARANTINE_CLEARED => "quarantine_cleared"
  | Raw _ => "unknown_change"
  end.

#[global] Instance eq_dec : EqDecision ChangeKind.
Proof. solve_decision. Defined.
#[global] Program Instance enum : Enum8 ChangeKind :=
  {| to_u8 := to_byte; of_u8 := of_byte |}.
Next Obligation. enum_cases. Qed.

End ChangeKind.

Abbreviation ChangeKind := ChangeKind.ChangeKind.

Record ChangeRecord := MkChange {
  c_kind : ChangeKind;
  c_device_id : DeviceId;
  c_at : Timestamp;
  c_generation : DeviceGeneration;
  c_epoch : CoordinatorEpoch;
  c_detail : string;
  c_from : string;
  c_to : string
}.

#[global] Instance ChangeRecord_eq_dec : EqDecision ChangeRecord.
Proof. solve_decision. Defined.

(** The lambda [caps_key]. *)
Definition caps_key (caps : list Capability) : string :=
  foldl (fun s x => s +:+ cap_name x +:+ "=" +:+ cap_value x +:+ ";") "" caps.

Section Diff.
Context (prior cand : DeviceState) (at_ : Timestamp) (gen : DeviceGeneration)
  (epoch : CoordinatorEpoch).

(** The lambda [push], under the condition that guards it. *)
Definition push_if (b : bool) (k : ChangeKind) (detail from to : string) : list ChangeRecord :=
  if b then [MkChange k (d_device_id cand) at_ gen epoch detail from to] else [].

Definition diff_device_state : list ChangeRecord :=
  (if negb (d_present prior) && d_present cand then
     push_if true ChangeKind.DEVICE_APPEARED "device became present" "absent" "present"
   else
     push_if (d_present prior && negb (d_present cand)) ChangeKind.DEVICE_DISAPPEARED
       "device became absent" "present" "absent") ++
  push_if (negb (identity_eqb (d_identity prior) (d_identity cand)))
    ChangeKind.IDENTITY_CHANGED "device identity changed"
    (uuid_value (id_uuid (d_identity prior))) (uuid_value (id_uuid (d_identity cand))) ++
  push_if (negb (bool_decide (dv_text (id_driver_version (d_identity prior)) =
                              dv_text (id_driver_version (d_identity cand)))))
    ChangeKind.DRIVER_RUNTIME_CHANGED "driver/runtime changed"
    (dv_text (id_driver_version (d_identity prior)))
    (dv_text (id_driver_version (d_identity cand))) ++
  push_if (negb (d_total_memory prior =? d_total_memory cand) && negb (d_total_memory cand =? 0))
    ChangeKind.MEMORY_CAPACITY_CHANGED "memory capacity changed"
    (to_dec (d_total_memory prior)) (to_dec (d_total_memory cand)) ++
  push_if (negb (bool_decide (d_health prior = d_health cand)))
    ChangeKind.HEALTH_CHANGED "health changed"
    (HealthState.to_string (d_health prior)) (HealthState.to_string (d_health cand)) ++
  push_if (negb (bool_decide (caps_key (d_capabilities prior) = caps_key (d_capabilities cand))))
    ChangeKind.CAPABILITY_CHANGED "capability set changed"
    (caps_key (d_capabilities prior)) (caps_key (d_capabilities cand)) ++
  push_if (negb (bool_decide (d_eligibility prior = d_eligibility cand)))
    ChangeKind.ELIGIBILITY_CHANGED "eligibility changed"
    (EligibilityState.to_string (d_eligibility prior))
    (EligibilityState.to_string (d_eligibility cand)) ++
  push_if (negb (id_eqb (d_source_worker_boot prior) (d_source_worker_boot cand)))
    ChangeKind.WORKER_RESTARTED "source worker incarnation changed"
    (id_to_string (d_source_worker_boot prior)) (id_to_string (d_source_worker_boot cand)) ++
  (if negb (d_observation_fresh prior) && d_observation_fresh cand then []
   else
     push_if (d_observation_fresh prior && negb (d_observation_fresh cand))
       ChangeKind.OBSERVATION_STALE "observation became stale" "fresh" "stale") ++
  (if bool_decide (d_drain prior = DrainState.ACTIVE) && drain_active (d_drain cand) then
     push_if true ChangeKind.DRAIN_INITIATED "drain initiated"
       (DrainState.to_string (d_drain prior)) (DrainState.to_string (d_drain cand))
   else
     push_if (bool_decide (d_drain prior = DrainState.DRAINING) &&
              bool_decide (d_drain cand = DrainState.DRAINED))
       ChangeKind.DRAIN_COMPLETED "drain completed"
       (DrainState.to_string (d_drain prior)) (DrainState.to_string (d_drain cand))) ++
  (if negb (d_quarantined prior) && d_quarantined cand then
     push_if true ChangeKind.QUARANTINE_APPLIED "quarantine applied" "false" "true"
   else
     push_if (d_quarantined prior && negb (d_quarantined cand))
       ChangeKind.QUARANTINE_CLEARED "quarantine cleared" "true" "false").

End Diff.

(* ------------------------------------------------------------------ *)
(** ** Abstract specification: which axes changed *)

Definition all_kinds : list ChangeKind :=
  [ChangeKind.DEVICE_APPEARED; ChangeKind.DEVICE_DISAPPEARED; ChangeKind.IDENTITY_CHANGED;
   ChangeKind.DRIVER_RUNTIME_CHANGED; ChangeKind.MEMORY_CAPACITY_CHANGED;
   ChangeKind.HEALTH_CHANGED; ChangeKind.CAPABILITY_CHANGED; ChangeKind.ELIGIBILITY_CHANGED;
   ChangeKind.WORKER_RESTARTED; ChangeKind.OBSERVATION_STALE; ChangeKind.DRAIN_INITIATED;
   ChangeKind.DRAIN_COMPLETED; ChangeKind.QUARANTINE_APPLIED; ChangeKind.QUARANTINE_CLEARED].

Definition axis_changed (p c : DeviceState) (k : ChangeKind) : Prop :=
  match k with
  | ChangeKind.DEVICE_APPEARED => d_present p = false /\ d_present c = true
  | ChangeKind.DEVICE_DISAPPEARED => d_present p = true /\ d_present c = false
  | ChangeKind.IDENTITY_CHANGED => d_identity p <> d_identity c
  | ChangeKind.DRIVER_RUNTIME_CHANGED =>
      id_driver_version (d_identity p) <> id_driver_version (d_identity c)
  | ChangeKind.MEMORY_CAPACITY_CHANGED =>
      d_total_memory p <> d_total_memory c /\ d_total_memory c <> 0
  | ChangeKind.HEALTH_CHANGED => d_health p <> d_health c
  | ChangeKind.CAPABILITY_CHANGED =>
      caps_key (d_capabilities p) <> caps_key (d_capabilities c)
  | ChangeKind.ELIGIBILITY_CHANGED => d_eligibility p <> d_eligibility c
  | ChangeKind.WORKER_RESTARTED => d_source_worker_boot p <> d_source_worker_boot c
  | ChangeKind.OBSERVATION_STALE =>
      d_observation_fresh p = true /\ d_observation_fresh c = false
  | ChangeKind.DRAIN_INITIATED =>
      d_drain p = DrainState.ACTIVE /\ d_drain c <> DrainState.ACTIVE
  | ChangeKind.DRAIN_COMPLETED =>
      d_drain p = DrainState.DRAINING /\ d_drain c = DrainState.DRAINED
  | ChangeKind.QUARANTINE_APPLIED => d_quarantined p = false /\ d_quarantined c = true
  | ChangeKind.QUARANTINE_CLEARED => d_quarantined p = true /\ d_quarantined c = false
  | ChangeKind.Raw _ => False
  end.

#[global] Instance axis_changed_dec p c k : Decision (axis_changed p c k).
Proof. destruct k; cbn; apply _. Defined.

(* ------------------------------------------------------------------ *)
(** ** Lemmas *)

Lemma filter_cons_app {A} (P : A -> Prop) `{!forall x, Decision (P x)} x l :
  filter P (x :: l) = (if decide (P x) then [x] else []) ++ filter P l.
Proof. rewrite filter_cons. by destruct (decide (P x)). Qed.

Lemma push_if_kind cand t g e b (P : Prop) `{!Decision P} k d f to :
  (b = true <-> P) ->
  map c_kind (push_if cand t g e b k d f to) = if decide P then [k] else [].
Proof. intros H. unfold push_if. destruct (decide P), b; try done; intuition congruence. Qed.

(** One axis, in front of the rest of the log. *)
Lemma kinds_one cand t g e b (P : Prop) `{!Decision P} k d f to R R' :
  (b = true <-> P) -> R = R' ->
  map c_kind (push_if cand t g e b k d f to) ++ R = (if decide P then [k] else []) ++ R'.
Proof. intros H ->. f_equal. by apply push_if_kind. Qed.

(** Two axes of which the source reports the first that holds. *)
Lemma kinds_two cand t g e b1 b2 (P1 P2 : Prop) `{!Decision P1, !Decision P2}
    k1 d1 f1 to1 k2 d2 f2 to2 R R' :
  (b1 = true <-> P1) -> (b2 = true <-> P2) -> (P1 -> P2 -> False) -> R = R' ->
  map c_kind (if b1 then push_if cand t g e true k1 d1 f1 to1
              else push_if cand t g e b2 k2 d2 f2 to2) ++ R =
  (if decide P1 then [k1] else []) ++ (if decide P2 then [k2] else []) ++ R'.
Proof.
  intros H1 H2 Hx ->. rewrite app_assoc. f_equal. unfold push_if.
  destruct (decide P1), (decide P2), b1, b2; try done; intuition congruence.
Qed.

Lemma drain_active_iff d : drain_active d = true <-> d <> DrainState.ACTIVE.
Proof. unfold drain_active. by rewrite negb_true_iff, bool_decide_eq_false. Qed.

Lemma driver_text_iff (a b : DriverVersion) : dv_text a = dv_text b <-> a = b.
Proof. destruct a, b; cbn. split; congruence. Qed.

Lemma fresh_branch cand t g e p c k d f to :
  (if negb p && c then [] else push_if cand t g e (p && negb c) k d f to) =
  push_if cand t g e (p && negb c) k d f to.
Proof. by destruct p, c. Qed.

(** Reflects the boolean guards of [diff_device_state]. *)
Ltac guards :=
  cbn [axis_changed];
  rewrite ?andb_true_iff, ?drain_active_iff, ?negb_true_iff, ?bool_decide_eq_true, ?bool_decide_eq_false,
    ?Z.eqb_neq, <- ?not_true_iff_false, ?identity_eqb_iff, ?id_eqb_eq.

Lemma diff_kinds p c t g e :
  map c_kind (diff_device_state p c t g e) = filter (axis_changed p c) all_kinds.
Proof.
  unfold diff_device_state, all_kinds. rewrite !filter_cons_app, filter_nil, !map_app.
  rewrite <- (app_nil_r (map c_kind (if negb (d_quarantined p) && _ then _ else _))).
  apply kinds_two; [guards; done..|cbn; intuition congruence|].
  do 7 (apply kinds_one; [guards; rewrite ?driver_text_iff; done|]).
  rewrite fresh_branch. apply kinds_one; [guards; done|].
  do 2 (apply kinds_two; [guards; done..|cbn; intuition congruence|]).
  done.
Qed.

Lemma axes_unchanged p c t g e k :
  diff_device_state p c t g e = [] -> ~ axis_changed p c k.
Proof.
  intros H Hk. assert (k ∈ filter (axis_changed p c) all_kinds) as Hin.
  { apply list_elem_of_filter. split; [exact Hk|]. destruct k; try (cbn in Hk; done);
      repeat (apply list_elem_of_here || apply list_elem_of_further). }
  rewrite <- (diff_kinds p c t g e), H in Hin. by apply not_elem_of_nil in Hin.
Qed.

(* ------------------------------------------------------------------ *)
(** ** Properties *)

(** Refinement of the axis specification: the diff reports exactly the kinds
    whose axis changed, each once, in the order of their codes. *)
Theorem diff_reports_changed_axes prior cand at_ gen epoch :
  map c_kind (diff_device_state prior cand at_ gen epoch) =
  filter (axis_changed prior cand) all_kinds.
Proof. apply diff_kinds. Qed.

(** An empty diff means that none of the reported axes moved: presence,
    identity, health, capabilities, eligibility, worker incarnation and
    quarantine are the same and the device did not become stale. *)
Theorem empty_diff_means_unchanged prior cand at_ gen epoch :
  diff_device_state prior cand at_ gen epoch = [] ->
  d_present cand = d_present prior /\ d_identity cand = d_identity prior /\
  d_health cand = d_health prior /\
  caps_key (d_capabilities cand) = caps_key (d_capabilities prior) /\
  d_eligibility cand = d_eligibility prior /\
  d_source_worker_boot cand = d_source_worker_boot prior /\
  d_quarantined cand = d_quarantined prior /\
  (d_observation_fresh prior = true -> d_observation_fresh cand = true) /\
  (d_drain prior = DrainState.ACTIVE -> d_drain cand = DrainState.ACTIVE).
Proof.
  intros H. pose proof (fun k => axes_unchanged _ _ _ _ _ k H) as Hk.
  pose proof (Hk ChangeKind.DEVICE_APPEARED). pose proof (Hk ChangeKind.DEVICE_DISAPPEARED).
  pose proof (Hk ChangeKind.QUARANTINE_APPLIED). pose proof (Hk ChangeKind.QUARANTINE_CLEARED).
  pose proof (Hk ChangeKind.OBSERVATION_STALE). cbn [axis_changed] in *.
  split_and!; intros; apply dec_stable; intros Hne.
  - destruct (d_present cand), (d_present prior); tauto.
  - apply (Hk ChangeKind.IDENTITY_CHANGED). exact (not_eq_sym Hne).
  - apply (Hk ChangeKind.HEALTH_CHANGED). exact (not_eq_sym Hne).
  - apply (Hk ChangeKind.CAPABILITY_CHANGED). exact (not_eq_sym Hne).
  - apply (Hk ChangeKind.ELIGIBILITY_CHANGED). exact (not_eq_sym Hne).
  - apply (Hk ChangeKind.WORKER_RESTARTED). exact (not_eq_sym Hne).
  - destruct (d_quarantined cand), (d_quarantined prior); tauto.
  - destruct (d_observation_fresh cand); tauto.
  - apply (Hk ChangeKind.DRAIN_INITIATED). split; assumption.
Qed.

Lemma empty_diff_means_unchanged_witness :
  diff_device_state device_default device_default 5 (MkGen 1) (MkGen 1) = [] /\
  d_present device_default = d_present device_default.
Proof.
  split; [reflexivity|].
  exact (proj1 (empty_diff_means_unchanged device_default device_default 5 (MkGen 1) (MkGen 1)
                  eq_refl)).
Defined.

(** A movement the diff does not report: the end of a drain. *)
Example undrain_not_reported t g e :
  diff_device_state (d_set_drain DrainState.DRAINED device_default) device_default t g e = [].
Proof. reflexivity. Qed.
