(* ===== verification/Pipeline.v ===== *)
(** * Observation pipeline ([observation/pipeline.hpp])

    Normalisation of a probe into an observation, and the application of an
    observation to the prior device state. *)

From S2P Require Import Prelude Core Identity Device Health Eligibility Observation Change.

Module PipelineStage.

Inductive PipelineStage :=
  | Enumerate | Identify | Probe | Validate | Normalize | Compare | Publish | Commit
  | Raw (b : Z).

Definition to_byte (s : PipelineStage) : Z :=
  match s with
  | Enumerate => 1 | Identify => 2 | Probe => 3 | Validate => 4 | Normalize => 5
  | Compare => 6 | Publish => 7 | Commit => 8 | Raw b => b
  end.

Definition to_string (s : PipelineStage) : string :=
  match s with
  | Enumerate => "enumerate" | Identify => "identify" | Probe => "probe"
  | Validate => "validate" | Normalize => "normalize" | Compare => "compare"
  | Publish => "publish" | Commit => "commit" | Raw _ => "unknown"
  end.

End PipelineStage.

Abbreviation PipelineStage := PipelineStage.PipelineStage.

Record ObservationMetadata := MkMeta {
  mt_device_id : DeviceId;
  mt_observation_generation : ObservationGeneration;
  mt_health_generation : HealthGeneration;
  mt_observed_at : Timestamp;
  mt_source_worker_boot : WorkerBootId;
  mt_source_worker : WorkerId;
  mt_source_node : NodeId;
  mt_epoch : CoordinatorEpoch;
  mt_device_generation : DeviceGeneration
}.

Record ObservationPolicy := MkPolicy {
  po_freshness_threshold_ms : DurationMs;
  po_required_architecture : string;
  po_required_compute_capability : ComputeCapability;
  po_required_memory : Z;
  po_require_core_validation : bool;
  po_required_capabilities : list string
}.

(** The default policy: 24 hours, nothing required. *)
Definition policy_default : ObservationPolicy :=
  MkPolicy (24 * 60 * 60 * 1000) "" cc_zero 0 true [].

Definition normalize_observation (probe : DeviceProbe) (meta : ObservationMetadata)
  : DeviceObservation := {|
  o_device_id := mt_device_id meta;
  o_observation_generation := mt_observation_generation meta;
  o_health_generation := mt_health_generation meta;
  o_observed_at := mt_observed_at meta;
  o_source_worker_boot := mt_source_worker_boot meta;
  o_source_worker := mt_source_worker meta;
  o_source_node := mt_source_node meta;
  o_epoch := mt_epoch meta;
  o_device_generation := mt_device_generation meta;
  o_identity := p_identity probe;
  o_health := if p_present probe then HealthState.UNKNOWN else HealthState.OFFLINE;
  o_health_explanation := "";
  o_total_memory := p_total_memory probe;
  o_used_memory := p_used_memory probe;
  o_free_memory := p_free_memory probe;
  o_temperature_c := p_temperature_c probe;
  o_power_w := p_power_w probe;
  o_capabilities := p_capabilities probe;
  o_core_validation_ok := p_core_validation_ok probe;
  o_validation_detail := p_validation_detail probe;
  o_enumerated := p_enumerated probe;
  o_present := p_present probe;
  o_driver_runtime_ok := p_driver_runtime_ok probe;
  o_cuda_init_ok := p_cuda_init_ok probe;
  o_memory_alloc_ok := p_memory_alloc_ok probe;
  o_h2d_ok := p_h2d_ok probe;
  o_kernel_exec_ok := p_kernel_exec_ok probe;
  o_sync_ok := p_sync_ok probe;
  o_d2h_ok := p_d2h_ok probe;
  o_verify_ok := p_verify_ok probe
|}.

(** The signals a probe does not surface keep their default: limits respected,
    no fatal error, threshold 3. *)
Definition health_signals_from_probe (probe : DeviceObservation)
  (was_known observation_stale : bool) : HealthSignals := {|
  hs_enumerated := o_enumerated probe;
  hs_device_present := o_present probe;
  hs_was_known := was_known;
  hs_driver_runtime_ok := o_driver_runtime_ok probe;
  hs_cuda_init_ok := o_cuda_init_ok probe;
  hs_memory_alloc_ok := o_memory_alloc_ok probe;
  hs_kernel_exec_ok := o_kernel_exec_ok probe;
  hs_sync_ok := o_sync_ok probe;
  hs_mem_roundtrip_ok := o_d2h_ok probe && o_verify_ok probe;
  hs_fatal_error := false;
  hs_temperature_within_limits := true;
  hs_power_within_limits := true;
  hs_consecutive_failures := if o_core_validation_ok probe then 0 else 1;
  hs_observation_stale := observation_stale;
  hs_explicitly_drained := false;
  hs_inflight_work_remaining := false;
  hs_quarantined := false;
  hs_last_validation_ok := o_core_validation_ok probe;
  hs_failure_threshold := 3
|}.

Record AppliedObservation := MkApplied {
  ao_state : DeviceState;
  ao_changes : list ChangeRecord;
  ao_eligibility : EligibilityResult;
  ao_fresh : bool;
  ao_accepted : bool
}.

(** [AppliedObservation last{};] *)
Definition applied_default : AppliedObservation :=
  MkApplied device_default [] elig_init false false.

(** Subtraction of [std::int64_t]: two's complement, as the targets compute it
    where the language leaves the overflow undefined. *)
Definition i64_sub (a b : Z) : Z := to_signed 64 (wrap 64 (a - b)).

(** The condition [fresh]. *)
Definition observation_is_fresh (last_observed_at observed_at threshold now : Z) : bool :=
  negb (observed_at =? kInvalidTimestamp) &&
  (i64_sub now observed_at <=? threshold) &&
  ((observed_at >=? last_observed_at) || (last_observed_at =? kInvalidTimestamp)).

(** [ei.architecture_match]. *)
Definition architecture_match (policy : ObservationPolicy) (identity : DeviceIdentity) : bool :=
  let m := bool_decide (po_required_architecture policy = "") ||
           bool_decide (id_architecture identity = po_required_architecture policy) in
  if negb (cc_eqb (id_compute_capability identity) cc_zero) &&
     negb (cc_eqb (po_required_compute_capability policy) cc_zero) then
    m && cc_geb (id_compute_capability identity) (po_required_compute_capability policy)
  else m.

(** The inner loop: the device offers capability [req] with a known kind. *)
Definition has_capability (caps : list Capability) (req : string) : bool :=
  existsb (fun c => bool_decide (cap_name c = req) &&
                    negb (bool_decide (cap_kind c = CapabilityKind.UNKNOWN))) caps.

(** The outer loop stops at the first missing capability; the initial value is
    [policy.required_capabilities.empty()]. *)
Fixpoint capability_loop (caps : list Capability) (reqs : list string) (match_ : bool) : bool :=
  match reqs with
  | [] => match_
  | req :: reqs' => if negb (has_capability caps req) then false
                    else capability_loop caps reqs' match_
  end.

Definition capability_match (policy : ObservationPolicy) (caps : list Capability) : bool :=
  capability_loop caps (po_required_capabilities policy)
    (match po_required_capabilities policy with [] => true | _ => false end).

(** The eligibility input built from the candidate state. *)
Definition eligibility_input (policy : ObservationPolicy) (norm : DeviceObservation)
  (health : HealthState) (fresh : bool) (prior : DeviceState) : EligibilityInput := {|
  ei_health := health;
  ei_observation_fresh := fresh;
  ei_observed_generation := o_device_generation norm;
  ei_current_generation := o_device_generation norm;
  ei_architecture_match := architecture_match policy (o_identity norm);
  ei_sufficient_memory := o_total_memory norm >=? po_required_memory policy;
  ei_driver_match := true;
  ei_cuda_available := o_driver_runtime_ok norm && o_cuda_init_ok norm;
  ei_capability_match := capability_match policy (o_capabilities norm);
  ei_drain_active := drain_active (d_drain prior);
  ei_quarantine := d_quarantined prior;
  ei_worker_alive := true;
  ei_device_present := o_present norm;
  ei_worker_restarted := false;
  ei_required_memory := po_required_memory policy;
  ei_available_memory := o_free_memory norm
|}.

(** [last_authoritative_at] advances only on authoritative evidence. *)
Definition authoritative (fresh : bool) (s : EligibilityState) : bool :=
  fresh && negb (bool_decide (s = EligibilityState.STALE)) &&
  negb (bool_decide (s = EligibilityState.QUARANTINED)) &&
  negb (bool_decide (s = EligibilityState.DRAINING)).

Definition apply_observation (prior : DeviceState) (norm : DeviceObservation)
  (policy : ObservationPolicy) (now : Timestamp) (epoch : CoordinatorEpoch)
  : AppliedObservation :=
  let fresh := observation_is_fresh (d_last_observed_at prior) (o_observed_at norm)
                 (po_freshness_threshold_ms policy) now in
  let health := evaluate_health (health_signals_from_probe norm (d_present prior) (negb fresh)) in
  let elig := evaluate_eligibility
                (eligibility_input policy norm (h_state health) fresh prior) in
  let cand := {|
    d_device_id := o_device_id norm;
    d_generation := o_device_generation norm;
    d_identity := o_identity norm;
    d_present := o_present norm;
    d_health := h_state health;
    d_health_explanation := h_explanation health;
    d_eligibility := el_state elig;
    d_eligibility_reasons := el_reasons elig;
    d_drain := d_drain prior;
    d_quarantined := d_quarantined prior;
    d_quarantine := d_quarantine prior;
    d_total_memory := o_total_memory norm;
    d_used_memory := o_used_memory norm;
    d_free_memory := o_free_memory norm;
    d_temperature_c := o_temperature_c norm;
    d_power_w := o_power_w norm;
    d_capabilities := o_capabilities norm;
    d_core_validation_ok := o_core_validation_ok norm;
    d_validation_detail := o_validation_detail norm;
    d_last_observed_at := o_observed_at norm;
    d_last_validated_at :=
      if o_core_validation_ok norm then o_observed_at norm else d_last_validated_at prior;
    d_last_authoritative_at :=
      if authoritative fresh (el_state elig) then now else d_last_authoritative_at prior;
    d_observation_generation := o_observation_generation norm;
    d_health_generation := MkGen 0;
    d_source_worker_boot := o_source_worker_boot norm;
    d_observation_fresh := fresh
  |} in
  MkApplied cand (diff_device_state prior cand (o_observed_at norm) (d_generation cand) epoch)
    elig fresh true.

(** The probe proved every operational check the health evaluator consults. *)
Definition checks_proven (o : DeviceObservation) : bool :=
  o_driver_runtime_ok o && o_cuda_init_ok o && o_memory_alloc_ok o && o_kernel_exec_ok o &&
  o_sync_ok o && o_d2h_ok o && o_verify_ok o.

(** The requirements of a policy that the pipeline consults: architecture and compute
    capability, memory, and capabilities. It never reads [require_core_validation]. *)
Definition requirements_met (policy : ObservationPolicy) (o : DeviceObservation) : Prop :=
  architecture_match policy (o_identity o) = true /\
  po_required_memory policy <= o_total_memory o /\
  po_required_memory policy <= o_free_memory o /\
  capability_match policy (o_capabilities o) = true.

(** The policy with the other setting of [require_core_validation]. *)
Definition set_core_validation (b : bool) (policy : ObservationPolicy) : ObservationPolicy :=
  MkPolicy (po_freshness_threshold_ms policy) (po_required_architecture policy)
    (po_required_compute_capability policy) (po_required_memory policy) b
    (po_required_capabilities policy).

(* ------------------------------------------------------------------ *)
(** ** Lemmas *)

(** The health the pipeline computes, as a formula of the observation. *)
Lemma pipeline_health norm known fresh :
  h_state (evaluate_health (health_signals_from_probe norm known (negb fresh))) =
    if negb (o_present norm) then
      if negb known then HealthState.OFFLINE else HealthState.LOST
    else if negb (o_driver_runtime_ok norm && o_cuda_init_ok norm) then HealthState.UNHEALTHY
    else if negb fresh then HealthState.RECOVERING
    else if checks_proven norm then HealthState.HEALTHY
    else if o_core_validation_ok norm then HealthState.RECOVERING
    else HealthState.UNHEALTHY.
Proof.
  unfold evaluate_health, checks_proven, core_ok.
  cbn [health_signals_from_probe hs_quarantined hs_explicitly_drained hs_device_present
       hs_was_known hs_fatal_error hs_driver_runtime_ok hs_cuda_init_ok hs_consecutive_failures
       hs_failure_threshold hs_observation_stale hs_memory_alloc_ok hs_kernel_exec_ok hs_sync_ok
       hs_mem_roundtrip_ok hs_last_validation_ok hs_temperature_within_limits
       hs_power_within_limits].
  destruct (o_present norm), known; try reflexivity;
  destruct (o_driver_runtime_ok norm), (o_cuda_init_ok norm); try reflexivity;
  destruct fresh, (o_core_validation_ok norm); try reflexivity;
  destruct (o_memory_alloc_ok norm), (o_kernel_exec_ok norm), (o_sync_ok norm),
    (o_d2h_ok norm), (o_verify_ok norm); reflexivity.
Qed.

Lemma capability_loop_spec caps reqs m :
  capability_loop caps reqs m = m && forallb (has_capability caps) reqs.
Proof.
  induction reqs as [|r reqs IH]; cbn; [by rewrite andb_true_r|].
  destruct (has_capability caps r); cbn; [exact IH | by rewrite andb_false_r].
Qed.

Lemma i64_sub_exact a b : is_i64 (a - b) -> i64_sub a b = a - b.
Proof. intros H. apply to_signed_wrap; [lia | exact H]. Qed.

(** A healthy verdict of the pipeline. *)
Lemma pipeline_health_operational norm known fresh :
  (h_state (evaluate_health (health_signals_from_probe norm known (negb fresh)))
     = HealthState.HEALTHY \/
   h_state (evaluate_health (health_signals_from_probe norm known (negb fresh)))
     = HealthState.DEGRADED) <->
  o_present norm = true /\ fresh = true /\ checks_proven norm = true.
Proof.
  rewrite pipeline_health. unfold checks_proven.
  destruct (o_present norm), known, fresh, (o_driver_runtime_ok norm), (o_cuda_init_ok norm);
    cbn; try case_branch; try case_branch; intuition congruence.
Qed.

Lemma drain_active_false d : drain_active d = false <-> d = DrainState.ACTIVE.
Proof. unfold drain_active. by rewrite negb_false_iff, bool_decide_eq_true. Qed.

(** The gates of the pipeline's eligibility input. *)
Lemma pipeline_gates policy norm h fresh prior :
  gates_clear (eligibility_input policy norm h fresh prior) <->
  d_quarantined prior = false /\ d_drain prior = DrainState.ACTIVE /\ fresh = true /\
  o_present norm = true /\ o_driver_runtime_ok norm = true /\ o_cuda_init_ok norm = true /\
  requirements_met policy norm.
Proof.
  unfold gates_clear, gate_table, requirements_met. rewrite !Forall_cons, Forall_nil.
  cbn [fst eligibility_input ei_quarantine ei_drain_active ei_observation_fresh ei_device_present
       ei_architecture_match ei_sufficient_memory ei_required_memory ei_available_memory
       ei_capability_match ei_cuda_available ei_worker_restarted ei_worker_alive ei_driver_match
       ei_observed_generation ei_current_generation].
  rewrite gen_eqb_refl, drain_active_false, !orb_false_iff, !negb_false_iff, andb_true_iff,
    Z.geb_leb, Z.leb_le, Z.ltb_ge.
  cbn [orb negb]. tauto.
Qed.

(** When an applied observation is schedulable. *)
Lemma applied_schedulable prior norm policy now epoch :
  schedulable (d_eligibility (ao_state (apply_observation prior norm policy now epoch))) = true <->
  ao_fresh (apply_observation prior norm policy now epoch) = true /\
  o_present norm = true /\ d_quarantined prior = false /\ d_drain prior = DrainState.ACTIVE /\
  checks_proven norm = true /\ requirements_met policy norm.
Proof.
  unfold apply_observation; cbn [ao_state ao_fresh d_eligibility].
  rewrite schedulable_iff_clear, pipeline_gates.
  cbn [eligibility_input ei_health]. rewrite pipeline_health_operational.
  unfold checks_proven. rewrite !andb_true_iff. tauto.
Qed.

(* ------------------------------------------------------------------ *)
(** ** Properties *)

(** C26. The published eligibility, exactly: after an observation the device may be
    scheduled exactly when the evidence is fresh, the device is present, not
    quarantined, not draining, the checks the health evaluator consults were proven
    (driver and runtime, initialisation, allocation, kernel, synchronisation, the copy
    back and its verification), and the policy's requirements of architecture, compute
    capability, memory and capabilities are met. The policy's
    [require_core_validation], which is documented to govern eligibility, makes no
    difference to the result. *)
Theorem applied_schedulable_iff prior norm policy now epoch :
  let a := apply_observation prior norm policy now epoch in
  (schedulable (d_eligibility (ao_state a)) = true <->
   ao_fresh a = true /\ o_present norm = true /\ d_quarantined prior = false /\
   d_drain prior = DrainState.ACTIVE /\ checks_proven norm = true /\
   requirements_met policy norm) /\
  forall b, apply_observation prior norm (set_core_validation b policy) now epoch = a.
Proof. split; [apply applied_schedulable|done]. Qed.

(** An observation never moves the administrative axes. *)
Theorem observation_preserves_admin prior norm policy now epoch :
  let s := ao_state (apply_observation prior norm policy now epoch) in
  d_drain s = d_drain prior /\ d_quarantined s = d_quarantined prior /\
  d_quarantine s = d_quarantine prior.
Proof. cbn. auto. Qed.

(** The pipeline reaches DEGRADED for no probe: temperature and power never
    enter the signals. *)
Theorem pipeline_never_degraded prior norm policy now epoch :
  let s := ao_state (apply_observation prior norm policy now epoch) in
  d_health s <> HealthState.DEGRADED /\
  d_eligibility s <> EligibilityState.DEGRADED_ELIGIBLE.
Proof.
  intros s. assert (d_health s <> HealthState.DEGRADED) as Hd.
  { subst s. unfold apply_observation; cbn [ao_state d_health]. rewrite pipeline_health.
    repeat case_branch; discriminate. }
  split; [exact Hd|]. intros He. apply degraded_eligible_health in He. exact (Hd He).
Qed.

(** A policy that requires capabilities is satisfied by no device: the match
    starts as [false] and is never set. *)
Theorem required_capabilities_never_match policy caps :
  capability_match policy caps = true <-> po_required_capabilities policy = [].
Proof.
  unfold capability_match. rewrite capability_loop_spec.
  by destruct (po_required_capabilities policy).
Qed.

(** Freshness, for timestamps whose distance fits a signed 64-bit value. *)
Theorem observation_fresh_iff last observed threshold now :
  is_i64 (now - observed) ->
  observation_is_fresh last observed threshold now = true <->
  observed <> 0 /\ now - observed <= threshold /\ (last <= observed \/ last = 0).
Proof.
  intros H. unfold observation_is_fresh. rewrite i64_sub_exact by exact H.
  rewrite !andb_true_iff, orb_true_iff, negb_true_iff, Z.eqb_neq, Z.leb_le, Z.geb_leb,
    Z.leb_le, Z.eqb_eq. unfold kInvalidTimestamp. tauto.
Qed.

Lemma observation_fresh_iff_witness :
  is_i64 (100 - 40) /\
  (observation_is_fresh 30 40 50 100 = true <->
   40 <> 0 /\ 100 - 40 <= 50 /\ (30 <= 40 \/ 30 = 0)).
Proof.
  assert (is_i64 (100 - 40)) as H by (unfold is_s; lia).
  split; [exact H | exact (observation_fresh_iff 30 40 50 100 H)].
Defined.

(* ------------------------------------------------------------------ *)
(** ** Concrete observations *)

(** An observation of the sample device by worker 10, boot 100, at epoch 1. *)
Definition sample_observation (gen at_ : Z) (present core : bool) : DeviceObservation :=
  normalize_observation
    (MkProbe sample_identity present present true true 34359738368 0 34359738368 None None
       true core true true true true core "" [])
    (MkMeta (MkId 7) (MkGen gen) (MkGen 1) at_ (MkId 100) (MkId 10) (MkId 1) (MkGen 1) (MkGen gen)).

Example sample_observation_eligible :
  let s := ao_state (apply_observation device_default (sample_observation 1 1000 true true)
                       policy_default 1000 (MkGen 1)) in
  d_health s = HealthState.HEALTHY /\ d_eligibility s = EligibilityState.ELIGIBLE.
Proof. vm_compute. auto. Qed.

(** [require_core_validation] is not consulted: a device whose core validation
    failed in the host-to-device copy is ELIGIBLE under the default policy,
    which requires validation. *)
Example eligible_without_core_validation :
  po_require_core_validation policy_default = true /\
  o_core_validation_ok (sample_observation 1 1000 true false) = false /\
  d_eligibility (ao_state (apply_observation device_default (sample_observation 1 1000 true false)
                             policy_default 1000 (MkGen 1))) = EligibilityState.ELIGIBLE.
Proof. vm_compute. auto. Qed.

(** The second observation of an absent device reports it as never seen. *)
Example absent_device_forgotten :
  let a1 := apply_observation device_default (sample_observation 1 1000 true true)
              policy_default 1000 (MkGen 1) in
  let a2 := apply_observation (ao_state a1) (sample_observation 2 1001 false true)
              policy_default 1001 (MkGen 1) in
  let a3 := apply_observation (ao_state a2) (sample_observation 3 1002 false true)
              policy_default 1002 (MkGen 1) in
  d_health (ao_state a2) = HealthState.LOST /\ d_health (ao_state a3) = HealthState.OFFLINE /\
  d_health_explanation (ao_state a3) =
    "offline: device not enumerable and never previously observed".
Proof. vm_compute. auto. Qed.

(** A timestamp in the future is fresh, and makes the honest evidence that
    follows stale. *)
Example future_observation_blocks :
  let a1 := apply_observation device_default (sample_observation 1 999999 true true)
              policy_default 1000 (MkGen 1) in
  let a2 := apply_observation (ao_state a1) (sample_observation 2 1001 true true)
              policy_default 1001 (MkGen 1) in
  ao_fresh a1 = true /\ ao_fresh a2 = false.
Proof. vm_compute. auto. Qed.
