(* ===== verification/Clocks.v ===== *)
(** * Clocks ([core/clock.hpp])

    The injectable clock and its two implementations, and what the evaluators of
    freshness see through one: the age of an observation is the time the clock has
    been moved on. *)

From S2P Require Import Prelude Core Identity Health Eligibility Observation Change Pipeline.

(** The abstract [Clock]. *)
Class Clock (C : Type) := clock_now : C -> Timestamp.

(** [now_millis]: the system clock's ticks since the epoch, of which there are
    [per_ms] in a millisecond; [duration_cast] truncates towards zero. *)
Definition now_millis (per_ms ticks : Z) : Timestamp := Z.quot ticks per_ms.

(** [SystemClock]: it has no state; a value of the type stands for what the system
    clock reads at the call. *)
Record SystemClock := MkSystemClock { sk_per_ms : Z; sk_ticks : Z }.
#[export] Instance system_clock : Clock SystemClock := fun c => now_millis (sk_per_ms c) (sk_ticks c).

(** [DeterministicClock]: the member [t_]. *)
Record DeterministicClock := MkClock { ck_t : Timestamp }.
#[export] Instance deterministic_clock : Clock DeterministicClock := ck_t.

Definition clock_construct (t : option Timestamp) : DeterministicClock :=
  MkClock (default kInvalidTimestamp t).
Definition clock_set (t : Timestamp) (_ : DeterministicClock) : DeterministicClock := MkClock t.
(** [t_ += ms]: the signed addition, where it does not overflow. *)
Definition clock_advance (ms : DurationMs) (c : DeterministicClock) : DeterministicClock :=
  MkClock (to_signed 64 (wrap 64 (ck_t c + ms))).
Definition clock_current (c : DeterministicClock) : Timestamp := ck_t c.

(** A test's script of the clock. *)
Inductive ClockOp := Set_ (t : Timestamp) | Advance (ms : DurationMs).

Definition clock_op (op : ClockOp) (c : DeterministicClock) : DeterministicClock :=
  match op with Set_ t => clock_set t c | Advance ms => clock_advance ms c end.

Definition clock_script (ops : list ClockOp) (c : DeterministicClock) : DeterministicClock :=
  foldl (fun c op => clock_op op c) c ops.

(** The reference: the last time set and the advances after it. *)
Fixpoint reading (t : Timestamp) (ops : list ClockOp) : Timestamp :=
  match ops with
  | [] => t
  | Set_ t' :: ops => reading t' ops
  | Advance ms :: ops => reading (t + ms) ops
  end.

(** No addition of the script leaves 64 bits. *)
Fixpoint in_range (t : Timestamp) (ops : list ClockOp) : Prop :=
  match ops with
  | [] => True
  | Set_ t' :: ops => in_range t' ops
  | Advance ms :: ops => is_i64 (t + ms) /\ in_range (t + ms) ops
  end.

(* ------------------------------------------------------------------ *)
(** ** Lemmas *)

Lemma clock_advance_exact ms c : is_i64 (ck_t c + ms) -> clock_advance ms c = MkClock (ck_t c + ms).
Proof. intros H. unfold clock_advance. by rewrite to_signed_wrap. Qed.

Lemma script_reading ops c : in_range (ck_t c) ops -> clock_now (clock_script ops c) = reading (ck_t c) ops.
Proof.
  revert c. induction ops as [|[t|ms] ops IH]; intros c; cbn [in_range reading]; [done| |].
  - intros H. by apply (IH (MkClock t)).
  - intros [Hr H]. cbn [clock_script foldl clock_op]. rewrite clock_advance_exact by done.
    by apply (IH (MkClock (ck_t c + ms))).
Qed.

(* ------------------------------------------------------------------ *)
(** ** Properties *)

(** The deterministic clock drives freshness: after any script that stays within 64
    bits it reads the last time set and the advances after it, and an observation
    stamped with an earlier reading is fresh until the clock has been advanced by
    more than the threshold, stale from then on. *)
Theorem clock_drives_freshness ops c threshold ms :
  in_range (ck_t c) ops -> 0 <= ms -> is_i64 ms -> is_i64 (reading (ck_t c) ops + ms) ->
  reading (ck_t c) ops <> kInvalidTimestamp ->
  let c1 := clock_script ops c in
  let c2 := clock_advance ms c1 in
  clock_now c1 = reading (ck_t c) ops /\
  (observation_is_fresh (clock_now c1) (clock_now c1) threshold (clock_now c2) = true <-> ms <= threshold).
Proof.
  intros Hr Hms H1 H2 Hne c1 c2. pose proof (script_reading ops c Hr) as Hc.
  split; [exact Hc|]. subst c1 c2. set (c1 := clock_script ops c) in *.
  change (clock_now c1) with (ck_t c1) in *. change (clock_now (clock_advance ms c1)) with (ck_t (clock_advance ms c1)).
  rewrite clock_advance_exact by (rewrite Hc; exact H2). cbn [ck_t]. rewrite Hc.
  set (t := reading (ck_t c) ops) in *. unfold observation_is_fresh.
  rewrite i64_sub_exact by (by replace (t + ms - t) with ms by lia).
  rewrite !andb_true_iff, orb_true_iff, negb_true_iff, Z.eqb_neq, Z.leb_le, Z.geb_leb, Z.leb_le. lia.
Qed.

Lemma clock_drives_freshness_witness :
  clock_now (clock_script [Set_ 1000; Advance 500] (clock_construct None)) = 1500 /\
  observation_is_fresh 1500 1500 1000 2600 = false.
Proof.
  destruct (clock_drives_freshness [Set_ 1000; Advance 500] (clock_construct None) 1000 1100)
    as [H1 H2]; [by split|lia|by split|by split|done|].
  split; [exact H1|]. destruct (observation_is_fresh 1500 1500 1000 2600) eqn:E; [|reflexivity].
  destruct (proj1 H2 E). reflexivity.
Defined.
