(* ===== verification/Registration.v ===== *)
(** * Worker registration ([fleet/registration.hpp])

    The registration record and its wire format. *)

From S2P Require Import Prelude Core Codec.

Record Registration := MkRegistration {
  r_node : NodeId;
  r_worker : WorkerId;
  r_worker_boot : WorkerBootId;
  r_agent_version : AgentVersion;
  r_protocol_version : ProtocolVersion;
  r_os_platform : string;
  r_driver_version : DriverVersion;
  r_runtime_version : RuntimeVersion;
  r_enumerated_devices : list string;
  r_supported_capabilities : list string;
  r_registration_generation : RegistrationGeneration;
  r_epoch : CoordinatorEpoch
}.

#[global] Instance Registration_eq_dec : EqDecision Registration.
Proof. solve_decision. Defined.

Definition encode_registration (r : Registration) : list byte :=
  ([] : ByteWriter)
    |> w_u64 (id_value (r_node r))
    |> w_u64 (id_value (r_worker r))
    |> w_u64 (id_value (r_worker_boot r))
    |> w_u32 (sv_major (av_version (r_agent_version r)))
    |> w_u32 (sv_minor (av_version (r_agent_version r)))
    |> w_u32 (sv_patch (av_version (r_agent_version r)))
    |> w_u32 (pv_value (r_protocol_version r))
    |> w_string (r_os_platform r) 128
    |> w_string (dv_text (r_driver_version r)) 128
    |> w_u32 (rv_major (r_runtime_version r))
    |> w_u32 (rv_minor (r_runtime_version r))
    |> w_u32 (count32 (r_enumerated_devices r))
    |> w_each (w_text 256) (r_enumerated_devices r)
    |> w_u32 (count32 (r_supported_capabilities r))
    |> w_each (w_text 128) (r_supported_capabilities r)
    |> w_u64 (gen_value (r_registration_generation r))
    |> w_u64 (gen_value (r_epoch r)).

Definition registration_body : Parser Error Registration :=
  node ← rd_u64 ?? MkError Truncated "node truncated";
  worker ← rd_u64 ?? MkError Truncated "worker truncated";
  boot ← rd_u64 ?? MkError Truncated "boot truncated";
  major ← rd_u32 ?? MkError Truncated "agent major truncated";
  minor ← rd_u32 ?? MkError Truncated "agent minor truncated";
  patch ← rd_u32 ?? MkError Truncated "agent patch truncated";
  protocol ← rd_u32 ?? MkError Truncated "protocol truncated";
  os ← rd_string 128 ?? MkError Truncated "os truncated";
  driver ← rd_string 128 ?? MkError Truncated "driver truncated";
  rt_major ← rd_u32 ?? MkError Truncated "runtime major truncated";
  rt_minor ← rd_u32 ?? MkError Truncated "runtime minor truncated";
  devs ← rd_u32 ?? MkError Truncated "dev count truncated";
  _ ← ensure (negb (devs >? 4096)) (MkError OutOfBounds "too many devices");
  devices ← rd_times (Z.to_nat devs) (rd_string 256 ?? MkError Truncated "device truncated");
  caps ← rd_u32 ?? MkError Truncated "cap count truncated";
  _ ← ensure (negb (caps >? 4096)) (MkError OutOfBounds "too many capabilities");
  capabilities ← rd_times (Z.to_nat caps)
                   (rd_string 128 ?? MkError Truncated "capability truncated");
  reg_gen ← rd_u64 ?? MkError Truncated "reg gen truncated";
  epoch ← rd_u64 ?? MkError Truncated "epoch truncated";
  mret (MkRegistration (MkId node) (MkId worker) (MkId boot)
    (MkAgentVersion (MkSemanticVersion major minor patch)) (MkProtocolVersion protocol) os
    (MkDriverVersion driver) (MkRuntimeVersion rt_major rt_minor) devices capabilities
    (MkGen reg_gen) (MkGen epoch)).

Definition decode_registration (data : list byte) : Result Registration :=
  run_decoder registration_body (MkError Malformed "trailing garbage after registration") data.

Record registration_wf (r : Registration) : Prop := {
  rw_node : id_wf (r_node r);
  rw_worker : id_wf (r_worker r);
  rw_boot : id_wf (r_worker_boot r);
  rw_major : is_u32 (sv_major (av_version (r_agent_version r)));
  rw_minor : is_u32 (sv_minor (av_version (r_agent_version r)));
  rw_patch : is_u32 (sv_patch (av_version (r_agent_version r)));
  rw_protocol : is_u32 (pv_value (r_protocol_version r));
  rw_os : str_fits 128 (r_os_platform r);
  rw_driver : str_fits 128 (dv_text (r_driver_version r));
  rw_rt_major : is_u32 (rv_major (r_runtime_version r));
  rw_rt_minor : is_u32 (rv_minor (r_runtime_version r));
  rw_devices : Forall (str_fits 256) (r_enumerated_devices r);
  rw_devices_count : Z.of_nat (length (r_enumerated_devices r)) <= 4096;
  rw_capabilities : Forall (str_fits 128) (r_supported_capabilities r);
  rw_capabilities_count : Z.of_nat (length (r_supported_capabilities r)) <= 4096;
  rw_reg_gen : gen_wf (r_registration_generation r);
  rw_epoch : gen_wf (r_epoch r)
}.

(* ------------------------------------------------------------------ *)
(** ** Lemmas *)

Lemma registration_parses r :
  registration_wf r ->
  parses (code_is Truncated) registration_body (encode_registration r) r.
Proof.
  intros []. unfold encode_registration, registration_body. writer_norm.
  parses_fields. by destruct r as [? ? ? [[? ? ?]] [?] ? [?] [? ?] ? ? ? ?].
Qed.

(* ------------------------------------------------------------------ *)
(** ** Properties *)

(** Round trip: the coordinator reads back the registration the agent wrote. *)
Theorem registration_roundtrip r :
  registration_wf r -> decode_registration (encode_registration r) = Ok r.
Proof. intros H. exact (run_decoder_ok (registration_parses r H)). Qed.

(** A registration cut short is rejected as truncated, one followed by further
    bytes as malformed. *)
Theorem registration_rejects_damage r cut rest extra :
  registration_wf r -> encode_registration r = cut ++ rest -> rest <> [] -> extra <> [] ->
  (exists e, decode_registration cut = Err e /\ err_code e = Truncated) /\
  (exists e, decode_registration (encode_registration r ++ extra) = Err e /\
             err_code e = Malformed).
Proof.
  intros H Hl Hr Hx. split.
  - exact (run_decoder_truncated (registration_parses r H) cut rest Hl Hr).
  - eexists. split; [exact (run_decoder_garbage (registration_parses r H) extra Hx)|reflexivity].
Qed.

Definition sample_registration : Registration :=
  MkRegistration (MkId 1) (MkId 10) (MkId 100) (MkAgentVersion (MkSemanticVersion 1 0 0))
    (MkProtocolVersion 1) "linux" (MkDriverVersion "13040") (MkRuntimeVersion 13 0)
    ["nvidia|NVIDIA|GPU-w10|0000:01:02.0|blackwell|12.0|34359738368|13040"] ["cuda"; "fp16"]
    (MkGen 1) (MkGen 1).

Lemma sample_registration_wf : registration_wf sample_registration.
Proof.
  split; try (repeat constructor; vm_compute; congruence);
    vm_compute; try (split; congruence); congruence.
Qed.

Lemma registration_roundtrip_witness :
  registration_wf sample_registration /\
  decode_registration (encode_registration sample_registration) = Ok sample_registration.
Proof.
  split; [apply sample_registration_wf | apply registration_roundtrip, sample_registration_wf].
Defined.
