(* ===== verification/WireFormats.v ===== *)
(** * Wire formats shared by the codecs

    The layouts that [observation/observation_codec.hpp] and
    [fleet/snapshot_codec.hpp] have in common: optional values, device
    identities and capabilities. The two decoders differ only in how a failed
    read is reported (a message, or [false]): a layout takes the error of a
    failed read as the argument [err]. *)

From S2P Require Import Prelude Core Codec Identity Device.

(* ------------------------------------------------------------------ *)
(** ** Optional values *)

(** [w.u8(v.has_value() ? 1 : 0); if (v.has_value()) put( *v );] *)
Definition w_optional {A} (f : A -> ByteWriter -> ByteWriter) (o : option A) (w : ByteWriter)
  : ByteWriter :=
  match o with
  | Some v => w |> w_bool true |> f v
  | None => w |> w_bool false
  end.

Definition rd_optional {E A} (p : Parser unit A) (e_flag e_value : E) : Parser E (option A) :=
  flag ← rd_u8 ?? e_flag;
  if flag =? 0 then mret None
  else v ← p ?? e_value; mret (Some v).

Definition enc_optional {A} (put : A -> list byte) (o : option A) : list byte :=
  match o with Some v => enc_bool true ++ put v | None => enc_bool false end.

(* ------------------------------------------------------------------ *)
(** ** Device identities *)

Definition write_identity (id : DeviceIdentity) (w : ByteWriter) : ByteWriter :=
  w |> w_u8 (to_u8 (id_vendor id))
    |> w_string (id_vendor_name id) 128
    |> w_string (uuid_value (id_uuid id)) 128
    |> w_u32 (pci_domain (id_pci id))
    |> w_u16 (pci_bus (id_pci id))
    |> w_u16 (pci_device (id_pci id))
    |> w_u16 (pci_function (id_pci id))
    |> w_string (id_architecture id) 64
    |> w_u32 (cc_major (id_compute_capability id))
    |> w_u32 (cc_minor (id_compute_capability id))
    |> w_u64 (id_total_physical_memory id)
    |> w_i64 (id_numa_node id)
    |> w_string (dv_text (id_driver_version id)) 128
    |> w_u32 (rv_major (id_runtime_version id))
    |> w_u32 (rv_minor (id_runtime_version id))
    |> w_u32 (mig_gpu_instance_id (id_mig id))
    |> w_u32 (mig_compute_instance_id (id_mig id))
    |> w_optional (fun p => w_u64 (id_value p)) (id_parent_device id).

(** [static_cast<std::int32_t>] of a 64-bit value. *)
Definition to_i32 (v : Z) : Z := to_signed 32 (wrap 32 v).

Definition identity_layout {E} (err : string -> E) : Parser E DeviceIdentity :=
  vendor ← rd_u8 ?? err "vendor truncated";
  vendor_name ← rd_string 128 ?? err "vendor_name truncated";
  uuid ← rd_string 128 ?? err "uuid truncated";
  domain ← rd_u32 ?? err "pci domain truncated";
  bus ← rd_u16 ?? err "pci bus truncated";
  device ← rd_u16 ?? err "pci dev truncated";
  function ← rd_u16 ?? err "pci fn truncated";
  arch ← rd_string 64 ?? err "arch truncated";
  major ← rd_u32 ?? err "cc major truncated";
  minor ← rd_u32 ?? err "cc minor truncated";
  memory ← rd_u64 ?? err "total mem truncated";
  numa ← rd_i64 ?? err "numa truncated";
  driver ← rd_string 128 ?? err "driver truncated";
  rt_major ← rd_u32 ?? err "runtime major truncated";
  rt_minor ← rd_u32 ?? err "runtime minor truncated";
  gpu ← rd_u32 ?? err "mig gpu truncated";
  ci ← rd_u32 ?? err "mig ci truncated";
  parent ← rd_optional rd_u64 (err "parent presence truncated") (err "parent truncated");
  mret (MkIdentity (of_u8 vendor) vendor_name (MkUuid uuid) (MkPci domain bus device function) arch
    (MkCC major minor) memory (to_i32 numa) (MkDriverVersion driver)
    (MkRuntimeVersion rt_major rt_minor) (MkMig gpu ci) (MkId <$> parent)).

(** [read_identity] reports every failure as [false]. *)
Definition read_identity : Parser unit DeviceIdentity := identity_layout (fun _ => tt).

Record identity_wf (id : DeviceIdentity) : Prop := {
  iw_vendor : enum_wf (id_vendor id);
  iw_vendor_name : str_fits 128 (id_vendor_name id);
  iw_uuid : str_fits 128 (uuid_value (id_uuid id));
  iw_domain : is_u32 (pci_domain (id_pci id));
  iw_bus : is_u16 (pci_bus (id_pci id));
  iw_device : is_u16 (pci_device (id_pci id));
  iw_function : is_u16 (pci_function (id_pci id));
  iw_arch : str_fits 64 (id_architecture id);
  iw_major : is_u32 (cc_major (id_compute_capability id));
  iw_minor : is_u32 (cc_minor (id_compute_capability id));
  iw_memory : is_u64 (id_total_physical_memory id);
  iw_numa : is_i32 (id_numa_node id);
  iw_driver : str_fits 128 (dv_text (id_driver_version id));
  iw_rt_major : is_u32 (rv_major (id_runtime_version id));
  iw_rt_minor : is_u32 (rv_minor (id_runtime_version id));
  iw_gpu : is_u32 (mig_gpu_instance_id (id_mig id));
  iw_ci : is_u32 (mig_compute_instance_id (id_mig id));
  iw_parent : forall p, id_parent_device id = Some p -> id_wf p
}.

(* ------------------------------------------------------------------ *)
(** ** Capabilities *)

Definition write_capability (c : Capability) (w : ByteWriter) : ByteWriter :=
  w |> w_u64 (id_value (cap_id c))
    |> w_string (cap_name c) 128
    |> w_u8 (to_u8 (cap_kind c))
    |> w_string (cap_value c) 256
    |> w_string (cap_description c) 256.

Definition capability_layout {E} (err : string -> E) : Parser E Capability :=
  id ← rd_u64 ?? err "cap id truncated";
  name ← rd_string 128 ?? err "cap name truncated";
  kind ← rd_u8 ?? err "cap kind truncated";
  value ← rd_string 256 ?? err "cap value truncated";
  desc ← rd_string 256 ?? err "cap desc truncated";
  mret (MkCapability (MkId id) name (of_u8 kind) value desc).

Record capability_wf (c : Capability) : Prop := {
  cw_id : id_wf (cap_id c);
  cw_name : str_fits 128 (cap_name c);
  cw_kind : enum_wf (cap_kind c);
  cw_value : str_fits 256 (cap_value c);
  cw_description : str_fits 256 (cap_description c)
}.

(* ------------------------------------------------------------------ *)
(** ** Lemmas *)

Lemma w_optional_app {A} (f : A -> ByteWriter -> ByteWriter) (put : A -> list byte) o w :
  (forall x w, f x w = w ++ put x) -> w_optional f o w = w ++ enc_optional put o.
Proof.
  intros Hf. destruct o as [v|]; cbn [w_optional enc_optional]; rewrite ?Hf; autorewrite with writer;
    by rewrite <- ?app_assoc.
Qed.

Lemma w_optional_u64 {A} (f : A -> Z) o w :
  w_optional (fun p => w_u64 (f p)) o w = w ++ enc_optional (fun p => be64 (f p)) o.
Proof. by apply w_optional_app. Qed.
Lemma w_optional_f64 o w : w_optional w_f64 o w = w ++ enc_optional be64 o.
Proof. by apply w_optional_app. Qed.

#[export] Hint Rewrite @w_optional_u64 w_optional_f64 : writer.

Lemma parses_optional {E A} (T : E -> Prop) (p : Parser unit A) put o e1 e2 :
  T e1 -> T e2 -> (forall x, o = Some x -> parses any_error p (put x) x) ->
  parses T (rd_optional p e1 e2) (enc_optional put o) o.
Proof.
  intros H1 H2 Hp. unfold rd_optional.
  Transparent enc_bool. destruct o as [v|]; cbn [enc_optional];
    [change (enc_bool true) with (be8 1) | change (enc_bool false) with (be8 0)].
  - eapply parses_bind; [apply parses_or_fail; [apply wire_u8; unfold is_u; lia|exact H1]|].
    cbn. rewrite <- (app_nil_r (put v)). eapply parses_bind; [|apply parses_ret].
    apply parses_or_fail; [by apply Hp|exact H2].
  - rewrite <- (app_nil_r (be8 0)).
    eapply parses_bind; [apply parses_or_fail; [apply wire_u8; unfold is_u; lia|exact H1]|].
    apply parses_ret.
Qed.
Global Opaque enc_bool.

Lemma parses_optional_u64 {E} (T : E -> Prop) (o : option Z) e1 e2 :
  T e1 -> T e2 -> (forall x, o = Some x -> is_u64 x) ->
  parses T (rd_optional rd_u64 e1 e2) (enc_optional be64 o) o.
Proof. intros H1 H2 Ho. apply parses_optional; auto. intros x Hx. by apply wire_u64, Ho. Qed.

Lemma enc_optional_map {A B} (put : B -> list byte) (f : A -> B) o :
  enc_optional (fun p => put (f p)) o = enc_optional put (f <$> o).
Proof. by destruct o. Qed.

(** An optional double: its 64-bit pattern. *)
Definition opt_f64_wf (o : option double) : Prop := forall x, o = Some x -> is_u64 x.

Lemma to_i32_small v : is_i32 v -> to_i32 v = v.
Proof. apply to_signed_wrap. lia. Qed.

Lemma i32_i64 v : is_i32 v -> is_i64 v.
Proof. unfold is_s. lia. Qed.

Lemma write_identity_app id w : write_identity id w = w ++ write_identity id [].
Proof. unfold write_identity. autorewrite with writer. by rewrite <- !app_assoc. Qed.

Lemma write_capability_app c w : write_capability c w = w ++ write_capability c [].
Proof. unfold write_capability. autorewrite with writer. by rewrite <- !app_assoc. Qed.

Lemma w_each_capabilities cs w :
  w_each write_capability cs w = w ++ concat (map (fun c => write_capability c []) cs).
Proof. apply w_each_app, write_capability_app. Qed.

Lemma capability_parses {E} (T : E -> Prop) (err : string -> E) c :
  (forall m, T (err m)) -> capability_wf c ->
  parses T (capability_layout err) (write_capability c []) c.
Proof.
  intros HT [? ? [? Hk] ? ?]. unfold write_capability, capability_layout. writer_norm.
  parses_fields. rewrite Hk. by destruct c.
Qed.

Lemma identity_parses {E} (T : E -> Prop) (err : string -> E) id :
  (forall m, T (err m)) -> identity_wf id ->
  parses T (identity_layout err) (write_identity id []) id.
Proof.
  intros HT [[Hv8 Hv] ? ? ? ? ? ? ? ? ? ? Hnuma ? ? ? ? ? Hparent].
  pose proof (i32_i64 _ Hnuma). unfold write_identity, identity_layout. writer_norm.
  do 17 parses_field. rewrite (enc_optional_map be64 id_value), <- (app_nil_r (enc_optional _ _)).
  eapply parses_bind; [apply parses_optional_u64; [apply HT|apply HT|]|].
  - intros x Hx. destruct (id_parent_device id) as [p|]; [|done]. injection Hx as <-. by apply Hparent.
  - apply parses_ret_eq. rewrite Hv, to_i32_small by assumption.
    assert (MkId <$> (id_value <$> id_parent_device id) = id_parent_device id) as ->
      by (destruct (id_parent_device id) as [[?]|]; reflexivity).
    by destruct id as [? ? [?] [? ? ? ?] ? [? ?] ? ? [?] [? ?] [? ?] ?].
Qed.

(** A nested layout as one field of a larger one. *)
#[export] Hint Extern 1 (parses _ (identity_layout _) _ _) => apply identity_parses; auto : codec.
#[export] Hint Extern 1 (parses _ (capability_layout _) _ _) => apply capability_parses; auto : codec.
#[export] Hint Extern 1 (parses _ (rd_optional rd_f64 _ _) _ _) =>
  apply parses_optional_u64; [reflexivity || auto | reflexivity || auto | eassumption] : codec.

