(* ===== verification/ObservationCodec.v ===== *)
(** * Observation codec ([observation/observation_codec.hpp])

    The payload of a DEVICE_SNAPSHOT message: a batch of length-prefixed
    observation blobs. *)

From S2P Require Import Prelude Core Codec Identity Device Health Observation WireFormats.

(** A failed read of the observation decoder. *)
Definition truncated (msg : string) : Error := MkError Truncated msg.

Definition encode_device_observation (o : DeviceObservation) : list byte :=
  ([] : ByteWriter)
    |> w_u64 (id_value (o_device_id o))
    |> w_u64 (gen_value (o_observation_generation o))
    |> w_u64 (gen_value (o_health_generation o))
    |> w_i64 (o_observed_at o)
    |> w_u64 (id_value (o_source_worker_boot o))
    |> w_u64 (id_value (o_source_worker o))
    |> w_u64 (id_value (o_source_node o))
    |> w_u64 (gen_value (o_epoch o))
    |> w_u64 (gen_value (o_device_generation o))
    |> w_u8 (to_u8 (o_health o))
    |> w_string (o_health_explanation o) 4096
    |> w_u64 (o_total_memory o)
    |> w_u64 (o_used_memory o)
    |> w_u64 (o_free_memory o)
    |> w_optional w_f64 (o_temperature_c o)
    |> w_optional w_f64 (o_power_w o)
    |> w_u32 (count32 (o_capabilities o))
    |> w_each write_capability (o_capabilities o)
    |> w_bool (o_core_validation_ok o)
    |> w_string (o_validation_detail o) 4096
    |> w_bool (o_enumerated o)
    |> w_bool (o_present o)
    |> w_bool (o_driver_runtime_ok o)
    |> w_bool (o_cuda_init_ok o)
    |> w_bool (o_memory_alloc_ok o)
    |> w_bool (o_h2d_ok o)
    |> w_bool (o_kernel_exec_ok o)
    |> w_bool (o_sync_ok o)
    |> w_bool (o_d2h_ok o)
    |> w_bool (o_verify_ok o)
    |> write_identity (o_identity o).

Definition read_optional_f64 : Parser Error (option double) :=
  rd_optional rd_f64 (truncated "optional present truncated")
    (truncated "optional double truncated").

Definition observation_body : Parser Error DeviceObservation :=
  device_id ← rd_u64 ?? truncated "device_id truncated";
  obs_gen ← rd_u64 ?? truncated "obs_gen truncated";
  health_gen ← rd_u64 ?? truncated "health_gen truncated";
  observed_at ← rd_i64 ?? truncated "observed_at truncated";
  boot ← rd_u64 ?? truncated "worker_boot truncated";
  worker ← rd_u64 ?? truncated "source_worker truncated";
  node ← rd_u64 ?? truncated "source_node truncated";
  epoch ← rd_u64 ?? truncated "epoch truncated";
  device_gen ← rd_u64 ?? truncated "device_gen truncated";
  health ← rd_u8 ?? truncated "health truncated";
  explanation ← rd_string 4096 ?? truncated "health_explanation truncated";
  total ← rd_u64 ?? truncated "total_memory truncated";
  used ← rd_u64 ?? truncated "used_memory truncated";
  free ← rd_u64 ?? truncated "free_memory truncated";
  temperature ← read_optional_f64 ?? truncated "temperature truncated";
  power ← read_optional_f64 ?? truncated "power truncated";
  ncap ← rd_u32 ?? truncated "cap count truncated";
  _ ← ensure (negb (ncap >? 4096)) (MkError OutOfBounds "cap count exceeds bound");
  capabilities ← rd_times (Z.to_nat ncap) (capability_layout truncated);
  core_valid ← rd_bool ?? truncated "core_valid truncated";
  detail ← rd_string 4096 ?? truncated "validation_detail truncated";
  enumerated ← rd_bool ?? truncated "enumerated truncated";
  present ← rd_bool ?? truncated "present truncated";
  driver_runtime ← rd_bool ?? truncated "driver_runtime truncated";
  cuda_init ← rd_bool ?? truncated "cuda_init truncated";
  malloc ← rd_bool ?? truncated "malloc truncated";
  h2d ← rd_bool ?? truncated "h2d truncated";
  kernel ← rd_bool ?? truncated "kernel truncated";
  sync ← rd_bool ?? truncated "sync truncated";
  d2h ← rd_bool ?? truncated "d2h truncated";
  verify ← rd_bool ?? truncated "verify truncated";
  identity ← identity_layout truncated;
  mret (MkObservation (MkId device_id) (MkGen obs_gen) (MkGen health_gen) observed_at (MkId boot)
    (MkId worker) (MkId node) (MkGen epoch) (MkGen device_gen) identity (of_u8 health) explanation
    total used free temperature power capabilities core_valid detail enumerated present
    driver_runtime cuda_init malloc h2d kernel sync d2h verify).

Definition decode_device_observation (data : list byte) : Result DeviceObservation :=
  run_decoder observation_body (MkError Malformed "trailing garbage in observation blob") data.

(** One blob of a batch: its length, then its bytes. *)
Definition write_observation_blob (o : DeviceObservation) (w : ByteWriter) : ByteWriter :=
  let blob := encode_device_observation o in
  w |> w_u32 (count32 blob) |> w_raw_bytes blob.

Definition encode_observation_batch (obs : list DeviceObservation) : list byte :=
  ([] : ByteWriter) |> w_u32 (count32 obs) |> w_each write_observation_blob obs.

(** A decoder of a blob inside a parser. *)
Definition rd_result {A} (r : Result A) (e : Error) : Parser Error A :=
  match r with Ok v => mret v | Err _ => fun _ => PFail e end.

Definition read_observation_blob : Parser Error DeviceObservation :=
  len ← rd_u32 ?? truncated "obs length truncated";
  _ ← ensure (negb (len >? 16 * 1024 * 1024)) (MkError OutOfBounds "obs blob too large");
  blob ← rd_raw len ?? truncated "obs blob truncated";
  rd_result (decode_device_observation blob) (MkError Malformed "obs blob malformed").

Definition observation_batch_body : Parser Error (list DeviceObservation) :=
  count ← rd_u32 ?? truncated "obs count truncated";
  _ ← ensure (negb (count >? 4096)) (MkError OutOfBounds "obs count too large");
  rd_times (Z.to_nat count) read_observation_blob.

Definition decode_observation_batch (data : list byte) : Result (list DeviceObservation) :=
  run_decoder observation_batch_body
    (MkError Malformed "trailing garbage after observation batch") data.

(** What the codec carries without loss. *)
Record observation_wf (o : DeviceObservation) : Prop := {
  ow_device_id : id_wf (o_device_id o);
  ow_obs_gen : gen_wf (o_observation_generation o);
  ow_health_gen : gen_wf (o_health_generation o);
  ow_observed_at : is_i64 (o_observed_at o);
  ow_boot : id_wf (o_source_worker_boot o);
  ow_worker : id_wf (o_source_worker o);
  ow_node : id_wf (o_source_node o);
  ow_epoch : gen_wf (o_epoch o);
  ow_device_gen : gen_wf (o_device_generation o);
  ow_health : enum_wf (o_health o);
  ow_explanation : str_fits 4096 (o_health_explanation o);
  ow_total : is_u64 (o_total_memory o);
  ow_used : is_u64 (o_used_memory o);
  ow_free : is_u64 (o_free_memory o);
  ow_temperature : opt_f64_wf (o_temperature_c o);
  ow_power : opt_f64_wf (o_power_w o);
  ow_capabilities : Forall capability_wf (o_capabilities o);
  ow_capabilities_count : Z.of_nat (length (o_capabilities o)) <= 4096;
  ow_detail : str_fits 4096 (o_validation_detail o);
  ow_identity : identity_wf (o_identity o)
}.

(* ------------------------------------------------------------------ *)
(** ** Lemmas *)

Lemma observation_parses o :
  observation_wf o ->
  parses (code_is Truncated) observation_body (encode_device_observation o) o.
Proof.
  intros [? ? ? ? ? ? ? ? ? [Hh8 Hh] ? ? ? ? ? ? ? ? ? ?].
  unfold encode_device_observation, observation_body, read_optional_f64.
  rewrite write_identity_app, w_each_capabilities. writer_norm.
  parses_fields.
  - intros c Hc. by apply capability_parses.
  - rewrite <- (app_nil_r (write_identity _ [])).
    eapply parses_bind; [by apply identity_parses|]. apply parses_ret_eq.
    rewrite Hh, ?id_eta, ?gen_eta. by destruct o.
Qed.

(** A blob inside a batch: its errors are not all truncations, since a blob that
    does not decode is reported as malformed. *)
Lemma observation_blob_parses o :
  observation_wf o -> Z.of_nat (length (encode_device_observation o)) <= 16 * 1024 * 1024 ->
  parses (code_is Truncated) read_observation_blob (write_observation_blob o []) o.
Proof.
  intros Hwf Hlen. unfold write_observation_blob, read_observation_blob. writer_norm.
  parses_field. parses_field.
  rewrite (count32_small _ _ Hlen) by reflexivity.
  rewrite <- (app_nil_r (encode_device_observation o)) at 2.
  eapply parses_bind; [apply parses_or_fail; [apply parses_raw|reflexivity]|].
  unfold decode_device_observation. rewrite (run_decoder_ok (observation_parses o Hwf)).
  apply parses_ret.
Qed.

Lemma write_observation_blob_app o w :
  write_observation_blob o w = w ++ write_observation_blob o [].
Proof. unfold write_observation_blob. autorewrite with writer. by rewrite <- !app_assoc. Qed.

(** A batch the codec carries: at most 4096 observations, each blob at most
    16 MiB. *)
Definition batch_wf (obs : list DeviceObservation) : Prop :=
  Z.of_nat (length obs) <= 4096 /\
  Forall (fun o => observation_wf o /\
            Z.of_nat (length (encode_device_observation o)) <= 16 * 1024 * 1024) obs.

Lemma observation_batch_parses obs :
  batch_wf obs ->
  parses (code_is Truncated) observation_batch_body (encode_observation_batch obs) obs.
Proof.
  intros [Hlen Hall]. unfold encode_observation_batch, observation_batch_body.
  rewrite (w_each_app _ (fun o => write_observation_blob o []) write_observation_blob_app).
  writer_norm. parses_field. parses_field.
  eapply parses_counted; [exact Hlen|reflexivity| |exact Hall].
  intros o [Hwf Hb]. by apply observation_blob_parses.
Qed.

(* ------------------------------------------------------------------ *)
(** ** Properties *)

(** Round trip of a snapshot payload: the coordinator decodes exactly the batch
    of observations the agent encoded. *)
Theorem observation_batch_roundtrip obs :
  batch_wf obs -> decode_observation_batch (encode_observation_batch obs) = Ok obs.
Proof. intros H. exact (run_decoder_ok (observation_batch_parses obs H)). Qed.

(** Every strict prefix of a batch is rejected as truncated, and a batch
    followed by further bytes as malformed: no partial batch is ever applied. *)
Theorem observation_batch_rejects_damage obs cut rest extra :
  batch_wf obs -> encode_observation_batch obs = cut ++ rest -> rest <> [] -> extra <> [] ->
  (exists e, decode_observation_batch cut = Err e /\ err_code e = Truncated) /\
  (exists e, decode_observation_batch (encode_observation_batch obs ++ extra) = Err e /\
             err_code e = Malformed).
Proof.
  intros H Hl Hr Hx. split.
  - exact (run_decoder_truncated (observation_batch_parses obs H) cut rest Hl Hr).
  - eexists. split; [exact (run_decoder_garbage (observation_batch_parses obs H) extra Hx)|reflexivity].
Qed.
