(* ===== verification/AdminPayload.v ===== *)
(** * Administrative payloads ([protocol/admin_payload.hpp])

    The payloads of DRAIN, UNDRAIN, QUARANTINE and CLEAR_QUARANTINE. Here every
    failed read is reported as malformed, and the drain level is the one
    enumeration whose byte a decoder checks. *)

From S2P Require Import Prelude Core Codec Observation.

Definition malformed (msg : string) : Error := MkError Malformed msg.

Definition encode_identity_target (identity : string) : list byte :=
  ([] : ByteWriter) |> w_string identity 1024.

Definition identity_target_body : Parser Error string :=
  s ← rd_string 1024 ?? malformed "identity target malformed"; mret s.

Definition decode_identity_target (data : list byte) : Result string :=
  run_decoder identity_target_body (malformed "trailing garbage in identity target") data.

Record DrainTarget := MkDrainTarget { dt_identity : string; dt_level : DrainState }.

Definition encode_drain_target (identity : string) (level : DrainState) : list byte :=
  ([] : ByteWriter) |> w_string identity 1024 |> w_u8 (to_u8 level).

Definition drain_target_body : Parser Error DrainTarget :=
  identity ← rd_string 1024 ?? malformed "drain identity malformed";
  lv ← rd_u8 ?? malformed "drain level malformed";
  _ ← ensure (negb (lv >? to_u8 DrainState.DRAINED))
        (MkError InvalidEnum "invalid drain state enum");
  mret (MkDrainTarget identity (of_u8 lv)).

Definition decode_drain_target (data : list byte) : Result DrainTarget :=
  run_decoder drain_target_body (malformed "trailing garbage in drain target") data.

Record QuarantineTarget := MkQuarantineTarget {
  qt_identity : string;
  qt_reason : string;
  qt_source : string;
  qt_generation : DeviceGeneration
}.

Definition encode_quarantine (identity reason source : string) (gen : DeviceGeneration)
  : list byte :=
  ([] : ByteWriter)
    |> w_string identity 1024 |> w_string reason 512 |> w_string source 128
    |> w_u64 (gen_value gen).

Definition quarantine_body : Parser Error QuarantineTarget :=
  identity ← rd_string 1024 ?? malformed "identity malformed";
  reason ← rd_string 512 ?? malformed "reason malformed";
  source ← rd_string 128 ?? malformed "source malformed";
  g ← rd_u64 ?? malformed "generation malformed";
  mret (MkQuarantineTarget identity reason source (MkGen g)).

Definition decode_quarantine (data : list byte) : Result QuarantineTarget :=
  run_decoder quarantine_body (malformed "trailing garbage in quarantine") data.

(* ------------------------------------------------------------------ *)
(** ** Lemmas *)

Lemma identity_target_parses s :
  str_fits 1024 s -> parses (code_is Malformed) identity_target_body (encode_identity_target s) s.
Proof.
  intros H. unfold encode_identity_target, identity_target_body. writer_norm. by parses_fields.
Qed.

Lemma drain_target_parses s d :
  str_fits 1024 s -> enum_wf d -> to_u8 d <= 2 ->
  parses (code_is Malformed) drain_target_body (encode_drain_target s d) (MkDrainTarget s d).
Proof.
  intros H [Hd8 Hd] Hle. unfold encode_drain_target, drain_target_body. writer_norm.
  parses_field. rewrite <- (app_nil_r (be8 _)). parses_field. parses_field.
  - apply negb_true_iff. rewrite Z.gtb_ltb. by apply Z.ltb_ge.
  - apply parses_ret_eq. by rewrite Hd.
Qed.

Lemma quarantine_parses i r s g :
  str_fits 1024 i -> str_fits 512 r -> str_fits 128 s -> gen_wf g ->
  parses (code_is Malformed) quarantine_body (encode_quarantine i r s g)
    (MkQuarantineTarget i r s g).
Proof.
  intros. unfold encode_quarantine, quarantine_body. writer_norm. by parses_fields.
Qed.

(** The decoder's own check: no drain level outside the enumeration gets in. *)
Lemma drain_target_level data t :
  decode_drain_target data = Ok t ->
  dt_level t = DrainState.ACTIVE \/ dt_level t = DrainState.DRAINING \/
  dt_level t = DrainState.DRAINED.
Proof.
  unfold decode_drain_target, run_decoder, drain_target_body, mbind, parser_bind, or_fail, ensure.
  destruct (rd_string 1024 (reader data)) as [s r1|]; [|discriminate].
  destruct (rd_u8 r1) as [lv r2|] eqn:E; [|discriminate].
  destruct (negb (lv >? to_u8 DrainState.DRAINED)) eqn:Hlv; [|discriminate].
  cbn [mret parser_ret]. destruct (negb (rd_done r2)); [discriminate|]. intros [= <-]. cbn.
  assert (0 <= lv) by (apply rd_u8_range in E; unfold is_u in E; lia).
  zbool. change (to_u8 DrainState.DRAINED) with 2 in *.
  assert (lv = 0 \/ lv = 1 \/ lv = 2) as [->|[->| ->]] by lia; auto.
Qed.

(* ------------------------------------------------------------------ *)
(** ** Properties *)

(** Round trip of the administrative payloads. *)
Theorem admin_payload_roundtrip i r s g d :
  str_fits 1024 i -> str_fits 512 r -> str_fits 128 s -> gen_wf g -> enum_wf d -> to_u8 d <= 2 ->
  decode_identity_target (encode_identity_target i) = Ok i /\
  decode_drain_target (encode_drain_target i d) = Ok (MkDrainTarget i d) /\
  decode_quarantine (encode_quarantine i r s g) = Ok (MkQuarantineTarget i r s g).
Proof.
  intros Hi Hr Hs Hg Hd Hle. split_and!.
  - exact (run_decoder_ok (identity_target_parses i Hi)).
  - exact (run_decoder_ok (drain_target_parses i d Hi Hd Hle)).
  - exact (run_decoder_ok (quarantine_parses i r s g Hi Hr Hs Hg)).
Qed.

(** No byte sequence makes the coordinator apply a drain level outside the
    enumeration. *)
Theorem drain_level_always_valid data t :
  decode_drain_target data = Ok t ->
  dt_level t = DrainState.ACTIVE \/ dt_level t = DrainState.DRAINING \/
  dt_level t = DrainState.DRAINED.
Proof. apply drain_target_level. Qed.

Lemma admin_payload_roundtrip_witness :
  decode_drain_target (encode_drain_target "gpu" DrainState.DRAINED) =
    Ok (MkDrainTarget "gpu" DrainState.DRAINED).
Proof.
  apply (admin_payload_roundtrip "gpu" "manual" "operator" (MkGen 1) DrainState.DRAINED);
    try (vm_compute; congruence); [unfold is_u; cbn; lia | enum_wf_solve].
Defined.

Lemma drain_level_always_valid_witness :
  dt_level (MkDrainTarget "gpu" DrainState.DRAINED) = DrainState.ACTIVE \/
  dt_level (MkDrainTarget "gpu" DrainState.DRAINED) = DrainState.DRAINING \/
  dt_level (MkDrainTarget "gpu" DrainState.DRAINED) = DrainState.DRAINED.
Proof.
  apply (drain_level_always_valid (encode_drain_target "gpu" DrainState.DRAINED)).
  vm_compute. reflexivity.
Defined.
