(* ===== verification/FleetState.v ===== *)
(** * The fleet state store ([fleet/fleet_state.hpp])

    The canonical state and its transitions. Every public operation of
    [FleetStateStore] runs under one mutex, so an operation is one atomic
    transition: a function from the state to the new state and its result. *)

From S2P Require Import Prelude Core Identity Device Health Eligibility Observation Change.
From S2P Require Import Pipeline Registration.

Record NodeRecord := MkNode {
  n_node : NodeId;
  n_generation : NodeGeneration;
  n_first_seen : Timestamp
}.

Record WorkerRecord := MkWorker {
  w_worker : WorkerId;
  w_boot : WorkerBootId;
  w_registration_generation : RegistrationGeneration;
  w_node : NodeId;
  w_agent : AgentId;
  w_agent_version : AgentVersion;
  w_protocol_version : ProtocolVersion;
  w_os_platform : string;
  w_driver_version : DriverVersion;
  w_device_identities : list string;
  w_supported_capabilities : list string;
  w_registered_at : Timestamp;
  w_last_heartbeat : Timestamp;
  w_registered_epoch : CoordinatorEpoch;
  w_alive : bool;
  w_fenced : bool;
  w_lost : bool
}.

#[global] Instance NodeRecord_eq_dec : EqDecision NodeRecord.
Proof. solve_decision. Defined.
#[global] Instance WorkerRecord_eq_dec : EqDecision WorkerRecord.
Proof. solve_decision. Defined.

Record Accounting := MkAccounting {
  a_registered_workers : Z;
  a_live_workers : Z;
  a_stale_workers : Z;
  a_devices : Z;
  a_eligible_devices : Z;
  a_degraded_devices : Z;
  a_quarantined_devices : Z;
  a_drained_devices : Z;
  a_active_registrations : Z;
  a_accepted_observations : Z
}.

Definition accounting_default : Accounting := MkAccounting 0 0 0 0 0 0 0 0 0 0.

Definition accounting_is_valid (a : Accounting) : bool :=
  (a_registered_workers a >=? a_live_workers a) && (a_live_workers a >=? a_stale_workers a).

Record StateSnapshot := MkSnapshot {
  s_coordinator : CoordinatorId;
  s_epoch : CoordinatorEpoch;
  s_fleet_generation : FleetGeneration;
  s_node_generation : NodeGeneration;
  s_nodes : gmap NodeId NodeRecord;
  s_workers : gmap WorkerId WorkerRecord;
  s_devices : gmap string DeviceState;
  s_change_log : list ChangeRecord;
  s_accounting : Accounting
}.

(** The members of [FleetStateStore]. *)
Record FleetState := MkFleet {
  fs_coord : CoordinatorId;
  fs_epoch : CoordinatorEpoch;
  fs_fleet_gen : FleetGeneration;
  fs_node_gen : NodeGeneration;
  fs_nodes : gmap NodeId NodeRecord;
  fs_workers : gmap WorkerId WorkerRecord;
  fs_devices : gmap string DeviceState;
  fs_change_log : list ChangeRecord;
  fs_accepted : Z
}.

(** The constructors. *)
Definition fleet_init (coord : CoordinatorId) (epoch : CoordinatorEpoch) : FleetState :=
  MkFleet coord epoch (MkGen 1) (MkGen 1) ∅ ∅ ∅ [] 0.

Definition set_epoch (e : CoordinatorEpoch) (g : FleetGeneration) (st : FleetState) : FleetState :=
  MkFleet (fs_coord st) e g (fs_node_gen st) (fs_nodes st) (fs_workers st) (fs_devices st)
    (fs_change_log st) (fs_accepted st).
Definition set_nodes (m : gmap NodeId NodeRecord) (st : FleetState) : FleetState :=
  MkFleet (fs_coord st) (fs_epoch st) (fs_fleet_gen st) (fs_node_gen st) m (fs_workers st)
    (fs_devices st) (fs_change_log st) (fs_accepted st).
Definition set_workers (m : gmap WorkerId WorkerRecord) (st : FleetState) : FleetState :=
  MkFleet (fs_coord st) (fs_epoch st) (fs_fleet_gen st) (fs_node_gen st) (fs_nodes st) m
    (fs_devices st) (fs_change_log st) (fs_accepted st).
Definition set_devices (m : gmap string DeviceState) (st : FleetState) : FleetState :=
  MkFleet (fs_coord st) (fs_epoch st) (fs_fleet_gen st) (fs_node_gen st) (fs_nodes st)
    (fs_workers st) m (fs_change_log st) (fs_accepted st).
Definition set_change_log (l : list ChangeRecord) (st : FleetState) : FleetState :=
  MkFleet (fs_coord st) (fs_epoch st) (fs_fleet_gen st) (fs_node_gen st) (fs_nodes st)
    (fs_workers st) (fs_devices st) l (fs_accepted st).
Definition set_accepted (n : Z) (st : FleetState) : FleetState :=
  MkFleet (fs_coord st) (fs_epoch st) (fs_fleet_gen st) (fs_node_gen st) (fs_nodes st)
    (fs_workers st) (fs_devices st) (fs_change_log st) n.

Definition put_worker (w : WorkerId) (wr : WorkerRecord) (st : FleetState) : FleetState :=
  set_workers (<[w := wr]> (fs_workers st)) st.
Definition put_device (key : string) (d : DeviceState) (st : FleetState) : FleetState :=
  set_devices (<[key := d]> (fs_devices st)) st.

Definition kMaxChangeLog : Z := 10000.

(** [change_log_.push_back(c); if (change_log_.size() > kMaxChangeLog)
    change_log_.erase(change_log_.begin());]. *)
Definition push_change (log : list ChangeRecord) (c : ChangeRecord) : list ChangeRecord :=
  let log' := log ++ [c] in
  if Z.of_nat (length log') >? kMaxChangeLog then drop 1 log' else log'.

Definition log_change (c : ChangeRecord) (st : FleetState) : FleetState :=
  set_change_log (push_change (fs_change_log st) c) st.

(* ------------------------------------------------------------------ *)
(** ** Epoch and registration *)

Definition roll_epoch (ne : CoordinatorEpoch) (st : FleetState) : FleetState * Result unit :=
  if gen_leb ne (fs_epoch st) then
    (st, error_result Stale "epoch roll must be strictly forward")
  else (set_epoch ne (gen_next (fs_fleet_gen st)) st, Ok tt).

(** [RegistrationId(reg.registration_generation.value() + 1)]. *)
Definition registration_id (reg : Registration) : RegistrationId :=
  MkId (wrap 64 (gen_value (r_registration_generation reg) + 1)).

(** The same incarnation re-affirms. *)
Definition reaffirm_worker (reg : Registration) (now : Timestamp) (wr : WorkerRecord)
  : WorkerRecord :=
  MkWorker (w_worker wr) (w_boot wr) (r_registration_generation reg) (w_node wr) (w_agent wr)
    (w_agent_version wr) (w_protocol_version wr) (w_os_platform wr) (w_driver_version wr)
    (r_enumerated_devices reg) (w_supported_capabilities wr) (w_registered_at wr) now
    (w_registered_epoch wr) true (w_fenced wr) false.

(** A new incarnation's record. *)
Definition new_worker_record (reg : Registration) (now : Timestamp) : WorkerRecord :=
  MkWorker (r_worker reg) (r_worker_boot reg) (r_registration_generation reg) (r_node reg)
    (MkId (wrap 64 (id_value (r_worker reg) + 1))) (r_agent_version reg)
    (r_protocol_version reg) (r_os_platform reg) (r_driver_version reg)
    (r_enumerated_devices reg) (r_supported_capabilities reg) now now (r_epoch reg)
    true false false.

(** [nodes_.try_emplace(...)]: an existing record is kept. *)
Definition ensure_node (n : NodeId) (now : Timestamp) (st : FleetState) : FleetState :=
  match fs_nodes st !! n with
  | Some _ => st
  | None => set_nodes (<[n := MkNode n (MkGen 1) now]> (fs_nodes st)) st
  end.

Definition admit_worker (reg : Registration) (now : Timestamp) (st : FleetState)
  : FleetState * Result RegistrationId :=
  (st |> put_worker (r_worker reg) (new_worker_record reg now) |> ensure_node (r_node reg) now,
   Ok (registration_id reg)).

Definition register_worker (reg : Registration) (now : Timestamp) (st : FleetState)
  : FleetState * Result RegistrationId :=
  if negb (gen_eqb (r_epoch reg) (fs_epoch st)) then
    (st, error_result Stale ("registration epoch stale (" +:+ gen_to_string (r_epoch reg) +:+
           " != " +:+ gen_to_string (fs_epoch st) +:+ ")"))
  else if pv_value (r_protocol_version reg) =? 0 then
    (st, error_result ProtocolMismatch "zero protocol version")
  else
    match fs_workers st !! r_worker reg with
    | None => admit_worker reg now st
    | Some wr =>
        if id_eqb (w_boot wr) (r_worker_boot reg) then
          if gen_leb (r_registration_generation reg) (w_registration_generation wr) then
            (st, error_result Stale "stale registration generation")
          else (put_worker (r_worker reg) (reaffirm_worker reg now wr) st,
                Ok (registration_id reg))
        else if negb (w_fenced wr) && negb (w_lost wr) && w_alive wr then
          (st, error_result Duplicate "duplicate registration identity already active")
        else admit_worker reg now st
    end.

(* ------------------------------------------------------------------ *)
(** ** Recovery and loss *)

(** What [restore] does to each device. *)
Definition recover_device (d : DeviceState) : DeviceState :=
  let d := d_set_fresh false d in
  if d_quarantined d then
    d_set_elig EligibilityState.QUARANTINED (d_eligibility_reasons d) d
  else if drain_active (d_drain d) then
    d_set_elig EligibilityState.DRAINING (d_eligibility_reasons d) d
  else d_set_elig EligibilityState.STALE [EligibilityReason.STALE_OBSERVATION] d.

Definition restore (s : StateSnapshot) (st : FleetState) : FleetState * Result unit :=
  (MkFleet (s_coordinator s) (s_epoch s) (s_fleet_generation s) (s_node_generation s)
     (s_nodes s) (s_workers s) (recover_device <$> s_devices s) (s_change_log s) 0,
   Ok tt).

(** [lost = true; alive = false; fenced = true;] *)
Definition lose_worker (wr : WorkerRecord) : WorkerRecord :=
  MkWorker (w_worker wr) (w_boot wr) (w_registration_generation wr) (w_node wr) (w_agent wr)
    (w_agent_version wr) (w_protocol_version wr) (w_os_platform wr) (w_driver_version wr)
    (w_device_identities wr) (w_supported_capabilities wr) (w_registered_at wr)
    (w_last_heartbeat wr) (w_registered_epoch wr) false true true.

(** What becomes of a device of a lost worker. *)
Definition lose_device (d : DeviceState) : DeviceState :=
  let d := d_set_fresh false d in
  if d_present d then
    d |> d_set_presence false HealthState.LOST
      |> d_set_elig EligibilityState.INELIGIBLE [EligibilityReason.WORKER_RESTART]
  else d.

Definition mark_worker_lost (w : WorkerId) (now : Timestamp) (st : FleetState)
  : FleetState * Result unit :=
  match fs_workers st !! w with
  | None => (st, Ok tt)
  | Some wr =>
      (st |> put_worker w (lose_worker wr)
          |> set_devices (foldl (fun m key => alter lose_device key m) (fs_devices st)
                            (w_device_identities wr)),
       Ok tt)
  end.

(* ------------------------------------------------------------------ *)
(** ** Ingesting a worker's snapshot *)

(** The outcome of the authority and monotonicity gates for one observation. *)
Inductive Gate :=
  | Refuse (e : Error)   (** [return error_result(...)] *)
  | Skip                 (** [continue]: stale or duplicate within the incarnation *)
  | Commit.

Definition ingest_gate (worker : WorkerId) (boot : WorkerBootId) (o : DeviceObservation)
  (st : FleetState) : Gate :=
  if negb (gen_eqb (o_epoch o) (fs_epoch st)) then
    Refuse (MkError Stale "stale coordinator epoch in observation")
  else if negb (id_eqb (o_source_worker_boot o) boot) then
    Refuse (MkError Stale "stale worker boot id in observation")
  else if negb (id_eqb (o_source_worker o) worker) then
    Refuse (MkError IdentityMismatch "observation worker identity mismatch")
  else
    match fs_devices st !! canonical_device_identity (o_identity o) with
    | None => Commit
    | Some prior =>
        let same_incarnation := id_eqb (o_source_worker_boot o) (d_source_worker_boot prior) in
        if same_incarnation &&
           gen_leb (o_observation_generation o) (d_observation_generation prior) then Skip
        else if same_incarnation && gen_ltb (o_device_generation o) (d_generation prior) then
          Refuse (MkError InvalidGeneration "stale device generation")
        else if gen_ltb (o_health_generation o) (d_health_generation prior) &&
                id_eqb (o_source_worker_boot o) (d_source_worker_boot prior) then
          Refuse (MkError InvalidGeneration "stale health generation")
        else Commit
    end.

(** [wr.device_identities.push_back(key)]. *)
Definition push_identity (key : string) (wr : WorkerRecord) : WorkerRecord :=
  MkWorker (w_worker wr) (w_boot wr) (w_registration_generation wr) (w_node wr) (w_agent wr)
    (w_agent_version wr) (w_protocol_version wr) (w_os_platform wr) (w_driver_version wr)
    (w_device_identities wr ++ [key]) (w_supported_capabilities wr) (w_registered_at wr)
    (w_last_heartbeat wr) (w_registered_epoch wr) (w_alive wr) (w_fenced wr) (w_lost wr).

(** [wr.last_heartbeat = now; wr.alive = true;] *)
Definition touch_worker (now : Timestamp) (wr : WorkerRecord) : WorkerRecord :=
  MkWorker (w_worker wr) (w_boot wr) (w_registration_generation wr) (w_node wr) (w_agent wr)
    (w_agent_version wr) (w_protocol_version wr) (w_os_platform wr) (w_driver_version wr)
    (w_device_identities wr) (w_supported_capabilities wr) (w_registered_at wr)
    now (w_registered_epoch wr) true (w_fenced wr) (w_lost wr).

Definition alter_worker (f : WorkerRecord -> WorkerRecord) (w : WorkerId) (st : FleetState)
  : FleetState := set_workers (alter f w (fs_workers st)) st.
Definition alter_device (f : DeviceState -> DeviceState) (key : string) (st : FleetState)
  : FleetState := set_devices (alter f key (fs_devices st)) st.

(** [DeviceState prior = (dit == devices_.end()) ? DeviceState{} : dit->second]
    and the pipeline's result with the observation's health generation. *)
Definition ingest_apply (o : DeviceObservation) (policy : ObservationPolicy) (now : Timestamp)
  (st : FleetState) : AppliedObservation :=
  let prior := default device_default (fs_devices st !! canonical_device_identity (o_identity o)) in
  let applied := apply_observation prior o policy now (fs_epoch st) in
  MkApplied (d_set_health_generation (o_health_generation o) (ao_state applied))
    (ao_changes applied) (ao_eligibility applied) (ao_fresh applied) (ao_accepted applied).

Definition ingest_commit (worker : WorkerId) (o : DeviceObservation)
  (applied : AppliedObservation) (st : FleetState) : FleetState :=
  let key := canonical_device_identity (o_identity o) in
  let replaced := bool_decide (is_Some (fs_devices st !! key)) in
  let st := put_device key (ao_state applied) st in
  let st := set_change_log (foldl push_change (fs_change_log st) (ao_changes applied)) st in
  let st := if replaced then st else alter_worker (push_identity key) worker st in
  set_accepted (wrap 64 (fs_accepted st + 1)) st.

(** The loop over the batch. What was committed before an error stays
    committed. *)
Record IngestAcc := MkAcc {
  ia_state : FleetState;
  ia_seen : gset string;
  ia_last : AppliedObservation
}.

Fixpoint ingest_loop (worker : WorkerId) (boot : WorkerBootId) (policy : ObservationPolicy)
  (now : Timestamp) (obs : list DeviceObservation) (acc : IngestAcc) : IngestAcc * option Error :=
  match obs with
  | [] => (acc, None)
  | o :: obs' =>
      match ingest_gate worker boot o (ia_state acc) with
      | Refuse e => (acc, Some e)
      | Skip => ingest_loop worker boot policy now obs' acc
      | Commit =>
          let applied := ingest_apply o policy now (ia_state acc) in
          ingest_loop worker boot policy now obs'
            (MkAcc (ingest_commit worker o applied (ia_state acc))
                   ({[ canonical_device_identity (o_identity o) ]} ∪ ia_seen acc) applied)
      end
  end.

Definition disappeared_device (d : DeviceState) : DeviceState :=
  d |> d_set_presence false HealthState.LOST
    |> d_set_fresh false
    |> d_set_elig EligibilityState.INELIGIBLE [EligibilityReason.DEVICE_DISAPPEARANCE].

(** One iteration of the sweep over [wr.device_identities]. *)
Definition sweep_key (seen : gset string) (now : Timestamp) (st : FleetState) (key : string)
  : FleetState :=
  if bool_decide (key ∈ seen) then st
  else
    match fs_devices st !! key with
    | None => st
    | Some d =>
        st |> log_change (MkChange ChangeKind.DEVICE_DISAPPEARED (d_device_id d) now
                            (d_generation d) (fs_epoch st) "device no longer reported by worker"
                            "present" "absent")
           |> put_device key (disappeared_device d)
    end.

Definition worker_keys (worker : WorkerId) (st : FleetState) : list string :=
  from_option w_device_identities [] (fs_workers st !! worker).

Definition ingest_snapshot (worker : WorkerId) (obs : list DeviceObservation)
  (policy : ObservationPolicy) (now : Timestamp) (st : FleetState)
  : FleetState * Result AppliedObservation :=
  match fs_workers st !! worker with
  | None => (st, error_result NotFound "unregistered worker")
  | Some wr =>
      if w_lost wr || w_fenced wr then
        (st, error_result NotAuthoritative "worker is fenced/lost")
      else
        match ingest_loop worker (w_boot wr) policy now obs (MkAcc st ∅ applied_default) with
        | (acc, Some e) => (ia_state acc, Err e)
        | (acc, None) =>
            let st := foldl (sweep_key (ia_seen acc) now) (ia_state acc)
                        (worker_keys worker (ia_state acc)) in
            (alter_worker (touch_worker now) worker st, Ok (ia_last acc))
        end
  end.

(* ------------------------------------------------------------------ *)
(** ** Heartbeats *)

(** [last_heartbeat = now; alive = true; lost = false;] *)
Definition beat_worker (now : Timestamp) (wr : WorkerRecord) : WorkerRecord :=
  MkWorker (w_worker wr) (w_boot wr) (w_registration_generation wr) (w_node wr) (w_agent wr)
    (w_agent_version wr) (w_protocol_version wr) (w_os_platform wr) (w_driver_version wr)
    (w_device_identities wr) (w_supported_capabilities wr) (w_registered_at wr)
    now (w_registered_epoch wr) true (w_fenced wr) false.

Definition heartbeat (worker : WorkerId) (boot : WorkerBootId) (epoch : CoordinatorEpoch)
  (now : Timestamp) (hg : HealthGeneration) (st : FleetState) : FleetState * Result unit :=
  if negb (gen_eqb epoch (fs_epoch st)) then (st, error_result Stale "stale heartbeat epoch")
  else
    match fs_workers st !! worker with
    | None => (st, error_result NotFound "unregistered worker")
    | Some wr =>
        if negb (id_eqb (w_boot wr) boot) then (st, error_result Stale "stale heartbeat boot id")
        else (put_worker worker (beat_worker now wr) st, Ok tt)
    end.

(* ------------------------------------------------------------------ *)
(** ** Administrative transitions *)

(** Only the state, not the policy: the fields not assigned keep their default. *)
Definition recompute_input (d : DeviceState) : EligibilityInput := {|
  ei_health := d_health d;
  ei_observation_fresh := d_observation_fresh d;
  ei_observed_generation := d_generation d;
  ei_current_generation := d_generation d;
  ei_architecture_match := true;
  ei_sufficient_memory := true;
  ei_driver_match := true;
  ei_cuda_available := d_core_validation_ok d && d_present d;
  ei_capability_match := true;
  ei_drain_active := drain_active (d_drain d);
  ei_quarantine := d_quarantined d;
  ei_worker_alive := true;
  ei_device_present := d_present d;
  ei_worker_restarted := false;
  ei_required_memory := 0;
  ei_available_memory := d_free_memory d
|}.

Definition recompute_device_eligibility (d : DeviceState) : DeviceState :=
  let elig := evaluate_eligibility (recompute_input d) in
  d_set_elig (el_state elig) (el_reasons elig) d.

Definition admin_change (kind : ChangeKind) (d : DeviceState) (now : Timestamp)
  (detail from to : string) (st : FleetState) : ChangeRecord :=
  MkChange kind (d_device_id d) now (d_generation d) (fs_epoch st) detail from to.

(** [d >= DrainState::DRAINING]: the underlying bytes are compared. *)
Definition drain_change_kind (d : DrainState) : ChangeKind :=
  if to_u8 d >=? 1 then ChangeKind.DRAIN_INITIATED else ChangeKind.DRAIN_COMPLETED.

Definition set_drain (w : WorkerId) (identity : string) (d : DrainState) (now : Timestamp)
  (st : FleetState) : FleetState * Result unit :=
  match fs_devices st !! identity with
  | None => (st, error_result NotFound "device not found")
  | Some dev =>
      let pit := d_drain dev in
      if bool_decide (pit = d) then (st, Ok tt)
      else
        let dev := recompute_device_eligibility (d_set_drain d dev) in
        (st |> put_device identity dev
            |> log_change (admin_change (drain_change_kind d) dev now "drain state changed"
                             (DrainState.to_string pit) (DrainState.to_string d) st),
         Ok tt)
  end.

Definition set_quarantine (w : WorkerId) (identity : string) (q : QuarantineRecord)
  (now : Timestamp) (st : FleetState) : FleetState * Result unit :=
  match fs_devices st !! identity with
  | None => (st, error_result NotFound "device not found")
  | Some dev =>
      if gen_ltb (q_generation q) (d_generation dev) then
        (st, error_result InvalidGeneration "stale quarantine generation")
      else
        let was := d_quarantined dev in
        let dev := recompute_device_eligibility (d_set_quarantine true q dev) in
        let st' := put_device identity dev st in
        (if negb was then
           log_change (admin_change ChangeKind.QUARANTINE_APPLIED dev now (q_reason q)
                         "false" "true" st) st'
         else st',
         Ok tt)
  end.

Definition clear_quarantine (w : WorkerId) (identity : string) (epoch : CoordinatorEpoch)
  (now : Timestamp) (st : FleetState) : FleetState * Result unit :=
  if negb (gen_eqb epoch (fs_epoch st)) then (st, error_result Stale "stale epoch in clear")
  else
    match fs_devices st !! identity with
    | None => (st, error_result NotFound "device not found")
    | Some dev =>
        if negb (d_quarantined dev) then (st, error_result NotFound "device not quarantined")
        else
          let dev := recompute_device_eligibility
                       (d_set_quarantine false quarantine_default dev) in
          (st |> put_device identity dev
              |> log_change (admin_change ChangeKind.QUARANTINE_CLEARED dev now
                               "quarantine cleared" "true" "false" st),
           Ok tt)
    end.

(* ------------------------------------------------------------------ *)
(** ** Views *)

Definition worker_live (wr : WorkerRecord) : bool :=
  w_alive wr && negb (w_lost wr) && negb (w_fenced wr).
Definition worker_stale (wr : WorkerRecord) : bool :=
  w_lost wr || w_fenced wr || negb (w_alive wr).

(** The body of the loop over the workers: each [++] under its condition. *)
Definition count_worker (a : Accounting) (wr : WorkerRecord) : Accounting :=
  let live := if worker_live wr then 1 else 0 in
  let stale := if worker_stale wr then 1 else 0 in
  MkAccounting (a_registered_workers a + 1) (a_live_workers a + live)
    (a_stale_workers a + stale) (a_devices a) (a_eligible_devices a) (a_degraded_devices a)
    (a_quarantined_devices a) (a_drained_devices a) (a_active_registrations a + live)
    (a_accepted_observations a).

(** The body of the loop over the devices. *)
Definition count_device (a : Accounting) (d : DeviceState) : Accounting :=
  let one s := if bool_decide (d_eligibility d = s) then 1 else 0 in
  MkAccounting (a_registered_workers a) (a_live_workers a) (a_stale_workers a) (a_devices a + 1)
    (a_eligible_devices a + one EligibilityState.ELIGIBLE)
    (a_degraded_devices a + one EligibilityState.DEGRADED_ELIGIBLE)
    (a_quarantined_devices a + one EligibilityState.QUARANTINED)
    (a_drained_devices a + one EligibilityState.DRAINING)
    (a_active_registrations a) (a_accepted_observations a).

Definition set_accepted_count (n : Z) (a : Accounting) : Accounting :=
  MkAccounting (a_registered_workers a) (a_live_workers a) (a_stale_workers a) (a_devices a)
    (a_eligible_devices a) (a_degraded_devices a) (a_quarantined_devices a)
    (a_drained_devices a) (a_active_registrations a) n.

(** The values of a map. *)
Definition map_values {K A} `{Countable K} (m : gmap K A) : list A := (map_to_list m).*2.

Definition recompute_accounting (st : FleetState) : Accounting :=
  let a := foldl count_worker accounting_default (map_values (fs_workers st)) in
  let a := foldl count_device a (map_values (fs_devices st)) in
  set_accepted_count (fs_accepted st) a.

Definition snapshot (st : FleetState) : StateSnapshot :=
  MkSnapshot (fs_coord st) (fs_epoch st) (fs_fleet_gen st) (fs_node_gen st) (fs_nodes st)
    (fs_workers st) (fs_devices st) (fs_change_log st) (recompute_accounting st).

Definition device_exists (identity : string) (st : FleetState) : bool :=
  bool_decide (is_Some (fs_devices st !! identity)).
