(* ===== verification/FleetSteps.v ===== *)
(** * The store as a transition system

    The public operations as labels ([Op]), their effect ([run_op]), and the
    elementary transitions ([micro]) each operation is a sequence of. An
    invariant is proved once per elementary transition; [run_op_micro] carries
    it to every operation and [run_ops_micro] to every history. *)

From stdpp Require Import relations.
From S2P Require Import Prelude Core Identity Device Health Eligibility Observation Change.
From S2P Require Import Pipeline Registration FleetState.

Inductive Op :=
  | OpRoll (ne : CoordinatorEpoch)
  | OpRegister (reg : Registration) (now : Timestamp)
  | OpLost (w : WorkerId) (now : Timestamp)
  | OpIngest (w : WorkerId) (obs : list DeviceObservation) (policy : ObservationPolicy)
      (now : Timestamp)
  | OpHeartbeat (w : WorkerId) (boot : WorkerBootId) (epoch : CoordinatorEpoch)
      (now : Timestamp) (hg : HealthGeneration)
  | OpDrain (w : WorkerId) (identity : string) (d : DrainState) (now : Timestamp)
  | OpQuarantine (w : WorkerId) (identity : string) (q : QuarantineRecord) (now : Timestamp)
  | OpClear (w : WorkerId) (identity : string) (epoch : CoordinatorEpoch) (now : Timestamp).

Definition run_op (op : Op) (st : FleetState) : FleetState :=
  match op with
  | OpRoll ne => (roll_epoch ne st).1
  | OpRegister reg now => (register_worker reg now st).1
  | OpLost w now => (mark_worker_lost w now st).1
  | OpIngest w obs policy now => (ingest_snapshot w obs policy now st).1
  | OpHeartbeat w boot epoch now hg => (heartbeat w boot epoch now hg st).1
  | OpDrain w identity d now => (set_drain w identity d now st).1
  | OpQuarantine w identity q now => (set_quarantine w identity q now st).1
  | OpClear w identity epoch now => (clear_quarantine w identity epoch now st).1
  end.

Definition run_ops (ops : list Op) (st : FleetState) : FleetState :=
  foldl (fun st op => run_op op st) st ops.

(** The worker's record allows a new incarnation to take its place. *)
Definition replaceable (reg : Registration) (st : FleetState) : Prop :=
  match fs_workers st !! r_worker reg with
  | None => True
  | Some wr => w_boot wr <> r_worker_boot reg /\
               (w_fenced wr = true \/ w_lost wr = true \/ w_alive wr = false)
  end.

Definition authoritative_worker (wr : WorkerRecord) : Prop :=
  w_lost wr = false /\ w_fenced wr = false.

(** The administrative and registration operations a history may contain. A
    safety property that only one kind of operation can end is proved for the
    histories whose scope excludes it. *)
Record Scope := MkScope {
  sc_register : Registration -> Prop;
  sc_drain : string -> Prop;
  sc_clear : string -> Prop
}.

Definition any_scope : Scope := MkScope (fun _ => True) (fun _ => True) (fun _ => True).

Definition in_scope (sc : Scope) (op : Op) : Prop :=
  match op with
  | OpRegister reg _ => sc_register sc reg
  | OpDrain _ identity _ _ => sc_drain sc identity
  | OpClear _ identity _ _ => sc_clear sc identity
  | _ => True
  end.

Section Steps.
Context (sc : Scope).

Inductive micro : FleetState -> FleetState -> Prop :=
  | M_roll st ne :
      gen_value (fs_epoch st) < gen_value ne ->
      micro st (set_epoch ne (gen_next (fs_fleet_gen st)) st)
  | M_admit st reg now :
      sc_register sc reg -> r_epoch reg = fs_epoch st -> replaceable reg st ->
      micro st (admit_worker reg now st).1
  | M_reaffirm st reg now wr :
      sc_register sc reg ->
      r_epoch reg = fs_epoch st -> fs_workers st !! r_worker reg = Some wr ->
      w_boot wr = r_worker_boot reg ->
      gen_value (w_registration_generation wr) < gen_value (r_registration_generation reg) ->
      micro st (put_worker (r_worker reg) (reaffirm_worker reg now wr) st)
  | M_lose st w wr :
      fs_workers st !! w = Some wr -> micro st (put_worker w (lose_worker wr) st)
  | M_lose_device st key : micro st (alter_device lose_device key st)
  | M_commit st w wr o policy now :
      fs_workers st !! w = Some wr -> authoritative_worker wr ->
      ingest_gate w (w_boot wr) o st = Commit ->
      micro st (ingest_commit w o (ingest_apply o policy now st) st)
  | M_sweep st seen now key : micro st (sweep_key seen now st key)
  | M_touch st w wr now :
      fs_workers st !! w = Some wr -> authoritative_worker wr ->
      micro st (put_worker w (touch_worker now wr) st)
  | M_beat st w wr now :
      fs_workers st !! w = Some wr -> micro st (put_worker w (beat_worker now wr) st)
  | M_drain st w identity d now :
      sc_drain sc identity -> micro st (set_drain w identity d now st).1
  | M_quarantine st w identity q now : micro st (set_quarantine w identity q now st).1
  | M_clear st w identity now :
      sc_clear sc identity -> micro st (clear_quarantine w identity (fs_epoch st) now st).1.

(* ------------------------------------------------------------------ *)
(** ** Every operation is a sequence of elementary transitions *)

Lemma set_devices_id st : set_devices (fs_devices st) st = st.
Proof. by destruct st. Qed.

Lemma register_micro reg now st :
  sc_register sc reg -> rtc micro st (register_worker reg now st).1.
Proof.
  intros Hsc. unfold register_worker. destruct (gen_eqb_spec (r_epoch reg) (fs_epoch st)) as [He|]; [|done].
  cbn [negb]. destruct (_ =? 0); [done|].
  destruct (fs_workers st !! r_worker reg) as [wr|] eqn:E.
  - destruct (id_eqb_spec (w_boot wr) (r_worker_boot reg)).
    + unfold gen_leb. destruct (_ <=? _) eqn:Hg; [done|]. zbool.
      apply rtc_once. by apply M_reaffirm.
    + destruct (w_fenced wr) eqn:?, (w_lost wr) eqn:?, (w_alive wr) eqn:?; cbn [negb andb];
        try done; apply rtc_once, M_admit; try assumption;
        unfold replaceable; rewrite E; auto.
  - apply rtc_once, M_admit; [assumption..|]. unfold replaceable. by rewrite E.
Qed.

Lemma lose_devices_micro keys st :
  rtc micro st (set_devices (foldl (fun m key => alter lose_device key m) (fs_devices st) keys) st).
Proof.
  revert st. induction keys as [|k keys IH]; intros st; cbn [foldl].
  - by rewrite set_devices_id.
  - eapply rtc_l; [apply (M_lose_device st k)|]. exact (IH (alter_device lose_device k st)).
Qed.

Lemma lost_micro w now st : rtc micro st (mark_worker_lost w now st).1.
Proof.
  unfold mark_worker_lost. destruct (fs_workers st !! w) as [wr|] eqn:E; [|done]. cbn [fst].
  eapply rtc_l; [by apply (M_lose st w)|].
  apply (lose_devices_micro (w_device_identities wr) (put_worker w (lose_worker wr) st)).
Qed.

Lemma sweep_micro seen now keys st : rtc micro st (foldl (sweep_key seen now) st keys).
Proof.
  revert st. induction keys as [|k keys IH]; intros st; cbn [foldl]; [done|].
  eapply rtc_l; [apply (M_sweep st seen now k)|apply IH].
Qed.

(** The sweep leaves the workers alone. *)
Lemma sweep_workers seen now keys st :
  fs_workers (foldl (sweep_key seen now) st keys) = fs_workers st.
Proof.
  revert st. induction keys as [|k keys IH]; intros st; cbn [foldl]; [done|].
  rewrite IH. unfold sweep_key. by repeat case_branch.
Qed.

Lemma alter_is_insert {K A} `{Countable K} (f : A -> A) (m : gmap K A) k x :
  m !! k = Some x -> alter f k m = <[k := f x]> m.
Proof.
  intros E. apply map_eq. intros j. destruct (decide (k = j)) as [<-|Hne].
  - by rewrite lookup_alter_eq, lookup_insert_eq, E.
  - by rewrite lookup_alter_ne, lookup_insert_ne.
Qed.

(** A commit keeps the worker's record except for its list of devices. *)
Lemma commit_worker w wr o a st :
  fs_workers st !! w = Some wr ->
  exists ids, fs_workers (ingest_commit w o a st) !! w =
    Some (MkWorker (w_worker wr) (w_boot wr) (w_registration_generation wr) (w_node wr)
      (w_agent wr) (w_agent_version wr) (w_protocol_version wr) (w_os_platform wr)
      (w_driver_version wr) ids (w_supported_capabilities wr) (w_registered_at wr)
      (w_last_heartbeat wr) (w_registered_epoch wr) (w_alive wr) (w_fenced wr) (w_lost wr)).
Proof.
  intros E. unfold ingest_commit. case_branch; cbn.
  - exists (w_device_identities wr). rewrite E. by destruct wr.
  - exists (w_device_identities wr ++ [canonical_device_identity (o_identity o)]).
    by rewrite lookup_alter_eq, E.
Qed.

(** The loop: the transitions, and the worker's record at the end. *)
Lemma ingest_loop_micro w boot policy now obs acc wr :
  fs_workers (ia_state acc) !! w = Some wr -> authoritative_worker wr -> w_boot wr = boot ->
  let r := ingest_loop w boot policy now obs acc in
  rtc micro (ia_state acc) (ia_state r.1) /\
  exists wr', fs_workers (ia_state r.1) !! w = Some wr' /\ authoritative_worker wr' /\
              w_boot wr' = boot.
Proof.
  intros E Ha <-. revert acc wr E Ha.
  induction obs as [|o obs IH]; intros acc wr E Ha; cbn [ingest_loop].
  - split; [apply rtc_refl | eauto 6].
  - destruct (ingest_gate w (w_boot wr) o (ia_state acc)) eqn:G;
      [split; [apply rtc_refl | eauto 6] | by apply IH |].
    destruct (commit_worker w wr o (ingest_apply o policy now (ia_state acc)) _ E) as [ids Hids].
    match goal with |- context [ingest_loop _ _ _ _ obs ?acc'] =>
      destruct (IH acc' _ Hids Ha) as [Hm Hw] end.
    split; [|exact Hw]. eapply rtc_l; [by eapply M_commit|exact Hm].
Qed.

Lemma ingest_micro w obs policy now st : rtc micro st (ingest_snapshot w obs policy now st).1.
Proof.
  unfold ingest_snapshot. destruct (fs_workers st !! w) as [wr|] eqn:E; [|done].
  destruct (w_lost wr || w_fenced wr) eqn:Ha; [done|]. apply orb_false_iff in Ha.
  destruct (ingest_loop_micro w (w_boot wr) policy now obs (MkAcc st ∅ applied_default) wr
              E Ha eq_refl) as [Hm (wr' & E' & Ha' & _)].
  destruct (ingest_loop _ _ _ _ _ _) as [acc [e|]]; cbn [fst snd ia_state] in *; [exact Hm|].
  etransitivity; [exact Hm|].
  etransitivity; [apply (sweep_micro (ia_seen acc) now (worker_keys w (ia_state acc)))|].
  apply rtc_once.
  rewrite <- (sweep_workers (ia_seen acc) now (worker_keys w (ia_state acc))) in E'.
  unfold alter_worker. rewrite (alter_is_insert _ _ _ _ E'). by eapply M_touch.
Qed.

Lemma heartbeat_micro w boot epoch now hg st :
  rtc micro st (heartbeat w boot epoch now hg st).1.
Proof.
  unfold heartbeat. repeat case_branch; try done. apply rtc_once. by apply M_beat.
Qed.

(** Every operation is a sequence of elementary transitions, and so is every
    history. *)
Lemma run_op_micro op st : in_scope sc op -> rtc micro st (run_op op st).
Proof.
  destruct op; cbn [run_op in_scope]; intros Hsc.
  - unfold roll_epoch, gen_leb. case_branch; [done|]. zbool. by apply rtc_once, M_roll.
  - by apply register_micro.
  - apply lost_micro.
  - apply ingest_micro.
  - apply heartbeat_micro.
  - by apply rtc_once, M_drain.
  - apply rtc_once, M_quarantine.
  - unfold clear_quarantine. destruct (gen_eqb_spec epoch (fs_epoch st)) as [->|]; [|done].
    cbn [negb]. apply rtc_once. pose proof (M_clear st w identity now Hsc) as H.
    unfold clear_quarantine in H. by rewrite gen_eqb_refl in H.
Qed.

Lemma run_ops_micro ops st : Forall (in_scope sc) ops -> rtc micro st (run_ops ops st).
Proof.
  intros Hops. revert st. induction Hops as [|op ops Hop _ IH]; intros st; cbn; [done|].
  etransitivity; [by apply run_op_micro | apply IH].
Qed.

(** Rule induction: what every elementary transition preserves, every history
    preserves. *)
Lemma run_ops_invariant (P : FleetState -> Prop) ops st :
  Forall (in_scope sc) ops ->
  (forall s s', micro s s' -> P s -> P s') -> P st -> P (run_ops ops st).
Proof.
  intros Hops HP. induction (run_ops_micro ops st Hops); eauto.
Qed.

(** The same for a preorder between the states before and after. *)
Lemma run_ops_monotone (R : FleetState -> FleetState -> Prop) `{!PreOrder R} ops st :
  Forall (in_scope sc) ops ->
  (forall s s', micro s s' -> R s s') -> R st (run_ops ops st).
Proof.
  intros Hops HR. induction (run_ops_micro ops st Hops) as [|s1 s2 s3 H12 _ IH]; [done|].
  etransitivity; [by apply HR | exact IH].
Qed.

End Steps.

Lemma any_scope_all ops : Forall (in_scope any_scope) ops.
Proof. apply Forall_true. by intros []. Qed.

#[export] Hint Resolve any_scope_all : fleet.
