(* ===== verification/FleetInv.v ===== *)
(** * Invariants of the fleet state

    How one device record and one worker record may evolve, the well-formedness
    invariant of the store, and the safety properties of its histories. *)

From stdpp Require Import relations.
From S2P Require Import Prelude Core Identity Device Health Eligibility Observation Change.
From S2P Require Import Pipeline Registration FleetState FleetSteps.

(* ------------------------------------------------------------------ *)
(** ** The evolution of one record *)

Section Evolution.
Context (sc : Scope).

Inductive dev_step (st : FleetState) (k : string) : option DeviceState -> DeviceState -> Prop :=
  | DS_observed w wr o policy now :
      fs_workers st !! w = Some wr -> authoritative_worker wr ->
      ingest_gate w (w_boot wr) o st = Commit ->
      k = canonical_device_identity (o_identity o) ->
      dev_step st k (fs_devices st !! k) (ao_state (ingest_apply o policy now st))
  | DS_lost d : dev_step st k (Some d) (lose_device d)
  | DS_gone d : dev_step st k (Some d) (disappeared_device d)
  | DS_drain d x :
      sc_drain sc k -> dev_step st k (Some d) (recompute_device_eligibility (d_set_drain x d))
  | DS_quarantine d q :
      gen_value (d_generation d) <= gen_value (q_generation q) ->
      dev_step st k (Some d) (recompute_device_eligibility (d_set_quarantine true q d))
  | DS_clear d :
      sc_clear sc k ->
      dev_step st k (Some d)
        (recompute_device_eligibility (d_set_quarantine false quarantine_default d)).

Inductive worker_step (st : FleetState) (w : WorkerId) :
    option WorkerRecord -> WorkerRecord -> Prop :=
  | WS_admit reg now :
      sc_register sc reg -> r_epoch reg = fs_epoch st -> replaceable reg st -> w = r_worker reg ->
      worker_step st w (fs_workers st !! w) (new_worker_record reg now)
  | WS_reaffirm reg now wr :
      sc_register sc reg -> r_epoch reg = fs_epoch st -> w = r_worker reg -> w_boot wr = r_worker_boot reg ->
      gen_value (w_registration_generation wr) < gen_value (r_registration_generation reg) ->
      worker_step st w (Some wr) (reaffirm_worker reg now wr)
  | WS_lose wr : worker_step st w (Some wr) (lose_worker wr)
  | WS_push key wr :
      authoritative_worker wr -> worker_step st w (Some wr) (push_identity key wr)
  | WS_touch now wr :
      authoritative_worker wr -> worker_step st w (Some wr) (touch_worker now wr)
  | WS_beat now wr : worker_step st w (Some wr) (beat_worker now wr).

End Evolution.

(** An entry of a map is as before or has made a step. *)
Definition evolves {K A} `{Countable K} (step : K -> option A -> A -> Prop) (m m' : gmap K A)
  : Prop :=
  forall k, m' !! k = m !! k \/ exists x, m' !! k = Some x /\ step k (m !! k) x.

Lemma evolves_refl {K A} `{Countable K} (step : K -> option A -> A -> Prop) m :
  evolves step m m.
Proof. intros k. by left. Qed.

Lemma evolves_insert {K A} `{Countable K} (step : K -> option A -> A -> Prop) m k x :
  step k (m !! k) x -> evolves step m (<[k := x]> m).
Proof.
  intros Hs j. destruct (decide (k = j)) as [<-|Hne].
  - right. exists x. by rewrite lookup_insert_eq.
  - left. by rewrite lookup_insert_ne.
Qed.

Lemma evolves_alter {K A} `{Countable K} (step : K -> option A -> A -> Prop) m k f :
  (forall x, m !! k = Some x -> step k (Some x) (f x)) -> evolves step m (alter f k m).
Proof.
  intros Hs j. destruct (decide (k = j)) as [<-|Hne].
  - rewrite lookup_alter_eq. destruct (m !! k) as [x|] eqn:E; [|by left].
    right. exists (f x). split; [done|]. by apply Hs.
  - left. by rewrite lookup_alter_ne.
Qed.

#[export] Hint Resolve evolves_refl : fleet.

Lemma ensure_node_workers n now st : fs_workers (ensure_node n now st) = fs_workers st.
Proof. unfold ensure_node. by case_branch. Qed.
Lemma ensure_node_devices n now st : fs_devices (ensure_node n now st) = fs_devices st.
Proof. unfold ensure_node. by case_branch. Qed.

(** Each elementary transition, seen on the devices and on the workers. *)
Lemma micro_devices sc s s' :
  micro sc s s' -> evolves (dev_step sc s) (fs_devices s) (fs_devices s').
Proof.
  destruct 1; cbn; auto with fleet.
  - rewrite ensure_node_devices. apply evolves_refl.
  - apply evolves_alter. intros d _. apply DS_lost.
  - unfold ingest_commit.
    case_branch; cbn; apply evolves_insert; by eapply DS_observed.
  - unfold sweep_key. repeat case_branch; cbn; try apply evolves_refl.
    apply evolves_insert. match goal with H : _ !! _ = Some _ |- _ => rewrite H end. apply DS_gone.
  - unfold set_drain. repeat case_branch; cbn; try apply evolves_refl.
    apply evolves_insert. match goal with H : _ !! _ = Some _ |- _ => rewrite H end. by apply DS_drain.
  - unfold set_quarantine, gen_ltb. repeat case_branch; cbn; try apply evolves_refl; zbool;
    apply evolves_insert; match goal with H : _ !! _ = Some _ |- _ => rewrite H end;
    by apply DS_quarantine.
  - unfold clear_quarantine. repeat case_branch; cbn; try apply evolves_refl.
    apply evolves_insert. match goal with H : _ !! _ = Some _ |- _ => rewrite H end. by apply DS_clear.
Qed.

Lemma micro_workers sc s s' :
  micro sc s s' -> evolves (worker_step sc s) (fs_workers s) (fs_workers s').
Proof.
  destruct 1; cbn; auto with fleet.
  - rewrite ensure_node_workers. apply evolves_insert. by apply WS_admit.
  - apply evolves_insert. rewrite H1. by apply WS_reaffirm.
  - apply evolves_insert. rewrite H. by apply WS_lose.
  - unfold ingest_commit. case_branch; cbn; [apply evolves_refl|].
    apply evolves_alter. intros x Hx. rewrite H in Hx. injection Hx as <-. by apply WS_push.
  - unfold sweep_key. repeat case_branch; cbn; apply evolves_refl.
  - apply evolves_insert. rewrite H. by apply WS_touch.
  - apply evolves_insert. rewrite H. by apply WS_beat.
  - unfold set_drain. repeat case_branch; cbn; apply evolves_refl.
  - unfold set_quarantine. repeat case_branch; cbn; apply evolves_refl.
  - unfold clear_quarantine. repeat case_branch; cbn; apply evolves_refl.
Qed.

(** What a step of one entry preserves, the whole map preserves. *)
Lemma evolves_forall {K A} `{Countable K} (step : K -> option A -> A -> Prop)
    (P : K -> A -> Prop) m m' :
  evolves step m m' ->
  (forall k o x, o = m !! k -> step k o x -> (forall y, o = Some y -> P k y) -> P k x) ->
  (forall k x, m !! k = Some x -> P k x) -> forall k x, m' !! k = Some x -> P k x.
Proof.
  intros He Hs Hm k x Hx. destruct (He k) as [E|(x' & E & Hstep)].
  - rewrite E in Hx. eauto.
  - rewrite E in Hx. injection Hx as ->. eapply Hs; [reflexivity|exact Hstep|eauto].
Qed.

(** No entry disappears. *)
Lemma evolves_lookup {K A} `{Countable K} (step : K -> option A -> A -> Prop) m m' k x :
  evolves step m m' -> m !! k = Some x ->
  exists x', m' !! k = Some x' /\ (x' = x \/ step k (Some x) x').
Proof.
  intros He Hx. destruct (He k) as [E|(x' & E & Hs)]; rewrite Hx in *; eauto.
Qed.

(* ------------------------------------------------------------------ *)
(** ** Well-formed states *)

(** What a schedulable device has been shown to satisfy. *)
Definition device_proven (d : DeviceState) : Prop :=
  d_observation_fresh d = true /\ d_present d = true /\ d_quarantined d = false /\
  d_drain d = DrainState.ACTIVE /\
  (d_health d = HealthState.HEALTHY \/ d_health d = HealthState.DEGRADED).

Definition device_ok (k : string) (d : DeviceState) : Prop :=
  k = canonical_device_identity (d_identity d) /\
  (schedulable (d_eligibility d) = true -> device_proven d).

(** A lost worker is fenced, and lost is the opposite of alive. *)
Definition worker_ok (w : WorkerId) (wr : WorkerRecord) : Prop :=
  w_worker wr = w /\ w_lost wr = negb (w_alive wr) /\ (w_lost wr = true -> w_fenced wr = true).

Record fleet_wf (st : FleetState) : Prop := {
  fw_devices : forall k d, fs_devices st !! k = Some d -> device_ok k d;
  fw_workers : forall w wr, fs_workers st !! w = Some wr -> worker_ok w wr;
  fw_nodes : forall n r, fs_nodes st !! n = Some r -> n_node r = n;
  fw_log : Z.of_nat (length (fs_change_log st)) <= kMaxChangeLog
}.

(** A fresh store, or one restored from any snapshot at all: [decode_snapshot] asks
    nothing of the keys devices are filed under, nor of what a worker's flags say. *)
Inductive initial : FleetState -> Prop :=
  | init_fresh c e : initial (fleet_init c e)
  | init_restored s st : initial (restore s st).1.

(** A fact about the entries of a map, but for those it did not hold of at first. *)
Definition unless_first {K A} `{Countable K} (P : K -> A -> Prop) (m0 m : gmap K A) : Prop :=
  forall k x, m !! k = Some x -> P k x \/ exists x0, m0 !! k = Some x0 /\ ~ P k x0.

(** A schedulable device is proven, whatever the key it is filed under. *)
Definition placed (d : DeviceState) : Prop :=
  schedulable (d_eligibility d) = true -> device_proven d.

(** [st] is well formed, but for what was not so in [st0]: a device under another key
    than its identity, a worker's flags, a node under another id, a longer log. *)
Record fleet_wf_from (st0 st : FleetState) : Prop := {
  ff_placed : forall k d, fs_devices st !! k = Some d -> placed d;
  ff_keys : unless_first (fun k d => k = canonical_device_identity (d_identity d))
              (fs_devices st0) (fs_devices st);
  ff_workers : unless_first worker_ok (fs_workers st0) (fs_workers st);
  ff_nodes : unless_first (fun n r => n_node r = n) (fs_nodes st0) (fs_nodes st);
  ff_log : Z.of_nat (length (fs_change_log st)) <=
             Z.max kMaxChangeLog (Z.of_nat (length (fs_change_log st0)))
}.

(* ------------------------------------------------------------------ *)
(** ** The invariant is preserved *)

Lemma recompute_proven d :
  schedulable (d_eligibility (recompute_device_eligibility d)) = true ->
  device_proven (recompute_device_eligibility d).
Proof.
  cbn. intros H. apply schedulable_inv in H as [Hc Hh]. apply gates_clear_inv in Hc.
  cbn [recompute_input ei_quarantine ei_drain_active ei_observation_fresh ei_device_present
       ei_health] in Hc, Hh.
  rewrite drain_active_false in Hc. unfold device_proven. cbn. tauto.
Qed.

Lemma ingest_apply_proven o policy now st :
  schedulable (d_eligibility (ao_state (ingest_apply o policy now st))) = true ->
  device_proven (ao_state (ingest_apply o policy now st)).
Proof.
  unfold ingest_apply. cbn [ao_state d_set_health_generation d_eligibility].
  set (prior := default _ _). intros H. pose proof H as Hh.
  apply schedulable_iff_clear in Hh as [_ Hh]. apply applied_schedulable in H. deex.
  unfold device_proven. cbn. cbn [eligibility_input ei_health] in Hh. auto.
Qed.

Lemma dev_step_placed sc st k o d :
  dev_step sc st k o d -> (forall d0, o = Some d0 -> placed d0) -> placed d.
Proof.
  unfold placed. destruct 1; intros Hok; [apply ingest_apply_proven| | |apply recompute_proven..].
  - unfold lose_device. cbn [d_set_fresh d_present]. destruct (d_present d) eqn:E; [discriminate|].
    cbn. intros Hs. destruct (Hok _ eq_refl Hs) as (_ & Hpr & _). congruence.
  - discriminate.
Qed.

Lemma dev_step_key sc st k o d :
  dev_step sc st k o d ->
  (forall d0, o = Some d0 -> k = canonical_device_identity (d_identity d0)) ->
  k = canonical_device_identity (d_identity d).
Proof.
  destruct 1; intros Hok; try (exact (Hok _ eq_refl)); [assumption|].
  unfold lose_device. cbn [d_set_fresh d_present]. case_branch; exact (Hok _ eq_refl).
Qed.

Lemma dev_step_ok sc st k o d :
  dev_step sc st k o d -> (forall d0, o = Some d0 -> device_ok k d0) -> device_ok k d.
Proof.
  intros Hs Hok. split.
  - eapply dev_step_key; [exact Hs|]. intros d0 E. apply (Hok d0 E).
  - eapply dev_step_placed; [exact Hs|]. intros d0 E. exact (proj2 (Hok d0 E)).
Qed.

Lemma worker_step_ok sc st w o wr :
  worker_step sc st w o wr -> (forall wr0, o = Some wr0 -> worker_ok w wr0) -> worker_ok w wr.
Proof.
  unfold worker_ok.
  destruct 1; intros Hok; try (destruct (Hok _ eq_refl) as (? & ? & ?)); cbn; try done.
  destruct H as [Hl Hf]. rewrite Hl. done.
Qed.

Lemma push_change_bound n log c :
  kMaxChangeLog <= n -> Z.of_nat (length log) <= n -> Z.of_nat (length (push_change log c)) <= n.
Proof.
  unfold push_change, kMaxChangeLog. intros Hn H.
  destruct (_ >? _) eqn:E; [rewrite length_drop|]; zbool; [|lia].
  rewrite length_app in *. cbn in *. lia.
Qed.

Lemma push_changes_bound n cs log :
  kMaxChangeLog <= n -> Z.of_nat (length log) <= n ->
  Z.of_nat (length (foldl push_change log cs)) <= n.
Proof.
  intros Hn. revert log. induction cs as [|c cs IH]; intros log H; cbn; [done|].
  by apply IH, push_change_bound.
Qed.

#[export] Hint Resolve push_change_bound push_changes_bound : fleet.

(** The change log: only [log_change] and the commit of an observation write it. *)
Lemma micro_log n sc s s' :
  kMaxChangeLog <= n -> micro sc s s' -> Z.of_nat (length (fs_change_log s)) <= n ->
  Z.of_nat (length (fs_change_log s')) <= n.
Proof.
  intros Hn. destruct 1; cbn; auto with fleet; intros Hlog.
  - unfold ensure_node. by case_branch.
  - unfold ingest_commit. case_branch; cbn -[apply_observation]; auto with fleet.
  - unfold sweep_key. repeat case_branch; cbn; auto with fleet.
  - unfold set_drain. repeat case_branch; cbn; auto with fleet.
  - unfold set_quarantine. repeat case_branch; cbn; auto with fleet.
  - unfold clear_quarantine. repeat case_branch; cbn; auto with fleet.
Qed.

(** An entry of the nodes is as before, or is new and under its own id. *)
Lemma micro_nodes sc s s' :
  micro sc s s' -> evolves (fun n _ r => n_node r = n) (fs_nodes s) (fs_nodes s').
Proof.
  destruct 1; cbn; auto with fleet.
  - unfold ensure_node. case_branch; cbn; [apply evolves_refl|]. by apply evolves_insert.
  - unfold ingest_commit. case_branch; apply evolves_refl.
  - unfold sweep_key. repeat case_branch; apply evolves_refl.
  - unfold set_drain. repeat case_branch; apply evolves_refl.
  - unfold set_quarantine. repeat case_branch; apply evolves_refl.
  - unfold clear_quarantine. repeat case_branch; apply evolves_refl.
Qed.

Lemma micro_wf sc s s' : micro sc s s' -> fleet_wf s -> fleet_wf s'.
Proof.
  intros Hm [Hd Hw Hn Hl]. split.
  - eapply (evolves_forall _ device_ok); [by apply micro_devices| |exact Hd].
    intros k o d _ Hs. by eapply dev_step_ok.
  - eapply (evolves_forall _ worker_ok); [by apply micro_workers| |exact Hw].
    intros w o wr _ Hs. by eapply worker_step_ok.
  - by eapply (evolves_forall _ (fun n r => n_node r = n)); [by eapply micro_nodes| |exact Hn].
  - by apply (micro_log kMaxChangeLog sc s s').
Qed.

(** What a step of one entry preserves, the map preserves but for the first exceptions. *)
Lemma unless_first_evolves {K A} `{Countable K} (step : K -> option A -> A -> Prop)
    (P : K -> A -> Prop) m0 m m' :
  evolves step m m' ->
  (forall k o x, step k o x -> (forall y, o = Some y -> P k y) -> P k x) ->
  unless_first P m0 m -> unless_first P m0 m'.
Proof.
  intros He Hs Hm. unfold unless_first. eapply evolves_forall; [exact He| |exact Hm].
  intros k o x Ho Hstep Hold. destruct o as [y|].
  - destruct (Hold y eq_refl) as [Hy|Hex]; [left|by right]. eapply Hs; [exact Hstep|]. by intros ? [= <-].
  - left. by eapply Hs.
Qed.

Lemma micro_wf_from st0 sc s s' : micro sc s s' -> fleet_wf_from st0 s -> fleet_wf_from st0 s'.
Proof.
  intros Hm [Hp Hk Hw Hn Hl]. split.
  - eapply (evolves_forall _ (fun _ => placed)); [by apply micro_devices| |exact Hp].
    intros k o d _ Hs. by eapply dev_step_placed.
  - eapply unless_first_evolves; [by apply micro_devices| |exact Hk]. intros k o d Hs. by eapply dev_step_key.
  - eapply unless_first_evolves; [by apply micro_workers| |exact Hw]. intros w o wr Hs. by eapply worker_step_ok.
  - by eapply unless_first_evolves; [by eapply micro_nodes| |exact Hn].
  - apply (micro_log _ sc s s'); [lia|exact Hm|exact Hl].
Qed.

Lemma recover_device_spec d :
  d_identity (recover_device d) = d_identity d /\
  d_observation_fresh (recover_device d) = false /\
  schedulable (d_eligibility (recover_device d)) = false /\
  d_quarantined (recover_device d) = d_quarantined d /\
  d_quarantine (recover_device d) = d_quarantine d /\ d_drain (recover_device d) = d_drain d.
Proof. unfold recover_device. cbn. repeat case_branch; cbn; auto 10. Qed.

Lemma initial_placed st k d : initial st -> fs_devices st !! k = Some d -> placed d.
Proof.
  destruct 1 as [c e|s st]; cbn; [done|]. rewrite lookup_fmap. destruct (s_devices s !! k) as [d0|]; [|done].
  cbn. intros [= <-]. destruct (recover_device_spec d0) as (_ & _ & Hs & _). unfold placed. congruence.
Qed.

Lemma unless_first_refl {K A} `{Countable K} (P : K -> A -> Prop) (m : gmap K A) :
  (forall k x, Decision (P k x)) -> unless_first P m m.
Proof. intros Hdec k x Hx. destruct (decide (P k x)); eauto. Qed.

#[export] Instance worker_ok_dec w wr : Decision (worker_ok w wr).
Proof. unfold worker_ok. apply _. Defined.

Lemma initial_wf_from st : initial st -> fleet_wf_from st st.
Proof.
  intros Hi. split; [intros k d; by apply initial_placed|apply unless_first_refl, _..|lia].
Qed.

Lemma fleet_init_wf c e : fleet_wf (fleet_init c e).
Proof. by split. Qed.
