(* ===== verification/FleetSafety.v ===== *)
(** * Safety of the fleet state

    The properties of histories of operations: what a schedulable device has
    been shown, what quarantine, drain and fencing guarantee, which evidence a
    snapshot may install, and the accounting. *)

From stdpp Require Import relations.
From S2P Require Import Prelude Core Identity Device Health Eligibility Observation Change.
From S2P Require Import Pipeline Registration FleetState FleetSteps FleetInv.

(* ------------------------------------------------------------------ *)
(** ** Lemmas: histories *)

Lemma run_ops_wf ops st : fleet_wf st -> fleet_wf (run_ops ops st).
Proof.
  apply (run_ops_invariant any_scope); [auto with fleet|]. intros s s'. apply micro_wf.
Qed.

Lemma run_ops_placed ops st :
  (forall k d, fs_devices st !! k = Some d -> placed d) ->
  forall k d, fs_devices (run_ops ops st) !! k = Some d -> placed d.
Proof.
  apply (run_ops_invariant any_scope (fun s => forall k d, fs_devices s !! k = Some d -> placed d));
    [auto with fleet|].
  intros s s' Hm Hs. eapply (evolves_forall _ (fun _ => placed)); [by apply micro_devices| |exact Hs].
  intros k o d _ Hstep. by eapply dev_step_placed.
Qed.

(** A fact about one device that no step in the scope can end. *)
Lemma device_fact_persists sc (P : DeviceState -> Prop) k ops st d :
  Forall (in_scope sc) ops ->
  (forall s d0 d1, fs_devices s !! k = Some d0 -> dev_step sc s k (Some d0) d1 -> P d0 -> P d1) ->
  fs_devices st !! k = Some d -> P d ->
  exists d', fs_devices (run_ops ops st) !! k = Some d' /\ P d'.
Proof.
  intros Hops Hs Hd HP.
  apply (run_ops_invariant sc (fun s => exists d', fs_devices s !! k = Some d' /\ P d'));
    [exact Hops| |eauto].
  intros s s' Hm (d0 & E & H0).
  destruct (evolves_lookup _ _ _ _ _ (micro_devices _ _ _ Hm) E) as (d1 & E1 & [->|Hstep]); eauto.
Qed.

(** The same for one worker. *)
Lemma worker_fact_persists sc (P : WorkerRecord -> Prop) w ops st wr :
  Forall (in_scope sc) ops ->
  (forall s w0 w1, fs_workers s !! w = Some w0 -> worker_step sc s w (Some w0) w1 -> P w0 -> P w1) ->
  fs_workers st !! w = Some wr -> P wr ->
  exists wr', fs_workers (run_ops ops st) !! w = Some wr' /\ P wr'.
Proof.
  intros Hops Hs Hw HP.
  apply (run_ops_invariant sc (fun s => exists wr', fs_workers s !! w = Some wr' /\ P wr'));
    [exact Hops| |eauto].
  intros s s' Hm (w0 & E & H0).
  destruct (evolves_lookup _ _ _ _ _ (micro_workers _ _ _ Hm) E) as (w1 & E1 & [->|Hstep]); eauto.
Qed.

(** The prior state an observation is applied to. *)
Lemma ingest_apply_admin o policy now st d :
  fs_devices st !! canonical_device_identity (o_identity o) = Some d ->
  d_quarantined (ao_state (ingest_apply o policy now st)) = d_quarantined d /\
  d_quarantine (ao_state (ingest_apply o policy now st)) = d_quarantine d /\
  d_drain (ao_state (ingest_apply o policy now st)) = d_drain d.
Proof. intros E. unfold ingest_apply. rewrite E. cbn. auto. Qed.

Lemma lose_device_admin d :
  d_quarantined (lose_device d) = d_quarantined d /\ d_drain (lose_device d) = d_drain d.
Proof. unfold lose_device. cbn. by destruct (d_present d). Qed.

(** Case analysis on the step of a device that exists, by what it makes of it. *)
Lemma dev_step_cases sc s k d0 d1 (P : DeviceState -> DeviceState -> Prop) :
  fs_devices s !! k = Some d0 -> dev_step sc s k (Some d0) d1 ->
  (forall o policy now, k = canonical_device_identity (o_identity o) ->
     P d0 (ao_state (ingest_apply o policy now s))) ->
  P d0 (lose_device d0) -> P d0 (disappeared_device d0) ->
  (forall x, sc_drain sc k -> P d0 (recompute_device_eligibility (d_set_drain x d0))) ->
  (forall q, P d0 (recompute_device_eligibility (d_set_quarantine true q d0))) ->
  (sc_clear sc k ->
     P d0 (recompute_device_eligibility (d_set_quarantine false quarantine_default d0))) ->
  P d0 d1.
Proof.
  intros Hd Hs Ho Hl Hg Hdr Hq Hc.
  remember (Some d0) as o0 eqn:E. destruct Hs; try (injection E as ->); eauto.
Qed.

(** Histories without the one operation that ends the property. *)
Definition never_clears (k : string) (op : Op) : Prop :=
  match op with OpClear _ identity _ _ => identity <> k | _ => True end.
Definition never_drains (k : string) (op : Op) : Prop :=
  match op with OpDrain _ identity _ _ => identity <> k | _ => True end.
(** The operation registers no incarnation of [w]. *)
Definition not_registering (w : WorkerId) (op : Op) : Prop :=
  match op with OpRegister reg _ => r_worker reg <> w | _ => True end.
(** In the history [ops], a boot of [w] that satisfies [P] was admitted, and [rest] is
    what followed. *)
Definition admitted (w : WorkerId) (P : WorkerBootId -> Prop) (st : FleetState) (ops rest : list Op)
  : Prop :=
  exists before reg now, ops = before ++ OpRegister reg now :: rest /\ r_worker reg = w /\
    P (r_worker_boot reg) /\ result_ok (register_worker reg now (run_ops before st)).2 = true.
(** Another incarnation of [w] was admitted, and after it [b] was. *)
Definition readmitted (w : WorkerId) (b : WorkerBootId) (st : FleetState) (ops : list Op) : Prop :=
  exists rest rest', admitted w (fun b' => b' <> b) st ops rest /\ admitted w (eq b) st ops rest' /\
    (length rest' < length rest)%nat.

#[global] Instance never_clears_dec k op : Decision (never_clears k op).
Proof. destruct op; cbn; apply _. Defined.
#[global] Instance never_drains_dec k op : Decision (never_drains k op).
Proof. destruct op; cbn; apply _. Defined.

Definition no_clear (k : string) : Scope :=
  MkScope (fun _ => True) (fun _ => True) (fun i => i <> k).
Definition no_drain (k : string) : Scope :=
  MkScope (fun _ => True) (fun i => i <> k) (fun _ => True).
Definition one_boot (w : WorkerId) (b : WorkerBootId) : Scope :=
  MkScope (fun reg => r_worker reg = w -> r_worker_boot reg = b) (fun _ => True) (fun _ => True).

Lemma never_clears_scope k ops : Forall (never_clears k) ops -> Forall (in_scope (no_clear k)) ops.
Proof. intros H. eapply Forall_impl; [exact H|]. by intros []. Qed.
Lemma never_drains_scope k ops : Forall (never_drains k) ops -> Forall (in_scope (no_drain k)) ops.
Proof. intros H. eapply Forall_impl; [exact H|]. by intros []. Qed.
Lemma not_registering_scope w b op : not_registering w op -> in_scope (one_boot w b) op.
Proof. destruct op; try done. intros Hn Hr. by destruct Hn. Qed.

(** An elementary step of a fenced worker keeps it fenced. *)
Lemma worker_step_fenced w b s w0 w1 :
  fs_workers s !! w = Some w0 -> worker_step (one_boot w b) s w (Some w0) w1 ->
  w_boot w0 = b /\ w_fenced w0 = true -> w_boot w1 = b /\ w_fenced w1 = true.
Proof.
  intros Hw Hs [Hb Hf]. remember (Some w0) as o eqn:E.
  destruct Hs as [reg now Hsc _ Hr Hwr|reg now wr _ _ _ _ _|wr|key wr Ha|now wr Ha|now wr];
    try (injection E as ->); try (destruct Ha; congruence); cbn; auto.
  unfold replaceable in Hr. rewrite <- Hwr, E in Hr. destruct Hr as [Hne _].
  cbn in Hsc. exfalso. apply Hne. by rewrite Hb, Hsc.
Qed.

(** And, short of a registration, its boot. *)
Lemma worker_step_boot w b s w0 w1 :
  fs_workers s !! w = Some w0 -> worker_step (one_boot w b) s w (Some w0) w1 ->
  w_boot w0 = b -> w_boot w1 = b.
Proof.
  intros Hw Hs Hb. remember (Some w0) as o eqn:E.
  destruct Hs as [reg now Hsc _ Hr Hwr|reg now wr _ _ _ _ _|wr|key wr Ha|now wr Ha|now wr];
    try (injection E as ->); cbn; auto.
Qed.

Lemma admitted_registers w P st ops rest :
  admitted w P st ops rest ->
  Exists (fun op => match op with OpRegister reg _ => r_worker reg = w /\ P (r_worker_boot reg)
                                | _ => False end) ops.
Proof.
  intros (l & reg & now & -> & Hr & HP & _). apply Exists_app. right. by apply Exists_cons_hd.
Qed.

(** A snapshot that opens with an observation of another boot is refused. *)
Lemma ingest_other_boot w wr o obs policy now st :
  fs_workers st !! w = Some wr -> o_source_worker_boot o <> w_boot wr ->
  exists e, ingest_snapshot w (o :: obs) policy now st = (st, Err e).
Proof.
  intros Hw Hb. unfold ingest_snapshot. rewrite Hw. case_branch; [by eexists|].
  cbn [ingest_loop ia_state]. unfold ingest_gate. case_branch; [by eexists|].
  destruct (id_eqb (o_source_worker_boot o) (w_boot wr)) eqn:E; [by apply id_eqb_eq in E|].
  by eexists.
Qed.

(** What one operation does to the incarnation on record: a fence stays, until
    another boot is admitted. *)
Lemma op_incarnation op st w wr :
  fs_workers st !! w = Some wr ->
  exists wr', fs_workers (run_op op st) !! w = Some wr' /\
    ((w_boot wr' = w_boot wr /\ (w_fenced wr = true -> w_fenced wr' = true)) \/
     exists reg now, op = OpRegister reg now /\ r_worker reg = w /\ w_boot wr' = r_worker_boot reg /\
       r_worker_boot reg <> w_boot wr /\ result_ok (register_worker reg now st).2 = true).
Proof.
  intros Hw. assert (not_registering w op ->
    exists wr', fs_workers (run_op op st) !! w = Some wr' /\
      w_boot wr' = w_boot wr /\ (w_fenced wr = true -> w_fenced wr' = true)) as Hother.
  { intros Hn. destruct (w_fenced wr) eqn:Hf.
    - destruct (worker_fact_persists (one_boot w (w_boot wr))
        (fun x => w_boot x = w_boot wr /\ w_fenced x = true) w [op] st wr) as (wr' & Hw' & Hb & Hf');
        [by apply Forall_singleton, not_registering_scope|intros s w0 w1; apply worker_step_fenced
        |done|done|by exists wr'].
    - destruct (worker_fact_persists (one_boot w (w_boot wr))
        (fun x => w_boot x = w_boot wr) w [op] st wr) as (wr' & Hw' & Hb);
        [by apply Forall_singleton, not_registering_scope|intros s w0 w1; apply worker_step_boot
        |done|done|by exists wr']. }
  destruct op as [ne|reg now| | | | | |];
    try (destruct (Hother I) as (wr' & Hw' & H); exists wr'; split; [exact Hw'|by left]).
  destruct (decide (r_worker reg = w)) as [<-|Hne];
    [|destruct (Hother Hne) as (wr' & Hw' & H); exists wr'; split; [exact Hw'|by left]].
  cbn [run_op]. unfold register_worker. rewrite Hw.
  case_branch; [by exists wr; split; [|left]|]. case_branch; [by exists wr; split; [|left]|].
  destruct (id_eqb (w_boot wr) (r_worker_boot reg)) eqn:Hb.
  - case_branch; [by exists wr; split; [|left]|]. eexists. split; [apply lookup_insert_eq|]. by left.
  - case_branch; [by exists wr; split; [|left]|]. eexists.
    split; [cbn; rewrite ensure_node_workers; apply lookup_insert_eq|]. right.
    exists reg, now. split_and!; try done.
    + intros E. rewrite <- E in Hb. by rewrite id_eqb_refl in Hb.
    + by rewrite Heqb, Heqb0, Hw, Hb, Heqb1.
Qed.

(** The same of a history: a fenced boot is on record as fenced, or was superseded,
    or was readmitted. *)
Lemma fenced_history w b st wr ops :
  fs_workers st !! w = Some wr -> w_boot wr = b -> w_fenced wr = true ->
  exists wr', fs_workers (run_ops ops st) !! w = Some wr' /\
    ((w_boot wr' = b /\ w_fenced wr' = true) \/
     (w_boot wr' <> b /\ exists rest, admitted w (fun b' => b' <> b) st ops rest) \/
     readmitted w b st ops).
Proof.
  intros Hw Hb Hf. induction ops as [|op ops IH] using rev_ind; [exists wr; auto|].
  destruct IH as (wr1 & Hw1 & H1). unfold run_ops in *. rewrite foldl_app. cbn [foldl].
  fold (run_ops ops st) in *.
  destruct (op_incarnation op _ _ _ Hw1) as (wr2 & Hw2 & H2). exists wr2. split; [exact Hw2|].
  assert (forall P rest, admitted w P st ops rest -> admitted w P st (ops ++ [op]) (rest ++ [op])) as Hmore.
  { intros P rest (l & reg & now & -> & H). exists l, reg, now. split; [by rewrite <- app_assoc|exact H]. }
  destruct H2 as [[Hb2 Hf2]|(reg & now & -> & Hr & Hb2 & Hne & Hok)].
  - destruct H1 as [[H1 H1f]|[[H1 [rest Hrest]]|(r & r' & Hr & Hr' & Hlen)]].
    + left. split; [congruence|by apply Hf2].
    + right. left. split; [congruence|]. by exists (rest ++ [op]); apply Hmore.
    + right. right. exists (r ++ [op]), (r' ++ [op]). rewrite !length_app. auto with lia.
  - assert (forall P : WorkerBootId -> Prop, P (r_worker_boot reg) ->
      admitted w P st (ops ++ [OpRegister reg now]) []) as Hnow by (intros P HP; by exists ops, reg, now).
    destruct H1 as [[H1 H1f]|[[H1 [rest Hrest]]|(r & r' & Hr1 & Hr' & Hlen)]].
    + right. left. split; [congruence|]. exists []. apply Hnow. congruence.
    + destruct (decide (r_worker_boot reg = b)) as [E|E].
      * right. right. exists (rest ++ [OpRegister reg now]), []. split_and!;
          [by apply Hmore|by apply Hnow|rewrite length_app; cbn; lia].
      * right. left. split; [congruence|]. exists []. by apply Hnow.
    + right. right. exists (r ++ [OpRegister reg now]), (r' ++ [OpRegister reg now]).
      rewrite !length_app. auto with lia.
Qed.

(* ------------------------------------------------------------------ *)
(** ** Properties: the invariant and what it says of placement *)

(** C11. The invariant of the store, over every history from an empty store or from one
    restored from any snapshot: a schedulable device is proven; each device is filed
    under its canonical identity, each node and worker under its id, and a worker is
    lost exactly when it is not alive, and then fenced - except for entries the
    restored snapshot already had otherwise; and the change log has at most 10000
    entries, or as many as the snapshot had. An empty store has no such exceptions. *)
Theorem fleet_invariant ops st : initial st -> fleet_wf_from st (run_ops ops st).
Proof.
  intros Hi. apply (run_ops_invariant any_scope (fleet_wf_from st)); [auto with fleet| |].
  - intros s s'. apply micro_wf_from.
  - by apply initial_wf_from.
Qed.

(** Placement safety: in every history, from a fresh or a recovered store, a
    device reported ELIGIBLE or DEGRADED_ELIGIBLE has fresh evidence, is
    present, is neither quarantined nor draining, and its health is proven. *)
Theorem schedulable_device_is_proven ops st k d :
  initial st -> fs_devices (run_ops ops st) !! k = Some d ->
  schedulable (d_eligibility d) = true ->
  d_observation_fresh d = true /\ d_present d = true /\ d_quarantined d = false /\
  d_drain d = DrainState.ACTIVE /\
  (d_health d = HealthState.HEALTHY \/ d_health d = HealthState.DEGRADED).
Proof.
  intros Hi Hd. apply (run_ops_placed ops st) with k; [|exact Hd]. intros k' d'. by apply initial_placed.
Qed.

(** C3. Quarantine is sticky: whatever happens - observations, losses, heartbeats,
    registrations, drains, epoch rolls - a quarantined device stays quarantined
    and unschedulable until that device is explicitly cleared. *)
Theorem quarantine_persists ops st k d :
  fleet_wf st -> Forall (never_clears k) ops ->
  fs_devices st !! k = Some d -> d_quarantined d = true ->
  exists d', fs_devices (run_ops ops st) !! k = Some d' /\ d_quarantined d' = true /\
             schedulable (d_eligibility d') = false.
Proof.
  intros Hwf Hops Hd Hq.
  destruct (device_fact_persists (no_clear k) (fun d => d_quarantined d = true) k ops st d
              (never_clears_scope k ops Hops)) as (d' & Hd' & Hq'); [|exact Hd|exact Hq|].
  - intros s d0 d1 E Hs.
    refine (dev_step_cases _ _ _ _ _ (fun x y => d_quarantined x = true -> d_quarantined y = true)
              E Hs _ _ _ _ _ _).
    + intros o policy now Hk. rewrite Hk in E. by rewrite (proj1 (ingest_apply_admin o policy now s d0 E)).
    + by rewrite (proj1 (lose_device_admin d0)).
    + done.
    + done.
    + done.
    + by intros [].
  - exists d'. split_and!; [exact Hd'|exact Hq'|]. apply not_true_iff_false. intros Hs.
    destruct (fw_devices _ (run_ops_wf ops st Hwf) k d' Hd') as [_ Hp].
    destruct (Hp Hs) as (_ & _ & Hn & _). congruence.
Qed.

(** C4. A device that is draining stays so, and is not schedulable, until its drain
    level is set again. *)
Theorem drain_persists ops st k d :
  fleet_wf st -> Forall (never_drains k) ops ->
  fs_devices st !! k = Some d -> d_drain d <> DrainState.ACTIVE ->
  exists d', fs_devices (run_ops ops st) !! k = Some d' /\ d_drain d' = d_drain d /\
             schedulable (d_eligibility d') = false.
Proof.
  intros Hwf Hops Hd Hq.
  destruct (device_fact_persists (no_drain k) (fun x => d_drain x = d_drain d) k ops st d
              (never_drains_scope k ops Hops)) as (d' & Hd' & Hq'); [|exact Hd|reflexivity|].
  - intros s d0 d1 E Hs.
    refine (dev_step_cases _ _ _ _ _ (fun x y => d_drain x = d_drain d -> d_drain y = d_drain d)
              E Hs _ _ _ _ _ _).
    + intros o policy now Hk. rewrite Hk in E.
      by rewrite (proj2 (proj2 (ingest_apply_admin o policy now s d0 E))).
    + by rewrite (proj2 (lose_device_admin d0)).
    + done.
    + by intros x [].
    + done.
    + done.
  - exists d'. split_and!; [exact Hd'|exact Hq'|]. apply not_true_iff_false. intros Hs.
    destruct (fw_devices _ (run_ops_wf ops st Hwf) k d' Hd') as [_ Hp].
    destruct (Hp Hs) as (_ & _ & _ & Hn & _). congruence.
Qed.

(** C5. What fencing guarantees: once the boot a worker runs is fenced, then after any
    operations - its own registrations and heartbeats among them - a snapshot that
    opens with an observation of that boot is refused and leaves the state as it was.
    There is one way back, and the code leaves it open: another boot of the worker was
    admitted, and the old one was admitted again after it. *)
Theorem fenced_incarnation_refused ops st w wr o obs policy now :
  fs_workers st !! w = Some wr -> w_fenced wr = true -> o_source_worker_boot o = w_boot wr ->
  (exists e, ingest_snapshot w (o :: obs) policy now (run_ops ops st) = (run_ops ops st, Err e)) \/
  readmitted w (w_boot wr) st ops.
Proof.
  intros Hw Hf Ho.
  destruct (fenced_history w (w_boot wr) st wr ops Hw eq_refl Hf)
    as (wr' & Hw' & [[Hb Hf']|[[Hb _]|H]]); [left..|by right].
  - unfold ingest_snapshot. rewrite Hw', Hf', orb_true_r. by eexists.
  - apply ingest_other_boot with wr'; [exact Hw'|congruence].
Qed.
