(* ===== verification/FleetIngest.v ===== *)
(** * What a snapshot may install, and the remaining properties of the store

    Authority of the evidence, monotone generations within an incarnation,
    losses, registration, epochs, recovery and accounting. *)

From stdpp Require Import relations.
From S2P Require Import Prelude Core Identity Device Health Eligibility Observation Change.
From S2P Require Import Pipeline Registration FleetState FleetSteps FleetInv FleetSafety.

(* ------------------------------------------------------------------ *)
(** ** Lemmas: the ingest loop *)

(** The observation carries the authority of the coordinator's epoch and of the
    worker's current incarnation. *)
Definition authoritative_obs (w : WorkerId) (boot : WorkerBootId) (epoch : CoordinatorEpoch)
  (o : DeviceObservation) : Prop :=
  o_epoch o = epoch /\ o_source_worker_boot o = boot /\ o_source_worker o = w.

(** The record is what the observation says. *)
Definition records (o : DeviceObservation) (d : DeviceState) : Prop :=
  d_identity d = o_identity o /\ d_present d = o_present o /\
  d_source_worker_boot d = o_source_worker_boot o /\
  d_observation_generation d = o_observation_generation o /\
  d_generation d = o_device_generation o /\ d_health_generation d = o_health_generation o.

(** Against a prior record of the same incarnation the observation generation
    moves forward and the other generations do not move back. *)
Definition advances (prior : option DeviceState) (d : DeviceState) : Prop :=
  match prior with
  | None => True
  | Some p =>
      d_source_worker_boot p = d_source_worker_boot d ->
      gen_value (d_observation_generation p) < gen_value (d_observation_generation d) /\
      gen_value (d_generation p) <= gen_value (d_generation d) /\
      gen_value (d_health_generation p) <= gen_value (d_health_generation d)
  end.

Lemma advances_trans p d1 d2 :
  advances p d1 -> advances (Some d1) d2 -> d_source_worker_boot d1 = d_source_worker_boot d2 ->
  advances p d2.
Proof.
  unfold advances. destruct p as [p|]; [|done]. intros H1 H2 Hb Hp.
  destruct H1 as (? & ? & ?); [congruence|]. destruct (H2 Hb) as (? & ? & ?). lia.
Qed.

Lemma gate_commit w boot o st :
  ingest_gate w boot o st = Commit ->
  authoritative_obs w boot (fs_epoch st) o /\
  match fs_devices st !! canonical_device_identity (o_identity o) with
  | None => True
  | Some p => d_source_worker_boot p = o_source_worker_boot o ->
      gen_value (d_observation_generation p) < gen_value (o_observation_generation o) /\
      gen_value (d_generation p) <= gen_value (o_device_generation o) /\
      gen_value (d_health_generation p) <= gen_value (o_health_generation o)
  end.
Proof.
  unfold ingest_gate, authoritative_obs, gen_leb, gen_ltb.
  destruct (gen_eqb_spec (o_epoch o) (fs_epoch st)), (id_eqb_spec (o_source_worker_boot o) boot),
    (id_eqb_spec (o_source_worker o) w); cbn [negb]; try discriminate.
  destruct (fs_devices st !! _) as [p|]; [|auto].
  destruct (id_eqb_spec (o_source_worker_boot o) (d_source_worker_boot p)); cbn [andb];
    rewrite ?andb_true_r, ?andb_false_r.
  - repeat case_branch; try discriminate. zbool. intros _. split; [auto|]. intros _. lia.
  - repeat case_branch; try discriminate; intros _; (split; [auto|]); congruence.
Qed.

Lemma commit_records o policy now st : records o (ao_state (ingest_apply o policy now st)).
Proof. unfold records. cbn. auto 10. Qed.

Lemma commit_devices w o a st :
  fs_devices (ingest_commit w o a st) =
  <[canonical_device_identity (o_identity o) := ao_state a]> (fs_devices st).
Proof. unfold ingest_commit. by case_branch. Qed.

Lemma commit_epoch w o a st : fs_epoch (ingest_commit w o a st) = fs_epoch st.
Proof. unfold ingest_commit. by case_branch. Qed.

Lemma loop_seen w boot policy now obs acc :
  ia_seen acc ⊆ ia_seen (ingest_loop w boot policy now obs acc).1.
Proof.
  revert acc. induction obs as [|o obs IH]; intros acc; cbn [ingest_loop]; [done|].
  case_branch; [done|apply IH|]. etransitivity; [|apply IH]. cbn [ia_seen]. set_solver.
Qed.

(** The loop: every device it changes carries an authoritative observation of
    the batch, and has advanced. *)
Lemma loop_devices w boot policy now obs acc k :
  let r := ingest_loop w boot policy now obs acc in
  fs_devices (ia_state r.1) !! k = fs_devices (ia_state acc) !! k \/
  exists o d, o ∈ obs /\ k = canonical_device_identity (o_identity o) /\
    authoritative_obs w boot (fs_epoch (ia_state acc)) o /\
    fs_devices (ia_state r.1) !! k = Some d /\ records o d /\
    advances (fs_devices (ia_state acc) !! k) d /\ k ∈ ia_seen r.1.
Proof.
  revert acc. induction obs as [|o obs IH]; intros acc; cbn [ingest_loop]; [by left|].
  destruct (ingest_gate w boot o (ia_state acc)) eqn:G; [by left| |].
  - destruct (IH acc) as [E|(o' & d & Hin & H)]; [by left|].
    right. exists o', d. split; [by apply list_elem_of_further | exact H].
  - apply gate_commit in G as [Ha Hg].
    set (a := ingest_apply o policy now (ia_state acc)).
    set (acc1 := MkAcc _ _ _). specialize (IH acc1).
    pose proof (loop_seen w boot policy now obs acc1) as Hseen.
    subst acc1. cbn [ia_state] in IH. rewrite commit_epoch, commit_devices in IH.
    pose proof (commit_records o policy now (ia_state acc)) as Hr. fold a in Hr.
    destruct (decide (canonical_device_identity (o_identity o) = k)) as [<-|Hne].
    + rewrite lookup_insert_eq in IH. right.
      assert (advances (fs_devices (ia_state acc) !! canonical_device_identity (o_identity o))
                (ao_state a)) as Hadv.
      { unfold advances. destruct (fs_devices _ !! _) as [p|]; [|done].
        destruct Hr as (_ & _ & -> & -> & -> & ->). exact Hg. }
      destruct IH as [E|(o' & d & Hin & Hk & Ha' & E & Hr' & Hadv' & Hs')].
      * exists o, (ao_state a). split_and!; try assumption; [apply list_elem_of_here | reflexivity | cbn in Hseen; set_solver].
      * exists o', d.
        refine (conj (list_elem_of_further _ _ _ Hin) (conj Hk (conj Ha' (conj E (conj Hr' (conj _ Hs')))))).
        destruct Ha as (_ & Hb & _), Ha' as (_ & Hb' & _), Hr' as (_ & _ & Hbd & _),
          Hr as (_ & _ & Hba & _).
        eapply advances_trans; [exact Hadv|exact Hadv'|congruence].
    + rewrite lookup_insert_ne in IH by exact Hne.
      destruct IH as [E|(o' & d & Hin & H)]; [by left|].
      right. exists o', d. split; [by apply list_elem_of_further | exact H].
Qed.

(** The sweep: a device is as before or has been marked lost. *)
Lemma sweep_devices seen now keys st k :
  fs_devices (foldl (sweep_key seen now) st keys) !! k = fs_devices st !! k \/
  exists d, fs_devices st !! k = Some d /\ k ∈ keys /\ (k ∉ seen) /\
    fs_devices (foldl (sweep_key seen now) st keys) !! k = Some (disappeared_device d).
Proof.
  revert st. induction keys as [|k1 keys IH]; intros st; cbn [foldl]; [by left|].
  unfold sweep_key at 2 4. case_bool_decide as Hseen.
  { destruct (IH st) as [E|(d & ? & ? & ? & ?)]; [by left|].
    right. exists d. split_and!; try done. by apply list_elem_of_further. }
  destruct (fs_devices st !! k1) as [d1|] eqn:E1.
  2:{ destruct (IH st) as [E|(d & ? & ? & ? & ?)]; [by left|].
    right. exists d. split_and!; try done. by apply list_elem_of_further. }
  match goal with |- context [foldl _ ?s keys] => specialize (IH s) end.
  cbn [put_device set_devices log_change set_change_log fs_devices] in *.
  destruct (decide (k1 = k)) as [<-|Hne].
  - rewrite lookup_insert_eq in IH. right. exists d1. split_and!; try done; [apply list_elem_of_here|].
    destruct IH as [E|(d & Hd & _ & _ & E)]; [exact E|]. injection Hd as <-. exact E.
  - rewrite lookup_insert_ne in IH by exact Hne.
    destruct IH as [E|(d & ? & ? & ? & ?)]; [by left|].
    right. exists d. split_and!; try done. by apply list_elem_of_further.
Qed.

(** What an accepted or rejected snapshot does to one device. *)
Lemma ingest_devices w obs policy now st wr k :
  fs_workers st !! w = Some wr ->
  let st' := (ingest_snapshot w obs policy now st).1 in
  fs_devices st' !! k = fs_devices st !! k \/
  (exists d, fs_devices st !! k = Some d /\
             fs_devices st' !! k = Some (disappeared_device d)) \/
  exists o d, o ∈ obs /\ k = canonical_device_identity (o_identity o) /\
    authoritative_worker wr /\ authoritative_obs w (w_boot wr) (fs_epoch st) o /\
    fs_devices st' !! k = Some d /\ records o d /\ advances (fs_devices st !! k) d.
Proof.
  intros Hw. unfold ingest_snapshot. rewrite Hw.
  destruct (w_lost wr || w_fenced wr) eqn:Ha; [by left|]. apply orb_false_iff in Ha.
  pose proof (loop_devices w (w_boot wr) policy now obs (MkAcc st ∅ applied_default) k) as Hl.
  destruct (ingest_loop _ _ _ _ _ _) as [acc [e|]]; cbn [fst ia_state] in *.
  - destruct Hl as [E|(o & d & ? & ? & ? & ? & ? & ? & _)]; [by left|]. right. right. eauto 12.
  - unfold alter_worker. cbn [set_workers fs_devices].
    destruct (sweep_devices (ia_seen acc) now (worker_keys w (ia_state acc)) (ia_state acc) k)
      as [-> |(d & Hd & _ & Hs & ->)].
    + destruct Hl as [E|(o & d & ? & ? & ? & ? & ? & ? & _)]; [by left|]. right. right. eauto 12.
    + destruct Hl as [E|(o & d' & _ & _ & _ & _ & _ & _ & Hin)]; [|done].
      right. left. exists d. by rewrite <- E.
Qed.

(** The other operations never let generations of a record move. *)
Definition gens_of (d : DeviceState) :=
  (d_source_worker_boot d, d_observation_generation d, d_generation d, d_health_generation d).

Lemma gens_alter f (m : gmap string DeviceState) k j :
  (forall d, gens_of (f d) = gens_of d) -> gens_of <$> alter f k m !! j = gens_of <$> m !! j.
Proof.
  intros Hf. destruct (decide (k = j)) as [<-|Hne].
  - rewrite lookup_alter_eq. destruct (m !! k); cbn; [by rewrite Hf|done].
  - by rewrite lookup_alter_ne.
Qed.

Lemma gens_insert d d' (m : gmap string DeviceState) k j :
  m !! k = Some d -> gens_of d' = gens_of d -> gens_of <$> <[k := d']> m !! j = gens_of <$> m !! j.
Proof.
  intros E Hg. destruct (decide (k = j)) as [<-|Hne].
  - rewrite lookup_insert_eq, E. cbn. by rewrite Hg.
  - by rewrite lookup_insert_ne.
Qed.

Lemma lose_device_gens d : gens_of (lose_device d) = gens_of d.
Proof. unfold lose_device. cbn. by destruct (d_present d). Qed.

Lemma gens_lose_devices keys (m : gmap string DeviceState) k :
  gens_of <$> foldl (fun m key => alter lose_device key m) m keys !! k = gens_of <$> m !! k.
Proof.
  revert m. induction keys as [|k1 keys IH]; intros m; cbn [foldl]; [done|].
  rewrite IH. apply gens_alter, lose_device_gens.
Qed.

Definition is_ingest (op : Op) : bool := match op with OpIngest _ _ _ _ => true | _ => false end.

Lemma other_ops_keep_gens op st k :
  is_ingest op = false ->
  gens_of <$> fs_devices (run_op op st) !! k = gens_of <$> fs_devices st !! k.
Proof.
  destruct op; try discriminate; intros _; cbn [run_op].
  - unfold roll_epoch. by case_branch.
  - unfold register_worker, admit_worker. repeat case_branch; try done; cbn;
      by rewrite ensure_node_devices.
  - unfold mark_worker_lost. case_branch; [|done]. cbn. apply gens_lose_devices.
  - unfold heartbeat. by repeat case_branch.
  - unfold set_drain. repeat case_branch; try done. by eapply gens_insert.
  - unfold set_quarantine. repeat case_branch; try done; by eapply gens_insert.
  - unfold clear_quarantine. repeat case_branch; try done. by eapply gens_insert.
Qed.

(** A batch is accepted as a whole only if every observation is authoritative. *)
Lemma loop_ok_authoritative w boot policy now obs acc :
  (ingest_loop w boot policy now obs acc).2 = None ->
  Forall (authoritative_obs w boot (fs_epoch (ia_state acc))) obs.
Proof.
  revert acc. induction obs as [|o obs IH]; intros acc; cbn [ingest_loop]; [constructor|].
  destruct (ingest_gate w boot o (ia_state acc)) eqn:G; [discriminate| |]; intros H.
  - constructor; [|exact (IH acc H)]. unfold ingest_gate in G. unfold authoritative_obs.
    destruct (gen_eqb_spec (o_epoch o) (fs_epoch (ia_state acc))),
      (id_eqb_spec (o_source_worker_boot o) boot), (id_eqb_spec (o_source_worker o) w);
      try discriminate. auto.
  - apply IH in H. cbn [ia_state] in H. rewrite commit_epoch in H.
    constructor; [|exact H]. exact (proj1 (gate_commit _ _ _ _ G)).
Qed.

(* ------------------------------------------------------------------ *)
(** ** Properties: evidence *)

(** C9. Provenance: after a snapshot, accepted or not, every device record is as it
    was, or marked as disappeared, or carries an observation of the batch that
    bears the coordinator's epoch and the registered worker's incarnation. *)
Theorem ingest_installs_only_authoritative w obs policy now st wr k :
  fs_workers st !! w = Some wr ->
  let st' := (ingest_snapshot w obs policy now st).1 in
  fs_devices st' !! k = fs_devices st !! k \/
  (exists d, fs_devices st !! k = Some d /\
             fs_devices st' !! k = Some (disappeared_device d)) \/
  exists o d, o ∈ obs /\ k = canonical_device_identity (o_identity o) /\
    authoritative_obs w (w_boot wr) (fs_epoch st) o /\
    fs_devices st' !! k = Some d /\ records o d.
Proof.
  intros Hw st'. destruct (ingest_devices w obs policy now st wr k Hw)
    as [E|[E|(o & d & ? & ? & _ & ? & ? & ? & _)]]; eauto 12.
Qed.

(** Acceptance needs full authority: a snapshot is accepted only from a
    registered worker that is neither lost nor fenced, and only when every
    observation bears the current epoch, that worker and its incarnation. *)
Theorem ingest_accepts_only_authoritative w obs policy now st a :
  (ingest_snapshot w obs policy now st).2 = Ok a ->
  exists wr, fs_workers st !! w = Some wr /\ w_lost wr = false /\ w_fenced wr = false /\
    Forall (authoritative_obs w (w_boot wr) (fs_epoch st)) obs.
Proof.
  unfold ingest_snapshot. destruct (fs_workers st !! w) as [wr|]; [|discriminate].
  destruct (w_lost wr || w_fenced wr) eqn:Ha; [discriminate|]. apply orb_false_iff in Ha as [??].
  pose proof (loop_ok_authoritative w (w_boot wr) policy now obs (MkAcc st ∅ applied_default)) as Hl.
  destruct (ingest_loop _ _ _ _ _ _) as [acc [e|]]; [discriminate|]. eauto 10.
Qed.

(** C10. Within one incarnation evidence only moves forward: an operation that leaves
    a device with the same source incarnation never lowers its observation,
    device or health generation. *)
Theorem generations_monotone op st k d d' :
  fs_devices st !! k = Some d -> fs_devices (run_op op st) !! k = Some d' ->
  d_source_worker_boot d = d_source_worker_boot d' ->
  gen_value (d_observation_generation d) <= gen_value (d_observation_generation d') /\
  gen_value (d_generation d) <= gen_value (d_generation d') /\
  gen_value (d_health_generation d) <= gen_value (d_health_generation d').
Proof.
  intros Hd Hd' Hb.
  assert (gens_of d' = gens_of d \/ advances (Some d) d') as [E|Hadv].
  - destruct (is_ingest op) eqn:Hop.
    + destruct op as [| | |w obs policy now| | | |]; try discriminate. cbn [run_op] in Hd'.
      destruct (fs_workers st !! w) as [wr|] eqn:Hw.
      * destruct (ingest_devices w obs policy now st wr k Hw)
          as [E|[(d0 & E0 & E)|(o & d0 & _ & _ & _ & _ & E & _ & Hadv)]]; cbn zeta in E;
          rewrite Hd' in E.
        -- left. congruence.
        -- left. rewrite Hd in E0. injection E0 as <-. by injection E as ->.
        -- right. rewrite Hd in Hadv. by injection E as ->.
      * unfold ingest_snapshot in Hd'. rewrite Hw in Hd'. left. cbn in Hd'. congruence.
    + left. pose proof (other_ops_keep_gens op st k Hop) as E. rewrite Hd, Hd' in E. exact (inj Some _ _ E).
  - unfold gens_of in E. injection E as _ -> -> ->. lia.
  - destruct (Hadv Hb) as (? & ? & ?). lia.
Qed.

(* ------------------------------------------------------------------ *)
(** ** Lemmas: losses, views *)

(** Altering a list of keys by an idempotent function alters each of them once. *)
Lemma foldl_alter_lookup {A} (f : A -> A) (keys : list string) (m : gmap string A) k x :
  (forall y, f (f y) = f y) -> m !! k = Some x ->
  foldl (fun m key => alter f key m) m keys !! k = Some (if bool_decide (k ∈ keys) then f x else x).
Proof.
  intros Hf. revert m x. induction keys as [|k1 keys IH]; intros m x Hx; cbn [foldl].
  - by rewrite Hx.
  - destruct (decide (k1 = k)) as [<-|Hne].
    + rewrite (IH _ (f x)) by (by rewrite lookup_alter_eq, Hx). rewrite Hf.
      rewrite (bool_decide_true (k1 ∈ k1 :: keys)) by apply list_elem_of_here.
      by case_bool_decide.
    + rewrite (IH _ x) by (by rewrite lookup_alter_ne).
      rewrite (bool_decide_ext (k ∈ k1 :: keys) (k ∈ keys)); [done|].
      rewrite elem_of_cons. intuition congruence.
Qed.

Lemma foldl_alter_none {A} (f : A -> A) (keys : list string) (m : gmap string A) k :
  m !! k = None -> foldl (fun m key => alter f key m) m keys !! k = None.
Proof.
  revert m. induction keys as [|k1 keys IH]; intros m Hm; cbn [foldl]; [done|].
  apply IH. destruct (decide (k1 = k)) as [->|Hne];
    [by rewrite lookup_alter_eq, Hm | by rewrite lookup_alter_ne].
Qed.

Lemma lose_device_idemp d : lose_device (lose_device d) = lose_device d.
Proof. unfold lose_device. cbn. by destruct (d_present d) eqn:E; cbn; rewrite ?E. Qed.

Lemma lose_device_placed d :
  placed d ->
  d_observation_fresh (lose_device d) = false /\ d_present (lose_device d) = false /\
  schedulable (d_eligibility (lose_device d)) = false.
Proof.
  intros Hp. unfold lose_device. cbn. destruct (d_present d) eqn:E; cbn; [auto|].
  split_and!; try done. apply not_true_iff_false. intros Hs.
  destruct (Hp Hs) as (_ & Hpr & _). congruence.
Qed.

Lemma lose_device_spec k d :
  device_ok k d ->
  d_observation_fresh (lose_device d) = false /\ d_present (lose_device d) = false /\
  schedulable (d_eligibility (lose_device d)) = false.
Proof. intros [_ Hp]. by apply lose_device_placed. Qed.

(** The number of elements satisfying a predicate. *)
Definition count {A} (f : A -> bool) (xs : list A) : Z := Z.of_nat (length (List.filter f xs)).

Lemma count_cons {A} (f : A -> bool) x xs :
  count f (x :: xs) = (if f x then 1 else 0) + count f xs.
Proof. unfold count. cbn [List.filter]. destruct (f x); cbn [length]; lia. Qed.

(** The accounting loops, as counts. *)
Lemma count_workers_spec ws a :
  let r := foldl count_worker a ws in
  a_registered_workers r = a_registered_workers a + Z.of_nat (length ws) /\
  a_live_workers r = a_live_workers a + count worker_live ws /\
  a_stale_workers r = a_stale_workers a + count worker_stale ws /\
  a_active_registrations r = a_active_registrations a + count worker_live ws /\
  a_devices r = a_devices a /\ a_eligible_devices r = a_eligible_devices a /\
  a_degraded_devices r = a_degraded_devices a /\
  a_quarantined_devices r = a_quarantined_devices a /\
  a_drained_devices r = a_drained_devices a.
Proof.
  revert a. induction ws as [|w ws IH]; intros a; cbn [foldl].
  - cbn. unfold count. cbn. lia.
  - rewrite !count_cons. destruct (IH (count_worker a w)) as (-> & -> & -> & -> & -> & -> & -> & -> & ->).
    cbn [count_worker a_registered_workers a_live_workers a_stale_workers a_active_registrations
         a_devices a_eligible_devices a_degraded_devices a_quarantined_devices a_drained_devices].
    rewrite length_cons. lia.
Qed.

Definition in_state (s : EligibilityState) (d : DeviceState) : bool :=
  bool_decide (d_eligibility d = s).

Lemma count_devices_spec ds a :
  let r := foldl count_device a ds in
  a_devices r = a_devices a + Z.of_nat (length ds) /\
  a_eligible_devices r = a_eligible_devices a + count (in_state EligibilityState.ELIGIBLE) ds /\
  a_degraded_devices r =
    a_degraded_devices a + count (in_state EligibilityState.DEGRADED_ELIGIBLE) ds /\
  a_quarantined_devices r =
    a_quarantined_devices a + count (in_state EligibilityState.QUARANTINED) ds /\
  a_drained_devices r = a_drained_devices a + count (in_state EligibilityState.DRAINING) ds /\
  a_registered_workers r = a_registered_workers a /\ a_live_workers r = a_live_workers a /\
  a_stale_workers r = a_stale_workers a /\
  a_active_registrations r = a_active_registrations a.
Proof.
  revert a. induction ds as [|d ds IH]; intros a; cbn [foldl].
  - cbn. unfold count. cbn. lia.
  - rewrite !count_cons. destruct (IH (count_device a d)) as (-> & -> & -> & -> & -> & -> & -> & -> & ->).
    cbn [count_device a_registered_workers a_live_workers a_stale_workers a_active_registrations
         a_devices a_eligible_devices a_degraded_devices a_quarantined_devices a_drained_devices].
    unfold in_state. rewrite length_cons. lia.
Qed.

Lemma worker_stale_live wr : worker_stale wr = negb (worker_live wr).
Proof. unfold worker_stale, worker_live. by destruct (w_alive wr), (w_lost wr), (w_fenced wr). Qed.

Lemma count_partition {A} (f g : A -> bool) xs :
  (forall x, g x = negb (f x)) -> count f xs + count g xs = Z.of_nat (length xs).
Proof.
  intros Hg. induction xs as [|x xs IH]; [done|]. rewrite !count_cons, Hg.
  cbn [length]. destruct (f x); cbn [negb]; lia.
Qed.

(** The state classes of the accounting do not overlap. *)
Lemma count_states ds :
  count (in_state EligibilityState.ELIGIBLE) ds +
  count (in_state EligibilityState.DEGRADED_ELIGIBLE) ds +
  count (in_state EligibilityState.QUARANTINED) ds +
  count (in_state EligibilityState.DRAINING) ds <= Z.of_nat (length ds).
Proof.
  induction ds as [|d ds IH]; [done|]. rewrite !count_cons, length_cons. unfold in_state at 1 3 5 7.
  repeat case_bool_decide; try congruence; lia.
Qed.

(* ------------------------------------------------------------------ *)
(** ** Properties: losses, registration, epochs, recovery, accounting *)

(** A lost worker takes its devices out of service: afterwards the worker is
    fenced and not alive, and every device it owned is absent, not fresh and
    not schedulable. *)
Theorem lost_worker_devices_withdrawn w now st wr k d :
  fleet_wf st -> fs_workers st !! w = Some wr -> k ∈ w_device_identities wr ->
  fs_devices st !! k = Some d ->
  let st' := (mark_worker_lost w now st).1 in
  fs_workers st' !! w = Some (lose_worker wr) /\
  exists d', fs_devices st' !! k = Some d' /\ d_observation_fresh d' = false /\
             d_present d' = false /\ schedulable (d_eligibility d') = false.
Proof.
  intros Hwf Hw Hk Hd. unfold mark_worker_lost. rewrite Hw. cbn.
  split; [by rewrite lookup_insert_eq|]. exists (lose_device d).
  rewrite (foldl_alter_lookup _ _ _ _ d lose_device_idemp Hd), bool_decide_true by exact Hk.
  split; [done|]. apply (lose_device_spec k), (fw_devices _ Hwf k d Hd).
Qed.

(** A live incarnation cannot be displaced: a registration of the same worker
    with another boot id is refused and changes nothing. *)
Theorem live_worker_not_displaced reg now st wr :
  fs_workers st !! r_worker reg = Some wr -> worker_live wr = true ->
  w_boot wr <> r_worker_boot reg ->
  (register_worker reg now st).1 = st /\
  result_ok (register_worker reg now st).2 = false.
Proof.
  intros Hw Hl Hb. unfold register_worker. rewrite Hw.
  destruct (id_eqb_spec (w_boot wr) (r_worker_boot reg)); [congruence|].
  unfold worker_live in Hl. apply andb_true_iff in Hl as [Hl Hf]. apply andb_true_iff in Hl as [Ha Hl].
  rewrite Ha, Hl, Hf. cbn [andb]. repeat case_branch; done.
Qed.

(** An accepted registration bears the current epoch, a protocol version, and
    either a new incarnation or a newer registration generation; the worker is
    then recorded alive under that incarnation. *)
Theorem registration_accepted reg now st rid :
  (register_worker reg now st).2 = Ok rid ->
  r_epoch reg = fs_epoch st /\ pv_value (r_protocol_version reg) <> 0 /\
  exists wr, fs_workers (register_worker reg now st).1 !! r_worker reg = Some wr /\
    w_boot wr = r_worker_boot reg /\ w_alive wr = true /\ w_lost wr = false /\
    w_registration_generation wr = r_registration_generation reg /\
    w_device_identities wr = r_enumerated_devices reg.
Proof.
  unfold register_worker. destruct (gen_eqb_spec (r_epoch reg) (fs_epoch st)) as [He|]; [|discriminate].
  destruct (pv_value (r_protocol_version reg) =? 0) eqn:Hp; [discriminate|]. zbool. cbn [negb].
  assert (fs_workers (admit_worker reg now st).1 !! r_worker reg
            = Some (new_worker_record reg now)) as Hadm.
  { unfold admit_worker. cbn [fst]. by rewrite ensure_node_workers; cbn; rewrite lookup_insert_eq. }
  destruct (fs_workers st !! r_worker reg) as [wr|].
  - destruct (id_eqb_spec (w_boot wr) (r_worker_boot reg)).
    + case_branch; [discriminate|]. intros _. split_and!; try done.
      exists (reaffirm_worker reg now wr). cbn. by rewrite lookup_insert_eq.
    + case_branch; [discriminate|]. intros _. split_and!; try done. eauto 10.
  - intros _. split_and!; try done. eauto 10.
Qed.

(** The coordinator epoch never moves back, in any history. *)
Theorem epoch_monotone ops st : gen_value (fs_epoch st) <= gen_value (fs_epoch (run_ops ops st)).
Proof.
  assert (PreOrder (fun s s' => gen_value (fs_epoch s) <= gen_value (fs_epoch s')))
    by (split; [intros ?; lia | intros ???; lia]).
  apply (run_ops_monotone any_scope (fun s s' => gen_value (fs_epoch s) <= gen_value (fs_epoch s')));
    [auto with fleet|].
  destruct 1; try solve [cbn; lia].
  - unfold admit_worker, ensure_node. case_branch; cbn; lia.
  - rewrite commit_epoch. lia.
  - unfold sweep_key. repeat case_branch; cbn; lia.
  - unfold set_drain. repeat case_branch; cbn; lia.
  - unfold set_quarantine. repeat case_branch; cbn; lia.
  - unfold clear_quarantine. repeat case_branch; cbn; lia.
Qed.

(** Recovery: after a restart from any snapshot no device counts as freshly
    observed or schedulable, while identity, quarantine and drain are those of
    the snapshot; epoch, workers and change log are restored. *)
Theorem restored_state_not_fresh s st k d :
  s_devices s !! k = Some d ->
  let st' := (restore s st).1 in
  fs_epoch st' = s_epoch s /\ fs_workers st' = s_workers s /\ fs_change_log st' = s_change_log s /\
  exists d', fs_devices st' !! k = Some d' /\ d_identity d' = d_identity d /\
    d_observation_fresh d' = false /\ schedulable (d_eligibility d') = false /\
    d_quarantined d' = d_quarantined d /\ d_quarantine d' = d_quarantine d /\
    d_drain d' = d_drain d.
Proof.
  intros Hd. cbn. split_and!; try done. exists (recover_device d).
  rewrite lookup_fmap, Hd. split; [done|]. apply recover_device_spec.
Qed.

(** Exact accounting: the counters are the sizes of the maps, live and stale
    workers partition the registered ones, and the device classes are disjoint
    parts of the devices. *)
Theorem accounting_exact st :
  let a := recompute_accounting st in
  a_registered_workers a = Z.of_nat (length (map_values (fs_workers st))) /\
  a_live_workers a + a_stale_workers a = a_registered_workers a /\
  a_live_workers a = count worker_live (map_values (fs_workers st)) /\
  a_active_registrations a = a_live_workers a /\
  a_devices a = Z.of_nat (length (map_values (fs_devices st))) /\
  a_eligible_devices a = count (in_state EligibilityState.ELIGIBLE) (map_values (fs_devices st)) /\
  a_eligible_devices a + a_degraded_devices a + a_quarantined_devices a + a_drained_devices a
    <= a_devices a /\
  a_accepted_observations a = fs_accepted st.
Proof.
  unfold recompute_accounting, set_accepted_count. cbn zeta.
  cbn [a_registered_workers a_live_workers a_stale_workers a_active_registrations
       a_devices a_eligible_devices a_degraded_devices a_quarantined_devices a_drained_devices
       a_accepted_observations].
  destruct (count_devices_spec (map_values (fs_devices st))
    (foldl count_worker accounting_default (map_values (fs_workers st))))
    as (-> & -> & -> & -> & -> & -> & -> & -> & ->).
  destruct (count_workers_spec (map_values (fs_workers st)) accounting_default)
    as (-> & -> & -> & -> & -> & -> & -> & -> & ->).
  pose proof (count_partition worker_live worker_stale (map_values (fs_workers st)) worker_stale_live).
  pose proof (count_states (map_values (fs_devices st))). cbn. lia.
Qed.
