(* ===== verification/FleetWitness.v ===== *)
(** * Concrete histories of the fleet state

    A small fleet, the instances of the safety theorems at it, and the
    behaviours of the store that a reader of its documentation would not
    expect. *)

From S2P Require Import Prelude Core Identity Device Health Eligibility Observation Change.
From S2P Require Import Pipeline Registration FleetState FleetSteps FleetInv FleetSafety.
From S2P Require Import FleetIngest.

Definition sample_key : string := canonical_device_identity sample_identity.
Definition sample_worker : WorkerId := MkId 10.
Definition empty_fleet : FleetState := fleet_init (MkId 1) (MkGen 1).

(** Worker 10 registers and publishes its device once. *)
Definition sample_history : list Op :=
  [OpRegister sample_registration 5;
   OpIngest sample_worker [sample_observation 1 1000 true true] policy_default 1000].
Definition sample_fleet : FleetState := run_ops sample_history empty_fleet.
Definition sample_device : DeviceState := default device_default (fs_devices sample_fleet !! sample_key).
Definition sample_record : WorkerRecord :=
  default (new_worker_record sample_registration 0) (fs_workers sample_fleet !! sample_worker).

Definition sample_quarantine : QuarantineRecord :=
  MkQuarantine "manual" "operator" (MkGen 1) 1001 (MkId 0) (MkGen 1).
Definition quarantined_fleet : FleetState :=
  run_ops [OpQuarantine (MkId 0) sample_key sample_quarantine 1001] sample_fleet.
Definition drained_fleet : FleetState :=
  run_ops [OpDrain (MkId 0) sample_key DrainState.DRAINED 1001] sample_fleet.
Definition lost_fleet : FleetState := run_ops [OpLost sample_worker 2000] sample_fleet.

(** What happens next to the device. *)
Definition more_history : list Op :=
  [OpIngest sample_worker [sample_observation 2 1002 true true] policy_default 1002;
   OpHeartbeat sample_worker (MkId 100) (MkGen 1) 1003 (MkGen 1); OpLost sample_worker 1004].

(** The same incarnation registering again. *)
Definition sample_reregistration : Registration :=
  MkRegistration (MkId 1) (MkId 10) (MkId 100) (MkAgentVersion (MkSemanticVersion 1 0 0))
    (MkProtocolVersion 1) "linux" (MkDriverVersion "13040") (MkRuntimeVersion 13 0)
    [sample_key] [] (MkGen 2) (MkGen 1).

Lemma empty_fleet_initial : initial empty_fleet.
Proof. apply init_fresh. Qed.

Lemma sample_fleet_wf ops : fleet_wf (run_ops ops empty_fleet).
Proof. apply run_ops_wf, fleet_init_wf. Qed.

Lemma fleet_invariant_witness :
  fleet_wf_from empty_fleet (run_ops sample_history empty_fleet) /\
  fleet_wf_from (restore (snapshot sample_fleet) empty_fleet).1
    (run_ops sample_history (restore (snapshot sample_fleet) empty_fleet).1).
Proof.
  split; apply fleet_invariant; [apply empty_fleet_initial|].
  exact (init_restored (snapshot sample_fleet) empty_fleet).
Defined.

Lemma schedulable_device_is_proven_witness :
  d_eligibility sample_device = EligibilityState.ELIGIBLE /\
  d_observation_fresh sample_device = true.
Proof.
  split; [vm_compute; reflexivity|].
  apply (schedulable_device_is_proven sample_history empty_fleet sample_key sample_device);
    [apply empty_fleet_initial | vm_compute; reflexivity | vm_compute; reflexivity].
Defined.

Lemma quarantine_persists_witness :
  exists d', fs_devices (run_ops more_history quarantined_fleet) !! sample_key = Some d' /\
             d_quarantined d' = true /\ schedulable (d_eligibility d') = false.
Proof.
  apply (quarantine_persists more_history quarantined_fleet sample_key
           (default device_default (fs_devices quarantined_fleet !! sample_key))).
  - apply run_ops_wf, sample_fleet_wf.
  - repeat constructor.
  - vm_compute; reflexivity.
  - vm_compute; reflexivity.
Defined.

Lemma drain_persists_witness :
  exists d', fs_devices (run_ops more_history drained_fleet) !! sample_key = Some d' /\
             d_drain d' = DrainState.DRAINED /\ schedulable (d_eligibility d') = false.
Proof.
  replace DrainState.DRAINED
    with (d_drain (default device_default (fs_devices drained_fleet !! sample_key)))
    by (vm_compute; reflexivity).
  apply (drain_persists more_history drained_fleet sample_key
           (default device_default (fs_devices drained_fleet !! sample_key))).
  - apply run_ops_wf, sample_fleet_wf.
  - repeat constructor.
  - vm_compute; reflexivity.
  - vm_compute; discriminate.
Defined.

Lemma fenced_incarnation_refused_witness :
  let st := run_ops [OpRegister sample_reregistration 2001;
                     OpHeartbeat sample_worker (MkId 100) (MkGen 1) 2002 (MkGen 1)] lost_fleet in
  exists e, ingest_snapshot sample_worker [sample_observation 2 3000 true true] policy_default 3000 st
    = (st, Err e).
Proof.
  destruct (fenced_incarnation_refused
    [OpRegister sample_reregistration 2001;
     OpHeartbeat sample_worker (MkId 100) (MkGen 1) 2002 (MkGen 1)] lost_fleet sample_worker
    (lose_worker sample_record) (sample_observation 2 3000 true true) [] policy_default 3000)
    as [H|(rest & _ & H & _)]; [vm_compute; reflexivity|reflexivity|reflexivity|exact H|exfalso].
  apply admitted_registers in H.
  apply Exists_cons in H as [[_ H]|H]; [apply H; reflexivity|].
  apply Exists_cons in H as [[]|H]. inversion H.
Defined.

Lemma ingest_installs_only_authoritative_witness :
  fs_devices (ingest_snapshot sample_worker [sample_observation 2 1002 true true] policy_default
                1002 sample_fleet).1 !! sample_key <> fs_devices sample_fleet !! sample_key /\
  exists o d, o ∈ [sample_observation 2 1002 true true] /\
    sample_key = canonical_device_identity (o_identity o) /\
    authoritative_obs sample_worker (w_boot sample_record) (fs_epoch sample_fleet) o /\
    fs_devices (ingest_snapshot sample_worker [sample_observation 2 1002 true true] policy_default
                  1002 sample_fleet).1 !! sample_key = Some d /\ records o d.
Proof.
  assert (fs_devices (ingest_snapshot sample_worker [sample_observation 2 1002 true true]
    policy_default 1002 sample_fleet).1 !! sample_key <> fs_devices sample_fleet !! sample_key) as Hne
    by (vm_compute; discriminate).
  split; [exact Hne|].
  destruct (ingest_installs_only_authoritative sample_worker [sample_observation 2 1002 true true]
    policy_default 1002 sample_fleet sample_record sample_key) as [E|[(d & _ & E)|H]];
    [vm_compute; reflexivity|contradiction| |exact H].
  exfalso. apply (f_equal (fmap d_present)) in E. vm_compute in E. discriminate.
Defined.

Lemma ingest_accepts_only_authoritative_witness :
  exists wr, fs_workers sample_fleet !! sample_worker = Some wr /\ w_lost wr = false /\
    w_fenced wr = false /\
    Forall (authoritative_obs sample_worker (w_boot wr) (fs_epoch sample_fleet))
      [sample_observation 2 1002 true true].
Proof.
  apply (ingest_accepts_only_authoritative sample_worker [sample_observation 2 1002 true true]
    policy_default 1002 sample_fleet
    (ingest_apply (sample_observation 2 1002 true true) policy_default 1002 sample_fleet)).
  vm_compute. reflexivity.
Defined.

Lemma generations_monotone_witness :
  let d' := default device_default (fs_devices (run_op
    (OpIngest sample_worker [sample_observation 2 1002 true true] policy_default 1002)
    sample_fleet) !! sample_key) in
  gen_value (d_observation_generation sample_device) <= gen_value (d_observation_generation d').
Proof.
  intros d'. eapply (generations_monotone
    (OpIngest sample_worker [sample_observation 2 1002 true true] policy_default 1002)
    sample_fleet sample_key sample_device d'); vm_compute; reflexivity.
Defined.

Lemma lost_worker_devices_withdrawn_witness :
  exists d', fs_devices (mark_worker_lost sample_worker 2000 sample_fleet).1 !! sample_key = Some d' /\
    d_observation_fresh d' = false /\ d_present d' = false /\
    schedulable (d_eligibility d') = false.
Proof.
  apply (lost_worker_devices_withdrawn sample_worker 2000 sample_fleet sample_record sample_key
           sample_device).
  - apply sample_fleet_wf.
  - vm_compute; reflexivity.
  - apply (bool_decide_unpack _). vm_compute. exact I.
  - vm_compute; reflexivity.
Defined.

Lemma live_worker_not_displaced_witness :
  let reg := MkRegistration (MkId 1) (MkId 10) (MkId 101) (MkAgentVersion (MkSemanticVersion 1 0 0))
    (MkProtocolVersion 1) "linux" (MkDriverVersion "13040") (MkRuntimeVersion 13 0)
    [] [] (MkGen 1) (MkGen 1) in
  (register_worker reg 3000 sample_fleet).1 = sample_fleet.
Proof.
  intros reg. apply (live_worker_not_displaced reg 3000 sample_fleet sample_record);
    [vm_compute; reflexivity | vm_compute; reflexivity | vm_compute; discriminate].
Defined.

Lemma registration_accepted_witness :
  r_epoch sample_registration = fs_epoch empty_fleet /\
  exists wr, fs_workers (register_worker sample_registration 5 empty_fleet).1 !! sample_worker = Some wr /\
    w_boot wr = MkId 100 /\ w_alive wr = true /\ w_lost wr = false /\
    w_registration_generation wr = MkGen 1 /\
    w_device_identities wr = r_enumerated_devices sample_registration.
Proof.
  destruct (registration_accepted sample_registration 5 empty_fleet (MkId 2)) as (He & _ & H);
    [vm_compute; reflexivity|]. split; [exact He | exact H].
Defined.

Lemma restored_state_not_fresh_witness :
  exists d', fs_devices (restore (snapshot sample_fleet) empty_fleet).1 !! sample_key = Some d' /\
    d_observation_fresh d' = false /\ schedulable (d_eligibility d') = false.
Proof.
  destruct (restored_state_not_fresh (snapshot sample_fleet) empty_fleet sample_key sample_device)
    as (_ & _ & _ & d' & H1 & _ & H2 & H3 & _); [vm_compute; reflexivity|]. eauto.
Defined.

(* ------------------------------------------------------------------ *)
(** ** Surprising behaviours *)

(** The registration after a loss is acknowledged, the snapshot that follows is
    refused: [fenced] is never cleared for the same incarnation. *)
Example reregistered_worker_still_fenced :
  (register_worker sample_reregistration 2001 lost_fleet).2 = Ok (MkId 3) /\
  (ingest_snapshot sample_worker [sample_observation 2 3000 true true] policy_default 3000
     (register_worker sample_reregistration 2001 lost_fleet).1).2
  = error_result NotAuthoritative "worker is fenced/lost".
Proof. vm_compute. auto. Qed.

(** One lost worker makes the accounting invalid by its own criterion. *)
Example accounting_invalid_after_loss :
  accounting_is_valid (recompute_accounting lost_fleet) = false.
Proof. vm_compute. reflexivity. Qed.

(** A duplicate of an accepted snapshot withdraws the device. *)
Example duplicate_snapshot_withdraws_device :
  let st := run_ops [OpIngest sample_worker [sample_observation 1 1000 true true] policy_default 1001]
              sample_fleet in
  d_eligibility sample_device = EligibilityState.ELIGIBLE /\
  (d_present <$> fs_devices st !! sample_key) = Some false /\
  (d_eligibility <$> fs_devices st !! sample_key) = Some EligibilityState.INELIGIBLE.
Proof. vm_compute. auto. Qed.

(** The end of a drain is logged as a completed drain, and a drain set to
    DRAINED as initiated. *)
Example drain_log_kinds :
  drain_change_kind DrainState.ACTIVE = ChangeKind.DRAIN_COMPLETED /\
  drain_change_kind DrainState.DRAINED = ChangeKind.DRAIN_INITIATED.
Proof. split; reflexivity. Qed.

(** Draining and undraining a device that the policy excludes makes it eligible:
    the recomputation knows no policy. *)
Example undrain_forgets_policy :
  let policy := MkPolicy 86400000 "hopper" cc_zero 0 true [] in
  let st := run_ops [OpRegister sample_registration 5;
                     OpIngest sample_worker [sample_observation 1 1000 true true] policy 1000]
              empty_fleet in
  let st' := run_ops [OpDrain (MkId 0) sample_key DrainState.DRAINED 1001;
                      OpDrain (MkId 0) sample_key DrainState.ACTIVE 1002] st in
  (d_eligibility <$> fs_devices st !! sample_key) = Some EligibilityState.INELIGIBLE /\
  (d_eligibility <$> fs_devices st' !! sample_key) = Some EligibilityState.ELIGIBLE.
Proof. vm_compute. auto. Qed.

(** The observations before the one that is refused stay committed. *)
Example refused_snapshot_partly_committed :
  let bad := normalize_observation
    (MkProbe sample_identity true true true true 0 0 0 None None true true true true true true
       true "" [])
    (MkMeta (MkId 7) (MkGen 3) (MkGen 1) 1002 (MkId 100) (MkId 10) (MkId 1) (MkGen 99) (MkGen 3)) in
  let r := ingest_snapshot sample_worker [sample_observation 2 1002 true true; bad]
             policy_default 1002 sample_fleet in
  result_ok r.2 = false /\
  (d_observation_generation <$> fs_devices r.1 !! sample_key) = Some (MkGen 2).
Proof. vm_compute. auto. Qed.

(** Nothing ages the evidence: after a day of heartbeats the device is still
    eligible on its first observation. *)
Example heartbeats_keep_stale_device_eligible :
  let st := run_ops [OpHeartbeat sample_worker (MkId 100) (MkGen 1) 999999999999 (MkGen 1)]
              sample_fleet in
  (d_eligibility <$> fs_devices st !! sample_key) = Some EligibilityState.ELIGIBLE /\
  (d_last_observed_at <$> fs_devices st !! sample_key) = Some 1000.
Proof. vm_compute. auto. Qed.

(** A superseded incarnation comes back: boot 100 is lost, boot 101 replaces it
    and is lost, boot 100 is admitted again. *)
Example superseded_boot_readmitted :
  let reg b g := MkRegistration (MkId 1) (MkId 10) (MkId b) (MkAgentVersion (MkSemanticVersion 1 0 0))
    (MkProtocolVersion 1) "linux" (MkDriverVersion "13040") (MkRuntimeVersion 13 0)
    [] [] (MkGen g) (MkGen 1) in
  let st := run_ops [OpRegister (reg 101 1) 2001; OpLost sample_worker 2002] lost_fleet in
  result_ok (register_worker (reg 100 1) 2003 st).2 = true.
Proof. vm_compute. reflexivity. Qed.

(** Its snapshots are then accepted, fenced as it was. *)
Example readmitted_boot_accepted :
  let reg b g := MkRegistration (MkId 1) (MkId 10) (MkId b) (MkAgentVersion (MkSemanticVersion 1 0 0))
    (MkProtocolVersion 1) "linux" (MkDriverVersion "13040") (MkRuntimeVersion 13 0)
    [] [] (MkGen g) (MkGen 1) in
  let st := run_ops [OpRegister (reg 101 1) 2001; OpLost sample_worker 2002;
                     OpRegister (reg 100 1) 2003] lost_fleet in
  result_ok (ingest_snapshot sample_worker [sample_observation 2 3000 true true] policy_default
    3000 st).2 = true.
Proof. vm_compute. reflexivity. Qed.
