(* ===== verification/SnapshotCodec.v ===== *)
(** * Snapshot codec ([fleet/snapshot_codec.hpp])

    The serialisation of the whole fleet state, used for persistence and for
    SNAPSHOT_RESPONSE. The maps are written in key order; the decoder rebuilds
    them entry by entry. *)

From S2P Require Import Prelude Core Codec Identity Device Health Eligibility Observation.
From S2P Require Import Change Registration Pipeline FleetState WireFormats.

(* ------------------------------------------------------------------ *)
(** ** Key order *)

(** The iteration order of [std::map]: by [operator<] of the key. *)
Class KeyOrder (K : Type) := key_leb : K -> K -> bool.
#[global] Instance id_key_order t : KeyOrder (StrongId t) := fun a b => id_value a <=? id_value b.
(** [std::string] compares bytes as unsigned values. *)
#[global] Instance string_key_order : KeyOrder string := String.leb.

Definition entry_le {K A} `{KeyOrder K} (x y : K * A) : Prop := key_leb x.1 y.1 = true.

#[global] Instance entry_le_dec {K A} `{KeyOrder K} : RelDecision (@entry_le K A _).
Proof. intros x y. unfold entry_le. apply _. Defined.

Definition map_entries {K A} `{Countable K, KeyOrder K} (m : gmap K A) : list (K * A) :=
  merge_sort entry_le (map_to_list m).

(* ------------------------------------------------------------------ *)
(** ** Writers *)

Definition write_device_state (d : DeviceState) (w : ByteWriter) : ByteWriter :=
  w |> w_u64 (id_value (d_device_id d))
    |> w_u64 (gen_value (d_generation d))
    |> write_identity (d_identity d)
    |> w_bool (d_present d)
    |> w_u8 (to_u8 (d_health d))
    |> w_string (d_health_explanation d) 4096
    |> w_u8 (to_u8 (d_eligibility d))
    |> w_u32 (count32 (d_eligibility_reasons d))
    |> w_each (fun r => w_u8 (to_u8 r)) (d_eligibility_reasons d)
    |> w_u8 (to_u8 (d_drain d))
    |> w_bool (d_quarantined d)
    |> w_string (q_reason (d_quarantine d)) 512
    |> w_string (q_source (d_quarantine d)) 128
    |> w_u64 (gen_value (q_generation (d_quarantine d)))
    |> w_i64 (q_at (d_quarantine d))
    |> w_u64 (id_value (q_device_id (d_quarantine d)))
    |> w_u64 (gen_value (q_authority (d_quarantine d)))
    |> w_u64 (d_total_memory d)
    |> w_u64 (d_used_memory d)
    |> w_u64 (d_free_memory d)
    |> w_optional w_f64 (d_temperature_c d)
    |> w_optional w_f64 (d_power_w d)
    |> w_u32 (count32 (d_capabilities d))
    |> w_each write_capability (d_capabilities d)
    |> w_bool (d_core_validation_ok d)
    |> w_string (d_validation_detail d) 4096
    |> w_i64 (d_last_observed_at d)
    |> w_i64 (d_last_validated_at d)
    |> w_i64 (d_last_authoritative_at d)
    |> w_u64 (gen_value (d_observation_generation d))
    |> w_u64 (gen_value (d_health_generation d))
    |> w_u64 (id_value (d_source_worker_boot d))
    |> w_bool (d_observation_fresh d).

(** The entries of the four sequences. *)
Definition write_node (kn : NodeId * NodeRecord) (w : ByteWriter) : ByteWriter :=
  w |> w_u64 (id_value kn.1) |> w_u64 (gen_value (n_generation kn.2)) |> w_i64 (n_first_seen kn.2).

Definition write_worker (kw : WorkerId * WorkerRecord) (w : ByteWriter) : ByteWriter :=
  let wr := kw.2 in
  w |> w_u64 (id_value kw.1)
    |> w_u64 (id_value (w_boot wr))
    |> w_u64 (gen_value (w_registration_generation wr))
    |> w_u64 (id_value (w_node wr))
    |> w_u64 (id_value (w_agent wr))
    |> w_u32 (sv_major (av_version (w_agent_version wr)))
    |> w_u32 (sv_minor (av_version (w_agent_version wr)))
    |> w_u32 (sv_patch (av_version (w_agent_version wr)))
    |> w_u32 (pv_value (w_protocol_version wr))
    |> w_string (w_os_platform wr) 128
    |> w_string (dv_text (w_driver_version wr)) 128
    |> w_u32 (count32 (w_device_identities wr))
    |> w_each (w_text 256) (w_device_identities wr)
    |> w_u32 (count32 (w_supported_capabilities wr))
    |> w_each (w_text 128) (w_supported_capabilities wr)
    |> w_i64 (w_registered_at wr)
    |> w_i64 (w_last_heartbeat wr)
    |> w_u64 (gen_value (w_registered_epoch wr))
    |> w_bool (w_alive wr)
    |> w_bool (w_fenced wr)
    |> w_bool (w_lost wr).

Definition write_device (kd : string * DeviceState) (w : ByteWriter) : ByteWriter :=
  w |> w_string kd.1 256 |> write_device_state kd.2.

Definition write_change (c : ChangeRecord) (w : ByteWriter) : ByteWriter :=
  w |> w_u8 (to_u8 (c_kind c))
    |> w_u64 (id_value (c_device_id c))
    |> w_i64 (c_at c)
    |> w_u64 (gen_value (c_generation c))
    |> w_u64 (gen_value (c_epoch c))
    |> w_string (c_detail c) 512
    |> w_string (c_from c) 128
    |> w_string (c_to c) 128.

Definition encode_snapshot (s : StateSnapshot) : list byte :=
  ([] : ByteWriter)
    |> w_u64 (id_value (s_coordinator s))
    |> w_u64 (gen_value (s_epoch s))
    |> w_u64 (gen_value (s_fleet_generation s))
    |> w_u64 (gen_value (s_node_generation s))
    |> w_u32 (count32 (map_entries (s_nodes s)))
    |> w_each write_node (map_entries (s_nodes s))
    |> w_u32 (count32 (map_entries (s_workers s)))
    |> w_each write_worker (map_entries (s_workers s))
    |> w_u32 (count32 (map_entries (s_devices s)))
    |> w_each write_device (map_entries (s_devices s))
    |> w_u32 (count32 (s_change_log s))
    |> w_each write_change (s_change_log s).

(* ------------------------------------------------------------------ *)
(** ** Readers *)

(** [if (!r.x(v)) return false;]: every failure is [tt]. *)
Definition read_device_state : Parser unit DeviceState :=
  device_id ← rd_u64 ?? tt;
  generation ← rd_u64 ?? tt;
  identity ← read_identity;
  present ← rd_bool ?? tt;
  health ← rd_u8 ?? tt;
  explanation ← rd_string 4096 ?? tt;
  eligibility ← rd_u8 ?? tt;
  nreasons ← rd_u32 ?? tt;
  _ ← ensure (negb (nreasons >? 32)) tt;
  reasons ← rd_times (Z.to_nat nreasons) (b ← rd_u8 ?? tt; mret (of_u8 b));
  drain ← rd_u8 ?? tt;
  quarantined ← rd_bool ?? tt;
  q_reason ← rd_string 512 ?? tt;
  q_source ← rd_string 128 ?? tt;
  q_generation ← rd_u64 ?? tt;
  q_at ← rd_i64 ?? tt;
  q_device ← rd_u64 ?? tt;
  q_authority ← rd_u64 ?? tt;
  total ← rd_u64 ?? tt;
  used ← rd_u64 ?? tt;
  free ← rd_u64 ?? tt;
  temperature ← rd_optional rd_f64 tt tt;
  power ← rd_optional rd_f64 tt tt;
  ncap ← rd_u32 ?? tt;
  _ ← ensure (negb (ncap >? 4096)) tt;
  capabilities ← rd_times (Z.to_nat ncap) (capability_layout (fun _ => tt));
  core_ok ← rd_bool ?? tt;
  detail ← rd_string 4096 ?? tt;
  observed_at ← rd_i64 ?? tt;
  validated_at ← rd_i64 ?? tt;
  authoritative_at ← rd_i64 ?? tt;
  obs_gen ← rd_u64 ?? tt;
  health_gen ← rd_u64 ?? tt;
  boot ← rd_u64 ?? tt;
  fresh ← rd_bool ?? tt;
  mret (MkDevice (MkId device_id) (MkGen generation) identity present (of_u8 health) explanation
    (of_u8 eligibility) reasons (of_u8 drain) quarantined
    (MkQuarantine q_reason q_source (MkGen q_generation) q_at (MkId q_device) (MkGen q_authority))
    total used free temperature power capabilities core_ok detail observed_at validated_at
    authoritative_at (MkGen obs_gen) (MkGen health_gen) (MkId boot) fresh).

Definition truncated (msg : string) : Error := MkError Truncated msg.

(** [s.nodes.emplace(n.node, n)]: the first record of a node is kept. *)
Definition emplace {K A} `{Countable K} (m : gmap K A) (kv : K * A) : gmap K A :=
  match m !! kv.1 with Some _ => m | None => <[kv.1 := kv.2]> m end.

Definition read_node : Parser Error (NodeId * NodeRecord) :=
  id ← rd_u64 ?? truncated "node id truncated";
  gen ← rd_u64 ?? truncated "node gen truncated";
  seen ← rd_i64 ?? truncated "node first_seen truncated";
  mret (MkId id, MkNode (MkId id) (MkGen gen) seen).

Definition read_node_step (m : gmap NodeId NodeRecord) : Parser Error (gmap NodeId NodeRecord) :=
  kn ← read_node; mret (emplace m kn).

Definition read_worker : Parser Error WorkerRecord :=
  id ← rd_u64 ?? truncated "worker id truncated";
  boot ← rd_u64 ?? truncated "worker boot truncated";
  reg_gen ← rd_u64 ?? truncated "reg gen truncated";
  node ← rd_u64 ?? truncated "worker node truncated";
  agent ← rd_u64 ?? truncated "worker agent truncated";
  major ← rd_u32 ?? truncated "agent major truncated";
  minor ← rd_u32 ?? truncated "agent minor truncated";
  patch ← rd_u32 ?? truncated "agent patch truncated";
  protocol ← rd_u32 ?? truncated "protocol truncated";
  os ← rd_string 128 ?? truncated "os truncated";
  driver ← rd_string 128 ?? truncated "driver truncated";
  ndev ← rd_u32 ?? truncated "dev ident count truncated";
  _ ← ensure (negb (ndev >? 4096)) (MkError OutOfBounds "dev ident too many");
  devices ← rd_times (Z.to_nat ndev) (rd_string 256 ?? truncated "dev ident truncated");
  ncap ← rd_u32 ?? truncated "caps count truncated";
  _ ← ensure (negb (ncap >? 4096)) (MkError OutOfBounds "caps too many");
  capabilities ← rd_times (Z.to_nat ncap) (rd_string 128 ?? truncated "cap truncated");
  registered_at ← rd_i64 ?? truncated "registered_at truncated";
  heartbeat ← rd_i64 ?? truncated "last heartbeat truncated";
  epoch ← rd_u64 ?? truncated "reg epoch truncated";
  alive ← rd_bool ?? truncated "alive truncated";
  fenced ← rd_bool ?? truncated "fenced truncated";
  lost ← rd_bool ?? truncated "lost truncated";
  mret (MkWorker (MkId id) (MkId boot) (MkGen reg_gen) (MkId node) (MkId agent)
    (MkAgentVersion (MkSemanticVersion major minor patch)) (MkProtocolVersion protocol) os
    (MkDriverVersion driver) devices capabilities registered_at heartbeat (MkGen epoch)
    alive fenced lost).

Definition read_worker_step (m : gmap WorkerId WorkerRecord)
  : Parser Error (gmap WorkerId WorkerRecord) :=
  wr ← read_worker;
  _ ← ensure (negb (bool_decide (is_Some (m !! w_worker wr))))
        (MkError Duplicate "duplicate worker id");
  mret (<[w_worker wr := wr]> m).

Definition read_device_step (m : gmap string DeviceState) : Parser Error (gmap string DeviceState) :=
  key ← rd_string 256 ?? truncated "device key truncated";
  d ← read_device_state ?? truncated "device state truncated";
  _ ← ensure (negb (bool_decide (is_Some (m !! key)))) (MkError Duplicate "duplicate device key");
  mret (<[key := d]> m).

Definition read_change : Parser Error ChangeRecord :=
  kind ← rd_u8 ?? truncated "change kind truncated";
  device ← rd_u64 ?? truncated "change device truncated";
  at_ ← rd_i64 ?? truncated "change at truncated";
  gen ← rd_u64 ?? truncated "change gen truncated";
  epoch ← rd_u64 ?? truncated "change epoch truncated";
  detail ← rd_string 512 ?? truncated "change detail truncated";
  from ← rd_string 128 ?? truncated "change from truncated";
  to ← rd_string 128 ?? truncated "change to truncated";
  mret (MkChange (of_u8 kind) (MkId device) at_ (MkGen gen) (MkGen epoch) detail from to).

Definition snapshot_body : Parser Error StateSnapshot :=
  coordinator ← rd_u64 ?? truncated "coordinator truncated";
  epoch ← rd_u64 ?? truncated "epoch truncated";
  fleet_gen ← rd_u64 ?? truncated "fleet gen truncated";
  node_gen ← rd_u64 ?? truncated "node gen truncated";
  nnodes ← rd_u32 ?? truncated "node count truncated";
  _ ← ensure (negb (nnodes >? 100000)) (MkError OutOfBounds "node count too large");
  nodes ← rd_fold (Z.to_nat nnodes) read_node_step ∅;
  nworkers ← rd_u32 ?? truncated "worker count truncated";
  _ ← ensure (negb (nworkers >? 100000)) (MkError OutOfBounds "worker count too large");
  workers ← rd_fold (Z.to_nat nworkers) read_worker_step ∅;
  ndevices ← rd_u32 ?? truncated "device count truncated";
  _ ← ensure (negb (ndevices >? 100000)) (MkError OutOfBounds "device count too large");
  devices ← rd_fold (Z.to_nat ndevices) read_device_step ∅;
  nchanges ← rd_u32 ?? truncated "change count truncated";
  _ ← ensure (negb (nchanges >? 200000)) (MkError OutOfBounds "change log too large");
  changes ← rd_times (Z.to_nat nchanges) read_change;
  mret (MkSnapshot (MkId coordinator) (MkGen epoch) (MkGen fleet_gen) (MkGen node_gen) nodes workers
    devices changes accounting_default).

Definition decode_snapshot (data : list byte) : Result StateSnapshot :=
  run_decoder snapshot_body (MkError Malformed "trailing garbage after snapshot") data.

(* ------------------------------------------------------------------ *)
(** ** What the format carries without loss *)

Record quarantine_wf (q : QuarantineRecord) : Prop := {
  qw_reason : str_fits 512 (q_reason q);
  qw_source : str_fits 128 (q_source q);
  qw_generation : gen_wf (q_generation q);
  qw_at : is_i64 (q_at q);
  qw_device_id : id_wf (q_device_id q);
  qw_authority : gen_wf (q_authority q)
}.

Record device_state_wf (d : DeviceState) : Prop := {
  dw_device_id : id_wf (d_device_id d);
  dw_generation : gen_wf (d_generation d);
  dw_identity : identity_wf (d_identity d);
  dw_health : enum_wf (d_health d);
  dw_explanation : str_fits 4096 (d_health_explanation d);
  dw_eligibility : enum_wf (d_eligibility d);
  dw_reasons : Forall enum_wf (d_eligibility_reasons d);
  dw_reasons_count : Z.of_nat (length (d_eligibility_reasons d)) <= 32;
  dw_drain : enum_wf (d_drain d);
  dw_quarantine : quarantine_wf (d_quarantine d);
  dw_total : is_u64 (d_total_memory d);
  dw_used : is_u64 (d_used_memory d);
  dw_free : is_u64 (d_free_memory d);
  dw_temperature : opt_f64_wf (d_temperature_c d);
  dw_power : opt_f64_wf (d_power_w d);
  dw_capabilities : Forall capability_wf (d_capabilities d);
  dw_capabilities_count : Z.of_nat (length (d_capabilities d)) <= 4096;
  dw_detail : str_fits 4096 (d_validation_detail d);
  dw_observed_at : is_i64 (d_last_observed_at d);
  dw_validated_at : is_i64 (d_last_validated_at d);
  dw_authoritative_at : is_i64 (d_last_authoritative_at d);
  dw_obs_gen : gen_wf (d_observation_generation d);
  dw_health_gen : gen_wf (d_health_generation d);
  dw_boot : id_wf (d_source_worker_boot d)
}.

Record worker_record_wf (wr : WorkerRecord) : Prop := {
  ww_worker : id_wf (w_worker wr);
  ww_boot : id_wf (w_boot wr);
  ww_reg_gen : gen_wf (w_registration_generation wr);
  ww_node : id_wf (w_node wr);
  ww_agent : id_wf (w_agent wr);
  ww_major : is_u32 (sv_major (av_version (w_agent_version wr)));
  ww_minor : is_u32 (sv_minor (av_version (w_agent_version wr)));
  ww_patch : is_u32 (sv_patch (av_version (w_agent_version wr)));
  ww_protocol : is_u32 (pv_value (w_protocol_version wr));
  ww_os : str_fits 128 (w_os_platform wr);
  ww_driver : str_fits 128 (dv_text (w_driver_version wr));
  ww_devices : Forall (str_fits 256) (w_device_identities wr);
  ww_devices_count : Z.of_nat (length (w_device_identities wr)) <= 4096;
  ww_capabilities : Forall (str_fits 128) (w_supported_capabilities wr);
  ww_capabilities_count : Z.of_nat (length (w_supported_capabilities wr)) <= 4096;
  ww_registered_at : is_i64 (w_registered_at wr);
  ww_heartbeat : is_i64 (w_last_heartbeat wr);
  ww_epoch : gen_wf (w_registered_epoch wr)
}.

Record node_record_wf (n : NodeRecord) : Prop := {
  nw_node : id_wf (n_node n);
  nw_generation : gen_wf (n_generation n);
  nw_first_seen : is_i64 (n_first_seen n)
}.

Record change_wf (c : ChangeRecord) : Prop := {
  chw_kind : enum_wf (c_kind c);
  chw_device : id_wf (c_device_id c);
  chw_at : is_i64 (c_at c);
  chw_gen : gen_wf (c_generation c);
  chw_epoch : gen_wf (c_epoch c);
  chw_detail : str_fits 512 (c_detail c);
  chw_from : str_fits 128 (c_from c);
  chw_to : str_fits 128 (c_to c)
}.

Record snapshot_codec_wf (s : StateSnapshot) : Prop := {
  scw_coordinator : id_wf (s_coordinator s);
  scw_epoch : gen_wf (s_epoch s);
  scw_fleet : gen_wf (s_fleet_generation s);
  scw_node : gen_wf (s_node_generation s);
  scw_nodes : forall k n, s_nodes s !! k = Some n -> n_node n = k /\ node_record_wf n;
  scw_workers : forall k w, s_workers s !! k = Some w -> w_worker w = k /\ worker_record_wf w;
  scw_devices : forall k d, s_devices s !! k = Some d -> str_fits 256 k /\ device_state_wf d;
  scw_nodes_count : Z.of_nat (length (map_entries (s_nodes s))) <= 100000;
  scw_workers_count : Z.of_nat (length (map_entries (s_workers s))) <= 100000;
  scw_devices_count : Z.of_nat (length (map_entries (s_devices s))) <= 100000;
  scw_changes : Forall change_wf (s_change_log s);
  scw_changes_count : Z.of_nat (length (s_change_log s)) <= 200000
}.

(* ------------------------------------------------------------------ *)
(** ** Lemmas: records *)

Lemma truncated_is m : code_is Truncated (truncated m).
Proof. reflexivity. Qed.
#[export] Hint Resolve truncated_is : codec.

Lemma w_each_enum {A} `{Enum8 A} (rs : list A) w :
  w_each (fun r => w_u8 (to_u8 r)) rs w = w ++ concat (map (fun r => be8 (to_u8 r)) rs).
Proof. apply w_each_u8. Qed.

Lemma enum_parses {E A} `{Enum8 A} (T : E -> Prop) e (a : A) :
  T e -> enum_wf a -> parses T (b ← rd_u8 ?? e; mret (of_u8 b)) (be8 (to_u8 a)) a.
Proof.
  intros HT [H8 Ha]. rewrite <- (app_nil_r (be8 _)).
  eapply parses_bind; [apply parses_or_fail; [by apply wire_u8|exact HT]|].
  apply parses_ret_eq. exact Ha.
Qed.

Lemma write_device_state_app d w : write_device_state d w = w ++ write_device_state d [].
Proof.
  unfold write_device_state. rewrite !(write_identity_app _ (w_u64 _ _)), !w_each_capabilities, !w_each_enum.
  autorewrite with writer. by rewrite <- !app_assoc.
Qed.

Lemma device_state_parses d :
  device_state_wf d -> parses any_error read_device_state (write_device_state d []) d.
Proof.
  intros [? ? ? [? Hh] ? [? He] ? ? [? Hd] [] ? ? ? ? ? ? ? ? ? ? ? ? ? ?].
  unfold write_device_state, read_device_state.
  rewrite write_identity_app, w_each_capabilities, w_each_enum. writer_norm.
  do 2 parses_field. eapply parses_bind; [by apply identity_parses|cbn beta].
  parses_fields.
  - intros r Hr. by apply enum_parses.
  - intros c Hc. by apply capability_parses.
  - rewrite Hh, He, Hd. by destruct d as [? ? ? ? ? ? ? ? ? ? [] ? ? ? ? ? ? ? ? ? ? ? ? ? ? ?].
Qed.

Lemma write_worker_app kw w : write_worker kw w = w ++ write_worker kw [].
Proof. unfold write_worker. autorewrite with writer. by rewrite <- !app_assoc. Qed.
Lemma write_node_app kn w : write_node kn w = w ++ write_node kn [].
Proof. unfold write_node. autorewrite with writer. by rewrite <- !app_assoc. Qed.
Lemma write_change_app c w : write_change c w = w ++ write_change c [].
Proof. unfold write_change. autorewrite with writer. by rewrite <- !app_assoc. Qed.
Lemma write_device_app kd w : write_device kd w = w ++ write_device kd [].
Proof.
  unfold write_device.
  rewrite (write_device_state_app _ (w_string _ _ w)), (write_device_state_app _ (w_string _ _ [])).
  autorewrite with writer. by rewrite <- !app_assoc.
Qed.

Lemma worker_parses wr :
  worker_record_wf wr ->
  parses (code_is Truncated) read_worker (write_worker (w_worker wr, wr) []) wr.
Proof.
  intros []. unfold write_worker, read_worker. cbn [fst snd]. writer_norm. parses_fields.
  by destruct wr as [? ? ? ? ? [[? ? ?]] [?] ? [?] ? ? ? ? ? ? ? ?].
Qed.

Lemma change_parses c :
  change_wf c -> parses (code_is Truncated) read_change (write_change c []) c.
Proof.
  intros [[? Hk]]. unfold write_change, read_change. writer_norm. parses_fields.
  rewrite Hk. by destruct c.
Qed.

Lemma node_step_parses m k n :
  n_node n = k -> node_record_wf n -> m !! k = None ->
  parses (code_is Truncated) (read_node_step m) (write_node (k, n) []) (<[k := n]> m).
Proof.
  intros <- [] Hm. unfold read_node_step, write_node. cbn [fst snd].
  rewrite <- (app_nil_r (w_i64 _ _)). eapply (parses_bind _ _ _ _ _ (n_node n, n)).
  - unfold read_node. writer_norm. parses_fields. by destruct n.
  - apply parses_ret_eq. unfold emplace. cbn [fst snd]. by rewrite Hm.
Qed.

Lemma fresh_key_ensure {K A} `{Countable K} (m : gmap K A) k :
  m !! k = None -> negb (bool_decide (is_Some (m !! k))) = true.
Proof. intros ->. apply negb_true_iff, bool_decide_eq_false. by apply is_Some_None. Qed.

Lemma worker_step_parses m k wr :
  w_worker wr = k -> worker_record_wf wr -> m !! k = None ->
  parses (code_is Truncated) (read_worker_step m) (write_worker (k, wr) []) (<[k := wr]> m).
Proof.
  intros <- Hwf Hm. unfold read_worker_step. rewrite <- (app_nil_r (write_worker _ _)).
  eapply parses_bind; [by apply worker_parses|]. parses_field; [|apply parses_ret].
  by apply fresh_key_ensure.
Qed.

Lemma device_step_parses m k d :
  str_fits 256 k -> device_state_wf d -> m !! k = None ->
  parses (code_is Truncated) (read_device_step m) (write_device (k, d) []) (<[k := d]> m).
Proof.
  intros Hk Hwf Hm. unfold read_device_step, write_device. cbn [fst snd].
  rewrite write_device_state_app. writer_norm. parses_field.
  rewrite <- (app_nil_r (write_device_state _ _)).
  eapply parses_bind; [apply parses_or_fail; [by apply device_state_parses|reflexivity]|].
  parses_field; [|apply parses_ret]. by apply fresh_key_ensure.
Qed.

(* ------------------------------------------------------------------ *)
(** ** Lemmas: maps *)

Section MapSteps.
Context {K A E : Type} `{Countable K, KeyOrder K} (T : E -> Prop).
Context (step : gmap K A -> Parser E (gmap K A)) (put : K * A -> list byte).

Lemma steps_parse_map xs (m : gmap K A) :
  NoDup xs.*1 -> (forall kv, kv ∈ xs -> m !! kv.1 = None) ->
  (forall m kv, kv ∈ xs -> m !! kv.1 = None -> parses T (step m) (put kv) (<[kv.1 := kv.2]> m)) ->
  steps_parse T step put (fun m kv => <[kv.1 := kv.2]> m) xs m.
Proof.
  revert m. induction xs as [|[k a] xs IH]; intros m Hnd Hm Hstep; cbn [steps_parse]; [done|].
  cbn [fmap list_fmap] in Hnd. apply NoDup_cons in Hnd as [Hk Hnd]. split.
  - apply Hstep; [apply list_elem_of_here|]. apply Hm, list_elem_of_here.
  - apply IH; [exact Hnd| |].
    + intros [k' a'] Hin. cbn [fst snd].
      rewrite lookup_insert_ne; [by apply (Hm (k', a')), list_elem_of_further|].
      intros ->. apply Hk. apply (list_elem_of_fmap_2 fst xs (k', a')), Hin.
    + intros m' kv Hin. apply Hstep. by apply list_elem_of_further.
Qed.

Lemma foldl_insert_map (xs : list (K * A)) (m : gmap K A) :
  NoDup xs.*1 -> foldl (fun m kv => <[kv.1 := kv.2]> m) m xs = list_to_map xs ∪ m.
Proof.
  revert m. induction xs as [|[k a] xs IH]; intros m Hnd; cbn [foldl].
  - by rewrite list_to_map_nil, (left_id_L ∅ (∪)).
  - cbn [fmap list_fmap] in Hnd. apply NoDup_cons in Hnd as [Hk Hnd].
    rewrite IH, list_to_map_cons by exact Hnd. cbn [fst snd]. rewrite <- insert_union_l, insert_union_r; [done|].
    by apply not_elem_of_list_to_map_1.
Qed.

Lemma map_entries_perm (m : gmap K A) : map_entries m ≡ₚ map_to_list m.
Proof. apply merge_sort_Permutation. Qed.

Lemma map_entries_nodup (m : gmap K A) : NoDup (map_entries m).*1.
Proof. rewrite map_entries_perm. apply NoDup_fst_map_to_list. Qed.

Lemma map_entries_elem (m : gmap K A) kv : kv ∈ map_entries m -> m !! kv.1 = Some kv.2.
Proof. rewrite map_entries_perm. destruct kv. apply elem_of_map_to_list. Qed.

Lemma map_entries_rebuild (m : gmap K A) :
  foldl (fun m kv => <[kv.1 := kv.2]> m) ∅ (map_entries m) = m.
Proof.
  rewrite foldl_insert_map by apply map_entries_nodup. rewrite (right_id_L ∅ (∪)).
  rewrite (list_to_map_proper _ (map_to_list m)) by
    (apply map_entries_nodup || apply map_entries_perm). apply list_to_map_to_list.
Qed.

(** A map written entry by entry after its count. *)
Lemma parses_map_entries (m : gmap K A) n :
  Z.of_nat (length (map_entries m)) <= n -> n < 2 ^ 32 ->
  (forall m0 k a, m !! k = Some a -> m0 !! k = None ->
     parses T (step m0) (put (k, a)) (<[k := a]> m0)) ->
  parses T (rd_fold (Z.to_nat (count32 (map_entries m))) step ∅)
    (concat (map put (map_entries m))) m.
Proof.
  intros Hn Hmax Hstep. rewrite (count32_small _ n Hn Hmax), Nat2Z.id.
  rewrite <- (map_entries_rebuild m) at 3. apply parses_fold, steps_parse_map.
  - apply map_entries_nodup.
  - intros. apply lookup_empty.
  - intros m0 [k a] Hin Hm0. apply map_entries_elem in Hin. by apply Hstep.
Qed.

End MapSteps.

(** A map of the snapshot, by the contract of its entries. *)
Ltac map_field entries step :=
  eapply parses_bind;
  [ eapply parses_map_entries; [eassumption | reflexivity |];
    intros m0 k a Ha Hm; destruct (entries _ _ Ha); by apply step
  | cbn beta ].

Lemma snapshot_parses s :
  snapshot_codec_wf s -> s_accounting s = accounting_default ->
  parses (code_is Truncated) snapshot_body (encode_snapshot s) s.
Proof.
  intros [] Hacc. unfold encode_snapshot, snapshot_body.
  rewrite !(w_each_app write_change (fun c => write_change c []) write_change_app),
    !(w_each_app write_device (fun c => write_device c []) write_device_app),
    !(w_each_app write_worker (fun c => write_worker c []) write_worker_app),
    !(w_each_app write_node (fun c => write_node c []) write_node_app). writer_norm.
  do 6 parses_field. map_field scw_nodes0 node_step_parses.
  do 2 parses_field. map_field scw_workers0 worker_step_parses.
  do 2 parses_field. map_field scw_devices0 device_step_parses.
  do 2 parses_field. rewrite <- (app_nil_r (concat (map _ (s_change_log s)))).
  eapply parses_bind; [eapply parses_counted; [exact scw_changes_count0|reflexivity|apply change_parses
    |exact scw_changes0]|].
  apply parses_ret_eq. rewrite ?id_eta, ?gen_eta, <- Hacc. by destruct s.
Qed.

(** The snapshot without its derived counters, which the format does not carry. *)
Definition strip_accounting (s : StateSnapshot) : StateSnapshot :=
  MkSnapshot (s_coordinator s) (s_epoch s) (s_fleet_generation s) (s_node_generation s)
    (s_nodes s) (s_workers s) (s_devices s) (s_change_log s) accounting_default.

Lemma strip_parses s :
  snapshot_codec_wf s ->
  parses (code_is Truncated) snapshot_body (encode_snapshot s) (strip_accounting s).
Proof.
  intros H. change (encode_snapshot s) with (encode_snapshot (strip_accounting s)).
  apply snapshot_parses; [|reflexivity]. by destruct H.
Qed.

(* ------------------------------------------------------------------ *)
(** ** Properties *)

(** Round trip of the whole fleet state: every node, worker, device and change
    record is read back; only the derived accounting is reset. *)
Theorem snapshot_roundtrip s :
  snapshot_codec_wf s -> decode_snapshot (encode_snapshot s) = Ok (strip_accounting s).
Proof. intros H. exact (run_decoder_ok (strip_parses s H)). Qed.

(** A snapshot cut anywhere is rejected as truncated; one followed by further
    bytes as malformed. *)
Theorem snapshot_rejects_damage s cut rest extra :
  snapshot_codec_wf s -> encode_snapshot s = cut ++ rest -> rest <> [] -> extra <> [] ->
  (exists e, decode_snapshot cut = Err e /\ err_code e = Truncated) /\
  (exists e, decode_snapshot (encode_snapshot s ++ extra) = Err e /\ err_code e = Malformed).
Proof.
  intros H Hl Hr Hx. split.
  - exact (run_decoder_truncated (strip_parses s H) cut rest Hl Hr).
  - eexists. split; [exact (run_decoder_garbage (strip_parses s H) extra Hx)|reflexivity].
Qed.
