(* ===== verification/Store.v ===== *)
(** * Versioned persistence ([persistence/store.hpp])

    The store file's layout, how it is replaced, over a small model of the
    file system, and the checks of a load. A file system is a map from paths to
    contents; the outcome of each C library call that may fail is part of the
    environment ([SaveIo], [LoadIo]). *)

From S2P Require Import Prelude Core Codec Crc Identity Device Observation Change Pipeline.
From S2P Require Import Registration FleetState SnapshotCodec.

Definition kStoreMagic : Z := 0x47464C45.

Definition snapshot_digest (s : StateSnapshot) : Z := crc32 (encode_snapshot s).

(** The part of the file the checksum covers, for a payload. *)
Definition store_signed_part (body : list byte) : list byte :=
  ([] : ByteWriter)
    |> w_u32 kStoreMagic
    |> w_u32 store_schema_version
    |> w_u64 (wrap 64 (Z.of_nat (length body)))
    |> w_raw_bytes body.

(** The bytes [save_snapshot] writes. *)
Definition store_bytes (s : StateSnapshot) : list byte :=
  let w := store_signed_part (encode_snapshot s) in
  w ++ (([] : ByteWriter) |> w_u32 (crc32 w)).

(* ------------------------------------------------------------------ *)
(** ** Saving *)

Abbreviation FileSystem := (gmap string (list byte)).

(** What the C library answers to the calls of [save_snapshot], in order. *)
Record SaveIo := MkSaveIo {
  sio_open : bool;            (** [fopen(tmp, "wb")] *)
  sio_written : nat;          (** bytes taken by [fwrite] *)
  sio_flush : bool;           (** [fflush(f) == 0] *)
  sio_close : bool;           (** [fclose(f) == 0] *)
  sio_remove_partial : bool;  (** [remove(tmp)] after a failed write *)
  sio_rename : bool;          (** the first [rename] *)
  sio_remove_old : bool;      (** [remove(path)] *)
  sio_rename_again : bool;    (** the second [rename] *)
  sio_remove_tmp : bool       (** [remove(tmp)] after both renames *)
}.

(** [remove(path)]; nothing looks at its result. *)
Definition fs_remove (ok : bool) (path : string) (fs : FileSystem) : FileSystem :=
  if ok then delete path fs else fs.

(** [rename(from, to)] of an existing file. *)
Definition fs_rename (from to : string) (fs : FileSystem) : FileSystem :=
  match fs !! from with Some c => <[to := c]> (delete from fs) | None => fs end.

Definition save_snapshot (path : string) (s : StateSnapshot) (io : SaveIo) (fs : FileSystem)
  : FileSystem * Result unit :=
  let bytes := store_bytes s in
  let tmp := path +:+ ".tmp" in
  if negb (sio_open io) then (fs, error_result Io "cannot open temp file for write")
  else
    let fs := <[tmp := take (sio_written io) bytes]> fs in
    let written := Nat.min (sio_written io) (length bytes) in
    if negb (written =? length bytes)%nat || negb (sio_flush io) || negb (sio_close io) then
      (fs_remove (sio_remove_partial io) tmp fs, error_result Io "failed to write store file")
    else if sio_rename io then (fs_rename tmp path fs, Ok tt)
    else
      let fs := fs_remove (sio_remove_old io) path fs in
      if sio_rename_again io then (fs_rename tmp path fs, Ok tt)
      else (fs_remove (sio_remove_tmp io) tmp fs, error_result Io "failed to atomically replace store file").

(* ------------------------------------------------------------------ *)
(** ** Loading *)

Record LoadIo := MkLoadIo {
  lio_open : bool;            (** [fopen(path, "rb")] of an existing file *)
  lio_size : bool;            (** [ftell] succeeded *)
  lio_read : bool             (** [fread] took every byte *)
}.

(** The three fixed fields. *)
Definition store_header : Parser Error (Z * Z * Z) :=
  magic ← rd_u32 ?? MkError Truncated "magic truncated";
  ver ← rd_u32 ?? MkError Truncated "version truncated";
  len ← rd_u64 ?? MkError Truncated "length truncated";
  mret (magic, ver, len).

(** The checks on the bytes of the file. *)
Definition parse_store (bytes : list byte) : Result StateSnapshot :=
  if (length bytes <? 4 + 4 + 8 + 4)%nat then error_result Truncated "store file too small"
  else
    match store_header (reader bytes) with
    | PFail e => Err e
    | POk (magic, ver, len) _ =>
        if negb (magic =? kStoreMagic) then error_result Corrupt "bad store magic"
        else if negb (ver =? store_schema_version) then
          error_result VersionMismatch "unsupported schema version"
        else if len >? Z.shiftl 1 31 then error_result OutOfBounds "payload too large"
        else if negb (Z.of_nat (length bytes) =? 4 + 4 + 8 + len + 4) then
          error_result Truncated
            "store file length and size mismatch (truncation or trailing garbage)"
        else
          match rd_u32 (reader (take 4 (drop (Z.to_nat (4 + 4 + 8 + len)) bytes))) with
          | PFail _ => error_result Truncated "crc truncated"
          | POk stored_crc _ =>
              let calc := crc32 (take (length bytes - 4) bytes) in
              if negb (calc =? stored_crc) then error_result Corrupt "store CRC mismatch"
              else decode_snapshot (take (Z.to_nat len) (drop (4 + 4 + 8) bytes))
          end
    end.

Definition load_snapshot (path : string) (io : LoadIo) (fs : FileSystem) : Result StateSnapshot :=
  match fs !! path with
  | None => error_result Io "cannot open store file"
  | Some bytes =>
      if negb (lio_open io) then error_result Io "cannot open store file"
      else if negb (lio_size io) then error_result Io "cannot size store file"
      else if (length bytes =? 0)%nat then error_result Truncated "store file empty"
      else if negb (lio_read io) then error_result Truncated "store file truncated on read"
      else parse_store bytes
  end.

(* ------------------------------------------------------------------ *)
(** ** Lemmas *)

Definition store_head (magic ver len : Z) : list byte := be32 magic ++ be32 ver ++ be64 len.

Lemma store_head_length magic ver len : length (store_head magic ver len) = 16%nat.
Proof. unfold store_head. by rewrite !length_app, !be32_length, be64_length. Qed.

Lemma store_header_parses magic ver len :
  is_u32 magic -> is_u32 ver -> is_u64 len ->
  parses (code_is Truncated) store_header (store_head magic ver len) (magic, ver, len).
Proof. intros. unfold store_header, store_head. rewrite <- (app_nil_r (be64 len)). by parses_fields. Qed.

Lemma store_signed_part_head body :
  is_u64 (Z.of_nat (length body)) ->
  store_signed_part body =
    store_head kStoreMagic store_schema_version (Z.of_nat (length body)) ++ body.
Proof.
  intros H. unfold store_signed_part, store_head. rewrite (wrap_small _ _ H). writer_norm. done.
Qed.

(** [parse_store] in terms of the fields of the file. *)
Definition parse_fields (magic ver len : Z) (rest : list byte) : Result StateSnapshot :=
  if negb (magic =? kStoreMagic) then error_result Corrupt "bad store magic"
  else if negb (ver =? store_schema_version) then
    error_result VersionMismatch "unsupported schema version"
  else if len >? Z.shiftl 1 31 then error_result OutOfBounds "payload too large"
  else if negb (Z.of_nat (length rest) =? len + 4) then
    error_result Truncated
      "store file length and size mismatch (truncation or trailing garbage)"
  else
    let body := take (Z.to_nat len) rest in
    if negb (bool_decide (be32 (crc32 (store_head magic ver len ++ body)) =
                          drop (Z.to_nat len) rest))
    then error_result Corrupt "store CRC mismatch"
    else decode_snapshot body.

Lemma parse_store_spec magic ver len rest :
  is_u32 magic -> is_u32 ver -> is_u64 len -> (4 <= length rest)%nat ->
  parse_store (store_head magic ver len ++ rest) = parse_fields magic ver len rest.
Proof.
  intros Hm Hv Hl Hr. unfold parse_store, parse_fields.
  rewrite length_app, store_head_length.
  destruct (Nat.ltb_spec (16 + length rest) (4 + 4 + 8 + 4)) as [|_]; [lia|].
  destruct (proj1 (store_header_parses _ _ _ Hm Hv Hl) _ rest (at_rest_reader _)) as (r & -> & _).
  do 2 (destruct (negb (_ =? _)); [done|]). destruct (len >? Z.shiftl 1 31); [done|].
  replace (Z.of_nat (16 + length rest) =? 4 + 4 + 8 + len + 4)
    with (Z.of_nat (length rest) =? len + 4).
  2:{ apply eq_true_iff_eq. rewrite !Z.eqb_eq. lia. }
  destruct (Z.eqb_spec (Z.of_nat (length rest)) (len + 4)) as [Hlen|]; [|done]. cbn [negb].
  unfold is_u in Hl.
  replace (Z.to_nat (4 + 4 + 8 + len)) with (16 + Z.to_nat len)%nat by lia.
  replace (16 + length rest - 4)%nat with (16 + Z.to_nat len)%nat by lia.
  rewrite <- (store_head_length magic ver len), take_app_add', !drop_app_add', drop_app_length'
    by (done || by rewrite store_head_length).
  rewrite (take_ge (drop (Z.to_nat len) rest)) by (rewrite length_drop; lia).
  destruct (crc_compare (crc32 (store_head magic ver len ++ take (Z.to_nat len) rest))
    (drop (Z.to_nat len) rest)) as (stored & r' & -> & ->); [apply crc32_range| |done].
  rewrite length_drop. lia.
Qed.

Lemma store_split bytes :
  (20 <= length bytes)%nat ->
  exists magic ver len rest, is_u32 magic /\ is_u32 ver /\ is_u64 len /\ (4 <= length rest)%nat /\
    bytes = store_head magic ver len ++ rest.
Proof.
  intros H.
  assert (Hcut : forall n (l : list byte), (n <= length l)%nat ->
    exists a b, length a = n /\ l = a ++ b /\ length b = (length l - n)%nat).
  { intros n l Hn. exists (take n l), (drop n l).
    rewrite take_drop, length_take, length_drop. repeat split; lia. }
  destruct (Hcut 4%nat bytes ltac:(lia)) as (h1 & b1 & E1 & -> & L1).
  destruct (Hcut 4%nat b1 ltac:(lia)) as (h2 & b2 & E2 & -> & L2).
  destruct (Hcut 8%nat b2 ltac:(lia)) as (h3 & b3 & E3 & -> & L3).
  destruct (be32_surj _ E1) as (magic & ? & ->), (be32_surj _ E2) as (ver & ? & ->),
    (be64_surj _ E3) as (len & ? & ->).
  exists magic, ver, len, b3. unfold store_head. rewrite <- !app_assoc. split_and!; try done. lia.
Qed.

(** An accepted file is the checksummed image of a payload that decodes. *)
Lemma parse_store_accepts bytes s :
  parse_store bytes = Ok s ->
  exists body, is_u64 (Z.of_nat (length body)) /\
    bytes = checksummed (store_signed_part body) /\ decode_snapshot body = Ok s.
Proof.
  intros H. destruct (Nat.lt_ge_cases (length bytes) 20) as [Hs|Hl].
  { unfold parse_store in H. destruct (Nat.ltb_spec (length bytes) (4 + 4 + 8 + 4)); [done|lia]. }
  destruct (store_split bytes Hl) as (magic & ver & len & rest & Hm & Hv & Hlen & Hr & ->).
  rewrite parse_store_spec in H by assumption. unfold parse_fields in H.
  destruct (Z.eqb_spec magic kStoreMagic) as [->|]; [|done].
  destruct (Z.eqb_spec ver store_schema_version) as [->|]; [|done]. cbn [negb] in H.
  destruct (len >? Z.shiftl 1 31); [done|].
  destruct (Z.eqb_spec (Z.of_nat (length rest)) (len + 4)) as [Hsize|]; [|done]. cbn [negb] in H.
  destruct (bool_decide_reflect (be32 (crc32 (store_head kStoreMagic store_schema_version len ++
    take (Z.to_nat len) rest)) = drop (Z.to_nat len) rest)) as [Hcrc|]; [|done]. cbn [negb] in H.
  exists (take (Z.to_nat len) rest).
  assert (Z.of_nat (length (take (Z.to_nat len) rest)) = len) as Hbody.
  { rewrite length_take. unfold is_u in Hlen. lia. }
  rewrite Hbody. split_and!; [exact Hlen| |exact H].
  rewrite store_signed_part_head by (by rewrite Hbody). rewrite Hbody. unfold checksummed.
  by rewrite Hcrc, <- !app_assoc, take_drop.
Qed.

Lemma store_bytes_checksummed s : store_bytes s = checksummed (store_signed_part (encode_snapshot s)).
Proof. unfold store_bytes, checksummed. by rewrite w_u32_app. Qed.

Lemma checksummed_length body : length (checksummed body) = (length body + 4)%nat.
Proof. unfold checksummed. by rewrite length_app, be32_length. Qed.

(** A payload the layout can hold. *)
Definition store_fits (s : StateSnapshot) : Prop :=
  Z.of_nat (length (encode_snapshot s)) <= 2 ^ 31.

Lemma store_fits_u64 s : store_fits s -> is_u64 (Z.of_nat (length (encode_snapshot s))).
Proof. unfold store_fits, is_u. lia. Qed.

(** Two files of the layout, one a prefix of the other, are the same file. *)
Lemma store_prefix_free b1 b2 rest :
  is_u64 (Z.of_nat (length b1)) -> is_u64 (Z.of_nat (length b2)) ->
  checksummed (store_signed_part b1) = checksummed (store_signed_part b2) ++ rest -> rest = [].
Proof.
  intros H1 H2 E. pose proof E as Elen. apply (f_equal length) in Elen.
  rewrite length_app, !checksummed_length in Elen.
  rewrite !store_signed_part_head in E, Elen by assumption.
  rewrite !length_app, !store_head_length in Elen. unfold checksummed in E.
  rewrite <- !app_assoc in E. unfold store_head in E. rewrite <- !app_assoc in E.
  apply app_inj_1 in E as [_ E]; [|done]. apply app_inj_1 in E as [_ E]; [|done].
  apply app_inj_1 in E as [Hl _]; [|by rewrite !be64_length].
  apply (wire_inj rd_u64 be64 is_u64) in Hl; [|assumption..].
  destruct rest; [done|]. cbn in Elen. lia.
Qed.

Lemma parse_store_saved s :
  snapshot_codec_wf s -> store_fits s -> parse_store (store_bytes s) = Ok (strip_accounting s).
Proof.
  intros Hwf Hfit. pose proof (store_fits_u64 s Hfit) as Hu.
  rewrite store_bytes_checksummed. unfold checksummed. rewrite store_signed_part_head by exact Hu.
  rewrite <- app_assoc. rewrite parse_store_spec;
    [|vm_compute; split; congruence|vm_compute; split; congruence|exact Hu
     |rewrite length_app, be32_length; lia].
  unfold parse_fields. rewrite !Z.eqb_refl. cbn [negb].
  change (Z.shiftl 1 31) with (2 ^ 31).
  destruct (_ >? _) eqn:E; [zbool; unfold store_fits in Hfit; lia|].
  replace (_ =? _) with true.
  2:{ symmetry. apply Z.eqb_eq. rewrite length_app, be32_length. lia. }
  cbn [negb]. rewrite Nat2Z.id, take_app_length, drop_app_length, bool_decide_eq_true_2 by done.
  cbn [negb]. exact (run_decoder_ok (strip_parses s Hwf)).
Qed.

Lemma tmp_ne path : path +:+ ".tmp" <> path.
Proof.
  intros H. apply (f_equal String.length) in H.
  assert (forall a b, String.length (a +:+ b) = (String.length a + String.length b)%nat) as Hl.
  { intros a b. induction a as [|c a IH]; [done|]. exact (f_equal S IH). }
  rewrite Hl in H. cbn in H. lia.
Qed.

Lemma fs_remove_ne ok p k fs : k <> p -> fs_remove ok p fs !! k = fs !! k.
Proof. intros. destruct ok; [by apply lookup_delete_ne|done]. Qed.

Lemma fs_remove_eq ok p fs : fs_remove ok p fs !! p = if ok then None else fs !! p.
Proof. destruct ok; [apply lookup_delete_eq|done]. Qed.

(** The steps before the renames: the temporary is complete, or the save has failed. *)
Definition written_out (s : StateSnapshot) (io : SaveIo) : bool :=
  sio_open io && (Nat.min (sio_written io) (length (store_bytes s)) =? length (store_bytes s))%nat &&
  sio_flush io && sio_close io.

Lemma save_not_written path s io fs :
  written_out s io = false ->
  result_ok (save_snapshot path s io fs).2 = false /\
  forall k, k <> path +:+ ".tmp" -> (save_snapshot path s io fs).1 !! k = fs !! k.
Proof.
  unfold written_out, save_snapshot. destruct (sio_open io); [|done].
  destruct (_ =? _)%nat, (sio_flush io), (sio_close io); try discriminate; intros _; (split; [done|]);
    intros k Hk; cbn [negb orb fst]; by rewrite fs_remove_ne, lookup_insert_ne by congruence.
Qed.

Lemma save_written path s io fs :
  written_out s io = true ->
  save_snapshot path s io fs =
    let tmp := path +:+ ".tmp" in
    let fs := <[tmp := store_bytes s]> fs in
    if sio_rename io then (fs_rename tmp path fs, Ok tt)
    else
      let fs := fs_remove (sio_remove_old io) path fs in
      if sio_rename_again io then (fs_rename tmp path fs, Ok tt)
      else (fs_remove (sio_remove_tmp io) tmp fs,
            error_result Io "failed to atomically replace store file").
Proof.
  unfold written_out, save_snapshot.
  intros [[[-> Hw]%andb_true_iff ->]%andb_true_iff ->]%andb_true_iff. rewrite Hw.
  apply Nat.eqb_eq in Hw. cbn [negb orb]. by rewrite take_ge by lia.
Qed.

(** The replacement: installed and moved, or neither rename succeeded. *)
Lemma fs_rename_spec from to c fs :
  from <> to -> fs !! from = Some c ->
  fs_rename from to fs !! to = Some c /\ fs_rename from to fs !! from = None /\
  forall k, k <> to -> k <> from -> fs_rename from to fs !! k = fs !! k.
Proof.
  intros Hne Hf. unfold fs_rename. rewrite Hf. split_and!; [apply lookup_insert_eq| |intros k ? ?].
  - by rewrite lookup_insert_ne, lookup_delete_eq by done.
  - by rewrite lookup_insert_ne, lookup_delete_ne by done.
Qed.

(** What a save does to the file system. *)
Lemma save_outcome path s io fs :
  let r := save_snapshot path s io fs in
  let tmp := path +:+ ".tmp" in
  (forall k, k <> path -> k <> tmp -> r.1 !! k = fs !! k) /\
  ((r.2 = Ok tt /\ r.1 !! path = Some (store_bytes s) /\ r.1 !! tmp = None) \/
   (result_ok r.2 = false /\ r.1 !! path = fs !! path) \/
   (result_ok r.2 = false /\ sio_rename io = false /\ sio_rename_again io = false /\
    sio_remove_old io = true /\ r.1 !! path = None /\
    r.1 !! tmp = if sio_remove_tmp io then None else Some (store_bytes s))).
Proof.
  cbn zeta. pose proof (tmp_ne path) as Hne. destruct (written_out s io) eqn:Hw.
  2: { destruct (save_not_written path s io fs Hw) as [Hr Hk]. split; [by auto|]. right. left. auto. }
  rewrite (save_written path s io fs Hw). cbn zeta.
  assert (forall b, fs_remove b path (<[path +:+ ".tmp" := store_bytes s]> fs) !! (path +:+ ".tmp") =
            Some (store_bytes s)) as Ht by (intros; by rewrite fs_remove_ne, lookup_insert_eq).
  destruct (sio_rename io); [|destruct (sio_rename_again io)]; cbn [fst snd].
  - destruct (fs_rename_spec (path +:+ ".tmp") path (store_bytes s)
      (<[path +:+ ".tmp" := store_bytes s]> fs)) as (H1 & H2 & H3); [done|apply lookup_insert_eq|].
    split; [|by left]. intros k Hk Hk'. by rewrite H3, lookup_insert_ne.
  - destruct (fs_rename_spec (path +:+ ".tmp") path (store_bytes s)
      (fs_remove (sio_remove_old io) path (<[path +:+ ".tmp" := store_bytes s]> fs)))
      as (H1 & H2 & H3); [done|done|].
    split; [|by left]. intros k Hk Hk'. by rewrite H3, fs_remove_ne, lookup_insert_ne.
  - split; [intros k Hk Hk'; by rewrite !fs_remove_ne, lookup_insert_ne by done|]. right.
    rewrite fs_remove_ne, !fs_remove_eq, Ht by done. destruct (sio_remove_old io).
    + by right.
    + left. by rewrite lookup_insert_ne.
Qed.

Lemma save_installs path s io fs :
  (save_snapshot path s io fs).2 = Ok tt ->
  (save_snapshot path s io fs).1 !! path = Some (store_bytes s).
Proof.
  intros H. destruct (save_outcome path s io fs) as [_ [(_ & E & _)|[(E & _)|(E & _)]]];
    [exact E|rewrite H in E; discriminate..].
Qed.

Lemma load_saved path s fs :
  snapshot_codec_wf s -> store_fits s -> fs !! path = Some (store_bytes s) ->
  load_snapshot path (MkLoadIo true true true) fs = Ok (strip_accounting s).
Proof.
  intros Hwf Hfit Hfile. unfold load_snapshot. rewrite Hfile. cbn [lio_open lio_size lio_read negb].
  destruct (Nat.eqb_spec (length (store_bytes s)) 0) as [E|].
  - rewrite store_bytes_checksummed, checksummed_length in E. lia.
  - by apply parse_store_saved.
Qed.

(* ------------------------------------------------------------------ *)
(** ** Properties *)

(** Save then load: the file a successful save leaves is loaded back to the
    saved snapshot. *)
Theorem store_roundtrip path s io fs :
  snapshot_codec_wf s -> store_fits s -> (save_snapshot path s io fs).2 = Ok tt ->
  load_snapshot path (MkLoadIo true true true) (save_snapshot path s io fs).1 =
    Ok (strip_accounting s).
Proof.
  intros Hwf Hfit Hok. apply load_saved; [exact Hwf|exact Hfit|by apply save_installs].
Qed.

(** C37. Replacement of the store file, whatever each call of the C library answers, the
    removals included: the destination holds the complete new file and the save
    succeeds, or it holds what it held before and the save fails, or both renames
    failed after the old file was removed: then the save fails, nothing is left at
    the destination, and the new file is lost too unless its removal fails. No file
    but the destination and the temporary is touched. *)
Theorem save_replaces_or_loses path s io fs :
  let r := save_snapshot path s io fs in
  let tmp := path +:+ ".tmp" in
  (forall k, k <> path -> k <> tmp -> r.1 !! k = fs !! k) /\
  ((r.2 = Ok tt /\ r.1 !! path = Some (store_bytes s) /\ r.1 !! tmp = None) \/
   (result_ok r.2 = false /\ r.1 !! path = fs !! path) \/
   (result_ok r.2 = false /\ sio_rename io = false /\ sio_rename_again io = false /\
    sio_remove_old io = true /\ r.1 !! path = None /\
    r.1 !! tmp = if sio_remove_tmp io then None else Some (store_bytes s))).
Proof. apply save_outcome. Qed.

(** A load accepts nothing but the image of a payload: magic, schema version,
    length and checksum agree and the payload decodes to the result. *)
Theorem load_accepts_only_store_images bytes s :
  parse_store bytes = Ok s ->
  exists body, bytes = checksummed (store_signed_part body) /\ decode_snapshot body = Ok s.
Proof. intros H. destruct (parse_store_accepts bytes s H) as (body & _ & H1 & H2). eauto. Qed.

(** Any single corrupted byte of a saved store - in the header, the payload or
    the checksum itself - makes the load fail. *)
Theorem corrupted_store_rejected s pre x y post :
  store_fits s -> store_bytes s = pre ++ x :: post -> x <> y ->
  result_ok (parse_store (pre ++ y :: post)) = false.
Proof.
  intros Hfit Hs Hxy. destruct (parse_store (pre ++ y :: post)) as [s'|e] eqn:E; [|done].
  exfalso. destruct (parse_store_accepts _ _ E) as (body & _ & Hb & _).
  rewrite store_bytes_checksummed in Hs. apply Hxy.
  eapply checksummed_change; [|exact Hs|symmetry; exact Hb].
  apply (f_equal length) in Hs, Hb. rewrite checksummed_length, !length_app in *. cbn in *. lia.
Qed.

(** A saved store that lost its end, or gained bytes, is not loaded. *)
Theorem truncated_store_rejected s cut rest :
  store_fits s -> rest <> [] ->
  (store_bytes s = cut ++ rest -> result_ok (parse_store cut) = false) /\
  result_ok (parse_store (store_bytes s ++ rest)) = false.
Proof.
  intros Hfit Hr. pose proof (store_fits_u64 s Hfit) as Hu. split.
  - intros Hs. destruct (parse_store cut) as [s'|] eqn:E; [|done]. exfalso. apply Hr.
    destruct (parse_store_accepts _ _ E) as (body & Hb & -> & _).
    rewrite store_bytes_checksummed in Hs. exact (store_prefix_free _ _ _ Hu Hb Hs).
  - destruct (parse_store (store_bytes s ++ rest)) as [s'|] eqn:E; [|done]. exfalso. apply Hr.
    destruct (parse_store_accepts _ _ E) as (body & Hb & Hs & _).
    rewrite store_bytes_checksummed in Hs. exact (store_prefix_free _ _ _ Hb Hu (eq_sym Hs)).
Qed.
