(* ===== verification/CodecWitness.v ===== *)
(** * Concrete values of the codecs

    A fleet the wire formats carry without loss, and the codec and store
    theorems at it. *)

From S2P Require Import Prelude Core Codec Crc Message Framing Identity Health Eligibility.
From S2P Require Import Device Observation Change Pipeline Registration WireFormats ObservationCodec.
From S2P Require Import AdminPayload FleetState FleetSteps FleetInv FleetSafety FleetIngest.
From S2P Require Import FleetWitness SnapshotCodec Store.

(** Closes the well-formedness of a value given by its constructors. *)
Ltac wf_leaf := vm_compute; first [congruence | split; congruence | exact I].
Ltac wf_solve :=
  lazymatch goal with
  | |- Forall _ _ => repeat (constructor; [wf_solve|]); apply Forall_nil_2
  | |- enum_wf _ => enum_wf_solve
  | |- is_u _ _ => wf_leaf
  | |- is_s _ _ => wf_leaf
  | |- str_fits _ _ => wf_leaf
  | |- _ <= _ => wf_leaf
  | |- _ = _ => reflexivity
  | |- _ /\ _ => split; wf_solve
  | |- opt_f64_wf _ => hnf; intros; discriminate
  | |- forall p, _ = Some p -> _ => cbn; discriminate
  | |- _ => constructor; wf_solve
  end.

(** A property of every entry of a concrete map. *)
Lemma map_all {K A} `{Countable K} (P : K -> A -> Prop) (m : gmap K A) :
  Forall (fun kv => P kv.1 kv.2) (map_to_list m) -> forall k x, m !! k = Some x -> P k x.
Proof.
  intros Hall k x Hk. rewrite Forall_forall in Hall. apply elem_of_map_to_list in Hk.
  exact (Hall (k, x) Hk).
Qed.

Ltac eval_map :=
  apply map_all;
  match goal with |- Forall _ ?l =>
    let l' := eval vm_compute in l in replace l with l' by (vm_compute; reflexivity) end;
  repeat (constructor; [cbn [fst snd]; wf_solve|]); apply Forall_nil_2.

Definition sample_snapshot : StateSnapshot := snapshot sample_fleet.

Lemma sample_snapshot_wf : snapshot_codec_wf sample_snapshot.
Proof.
  split; try wf_leaf.
  - eval_map.
  - eval_map.
  - eval_map.
  - match goal with |- Forall _ ?l =>
      let l' := eval vm_compute in l in replace l with l' by (vm_compute; reflexivity) end.
    wf_solve.
Qed.

Lemma sample_snapshot_fits : store_fits sample_snapshot.
Proof. vm_compute. congruence. Qed.

Definition sample_batch : list DeviceObservation :=
  [sample_observation 1 1000 true true; sample_observation 2 1001 true false].

Lemma sample_batch_wf : batch_wf sample_batch.
Proof.
  split; [wf_leaf|]. repeat (constructor; [split; [wf_solve|wf_leaf]|]). apply Forall_nil_2.
Qed.

Lemma registration_rejects_damage_witness :
  exists e, decode_registration (take 10 (encode_registration sample_registration)) = Err e /\
            err_code e = Truncated.
Proof.
  apply (registration_rejects_damage sample_registration _
           (drop 10 (encode_registration sample_registration)) [Byte.x00]);
    [apply sample_registration_wf|by rewrite take_drop|vm_compute; discriminate|discriminate].
Defined.

Lemma observation_batch_roundtrip_witness :
  decode_observation_batch (encode_observation_batch sample_batch) = Ok sample_batch.
Proof. apply observation_batch_roundtrip, sample_batch_wf. Defined.

Lemma observation_batch_rejects_damage_witness :
  exists e, decode_observation_batch (take 10 (encode_observation_batch sample_batch)) = Err e /\
            err_code e = Truncated.
Proof.
  apply (observation_batch_rejects_damage sample_batch _
           (drop 10 (encode_observation_batch sample_batch)) [Byte.x00]);
    [apply sample_batch_wf|by rewrite take_drop|vm_compute; discriminate|discriminate].
Defined.

Lemma snapshot_roundtrip_witness :
  decode_snapshot (encode_snapshot sample_snapshot) = Ok (strip_accounting sample_snapshot).
Proof. apply snapshot_roundtrip, sample_snapshot_wf. Defined.

Lemma snapshot_rejects_damage_witness :
  exists e, decode_snapshot (take 40 (encode_snapshot sample_snapshot)) = Err e /\
            err_code e = Truncated.
Proof.
  apply (snapshot_rejects_damage sample_snapshot _ (drop 40 (encode_snapshot sample_snapshot))
           [Byte.x00]);
    [apply sample_snapshot_wf|by rewrite take_drop|vm_compute; discriminate|discriminate].
Defined.

Definition disk_ok : SaveIo := MkSaveIo true (Z.to_nat 4000) true true true true true true true.

Lemma store_roundtrip_witness :
  load_snapshot "fleet.state" (MkLoadIo true true true)
    (save_snapshot "fleet.state" sample_snapshot disk_ok ∅).1 = Ok (strip_accounting sample_snapshot).
Proof.
  apply store_roundtrip; [apply sample_snapshot_wf|apply sample_snapshot_fits|].
  vm_compute. reflexivity.
Defined.

Lemma load_accepts_only_store_images_witness :
  exists body, store_bytes sample_snapshot = checksummed (store_signed_part body) /\
    decode_snapshot body = Ok (strip_accounting sample_snapshot).
Proof.
  apply load_accepts_only_store_images, parse_store_saved;
    [apply sample_snapshot_wf|apply sample_snapshot_fits].
Defined.

Lemma corrupted_store_rejected_witness :
  result_ok (parse_store (take 50 (store_bytes sample_snapshot) ++
                          Byte.xff :: drop 51 (store_bytes sample_snapshot))) = false.
Proof.
  apply (corrupted_store_rejected sample_snapshot _
           (default Byte.xff (store_bytes sample_snapshot !! 50%nat)));
    [apply sample_snapshot_fits|vm_compute; reflexivity|vm_compute; discriminate].
Defined.

Lemma truncated_store_rejected_witness :
  result_ok (parse_store (take 100 (store_bytes sample_snapshot))) = false.
Proof.
  apply (proj1 (truncated_store_rejected sample_snapshot (take 100 (store_bytes sample_snapshot))
           (drop 100 (store_bytes sample_snapshot)) sample_snapshot_fits
           ltac:(vm_compute; discriminate))).
  by rewrite take_drop.
Defined.
