(* ===== verification/Typed.v ===== *)
(** * What the decoders accept

    The converse of the round trips: whatever bytes a decoder is given, a value it
    returns is well formed - every integer within its C++ type, every enumeration
    the value of a byte, every text and count within the bound the decoder checks.
    [yields P p] states it of a reader; it composes along [bind], so each decoder's
    proof is its fields in order. *)

From S2P Require Import Prelude Core Codec Message Identity Health Eligibility Device Observation.
From S2P Require Import Change Pipeline Registration FleetState WireFormats ObservationCodec.
From S2P Require Import AdminPayload SnapshotCodec Store.

Definition yields {E A} (P : A -> Prop) (p : Parser E A) : Prop :=
  forall r v r', p r = POk v r' -> P v.

Create HintDb typed.

(* ------------------------------------------------------------------ *)
(** ** Lemmas: composition *)

Lemma yields_ret {E A} (P : A -> Prop) (v : A) : P v -> yields P (mret v : Parser E A).
Proof. intros HP r v' r' [= <- _]. exact HP. Qed.

Lemma yields_bind {E A B} (P : A -> Prop) (Q : B -> Prop) (p : Parser E A) (k : A -> Parser E B) :
  yields P p -> (forall v, P v -> yields Q (k v)) -> yields Q (p ≫= k).
Proof.
  intros Hp Hk r v r'. unfold mbind, parser_bind. destruct (p r) as [a r1|] eqn:Ep; [|done].
  apply (Hk a), (Hp _ _ _ Ep).
Qed.

Lemma yields_or_fail {E E' A} (P : A -> Prop) (p : Parser E A) (e : E') :
  yields P p -> yields P (p ?? e).
Proof.
  intros Hp r v r'. unfold or_fail. destruct (p r) as [a r1|] eqn:Ep; [|done].
  intros [= <- _]. apply (Hp _ _ _ Ep).
Qed.

Lemma yields_ensure {E} (b : bool) (e : E) : yields (fun _ => b = true) (ensure b e).
Proof. intros r v r'. unfold ensure. by destruct b. Qed.

Lemma yields_weaken {E A} (P Q : A -> Prop) (p : Parser E A) :
  yields P p -> (forall v, P v -> Q v) -> yields Q p.
Proof. intros Hp HPQ r v r' Er. apply HPQ, (Hp _ _ _ Er). Qed.

(** The items of a counted list. *)
Lemma yields_times {E A} (P : A -> Prop) n (p : Parser E A) :
  yields P p -> yields (fun xs => Forall P xs /\ length xs = n) (rd_times n p).
Proof.
  intros Hp. induction n as [|n IH]; cbn [rd_times]; [by apply yields_ret|].
  eapply yields_bind; [exact Hp|]. intros x Hx. eapply yields_bind; [exact IH|].
  intros xs [Hxs Hn]. apply yields_ret. cbn. split; [by constructor|by f_equal].
Qed.

(** A loop that keeps an invariant which may count its iterations. *)
Lemma yields_fold {E S} (I : nat -> S -> Prop) n step (s : S) k :
  I k s -> (forall j s, I j s -> yields (I (Datatypes.S j)) (step s : Parser E S)) ->
  yields (I (k + n)%nat) (rd_fold n step s).
Proof.
  intros H0 Hs. revert k s H0. induction n as [|n IH]; intros k s H0; cbn [rd_fold].
  - apply yields_ret. by rewrite Nat.add_0_r.
  - eapply yields_bind; [by apply Hs|]. intros s' Hs'. rewrite <- plus_n_Sm. by apply (IH (Datatypes.S k)).
Qed.

Lemma run_decoder_yields {A} (P : A -> Prop) (p : Parser Error A) g data v :
  yields P p -> run_decoder p g data = Ok v -> P v.
Proof.
  intros Hp. unfold run_decoder. destruct (p (reader data)) as [a r|] eqn:Ep; [|done].
  case_branch; [done|]. intros [= <-]. apply (Hp _ _ _ Ep).
Qed.

(** A count the decoder has bounded. *)
Lemma bounded_count n m : is_u32 n -> negb (n >? m) = true -> Z.of_nat (Z.to_nat n) <= m.
Proof. unfold is_u. intros Hn H. apply negb_true_iff in H. zbool. lia. Qed.

(* ------------------------------------------------------------------ *)
(** ** Lemmas: the reads *)

(** The bytes a fixed read consumes are the encoding of what it returns. *)
Lemma fixed_yields (rd : Parser unit Z) (put : Z -> list byte) (ok : Z -> Prop) n f :
  rd = rd_fixed n f -> Wire rd put ok ->
  (forall l, length l = n -> exists v, ok v /\ l = put v) -> yields ok rd.
Proof.
  intros Hrd Hw Hsurj r v r' Er. pose proof Er as Er'. rewrite Hrd in Er'. unfold rd_fixed in Er'.
  destruct (Z.of_nat (rd_pos r + n) >? rd_size r) eqn:Hs; [done|]. zbool. unfold rd_size in Hs.
  destruct (Hsurj (take n (drop (rd_pos r) (rd_data r)))) as (u & Hu & El).
  { rewrite length_take, length_drop. lia. }
  destruct (proj1 (wire_parses u Hu) r (drop n (drop (rd_pos r) (rd_data r)))) as (r1 & Er1 & _).
  { rewrite <- El, take_drop. split; [lia|done]. }
  rewrite Er in Er1. by injection Er1 as -> _.
Qed.

Section Reads.
#[local] Transparent rd_u8 rd_u16 rd_u32 rd_u64 rd_i64 rd_f64 rd_bool rd_bytes rd_string rd_raw.

Lemma yields_u8 : yields is_u8 rd_u8.
Proof. eapply (fixed_yields _ be8); [reflexivity|apply _|apply be8_surj]. Qed.
Lemma yields_u16 : yields is_u16 rd_u16.
Proof. eapply (fixed_yields _ be16); [reflexivity|apply _|apply be16_surj]. Qed.
Lemma yields_u32 : yields is_u32 rd_u32.
Proof. eapply (fixed_yields _ be32); [reflexivity|apply _|apply be32_surj]. Qed.
Lemma yields_u64 : yields is_u64 rd_u64.
Proof. eapply (fixed_yields _ be64); [reflexivity|apply _|apply be64_surj]. Qed.
Lemma yields_f64 : yields is_u64 rd_f64.
Proof. exact yields_u64. Qed.

Lemma yields_i64 : yields is_i64 rd_i64.
Proof.
  eapply yields_bind; [apply yields_u64|]. intros u Hu. apply yields_ret. by apply to_signed_range.
Qed.

Lemma yields_bool : yields (fun _ => True) rd_bool.
Proof. by intros r v r' _. Qed.

Lemma yields_span len e : 0 <= len -> yields (fun b => Z.of_nat (length b) <= len) (rd_span len e).
Proof.
  intros Hlen r v r'. unfold rd_span. case_branch; [done|]. intros [= <- _].
  rewrite length_take. lia.
Qed.

Lemma yields_bytes n : yields (fun b => Z.of_nat (length b) <= n) (rd_bytes n).
Proof.
  eapply yields_bind; [apply yields_or_fail, yields_u32|]. intros len Hlen.
  eapply yields_bind; [apply yields_ensure|]. intros u Hb. apply negb_true_iff in Hb.
  eapply yields_weaken; [apply yields_span; apply Hlen|]. intros b Hle. cbn beta in *. zbool. lia.
Qed.

Lemma yields_string n : yields (str_fits n) (rd_string n).
Proof.
  eapply yields_bind; [apply yields_or_fail, yields_bytes|]. intros b Hb. apply yields_ret.
  unfold str_fits, str_len. by rewrite String.list_byte_of_string_of_list_byte.
Qed.

End Reads.

#[export] Hint Resolve yields_u8 yields_u16 yields_u32 yields_u64 yields_f64 yields_i64 yields_bool
  yields_bytes yields_string : typed.

Lemma yields_optional {E A} (P : A -> Prop) (p : Parser unit A) (e1 e2 : E) :
  yields P p -> yields (fun o => forall x, o = Some x -> P x) (rd_optional p e1 e2).
Proof.
  intros Hp. eapply yields_bind; [apply yields_or_fail, yields_u8|]. intros flag _.
  case_branch; [by apply yields_ret|]. eapply yields_bind; [by apply yields_or_fail|].
  intros v Hv. apply yields_ret. by intros x [= <-].
Qed.

Lemma yields_optional_f64 {E} (e1 e2 : E) : yields opt_f64_wf (rd_optional rd_f64 e1 e2).
Proof. apply yields_optional, yields_f64. Qed.

#[export] Hint Resolve yields_optional_f64 : typed.
#[export] Hint Extern 2 (yields _ (_ ?? _)) => apply yields_or_fail : typed.

(** One field of a decoder. *)
Ltac yields_field :=
  lazymatch goal with
  | |- yields _ (mbind _ (ensure _ _)) =>
      eapply yields_bind; [apply yields_ensure|]; intros ? ?; cbn beta in *
  | |- yields _ (mbind _ (rd_times _ _)) =>
      eapply yields_bind; [apply yields_times; solve [eauto with typed]|]; intros ? [? ?]
  | |- yields _ (mbind _ _) => eapply yields_bind; [solve [eauto with typed]|]; intros ? ?
  | |- yields _ (mret _) => apply yields_ret
  end.

(** An enumeration read from a byte. *)
Ltac enum_read := match goal with H : is_u8 ?v |- enum_wf _ => exact (of_u8_wf v H) end.

(** Its fields in order, then what is owed of the record. *)
Ltac yields_record :=
  repeat yields_field; split; cbn;
  first [assumption | enum_read | by apply Forall_true
        | match goal with H : length _ = _ |- _ => rewrite H; by apply bounded_count end
        | idtac].

(* ------------------------------------------------------------------ *)
(** ** Lemmas: the layouts *)

Lemma yields_capability {E} (err : string -> E) : yields capability_wf (capability_layout err).
Proof. unfold capability_layout. yields_record. Qed.

Lemma yields_identity {E} (err : string -> E) : yields identity_wf (identity_layout err).
Proof.
  unfold identity_layout.
  repeat yields_field. split; cbn; try assumption; [enum_read| |].
  - unfold to_i32. apply to_signed_range; [lia|]. by apply wrap_range.
  - intros p Hp. match goal with H : opt_f64_wf ?o |- _ => destruct o as [q|]; [|done] end.
    injection Hp as <-. eauto.
Qed.

#[export] Hint Resolve yields_capability yields_identity : typed.

(* ------------------------------------------------------------------ *)
(** ** Lemmas: the decoders *)

Lemma decode_message_wf data m : decode_message data = Ok m -> message_wf m.
Proof.
  apply run_decoder_yields. unfold message_body. repeat yields_field.
  split; cbn -[to_u8 of_u8]; try assumption. split; [|enum_read]. by rewrite to_of_u8.
Qed.

Lemma decode_registration_wf data r : decode_registration data = Ok r -> registration_wf r.
Proof. apply run_decoder_yields. unfold registration_body. yields_record. Qed.

Lemma decode_device_observation_wf data o :
  decode_device_observation data = Ok o -> observation_wf o.
Proof. apply run_decoder_yields. unfold observation_body, read_optional_f64. yields_record. Qed.

Lemma yields_observation_blob : yields observation_wf read_observation_blob.
Proof.
  unfold read_observation_blob. repeat yields_field.
  eapply yields_bind; [by apply (yields_or_fail (fun _ => True))|]. intros blob _.
  unfold rd_result. destruct (decode_device_observation blob) as [o|] eqn:E; [|by intros ? ? ?].
  apply yields_ret. by eapply decode_device_observation_wf.
Qed.

Lemma decode_observation_batch_wf data obs :
  decode_observation_batch data = Ok obs -> Forall observation_wf obs /\ Z.of_nat (length obs) <= 4096.
Proof.
  apply (run_decoder_yields (fun obs => Forall observation_wf obs /\ Z.of_nat (length obs) <= 4096)).
  unfold observation_batch_body. do 2 yields_field.
  eapply yields_weaken; [apply yields_times, yields_observation_blob|]. intros obs' [Ho Hn].
  split; [done|]. rewrite Hn. by apply bounded_count.
Qed.

Definition drain_target_wf (t : DrainTarget) : Prop :=
  str_fits 1024 (dt_identity t) /\ enum_wf (dt_level t) /\ to_u8 (dt_level t) <= 2.

Lemma decode_drain_target_wf data t : decode_drain_target data = Ok t -> drain_target_wf t.
Proof.
  apply run_decoder_yields. unfold drain_target_body. repeat yields_field.
  unfold drain_target_wf. cbn [dt_identity dt_level]. split_and!; [done|enum_read|]. rewrite to_of_u8.
  match goal with H : negb _ = true |- _ => apply negb_true_iff in H end. cbn in *. zbool. lia.
Qed.

Definition quarantine_target_wf (q : QuarantineTarget) : Prop :=
  str_fits 1024 (qt_identity q) /\ str_fits 512 (qt_reason q) /\ str_fits 128 (qt_source q) /\
  gen_wf (qt_generation q).

Lemma decode_quarantine_wf data q : decode_quarantine data = Ok q -> quarantine_target_wf q.
Proof. apply run_decoder_yields. unfold quarantine_body. repeat yields_field. by split_and!. Qed.

Lemma yields_device_state : yields device_state_wf read_device_state.
Proof.
  unfold read_device_state, read_identity. repeat yields_field.
  eapply yields_bind; [apply (yields_times enum_wf)|intros reasons [Hr Hn]].
  { eapply yields_bind; [auto with typed|]. intros b Hb. apply yields_ret. by apply of_u8_wf. }
  repeat yields_field. split; cbn;
    first [assumption | enum_read
          | match goal with H : length _ = _ |- _ => rewrite H; by apply bounded_count end | by split].
Qed.

Lemma yields_read_node : yields (fun kn => n_node kn.2 = kn.1 /\ node_record_wf kn.2) read_node.
Proof. unfold read_node. repeat yields_field. split; [done|]. by split. Qed.

Lemma yields_read_worker : yields worker_record_wf read_worker.
Proof. unfold read_worker. yields_record. Qed.

Lemma yields_read_change : yields change_wf read_change.
Proof. unfold read_change. yields_record. Qed.

(** The size of a map of which every entry has a key of its own. *)
Lemma insert_entries {K A} `{Countable K, KeyOrder K} (m : gmap K A) k x j :
  Z.of_nat (length (map_entries m)) <= Z.of_nat j ->
  Z.of_nat (length (map_entries (<[k := x]> m))) <= Z.of_nat (S j).
Proof.
  unfold map_entries. rewrite !merge_sort_Permutation, !length_map_to_list.
  destruct (m !! k) as [y|] eqn:E.
  - rewrite map_size_insert_Some by eauto. lia.
  - rewrite map_size_insert_None by done. lia.
Qed.

(** A map read entry by entry. *)
Definition entries_ok {K A} `{Countable K, KeyOrder K} (P : K -> A -> Prop) (j : nat) (m : gmap K A)
  : Prop :=
  (forall k x, m !! k = Some x -> P k x) /\ Z.of_nat (length (map_entries m)) <= Z.of_nat j.

Lemma entries_empty {K A} `{Countable K, KeyOrder K} (P : K -> A -> Prop) :
  entries_ok P 0 (∅ : gmap K A).
Proof. split; [intros k x; by rewrite lookup_empty|]. unfold map_entries. by rewrite map_to_list_empty. Qed.

Lemma entries_insert {K A} `{Countable K, KeyOrder K} (P : K -> A -> Prop) j m k x :
  entries_ok P j m -> P k x -> entries_ok P (S j) (<[k := x]> m).
Proof.
  intros [Hm Hn] HP. split; [|by apply insert_entries].
  intros k' x'. destruct (decide (k = k')) as [<-|Hne].
  - rewrite lookup_insert_eq. by intros [= <-].
  - rewrite lookup_insert_ne by done. apply Hm.
Qed.

Lemma entries_more {K A} `{Countable K, KeyOrder K} (P : K -> A -> Prop) j (m : gmap K A) :
  entries_ok P j m -> entries_ok P (S j) m.
Proof. intros [Hm Hn]. split; [done|lia]. Qed.

#[export] Hint Resolve yields_read_node yields_read_worker yields_read_change yields_device_state : typed.

Lemma yields_nodes n :
  yields (entries_ok (fun k r => n_node r = k /\ node_record_wf r) n) (rd_fold n read_node_step ∅).
Proof.
  apply (yields_fold _ n _ _ 0); [apply entries_empty|]. intros j m Hm. unfold read_node_step.
  repeat yields_field. unfold emplace.
  destruct (m !! v.1); [by apply entries_more|by apply entries_insert].
Qed.

Lemma yields_workers n :
  yields (entries_ok (fun k wr => w_worker wr = k /\ worker_record_wf wr) n) (rd_fold n read_worker_step ∅).
Proof.
  apply (yields_fold _ n _ _ 0); [apply entries_empty|]. intros j m Hm. unfold read_worker_step.
  repeat yields_field. by apply entries_insert.
Qed.

Lemma yields_devices n :
  yields (entries_ok (fun k d => str_fits 256 k /\ device_state_wf d) n) (rd_fold n read_device_step ∅).
Proof.
  apply (yields_fold _ n _ _ 0); [apply entries_empty|]. intros j m Hm. unfold read_device_step.
  repeat yields_field. by apply entries_insert.
Qed.

#[export] Hint Resolve yields_nodes yields_workers yields_devices : typed.

Lemma decode_snapshot_wf data s : decode_snapshot data = Ok s -> snapshot_codec_wf s.
Proof.
  apply run_decoder_yields. unfold snapshot_body. repeat yields_field.
  repeat match goal with H : entries_ok _ _ _ |- _ => destruct H end.
  repeat match goal with H : is_u32 ?n, H' : negb (?n >? _) = true |- _ =>
    pose proof (bounded_count _ _ H H'); clear H' end.
  split; cbn; try assumption; lia.
Qed.

(** A state file that loads. *)
Lemma load_snapshot_wf path io fs s : load_snapshot path io fs = Ok s -> snapshot_codec_wf s.
Proof.
  unfold load_snapshot, parse_store. intros H. repeat case_branch_in H; try discriminate H.
  by eapply decode_snapshot_wf.
Qed.

(* ------------------------------------------------------------------ *)
(** ** Properties *)

(** C23. Decoding is typed: whatever bytes arrive, on a connection or in a state file,
    what a decoder accepts has every integer in the range of its C++ type, every
    enumeration the value of a byte, every text and every count within the
    decoder's bound. *)
Theorem decoders_typed data :
  (forall m, decode_message data = Ok m -> message_wf m) /\
  (forall r, decode_registration data = Ok r -> registration_wf r) /\
  (forall obs, decode_observation_batch data = Ok obs ->
     Forall observation_wf obs /\ Z.of_nat (length obs) <= 4096) /\
  (forall t, decode_drain_target data = Ok t -> drain_target_wf t) /\
  (forall q, decode_quarantine data = Ok q -> quarantine_target_wf q) /\
  (forall s, decode_snapshot data = Ok s -> snapshot_codec_wf s).
Proof.
  split_and!; intros x Hx;
    [by eapply decode_message_wf|by eapply decode_registration_wf|by eapply decode_observation_batch_wf
    |by eapply decode_drain_target_wf|by eapply decode_quarantine_wf|by eapply decode_snapshot_wf].
Qed.

Lemma decoders_typed_witness :
  decode_message (encode_message sample_message) = Ok sample_message /\ message_wf sample_message /\
  result_ok (decode_registration (encode_message sample_message)) = false.
Proof.
  destruct (decoders_typed (encode_message sample_message)) as [H _].
  split_and!; [vm_compute; reflexivity|apply H; vm_compute; reflexivity|vm_compute; reflexivity].
Defined.
