(* ===== verification/Coordinator.v ===== *)
(** * The coordinator ([coordinator/coordinator.hpp],
      [src/coordinator/coordinator.cpp])

    Message dispatch, the life of a connection, the liveness scan and
    persistence, over the fleet state store. The socket is the list of what its
    receive calls return; the clock and the outcome of file operations come from
    the environment, one reading per dispatched message. A dispatch is modelled
    as one atomic step. *)

From stdpp Require Import relations.
From S2P Require Import Prelude Core Codec Crc Message Framing Identity Health Eligibility.
From S2P Require Import Device Observation Change Pipeline Registration ObservationCodec.
From S2P Require Import AdminPayload FleetState FleetSteps FleetInv FleetSafety FleetIngest.
From S2P Require Import SnapshotCodec Store.

(** The part of [Coordinator::Options] that does not concern the socket. *)
Record Options := MkOptions {
  op_state_file : string;
  op_coordinator_id : CoordinatorId;
  op_initial_epoch : CoordinatorEpoch;
  op_heartbeat_timeout_ms : DurationMs
}.

Definition options_default : Options := MkOptions "" (MkId 1) (MkGen 1) 5000.

(** The clock's value and the outcome of file operations at each dispatch. *)
Definition Env := nat -> Timestamp * SaveIo.

Record Coordinator := MkCoordinator {
  co_opts : Options;
  co_store : FleetState;
  co_fs : FileSystem;
  co_tick : nat
}.

Definition set_store (st : FleetState) (c : Coordinator) : Coordinator :=
  MkCoordinator (co_opts c) st (co_fs c) (co_tick c).
Definition set_fs (fs : FileSystem) (c : Coordinator) : Coordinator :=
  MkCoordinator (co_opts c) (co_store c) fs (co_tick c).
Definition tick (c : Coordinator) : Coordinator :=
  MkCoordinator (co_opts c) (co_store c) (co_fs c) (S (co_tick c)).

(** The constructor. *)
Definition coordinator_init (opts : Options) (fs : FileSystem) : Coordinator :=
  MkCoordinator opts (fleet_init (op_coordinator_id opts) (op_initial_epoch opts)) fs 0.

(* ------------------------------------------------------------------ *)
(** ** Persistence *)

(** A file that cannot be opened counts as one that does not exist. *)
Definition load_state (io : LoadIo) (c : Coordinator) : Coordinator * Result unit :=
  if bool_decide (op_state_file (co_opts c) = "") then (c, Ok tt)
  else
    match co_fs c !! op_state_file (co_opts c) with
    | None => (c, Ok tt)
    | Some _ =>
        if negb (lio_open io) then (c, Ok tt)
        else
        match load_snapshot (op_state_file (co_opts c)) io (co_fs c) with
        | Err e => (c, error_result Corrupt ("cannot recover state: " +:+ err_message e))
        | Ok snap => let r := restore snap (co_store c) in (set_store r.1 c, r.2)
        end
    end.

Definition save_state (io : SaveIo) (c : Coordinator) : Coordinator * Result unit :=
  if bool_decide (op_state_file (co_opts c) = "") then
    (c, error_result Unsupported "no state_file configured")
  else
    let r := save_snapshot (op_state_file (co_opts c)) (snapshot (co_store c)) io (co_fs c) in
    (set_fs r.1 c, r.2).

(** [start], once the listener is bound. *)
Definition start (opts : Options) (io : LoadIo) (fs : FileSystem) : Coordinator * Result unit :=
  load_state io (coordinator_init opts fs).

(* ------------------------------------------------------------------ *)
(** ** Replies *)

(** [respond_ack]. *)
Definition respond_ack (req : Message) (ok : bool) (reason : string) (epoch : CoordinatorEpoch)
  : Message :=
  MkMessage (if ok then MessageType.ACK else MessageType.ERROR) (MkId 0) epoch (m_worker_boot req)
    (m_worker req) (MkId 0) (MkId 0) (MkGen 0) (MkGen 0) (MkGen 0) (MkGen 0) (MkGen 0)
    (m_request_id req) ok reason [].

(** The ACK of a HELLO. *)
Definition hello_ack (coordinator : CoordinatorId) (epoch : CoordinatorEpoch) (req : Message)
  : Message :=
  MkMessage MessageType.ACK coordinator epoch (MkId 0) (MkId 0) (MkId 0) (MkId 0) (MkGen 0)
    (MkGen 0) (MkGen 0) (MkGen 0) (MkGen 0) (m_request_id req) true "" [].

Definition register_ack (reg : Registration) (epoch : CoordinatorEpoch) (req : Message) : Message :=
  MkMessage MessageType.REGISTER_ACK (MkId 0) epoch (r_worker_boot reg) (r_worker reg) (MkId 0)
    (MkId 0) (MkGen 0) (MkGen 0) (MkGen 0) (MkGen 0) (MkGen 0) (m_request_id req) true ""
    (([] : ByteWriter) |> w_u64 (gen_value (r_registration_generation reg))
                       |> w_u64 (gen_value epoch)).

Definition snapshot_response (snap : StateSnapshot) (epoch : CoordinatorEpoch) (req : Message)
  : Message :=
  MkMessage MessageType.SNAPSHOT_RESPONSE (MkId 0) epoch (MkId 0) (MkId 0) (MkId 0) (MkId 0)
    (MkGen 0) (MkGen 0) (MkGen 0) (MkGen 0) (MkGen 0) (m_request_id req) true ""
    (encode_snapshot snap).

(** The ERROR sent before a connection is dropped. *)
Definition drop_error (reason : string) : Message :=
  MkMessage MessageType.ERROR (MkId 0) (MkGen 0) (MkId 0) (MkId 0) (MkId 0) (MkId 0) (MkGen 0)
    (MkGen 0) (MkGen 0) (MkGen 0) (MkGen 0) 0 true reason [].

(* ------------------------------------------------------------------ *)
(** ** Dispatch *)

(** The first worker, in key order, that owns the identity: the owner handed to
    the administrative operations. The scan over the workers stops at the first
    owner whose id is not zero. *)
Fixpoint find_owner (identity : string) (workers : list (WorkerId * WorkerRecord))
  (owner : WorkerId) : WorkerId :=
  match workers with
  | [] => owner
  | (wid, wr) :: rest =>
      let owner := if bool_decide (identity ∈ w_device_identities wr) then wid else owner in
      if negb (id_is_zero owner) then owner else find_owner identity rest owner
  end.

Definition owner_of (identity : string) (st : FleetState) : WorkerId :=
  find_owner identity (map_entries (s_workers (snapshot st))) (MkId 0).

(** [auto r = store_.op(...); if (!r.ok()) respond_ack(..., false, msg) else
    respond_ack(..., true, "")]. *)
Definition ack_result {T} (req : Message) (c : Coordinator) (r : FleetState * Result T)
  : Coordinator * Message :=
  let c' := set_store r.1 c in
  match r.2 with
  | Err e => (c', respond_ack req false (err_message e) (fs_epoch (co_store c')))
  | Ok _ => (c', respond_ack req true "" (fs_epoch (co_store c')))
  end.

Definition dispatch (now : Timestamp) (io : SaveIo) (msg : Message) (c : Coordinator)
  : Coordinator * Message :=
  let st := co_store c in
  let refuse reason := (c, respond_ack msg false reason (fs_epoch st)) in
  match m_type msg with
  | MessageType.HELLO => (c, hello_ack (op_coordinator_id (co_opts c)) (fs_epoch st) msg)
  | MessageType.REGISTER =>
      match decode_registration (m_payload msg) with
      | Err e => refuse ("malformed registration: " +:+ err_message e)
      | Ok reg =>
          match register_worker reg now st with
          | (st', Err e) =>
              (set_store st' c, respond_ack msg false
                 ("registration rejected: " +:+ err_message e) (fs_epoch st'))
          | (st', Ok _) => (set_store st' c, register_ack reg (fs_epoch st') msg)
          end
      end
  | MessageType.HEARTBEAT =>
      if negb (id_is_zero (m_worker_boot msg)) || negb (id_is_zero (m_worker msg)) then
        ack_result msg c
          (heartbeat (m_worker msg) (m_worker_boot msg) (m_epoch msg) now (m_health_gen msg) st)
      else (c, respond_ack msg true "" (fs_epoch st))
  | MessageType.DEVICE_SNAPSHOT | MessageType.HEALTH_REPORT | MessageType.CAPABILITY_REPORT =>
      match decode_observation_batch (m_payload msg) with
      | Err _ => refuse "malformed observation batch"
      | Ok obs => ack_result msg c (ingest_snapshot (m_worker msg) obs policy_default now st)
      end
  | MessageType.SNAPSHOT_REQUEST => (c, snapshot_response (snapshot st) (fs_epoch st) msg)
  | MessageType.DRAIN | MessageType.UNDRAIN =>
      match decode_drain_target (m_payload msg) with
      | Err _ => refuse "malformed drain target"
      | Ok t =>
          ack_result msg c
            (set_drain (owner_of (dt_identity t) st) (dt_identity t) (dt_level t) now st)
      end
  | MessageType.QUARANTINE =>
      match decode_quarantine (m_payload msg) with
      | Err _ => refuse "malformed quarantine"
      | Ok q =>
          ack_result msg c
            (set_quarantine (owner_of (qt_identity q) st) (qt_identity q)
               (MkQuarantine (qt_reason q) (qt_source q) (qt_generation q) now (MkId 0)
                  (fs_epoch st)) now st)
      end
  | MessageType.CLEAR_QUARANTINE =>
      match decode_identity_target (m_payload msg) with
      | Err _ => refuse "malformed clear target"
      | Ok target => ack_result msg c (clear_quarantine (MkId 0) target (fs_epoch st) now st)
      end
  | MessageType.EPOCH_ROLL => ack_result msg c (roll_epoch (m_epoch msg) st)
  | MessageType.SAVE =>
      match save_state io c with
      | (c', Err e) => (c', respond_ack msg false (err_message e) (fs_epoch (co_store c')))
      | (c', Ok _) => (c', respond_ack msg true "" (fs_epoch (co_store c')))
      end
  | MessageType.ACK | MessageType.ERROR | MessageType.REGISTER_ACK
  | MessageType.SNAPSHOT_RESPONSE | MessageType.Raw _ => refuse "unexpected message type"
  end.

(* ------------------------------------------------------------------ *)
(** ** Connections *)

(** What [recv_some_opt] returns: an error, nothing yet, or a chunk; an empty
    chunk is a clean close. *)
Inductive Recv := RecvError | RecvNone | RecvData (data : list byte).

(** The locals of [handle_connection]: the decoder's buffer and the worker the
    connection is bound to. *)
Record Conn := MkConn { cn_buf : list byte; cn_worker : option WorkerId }.

Definition conn_init : Conn := MkConn [] None.

Inductive ConnEnd := Open | Dropped.

(** One turn of the loop over the frames in the buffer: the message sent, and
    whether the connection goes on; [None] when more bytes are needed. *)
Definition serve_one (now : Timestamp) (io : SaveIo) (c : Coordinator) (cn : Conn)
  : option (Coordinator * Conn * Message * ConnEnd) :=
  match scan (cn_buf cn) with
  | (NeedMore, _) => None
  | (FeedError perr, buf) => Some (c, MkConn buf (cn_worker cn), drop_error perr, Dropped)
  | (FrameReady pending, buf) =>
      match decode_message (f_payload pending) with
      | Err e => Some (c, MkConn buf (cn_worker cn), drop_error (err_message e), Dropped)
      | Ok msg =>
          let '(c', reply) := dispatch now io msg (tick c) in
          let bound :=
            if bool_decide (m_type msg = MessageType.REGISTER) then Some (m_worker msg)
            else cn_worker cn in
          Some (c', MkConn buf bound, reply, Open)
      end
  end.

(** The loop. A frame consumes bytes, so the buffer's length is enough fuel
    ([serve_fuel]). *)
Fixpoint serve (fuel : nat) (env : Env) (c : Coordinator) (cn : Conn)
  : Coordinator * Conn * list Message * ConnEnd :=
  match fuel with
  | O => (c, cn, [], Open)
  | S n =>
      match serve_one (env (co_tick c)).1 (env (co_tick c)).2 c cn with
      | None => (c, cn, [], Open)
      | Some (c1, cn1, reply, Dropped) => (c1, cn1, [reply], Dropped)
      | Some (c1, cn1, reply, Open) =>
          let '(c2, cn2, out, e) := serve n env c1 cn1 in (c2, cn2, reply :: out, e)
      end
  end.

Definition serve_chunk (env : Env) (data : list byte) (c : Coordinator) (cn : Conn)
  : Coordinator * Conn * list Message * ConnEnd :=
  let buf := cn_buf cn ++ data in
  serve (S (length buf)) env c (MkConn buf (cn_worker cn)).

(** [if (worker_bound && running_) store_.mark_worker_lost(connected_worker, now)]:
    [running] is what this test of [running_] finds. *)
Definition close_connection (running : bool) (now : Timestamp) (c : Coordinator) (cn : Conn)
  : Coordinator :=
  match cn_worker cn with
  | Some w => if running then set_store (mark_worker_lost w now (co_store c)).1 (tick c) else c
  | None => c
  end.

(** The whole connection: the messages sent, in order. The list of receives ends when
    the test of [while (running_)] fails, after which the last test fails too: the
    flag is never set again. *)
Fixpoint handle_connection (running : bool) (env : Env) (events : list Recv) (c : Coordinator)
    (cn : Conn) : Coordinator * list Message :=
  match events with
  | [] => (c, [])
  | RecvError :: _ => (close_connection running (env (co_tick c)).1 c cn, [])
  | RecvNone :: events' => handle_connection running env events' c cn
  | RecvData [] :: _ => (close_connection running (env (co_tick c)).1 c cn, [])
  | RecvData data :: events' =>
      match serve_chunk env data c cn with
      | (c1, _, out, Dropped) => (c1, out)
      | (c1, cn1, out, Open) =>
          let '(c2, out') := handle_connection running env events' c1 cn1 in (c2, out ++ out')
      end
  end.

(* ------------------------------------------------------------------ *)
(** ** Liveness *)

(** The workers one pass of [liveness_loop] finds overdue, in the snapshot it
    took. *)
Definition overdue (now timeout : Z) (wr : WorkerRecord) : bool :=
  w_alive wr && negb (w_lost wr) && negb (w_fenced wr) &&
  negb (w_last_heartbeat wr =? kInvalidTimestamp) &&
  (i64_sub now (w_last_heartbeat wr) >? timeout).

Definition overdue_workers (now timeout : Z) (snap : StateSnapshot) : list WorkerId :=
  map fst (List.filter (fun kw => overdue now timeout kw.2) (map_entries (s_workers snap))).

(** The marking that follows, on the state as it is by then. *)
Definition mark_overdue (now : Timestamp) (ws : list WorkerId) (st : FleetState) : FleetState :=
  foldl (fun st w => (mark_worker_lost w now st).1) st ws.

Definition liveness_pass (now : Timestamp) (c : Coordinator) : Coordinator :=
  set_store (mark_overdue now
    (overdue_workers now (op_heartbeat_timeout_ms (co_opts c)) (snapshot (co_store c)))
    (co_store c)) c.

(* ------------------------------------------------------------------ *)
(** ** The running coordinator

    The threads of the process share the store and nothing else. The atomic
    steps are those that take the store's lock: one dispatched frame of one
    connection, the close of a connection, the liveness thread's snapshot, and
    each of its markings. The threads' lives are in [Lifecycle]. *)

Record Server := MkServer {
  sv_co : Coordinator;
  sv_conns : gmap nat Conn;        (** the open connections *)
  sv_overdue : list WorkerId       (** what the liveness thread has yet to mark *)
}.

Inductive server_step : Server -> Server -> Prop :=
  | SV_accept c conns ws i :
      conns !! i = None -> server_step (MkServer c conns ws) (MkServer c (<[i := conn_init]> conns) ws)
  | SV_recv c conns ws i cn data :
      conns !! i = Some cn ->
      server_step (MkServer c conns ws)
        (MkServer c (<[i := MkConn (cn_buf cn ++ data) (cn_worker cn)]> conns) ws)
  | SV_frame c conns ws i cn now io c' cn' reply :
      conns !! i = Some cn -> serve_one now io c cn = Some (c', cn', reply, Open) ->
      server_step (MkServer c conns ws) (MkServer c' (<[i := cn']> conns) ws)
  | SV_drop c conns ws i cn now io c' cn' reply :
      conns !! i = Some cn -> serve_one now io c cn = Some (c', cn', reply, Dropped) ->
      server_step (MkServer c conns ws) (MkServer c' (delete i conns) ws)
  | SV_close c conns ws i cn now :
      conns !! i = Some cn ->
      server_step (MkServer c conns ws) (MkServer (close_connection true now c cn) (delete i conns) ws)
  (** a connection that ends while the coordinator stops: the test of the loop, or the
      one after it, finds [running_] false *)
  | SV_leave c conns ws i cn :
      conns !! i = Some cn -> server_step (MkServer c conns ws) (MkServer c (delete i conns) ws)
  | SV_scan c conns now :
      server_step (MkServer c conns [])
        (MkServer c conns (overdue_workers now (op_heartbeat_timeout_ms (co_opts c))
                             (snapshot (co_store c))))
  | SV_mark c conns w ws now :
      server_step (MkServer c conns (w :: ws))
        (MkServer (set_store (mark_worker_lost w now (co_store c)).1 c) conns ws).

Definition server_init (c : Coordinator) : Server := MkServer c ∅ [].
