(* ===== verification/CoordinatorSafety.v ===== *)
(** * Correctness of the coordinator

    Every message a client can send, in whatever bytes and interleaving, acts on
    the store only through the store's operations; so the properties of store
    histories hold of the running coordinator. Then the reply protocol, the
    independence from chunk boundaries, and recovery after a restart. *)

From stdpp Require Import relations.
From S2P Require Import Prelude Core Codec Crc Message Framing Identity Health Eligibility.
From S2P Require Import Device Observation Change Pipeline Registration ObservationCodec.
From S2P Require Import AdminPayload FleetState FleetSteps FleetInv FleetSafety FleetIngest.
From S2P Require Import SnapshotCodec Store Coordinator.

(* ------------------------------------------------------------------ *)
(** ** Lemmas: a dispatch is at most one operation of the store *)

(** The store operation a request stands for. *)
Definition dispatch_op (now : Timestamp) (msg : Message) (st : FleetState) : option Op :=
  match m_type msg with
  | MessageType.REGISTER =>
      match decode_registration (m_payload msg) with
      | Ok reg => Some (OpRegister reg now)
      | Err _ => None
      end
  | MessageType.HEARTBEAT =>
      if id_is_zero (m_worker_boot msg) && id_is_zero (m_worker msg) then None
      else Some (OpHeartbeat (m_worker msg) (m_worker_boot msg) (m_epoch msg) now (m_health_gen msg))
  | MessageType.DEVICE_SNAPSHOT | MessageType.HEALTH_REPORT | MessageType.CAPABILITY_REPORT =>
      match decode_observation_batch (m_payload msg) with
      | Ok obs => Some (OpIngest (m_worker msg) obs policy_default now)
      | Err _ => None
      end
  | MessageType.DRAIN | MessageType.UNDRAIN =>
      match decode_drain_target (m_payload msg) with
      | Ok t => Some (OpDrain (owner_of (dt_identity t) st) (dt_identity t) (dt_level t) now)
      | Err _ => None
      end
  | MessageType.QUARANTINE =>
      match decode_quarantine (m_payload msg) with
      | Ok q => Some (OpQuarantine (owner_of (qt_identity q) st) (qt_identity q)
                        (MkQuarantine (qt_reason q) (qt_source q) (qt_generation q) now (MkId 0)
                           (fs_epoch st)) now)
      | Err _ => None
      end
  | MessageType.CLEAR_QUARANTINE =>
      match decode_identity_target (m_payload msg) with
      | Ok target => Some (OpClear (MkId 0) target (fs_epoch st) now)
      | Err _ => None
      end
  | MessageType.EPOCH_ROLL => Some (OpRoll (m_epoch msg))
  | _ => None
  end.

Definition run_opt (op : option Op) (st : FleetState) : FleetState :=
  match op with Some op => run_op op st | None => st end.

Lemma ack_result_store {T} req c (r : FleetState * Result T) :
  co_store (ack_result req c r).1 = r.1.
Proof. unfold ack_result. by destruct r.2. Qed.

Lemma save_state_store io c : co_store (save_state io c).1 = co_store c.
Proof. unfold save_state. by case_branch. Qed.

Lemma dispatch_store now io msg c :
  co_store (dispatch now io msg c).1 = run_opt (dispatch_op now msg (co_store c)) (co_store c).
Proof.
  unfold dispatch, dispatch_op, run_opt. destruct (m_type msg); try reflexivity.
  - destruct (decode_registration _) as [reg|]; [|done]. cbn [run_op].
    by destruct (register_worker _ _ _) as [st' [|]].
  - destruct (id_is_zero (m_worker_boot msg)), (id_is_zero (m_worker msg)); cbn [negb andb orb];
      try reflexivity; apply ack_result_store.
  - destruct (decode_observation_batch _); [apply ack_result_store|done].
  - destruct (decode_observation_batch _); [apply ack_result_store|done].
  - destruct (decode_observation_batch _); [apply ack_result_store|done].
  - destruct (decode_drain_target _); [apply ack_result_store|done].
  - destruct (decode_drain_target _); [apply ack_result_store|done].
  - destruct (decode_quarantine _); [apply ack_result_store|done].
  - destruct (decode_identity_target _); [apply ack_result_store|done].
  - apply ack_result_store.
  - pose proof (save_state_store io c) as H. destruct (save_state io c) as [c' [|]]; exact H.
Qed.

Definition op_list (op : option Op) : list Op := from_option (fun op => [op]) [] op.

Lemma run_opt_ops op st : run_opt op st = run_ops (op_list op) st.
Proof. by destruct op. Qed.

Lemma run_ops_app ops1 ops2 st : run_ops (ops1 ++ ops2) st = run_ops ops2 (run_ops ops1 st).
Proof. apply foldl_app. Qed.

(** One turn of a connection's loop. *)
Lemma serve_one_store now io c cn c' cn' reply e :
  serve_one now io c cn = Some (c', cn', reply, e) ->
  exists ops, co_store c' = run_ops ops (co_store c).
Proof.
  unfold serve_one. destruct (scan (cn_buf cn)) as [[|f|m] buf]; [done| |intros [= <- _ _ _]; by exists []].
  destruct (decode_message _) as [msg|]; [|intros [= <- _ _ _]; by exists []].
  pose proof (dispatch_store now io msg (tick c)) as Hd.
  destruct (dispatch now io msg (tick c)) as [c1 r]. intros [= <- _ _ _].
  rewrite run_opt_ops in Hd. eauto.
Qed.

Lemma server_step_store s s' :
  server_step s s' -> exists ops, co_store (sv_co s') = run_ops ops (co_store (sv_co s)).
Proof.
  destruct 1; cbn [sv_co]; try (by exists []); try (by eapply serve_one_store).
  - unfold close_connection. destruct (cn_worker cn) as [w|]; [|by exists []].
    by exists [OpLost w now].
  - by exists [OpLost w now].
Qed.

Lemma server_history s s' :
  rtc server_step s s' -> exists ops, co_store (sv_co s') = run_ops ops (co_store (sv_co s)).
Proof.
  induction 1 as [s|s1 s2 s3 H12 _ [ops2 E2]]; [by exists []|].
  destruct (server_step_store _ _ H12) as [ops1 E1].
  exists (ops1 ++ ops2). by rewrite run_ops_app, <- E1.
Qed.

(* ------------------------------------------------------------------ *)
(** ** Lemmas: replies *)

(** The opts are fixed, the reply answers the request under the epoch in force
    afterwards, and it is an ERROR exactly when it refuses. *)
Definition answers (msg : Message) (c : Coordinator) (r : Coordinator * Message) : Prop :=
  co_opts r.1 = co_opts c /\ m_request_id r.2 = m_request_id msg /\
  m_epoch r.2 = fs_epoch (co_store r.1) /\ (m_ok r.2 = false <-> m_type r.2 = MessageType.ERROR).

Lemma respond_ack_answers msg c c' ok reason :
  co_opts c' = co_opts c ->
  answers msg c (c', respond_ack msg ok reason (fs_epoch (co_store c'))).
Proof. intros H. by destruct ok. Qed.

Lemma ack_result_answers {T} msg c (r : FleetState * Result T) : answers msg c (ack_result msg c r).
Proof. unfold ack_result. destruct r.2; by apply respond_ack_answers. Qed.

Lemma save_state_opts io c : co_opts (save_state io c).1 = co_opts c.
Proof. unfold save_state. by case_branch. Qed.

Lemma dispatch_answers now io msg c : answers msg c (dispatch now io msg c).
Proof.
  unfold dispatch. destruct (m_type msg); try by apply respond_ack_answers.
  - done.
  - destruct (decode_registration _) as [reg|]; [|by apply respond_ack_answers].
    by destruct (register_worker _ _ _) as [st' [|]].
  - destruct (_ || _); [apply ack_result_answers|by apply respond_ack_answers].
  - destruct (decode_observation_batch _); [apply ack_result_answers|by apply respond_ack_answers].
  - destruct (decode_observation_batch _); [apply ack_result_answers|by apply respond_ack_answers].
  - destruct (decode_observation_batch _); [apply ack_result_answers|by apply respond_ack_answers].
  - destruct (decode_drain_target _); [apply ack_result_answers|by apply respond_ack_answers].
  - destruct (decode_drain_target _); [apply ack_result_answers|by apply respond_ack_answers].
  - destruct (decode_quarantine _); [apply ack_result_answers|by apply respond_ack_answers].
  - destruct (decode_identity_target _); [apply ack_result_answers|by apply respond_ack_answers].
  - done.
  - apply ack_result_answers.
  - pose proof (save_state_opts io c) as H.
    destruct (save_state io c) as [c' [|]]; by apply respond_ack_answers.
Qed.

(** A request that carries observations. *)
Definition carries_observations (msg : Message) : bool :=
  bool_decide (m_type msg ∈ [MessageType.DEVICE_SNAPSHOT; MessageType.HEALTH_REPORT;
                             MessageType.CAPABILITY_REPORT]).

(** An operation other than a snapshot's ingestion that fails has no effect. *)
Definition all_or_nothing {T} (st : FleetState) (r : FleetState * Result T) : Prop :=
  result_ok r.2 = false -> r.1 = st.

Lemma roll_atomic ne st : all_or_nothing st (roll_epoch ne st).
Proof. unfold all_or_nothing, roll_epoch. by case_branch. Qed.
Lemma register_atomic reg now st : all_or_nothing st (register_worker reg now st).
Proof. unfold all_or_nothing, register_worker, admit_worker. by repeat case_branch. Qed.
Lemma heartbeat_atomic w b e now hg st : all_or_nothing st (heartbeat w b e now hg st).
Proof. unfold all_or_nothing, heartbeat. by repeat case_branch. Qed.
Lemma drain_atomic w i d now st : all_or_nothing st (set_drain w i d now st).
Proof. unfold all_or_nothing, set_drain. by repeat case_branch. Qed.
Lemma quarantine_atomic w i q now st : all_or_nothing st (set_quarantine w i q now st).
Proof. unfold all_or_nothing, set_quarantine. by repeat case_branch. Qed.
Lemma clear_atomic w i e now st : all_or_nothing st (clear_quarantine w i e now st).
Proof. unfold all_or_nothing, clear_quarantine. by repeat case_branch. Qed.

Lemma ack_result_refused {T} msg c (r : FleetState * Result T) :
  all_or_nothing (co_store c) r -> m_ok (ack_result msg c r).2 = false ->
  co_store (ack_result msg c r).1 = co_store c.
Proof.
  unfold all_or_nothing. intros Ha. rewrite ack_result_store. unfold ack_result.
  by destruct r as [st' [|]]; [|rewrite Ha].
Qed.

#[export] Hint Resolve roll_atomic register_atomic heartbeat_atomic drain_atomic quarantine_atomic
  clear_atomic : fleet.

Lemma dispatch_refused now io msg c :
  carries_observations msg = false -> m_ok (dispatch now io msg c).2 = false ->
  co_store (dispatch now io msg c).1 = co_store c.
Proof.
  unfold carries_observations, dispatch. destruct (m_type msg); intros Hobs; try discriminate Hobs;
    try done; repeat case_match; try done; try (apply ack_result_refused; auto with fleet).
  - match goal with H : register_worker ?r _ ?st = _ |- _ =>
      pose proof (register_atomic r now st) as Ha; unfold all_or_nothing in Ha; rewrite H in Ha end.
    by intros _; apply Ha.
  - pose proof (save_state_store io c) as Hs.
    match goal with H : save_state _ _ = _ |- _ => rewrite H in Hs end. by intros _.
Qed.

(* ------------------------------------------------------------------ *)
(** ** Lemmas: the loop over the frames *)

Definition all_frames (env : Env) (c : Coordinator) (cn : Conn)
  : Coordinator * Conn * list Message * ConnEnd := serve (S (length (cn_buf cn))) env c cn.

Definition with_more (cn : Conn) (more : list byte) : Conn :=
  MkConn (cn_buf cn ++ more) (cn_worker cn).

(** More bytes after those of a frame do not change what is made of it. *)
Lemma serve_one_more now io c cn c' cn' reply e more :
  serve_one now io c cn = Some (c', cn', reply, e) ->
  serve_one now io c (with_more cn more) = Some (c', with_more cn' more, reply, e) /\
  (e = Open -> (length (cn_buf cn') < length (cn_buf cn))%nat).
Proof.
  unfold serve_one, with_more. cbn [cn_buf cn_worker]. pose proof (scan_extend (cn_buf cn) more) as Hs.
  destruct (scan (cn_buf cn)) as [[|f|m] rest]; [done| |].
  - destruct Hs as [-> Hlt]. destruct (decode_message _) as [msg|];
      [|intros [= <- <- <- <-]; done].
    destruct (dispatch now io msg (tick c)) as [c1 r]. by intros [= <- <- <- <-].
  - destruct Hs as [-> ->]. by intros [= <- <- <- <-].
Qed.

Lemma serve_fuel n1 n2 env c cn :
  (length (cn_buf cn) < n1)%nat -> (length (cn_buf cn) < n2)%nat ->
  serve n1 env c cn = serve n2 env c cn.
Proof.
  revert n2 c cn. induction n1 as [|n1 IH]; intros [|n2] c cn H1 H2; try lia. cbn [serve].
  destruct (serve_one _ _ c cn) as [[[[c1 cn1] r] [|]]|] eqn:E; [|done|done].
  destruct (serve_one_more _ _ _ _ _ _ _ _ [] E) as [_ Hlt]. specialize (Hlt eq_refl).
  by rewrite (IH n2 c1 cn1) by lia.
Qed.

Lemma all_frames_unfold env c cn :
  all_frames env c cn =
    match serve_one (env (co_tick c)).1 (env (co_tick c)).2 c cn with
    | None => (c, cn, [], Open)
    | Some (c1, cn1, reply, Dropped) => (c1, cn1, [reply], Dropped)
    | Some (c1, cn1, reply, Open) =>
        let '(c2, cn2, out, e) := all_frames env c1 cn1 in (c2, cn2, reply :: out, e)
    end.
Proof.
  unfold all_frames at 1. cbn [serve].
  destruct (serve_one _ _ c cn) as [[[[c1 cn1] r] [|]]|] eqn:E; [|done|done].
  destruct (serve_one_more _ _ _ _ _ _ _ _ [] E) as [_ Hlt]. specialize (Hlt eq_refl).
  unfold all_frames. by rewrite (serve_fuel _ (S (length (cn_buf cn1)))) by lia.
Qed.

(** Serving what has arrived and later the rest is serving all of it. *)
Lemma all_frames_more env c cn more :
  all_frames env c (with_more cn more) =
    match all_frames env c cn with
    | (c1, cn1, out, Dropped) => (c1, with_more cn1 more, out, Dropped)
    | (c1, cn1, out, Open) =>
        let '(c2, cn2, out', e) := all_frames env c1 (with_more cn1 more) in
        (c2, cn2, out ++ out', e)
    end.
Proof.
  remember (length (cn_buf cn)) as n eqn:Hn. revert c cn Hn.
  induction (lt_wf n) as [n _ IH]. intros c cn ->.
  rewrite (all_frames_unfold env c cn).
  destruct (serve_one _ _ c cn) as [[[[c1 cn1] r] e]|] eqn:E.
  - destruct (serve_one_more _ _ _ _ _ _ _ _ more E) as [E' Hlt].
    rewrite all_frames_unfold, E'. destruct e; [|done].
    rewrite (IH _ (Hlt eq_refl) c1 cn1 eq_refl).
    destruct (all_frames env c1 cn1) as [[[c2 cn2] out] [|]]; [|done].
    by destruct (all_frames env c2 (with_more cn2 more)) as [[[c3 cn3] out'] e3].
  - by destruct (all_frames env c (with_more cn more)) as [[[c3 cn3] out'] e3].
Qed.

(** A connection at rest has no complete frame. *)
Lemma all_frames_rest env c cn c1 cn1 out :
  all_frames env c cn = (c1, cn1, out, Open) -> all_frames env c1 cn1 = (c1, cn1, [], Open).
Proof.
  remember (length (cn_buf cn)) as n eqn:Hn. revert c cn out Hn.
  induction (lt_wf n) as [n _ IH]. intros c cn out ->.
  rewrite all_frames_unfold.
  destruct (serve_one _ _ c cn) as [[[[c2 cn2] r] [|]]|] eqn:E; [|done|].
  - destruct (serve_one_more _ _ _ _ _ _ _ _ [] E) as [_ Hlt].
    destruct (all_frames env c2 cn2) as [[[c3 cn3] out3] e3] eqn:E2. intros [= <- <- <- ->].
    by eapply IH; [apply Hlt| |exact E2].
  - intros [= <- <- <-]. by rewrite all_frames_unfold, E.
Qed.

(** The bytes of a run of receives, none of which ends the connection. *)
Definition received (ev : Recv) : list byte := match ev with RecvData d => d | _ => [] end.
Definition goes_on (ev : Recv) : bool :=
  match ev with RecvNone => true | RecvData (_ :: _) => true | _ => false end.

Lemma serve_chunk_frames env data c cn : serve_chunk env data c cn = all_frames env c (with_more cn data).
Proof. reflexivity. Qed.

Lemma with_more_app cn d1 d2 : with_more cn (d1 ++ d2) = with_more (with_more cn d1) d2.
Proof. unfold with_more. cbn. by rewrite app_assoc. Qed.

(** What a connection that is closed by its client does: everything received is
    served, then, unless it was dropped, the bound worker is marked lost. *)
Definition served_then_closed (running : bool) (env : Env) (c : Coordinator) (cn : Conn) : Coordinator * list Message :=
  match all_frames env c cn with
  | (c1, _, out, Dropped) => (c1, out)
  | (c1, cn1, out, Open) => (close_connection running (env (co_tick c1)).1 c1 cn1, out)
  end.

Lemma handle_connection_served running env events c cn :
  Forall (fun ev => goes_on ev = true) events -> all_frames env c cn = (c, cn, [], Open) ->
  handle_connection running env (events ++ [RecvData []]) c cn =
    served_then_closed running env c (with_more cn (concat (map received events))).
Proof.
  intros Hev. revert c cn. induction Hev as [|ev events Hgo _ IH]; intros c cn Hrest.
  - unfold served_then_closed, with_more. cbn. rewrite app_nil_r. destruct cn as [buf w]. cbn in *.
    by rewrite Hrest.
  - destruct ev as [| |[|b data]]; try discriminate; cbn [app handle_connection map received].
    + by apply IH.
    + change (concat ((b :: data) :: map received events))
        with ((b :: data) ++ concat (map received events)).
      rewrite serve_chunk_frames. unfold served_then_closed.
      rewrite (with_more_app cn (b :: data)), (all_frames_more env c (with_more cn (b :: data))).
      destruct (all_frames env c (with_more cn (b :: data))) as [[[c1 cn1] out] [|]] eqn:E; [|done].
      rewrite IH by (by eapply all_frames_rest). unfold served_then_closed.
      by destruct (all_frames env c1 _) as [[[c2 cn2] out'] [|]].
Qed.

(* ------------------------------------------------------------------ *)
(** ** Lemmas: starting *)

(** The store after [start]: fresh, or restored from what the file holds. *)
Lemma start_store opts io fs :
  co_store (start opts io fs).1 = fleet_init (op_coordinator_id opts) (op_initial_epoch opts) \/
  exists s, load_snapshot (op_state_file opts) io fs = Ok s /\
    co_store (start opts io fs).1 =
      (restore s (fleet_init (op_coordinator_id opts) (op_initial_epoch opts))).1.
Proof.
  unfold start, load_state. cbn. case_bool_decide; [by left|].
  destruct (fs !! _); [|by left]. destruct (lio_open io); [|by left]. cbn.
  destruct (load_snapshot _ _ _) as [s|]; [right; eauto|by left].
Qed.

Lemma start_placed opts io fs k d :
  fs_devices (co_store (start opts io fs).1) !! k = Some d -> placed d.
Proof.
  destruct (start_store opts io fs) as [->|(s & _ & ->)]; cbn; [done|].
  rewrite lookup_fmap. destruct (s_devices s !! k) as [d0|]; cbn; [|done].
  intros [= <-]. unfold placed. by rewrite (proj1 (proj2 (proj2 (recover_device_spec d0)))).
Qed.

(* ------------------------------------------------------------------ *)
(** ** Properties *)

(** C2. Placement safety of the running coordinator: started from any state file,
    whatever bytes its clients send, a device it holds schedulable has fresh
    evidence, is present, not quarantined, not draining, and of proven health. *)
Theorem network_placement_safe opts io fs s k d :
  rtc server_step (server_init (start opts io fs).1) s ->
  fs_devices (co_store (sv_co s)) !! k = Some d -> schedulable (d_eligibility d) = true ->
  d_observation_fresh d = true /\ d_present d = true /\ d_quarantined d = false /\
  d_drain d = DrainState.ACTIVE /\
  (d_health d = HealthState.HEALTHY \/ d_health d = HealthState.DEGRADED).
Proof.
  intros Hs. destruct (server_history _ _ Hs) as [ops ->]. intros Hd.
  eapply (run_ops_placed ops); [|exact Hd]. apply start_placed.
Qed.

(** Dispatch: every request is answered once, under its request id and the epoch
    then in force, by an ERROR exactly when it is refused, and acts on the store
    as the one operation it stands for. *)
Theorem dispatch_answers_request now io msg c :
  let r := dispatch now io msg c in
  co_store r.1 = run_opt (dispatch_op now msg (co_store c)) (co_store c) /\
  co_opts r.1 = co_opts c /\ m_request_id r.2 = m_request_id msg /\
  m_epoch r.2 = fs_epoch (co_store r.1) /\ (m_ok r.2 = false <-> m_type r.2 = MessageType.ERROR).
Proof. split; [apply dispatch_store | apply dispatch_answers]. Qed.

(** A refused request has no effect on the store, unless it carries
    observations. *)
Theorem refused_request_changes_nothing now io msg c :
  carries_observations msg = false -> m_ok (dispatch now io msg c).2 = false ->
  co_store (dispatch now io msg c).1 = co_store c.
Proof. apply dispatch_refused. Qed.

(** C38. Chunk boundaries and receive timeouts are irrelevant: a connection that
    delivers the same bytes and closes leaves the same coordinator and sends the
    same replies, whether or not the coordinator is stopping by then. *)
Theorem connection_chunking_invariant running env c events1 events2 :
  Forall (fun ev => goes_on ev = true) events1 -> Forall (fun ev => goes_on ev = true) events2 ->
  concat (map received events1) = concat (map received events2) ->
  handle_connection running env (events1 ++ [RecvData []]) c conn_init =
  handle_connection running env (events2 ++ [RecvData []]) c conn_init.
Proof. intros H1 H2 E. by rewrite !handle_connection_served, E. Qed.

(** The loop over the frames of a buffer terminates: past the buffer's length,
    fuel makes no difference, and every complete frame has been served. *)
Theorem serve_terminates env n c cn :
  (length (cn_buf cn) < n)%nat ->
  serve n env c cn = serve (S (length (cn_buf cn))) env c cn /\
  (let '(c', cn', _, e) := serve n env c cn in
   e = Open -> serve_one (env (co_tick c')).1 (env (co_tick c')).2 c' cn' = None).
Proof.
  intros Hn. assert (serve n env c cn = all_frames env c cn) as -> by (apply serve_fuel; lia).
  split; [done|]. destruct (all_frames env c cn) as [[[c' cn'] out] e] eqn:E. intros ->.
  apply all_frames_rest in E. rewrite all_frames_unfold in E.
  destruct (serve_one _ _ c' cn') as [[[[c2 cn2] r] [|]]|]; [|done|done].
  by destruct (all_frames env c2 cn2) as [[[? ?] ?] ?].
Qed.

(** Crash recovery: after an acknowledged SAVE, a coordinator started on the same
    file has the epoch, workers and change log that were saved, and every
    device with its identity, quarantine and drain, none of them fresh or
    schedulable. *)
Theorem saved_state_recovered now io msg c opts :
  m_type msg = MessageType.SAVE -> m_ok (dispatch now io msg c).2 = true ->
  op_state_file opts = op_state_file (co_opts c) ->
  snapshot_codec_wf (snapshot (co_store c)) -> store_fits (snapshot (co_store c)) ->
  let r := start opts (MkLoadIo true true true) (co_fs (dispatch now io msg c).1) in
  let st := co_store r.1 in
  r.2 = Ok tt /\ fs_epoch st = fs_epoch (co_store c) /\ fs_workers st = fs_workers (co_store c) /\
  fs_nodes st = fs_nodes (co_store c) /\ fs_change_log st = fs_change_log (co_store c) /\
  forall k d, fs_devices (co_store c) !! k = Some d ->
    exists d', fs_devices st !! k = Some d' /\ d_identity d' = d_identity d /\
      d_observation_fresh d' = false /\ schedulable (d_eligibility d') = false /\
      d_quarantined d' = d_quarantined d /\ d_quarantine d' = d_quarantine d /\
      d_drain d' = d_drain d.
Proof.
  intros Hty Hok Hfile Hwf Hfit. unfold dispatch in *. rewrite Hty in *.
  destruct (save_state io c) as [c' [[]|]] eqn:Hs; [|done]. cbn [fst].
  unfold save_state in Hs. case_bool_decide as Hne; [done|]. injection Hs as <- Hr.
  pose proof (save_installs _ _ _ _ Hr) as Hinst. unfold start, load_state. cbn.
  rewrite Hfile, bool_decide_false by exact Hne. rewrite Hinst.
  rewrite (load_saved _ _ _ Hwf Hfit Hinst). cbn. split_and!; try done.
  intros k d Hd. exists (recover_device d). rewrite lookup_fmap, Hd. split; [done|].
  apply recover_device_spec.
Qed.
