(* ===== verification/Runs.v ===== *)
(** * Runs of the coordinator, step by step

    [server_step] of [Coordinator] as a function of a label: which thread acts, on
    which connection, and what it reads from the clock, the socket and the files.
    A history of the process is a list of labels, a run without end a sequence of
    them. *)

From stdpp Require Import relations.
From S2P Require Import Prelude Core Codec Message Framing Identity Health Eligibility Device.
From S2P Require Import Observation Change Pipeline Registration ObservationCodec AdminPayload.
From S2P Require Import FleetState FleetSteps FleetInv FleetSafety FleetIngest SnapshotCodec Store.
From S2P Require Import Coordinator CoordinatorSafety.

Inductive Label :=
  | Accept (i : nat)
  | Receive (i : nat) (data : list byte)
  | Serve (i : nat) (now : Timestamp) (io : SaveIo)  (** one frame, or the drop *)
  | Close (i : nat) (now : Timestamp)
  | Leave (i : nat)
  | Scan (now : Timestamp)
  | Mark (now : Timestamp).

Definition set_conns (conns : gmap nat Conn) (s : Server) : Server :=
  MkServer (sv_co s) conns (sv_overdue s).

(** One step; [None] when the label's thread cannot take it. *)
Definition server_do (l : Label) (s : Server) : option Server :=
  match l with
  | Accept i =>
      match sv_conns s !! i with
      | None => Some (set_conns (<[i := conn_init]> (sv_conns s)) s)
      | Some _ => None
      end
  | Receive i data =>
      cn ← sv_conns s !! i;
      Some (set_conns (<[i := MkConn (cn_buf cn ++ data) (cn_worker cn)]> (sv_conns s)) s)
  | Serve i now io =>
      cn ← sv_conns s !! i;
      r ← serve_one now io (sv_co s) cn;
      let '(c, cn, _, e) := r in
      Some (MkServer c
              (match e with
               | Open => <[i := cn]> (sv_conns s)
               | Dropped => delete i (sv_conns s)
               end) (sv_overdue s))
  | Close i now =>
      cn ← sv_conns s !! i;
      Some (MkServer (close_connection true now (sv_co s) cn) (delete i (sv_conns s)) (sv_overdue s))
  | Leave i =>
      _ ← sv_conns s !! i;
      Some (set_conns (delete i (sv_conns s)) s)
  | Scan now =>
      match sv_overdue s with
      | [] =>
          Some (MkServer (sv_co s) (sv_conns s)
                  (overdue_workers now (op_heartbeat_timeout_ms (co_opts (sv_co s)))
                     (snapshot (co_store (sv_co s)))))
      | _ => None
      end
  | Mark now =>
      match sv_overdue s with
      | [] => None
      | w :: ws =>
          Some (MkServer (set_store (mark_worker_lost w now (co_store (sv_co s))).1 (sv_co s))
                  (sv_conns s) ws)
      end
  end.

Fixpoint server_run (ls : list Label) (s : Server) : option Server :=
  match ls with
  | [] => Some s
  | l :: ls => s' ← server_do l s; server_run ls s'
  end.

(** What the label's thread reads from the clock. *)
Definition label_clock (l : Label) : option Timestamp :=
  match l with
  | Serve _ now _ | Close _ now | Scan now | Mark now => Some now
  | _ => None
  end.

(** The operation of the store a frame stands for. *)
Definition frame_op (now : Timestamp) (cn : Conn) (st : FleetState) : option Op :=
  match scan (cn_buf cn) with
  | (FrameReady pending, _) =>
      match decode_message (f_payload pending) with
      | Ok msg => dispatch_op now msg st
      | Err _ => None
      end
  | _ => None
  end.

(** The operation of the store a step stands for. *)
Definition label_op (l : Label) (s : Server) : option Op :=
  match l with
  | Serve i now _ => cn ← sv_conns s !! i; frame_op now cn (co_store (sv_co s))
  | Close i now => cn ← sv_conns s !! i; w ← cn_worker cn; Some (OpLost w now)
  | Mark now => match sv_overdue s with w :: _ => Some (OpLost w now) | [] => None end
  | _ => None
  end.

(* ------------------------------------------------------------------ *)
(** ** Lemmas *)

Lemma serve_one_op now io c cn c' cn' reply e :
  serve_one now io c cn = Some (c', cn', reply, e) ->
  co_store c' = run_opt (frame_op now cn (co_store c)) (co_store c) /\ co_opts c' = co_opts c.
Proof.
  unfold serve_one, frame_op. destruct (scan (cn_buf cn)) as [[|f|m] buf]; [done| |by intros [= <- _ _ _]].
  destruct (decode_message _) as [msg|]; [|by intros [= <- _ _ _]].
  pose proof (dispatch_store now io msg (tick c)) as Hd.
  pose proof (dispatch_answers now io msg (tick c)) as [Ho _].
  destruct (dispatch now io msg (tick c)) as [c1 r]. intros [= <- _ _ _]. by split.
Qed.

(** The labels are the steps. *)
Lemma server_do_step l s s' : server_do l s = Some s' -> server_step s s'.
Proof.
  destruct s as [c conns ws], l as [i|i data|i now io|i now|i|now|now]; cbn.
  - destruct (conns !! i) eqn:E; [done|]. intros [= <-]. by apply SV_accept.
  - destruct (conns !! i) as [cn|] eqn:E; [|done]. intros [= <-]. by apply SV_recv.
  - destruct (conns !! i) as [cn|] eqn:E; [|done]. cbn.
    destruct (serve_one now io c cn) as [[[[c1 cn1] r] [|]]|] eqn:Es; [| |done]; intros [= <-].
    + by eapply SV_frame.
    + by eapply SV_drop.
  - destruct (conns !! i) as [cn|] eqn:E; [|done]. intros [= <-]. by apply SV_close.
  - destruct (conns !! i) as [cn|] eqn:E; [|done]. intros [= <-]. by eapply SV_leave.
  - destruct ws; [|done]. intros [= <-]. apply SV_scan.
  - destruct ws; [done|]. intros [= <-]. apply SV_mark.
Qed.

Lemma server_step_do s s' : server_step s s' -> exists l, server_do l s = Some s'.
Proof.
  destruct 1 as [c conns ws i E|c conns ws i cn data E|c conns ws i cn now io c' cn' r E Es
    |c conns ws i cn now io c' cn' r E Es|c conns ws i cn now E|c conns ws i cn E|c conns now
    |c conns w ws now].
  - exists (Accept i). cbn. by rewrite E.
  - exists (Receive i data). cbn. by rewrite E.
  - exists (Serve i now io). cbn. rewrite E. cbn. by rewrite Es.
  - exists (Serve i now io). cbn. rewrite E. cbn. by rewrite Es.
  - exists (Close i now). cbn. by rewrite E.
  - exists (Leave i). cbn. by rewrite E.
  - by exists (Scan now).
  - by exists (Mark now).
Qed.

(** What a step does to the store. *)
Lemma server_do_store l s s' :
  server_do l s = Some s' ->
  co_store (sv_co s') = run_opt (label_op l s) (co_store (sv_co s)) /\
  co_opts (sv_co s') = co_opts (sv_co s).
Proof.
  destruct s as [c conns ws], l as [i|i data|i now io|i now|i|now|now]; cbn.
  - destruct (conns !! i); [done|]. by intros [= <-].
  - destruct (conns !! i); [|done]. by intros [= <-].
  - destruct (conns !! i) as [cn|]; [|done]. cbn.
    destruct (serve_one now io c cn) as [[[[c1 cn1] r] e]|] eqn:Es; [|done]. intros [= <-].
    by apply (serve_one_op _ _ _ _ _ _ _ _ Es).
  - destruct (conns !! i) as [cn|]; [|done]. intros [= <-]. cbn. unfold close_connection.
    by destruct (cn_worker cn).
  - destruct (conns !! i); [|done]. by intros [= <-].
  - destruct ws; [|done]. by intros [= <-].
  - destruct ws; [done|]. by intros [= <-].
Qed.

Lemma server_run_steps ls s s' : server_run ls s = Some s' -> rtc server_step s s'.
Proof.
  revert s. induction ls as [|l ls IH]; intros s; cbn [server_run]; [by intros [= <-]|].
  destruct (server_do l s) as [s1|] eqn:E; [|done]. cbn. intros Hr.
  eapply rtc_l; [by eapply server_do_step|by apply IH].
Qed.

(* ------------------------------------------------------------------ *)
(** ** Properties *)

(** The labelled steps are exactly the steps of the running coordinator. *)
Theorem server_labels s s' : server_step s s' <-> exists l, server_do l s = Some s'.
Proof. split; [apply server_step_do|]. intros [l H]. by eapply server_do_step. Qed.
