(* ===== verification/Protocol.v ===== *)
(** * The protocol the coordinator implements

    An abstract machine of requests: no bytes, no frames, no buffers, no files. Its
    state is the store, the worker each open connection is bound to, and the workers
    the liveness thread has yet to mark. [request_step] says what each request does to
    the store and whether it is accepted, [protocol_step] what each event does to the
    machine. [trace] reads the events off a run of the coordinator, from the messages
    its frames decode to; the run is one of the machine. *)

From stdpp Require Import relations.
From S2P Require Import Prelude Core Codec Message Framing Identity Health Eligibility Device.
From S2P Require Import Observation Change Pipeline Registration ObservationCodec AdminPayload.
From S2P Require Import FleetState FleetSteps FleetInv FleetSafety FleetIngest SnapshotCodec Store.
From S2P Require Import Coordinator CoordinatorSafety Runs.

(* ------------------------------------------------------------------ *)
(** ** The abstract machine *)

(** What a client asks for. *)
Inductive Request :=
  | Hello
  | Enrol (reg : Registration)
  | Beat (w : WorkerId) (boot : WorkerBootId) (epoch : CoordinatorEpoch) (hg : HealthGeneration)
  | Report (w : WorkerId) (obs : list DeviceObservation)
  | Fetch
  | SetDrain (key : string) (level : DrainState)
  | SetQuarantine (key reason source : string) (gen : DeviceGeneration)
  | ClearQuarantine (key : string)
  | RollEpoch (ne : CoordinatorEpoch)
  | Persist
  | Nonsense.

(** What a request does to the store at a time, and whether it is accepted. A worker
    that gives neither its id nor its boot only asks whether somebody is there. The
    outcome of [Persist] is the disk's to say. *)
Inductive request_step (now : Timestamp) : Request -> FleetState -> FleetState -> bool -> Prop :=
  | RS_hello st : request_step now Hello st st true
  | RS_enrol reg st st' r :
      register_worker reg now st = (st', r) -> request_step now (Enrol reg) st st' (result_ok r)
  | RS_ping epoch hg st : request_step now (Beat (MkId 0) (MkId 0) epoch hg) st st true
  | RS_beat w boot epoch hg st st' r :
      w <> MkId 0 \/ boot <> MkId 0 -> heartbeat w boot epoch now hg st = (st', r) ->
      request_step now (Beat w boot epoch hg) st st' (result_ok r)
  | RS_report w obs st st' r :
      ingest_snapshot w obs policy_default now st = (st', r) ->
      request_step now (Report w obs) st st' (result_ok r)
  | RS_fetch st : request_step now Fetch st st true
  | RS_drain w key level st st' r :
      set_drain w key level now st = (st', r) ->
      request_step now (SetDrain key level) st st' (result_ok r)
  | RS_quarantine w key reason source gen st st' r :
      set_quarantine w key (MkQuarantine reason source gen now (MkId 0) (fs_epoch st)) now st = (st', r) ->
      request_step now (SetQuarantine key reason source gen) st st' (result_ok r)
  | RS_clear w key st st' r :
      clear_quarantine w key (fs_epoch st) now st = (st', r) ->
      request_step now (ClearQuarantine key) st st' (result_ok r)
  | RS_roll ne st st' r :
      roll_epoch ne st = (st', r) -> request_step now (RollEpoch ne) st st' (result_ok r)
  | RS_persist ok st : request_step now Persist st st ok
  | RS_nonsense st : request_step now Nonsense st st false.

Record Protocol := MkProtocol {
  pt_store : FleetState;
  pt_bound : gmap nat (option WorkerId);   (** the open connections *)
  pt_due : list WorkerId
}.

Inductive Event :=
  | Connected (i : nat)
  | Asked (i : nat) (now : Timestamp) (rq : Request) (binds : option WorkerId) (ok : bool)
  | Rejected (i : nat)
  | Closed (i : nat) (now : Timestamp)
  | Left (i : nat)
  | Looked (now : Timestamp)
  | Expired (now : Timestamp).

(** A worker thought alive whose last word is older than the timeout. *)
Definition silent (st : FleetState) (now timeout : Z) (w : WorkerId) : Prop :=
  exists wr, fs_workers st !! w = Some wr /\ worker_live wr = true /\
    w_last_heartbeat wr <> kInvalidTimestamp /\ i64_sub now (w_last_heartbeat wr) > timeout.

Inductive protocol_step (timeout : Z) : Event -> Protocol -> Protocol -> Prop :=
  | PT_connected i st bound due :
      bound !! i = None ->
      protocol_step timeout (Connected i) (MkProtocol st bound due)
        (MkProtocol st (<[i := None]> bound) due)
  | PT_asked i now rq binds ok st st' bound due b :
      bound !! i = Some b -> request_step now rq st st' ok ->
      protocol_step timeout (Asked i now rq binds ok) (MkProtocol st bound due)
        (MkProtocol st' (<[i := if binds is Some w then Some w else b]> bound) due)
  (** a connection that sends bytes without meaning is dropped; its worker is not lost *)
  | PT_rejected i st bound due b :
      bound !! i = Some b ->
      protocol_step timeout (Rejected i) (MkProtocol st bound due) (MkProtocol st (delete i bound) due)
  (** one that ends takes the worker it is bound to with it *)
  | PT_closed i now st bound due b :
      bound !! i = Some b ->
      protocol_step timeout (Closed i now) (MkProtocol st bound due)
        (MkProtocol (if b is Some w then (mark_worker_lost w now st).1 else st) (delete i bound) due)
  | PT_left i st bound due b :
      bound !! i = Some b ->
      protocol_step timeout (Left i) (MkProtocol st bound due) (MkProtocol st (delete i bound) due)
  | PT_looked now st bound due :
      NoDup due -> (forall w, w ∈ due <-> silent st now timeout w) ->
      protocol_step timeout (Looked now) (MkProtocol st bound []) (MkProtocol st bound due)
  | PT_expired now st bound w due :
      protocol_step timeout (Expired now) (MkProtocol st bound (w :: due))
        (MkProtocol (mark_worker_lost w now st).1 bound due).

Inductive protocol_run (timeout : Z) : list Event -> Protocol -> Protocol -> Prop :=
  | PR_nil p : protocol_run timeout [] p p
  | PR_cons e es p1 p2 p3 :
      protocol_step timeout e p1 p2 -> protocol_run timeout es p2 p3 ->
      protocol_run timeout (e :: es) p1 p3.

(* ------------------------------------------------------------------ *)
(** ** Reading a run of the coordinator *)

(** What a message asks for. *)
Definition request_of (msg : Message) : Request :=
  let payload := m_payload msg in
  match m_type msg with
  | MessageType.HELLO => Hello
  | MessageType.REGISTER => if decode_registration payload is Ok reg then Enrol reg else Nonsense
  | MessageType.HEARTBEAT => Beat (m_worker msg) (m_worker_boot msg) (m_epoch msg) (m_health_gen msg)
  | MessageType.DEVICE_SNAPSHOT | MessageType.HEALTH_REPORT | MessageType.CAPABILITY_REPORT =>
      if decode_observation_batch payload is Ok obs then Report (m_worker msg) obs else Nonsense
  | MessageType.SNAPSHOT_REQUEST => Fetch
  | MessageType.DRAIN | MessageType.UNDRAIN =>
      if decode_drain_target payload is Ok t then SetDrain (dt_identity t) (dt_level t) else Nonsense
  | MessageType.QUARANTINE =>
      if decode_quarantine payload is Ok q
      then SetQuarantine (qt_identity q) (qt_reason q) (qt_source q) (qt_generation q) else Nonsense
  | MessageType.CLEAR_QUARANTINE =>
      if decode_identity_target payload is Ok target then ClearQuarantine target else Nonsense
  | MessageType.EPOCH_ROLL => RollEpoch (m_epoch msg)
  | MessageType.SAVE => Persist
  | MessageType.ACK | MessageType.ERROR | MessageType.REGISTER_ACK
  | MessageType.SNAPSHOT_RESPONSE | MessageType.Raw _ => Nonsense
  end.

Definition binds_of (msg : Message) : option WorkerId :=
  if bool_decide (m_type msg = MessageType.REGISTER) then Some (m_worker msg) else None.

(** The message at the front of a connection's buffer. *)
Definition front_message (cn : Conn) : option Message :=
  match (scan (cn_buf cn)).1 with
  | FrameReady f => if decode_message (f_payload f) is Ok msg then Some msg else None
  | _ => None
  end.

(** The event of a step: for a frame, the request it decodes to and what the reply
    says of it. *)
Definition event_of (l : Label) (s : Server) : list Event :=
  match l with
  | Accept i => [Connected i]
  | Receive _ _ => []
  | Serve i now io =>
      match sv_conns s !! i with
      | None => []
      | Some cn =>
          match front_message cn, serve_one now io (sv_co s) cn with
          | Some msg, Some (_, _, reply, _) => [Asked i now (request_of msg) (binds_of msg) (m_ok reply)]
          | _, _ => [Rejected i]
          end
      end
  | Close i now => [Closed i now]
  | Leave i => [Left i]
  | Scan now => [Looked now]
  | Mark now => [Expired now]
  end.

Fixpoint trace (ls : list Label) (s : Server) : list Event :=
  match ls with
  | [] => []
  | l :: ls => event_of l s ++ from_option (trace ls) [] (server_do l s)
  end.

(** What the machine sees of the coordinator. *)
Definition abstract (s : Server) : Protocol :=
  MkProtocol (co_store (sv_co s)) (cn_worker <$> sv_conns s) (sv_overdue s).

Definition timeout_of (s : Server) : Z := op_heartbeat_timeout_ms (co_opts (sv_co s)).

(* ------------------------------------------------------------------ *)
(** ** Lemmas *)

Lemma ack_result_verdict {T} req c (r : FleetState * Result T) : m_ok (ack_result req c r).2 = result_ok r.2.
Proof. unfold ack_result. by destruct r.2. Qed.

(** A result split in its parts. *)
Lemma step_of_result {T} now rq st (r : FleetState * Result T) :
  (forall st' x, r = (st', x) -> request_step now rq st st' (result_ok x)) ->
  request_step now rq st r.1 (result_ok r.2).
Proof. intros H. apply H. by destruct r. Qed.

Lemma id_is_zero_eq {t} (i : StrongId t) : id_is_zero i = true -> i = MkId 0.
Proof. unfold id_is_zero. destruct i as [v]. intros H. zbool. cbn in *. by subst. Qed.

(** One dispatch is one request. *)
Lemma dispatch_request now io msg c :
  request_step now (request_of msg) (co_store c) (co_store (dispatch now io msg c).1)
    (m_ok (dispatch now io msg c).2).
Proof.
  unfold dispatch, request_of. destruct (m_type msg); try constructor.
  - destruct (decode_registration _) as [reg|]; [|constructor].
    destruct (register_worker reg now (co_store c)) as [st' [id|e]] eqn:E; exact (RS_enrol now reg _ _ _ E).
  - destruct (id_is_zero (m_worker_boot msg)) eqn:Hb, (id_is_zero (m_worker msg)) eqn:Hw; cbn [negb orb].
    1: apply id_is_zero_eq in Hb, Hw; rewrite Hb, Hw; constructor.
    all: rewrite ack_result_store, ack_result_verdict; apply step_of_result; intros st' x Hx;
      apply RS_beat; [|exact Hx].
    + left. intros E. rewrite E in Hw. discriminate Hw.
    + right. intros E. rewrite E in Hb. discriminate Hb.
    + left. intros E. rewrite E in Hw. discriminate Hw.
  - destruct (decode_observation_batch _); [|constructor]. rewrite ack_result_store, ack_result_verdict.
    apply step_of_result. intros; by apply RS_report.
  - destruct (decode_observation_batch _); [|constructor]. rewrite ack_result_store, ack_result_verdict.
    apply step_of_result. intros; by apply RS_report.
  - destruct (decode_observation_batch _); [|constructor]. rewrite ack_result_store, ack_result_verdict.
    apply step_of_result. intros; by apply RS_report.
  - destruct (decode_drain_target _); [|constructor]. rewrite ack_result_store, ack_result_verdict.
    apply step_of_result. intros; by eapply RS_drain.
  - destruct (decode_drain_target _); [|constructor]. rewrite ack_result_store, ack_result_verdict.
    apply step_of_result. intros; by eapply RS_drain.
  - destruct (decode_quarantine _); [|constructor]. rewrite ack_result_store, ack_result_verdict.
    apply step_of_result. intros; by eapply RS_quarantine.
  - destruct (decode_identity_target _); [|constructor]. rewrite ack_result_store, ack_result_verdict.
    apply step_of_result. intros; by eapply RS_clear.
  - rewrite ack_result_store, ack_result_verdict. apply step_of_result. intros; by apply RS_roll.
  - pose proof (save_state_store io c) as H. destruct (save_state io c) as [c' [|]]; cbn [fst snd] in *;
      rewrite H; constructor.
Qed.

(** A pass of the liveness thread finds the silent workers, each once. *)
Lemma overdue_workers_nodup now timeout st : NoDup (overdue_workers now timeout (snapshot st)).
Proof.
  unfold overdue_workers. change (map fst ?l) with (l.*1).
  eapply sublist_NoDup; [exact (map_entries_nodup (s_workers (snapshot st)))|].
  apply fmap_sublist. induction (map_entries (s_workers (snapshot st))) as [|kv l IH]; cbn [List.filter];
    [constructor|]. by destruct (overdue now timeout kv.2); [apply sublist_skip|apply sublist_cons].
Qed.

Lemma overdue_silent now timeout wr :
  overdue now timeout wr = true <->
  worker_live wr = true /\ w_last_heartbeat wr <> kInvalidTimestamp /\
  i64_sub now (w_last_heartbeat wr) > timeout.
Proof.
  unfold overdue, worker_live. rewrite !andb_true_iff, !negb_true_iff, Z.eqb_neq, Z.gtb_lt. split; intros; deex; split_and!; auto with lia.
Qed.

Lemma overdue_workers_silent now timeout st w :
  w ∈ overdue_workers now timeout (snapshot st) <-> silent st now timeout w.
Proof.
  unfold overdue_workers, silent. change (map fst ?l) with (l.*1). rewrite list_elem_of_fmap. split.
  - intros ([k wr] & -> & Hin). apply list_elem_of_In, List.filter_In in Hin as [Hin Ho].
    apply list_elem_of_In, map_entries_elem in Hin. exists wr. split; [exact Hin|by apply overdue_silent].
  - intros (wr & Hw & Ho). exists (w, wr). split; [done|]. apply list_elem_of_In, List.filter_In.
    split; [|by apply overdue_silent]. apply list_elem_of_In. rewrite map_entries_perm.
    by apply elem_of_map_to_list.
Qed.

(** One frame: the request it decodes to, or the rejection. *)
Lemma serve_request now io c cn c' cn' reply e :
  serve_one now io c cn = Some (c', cn', reply, e) ->
  match front_message cn with
  | Some msg => e = Open /\ request_step now (request_of msg) (co_store c) (co_store c') (m_ok reply) /\
                cn_worker cn' = (if binds_of msg is Some w then Some w else cn_worker cn)
  | None => e = Dropped /\ co_store c' = co_store c
  end.
Proof.
  unfold serve_one, front_message. destruct (scan (cn_buf cn)) as [[|f|err] buf]; [done| |by intros [= <- _ _ <-]].
  cbn [fst]. destruct (decode_message (f_payload f)) as [msg|]; [|by intros [= <- _ _ <-]].
  pose proof (dispatch_request now io msg (tick c)) as Hd.
  destruct (dispatch now io msg (tick c)) as [c1 r]. intros [= <- <- <- <-]. split_and!; [done|exact Hd|].
  unfold binds_of. cbn [cn_worker]. by case_bool_decide.
Qed.

Lemma protocol_run_app timeout es1 es2 p1 p2 p3 :
  protocol_run timeout es1 p1 p2 -> protocol_run timeout es2 p2 p3 -> protocol_run timeout (es1 ++ es2) p1 p3.
Proof. induction 1; [done|]. intros. cbn. econstructor; eauto. Qed.

Lemma protocol_run_one timeout e p1 p2 : protocol_step timeout e p1 p2 -> protocol_run timeout [e] p1 p2.
Proof. intros H. eapply PR_cons; [exact H|constructor]. Qed.

(** One step of the coordinator is what its event says. *)
Lemma server_do_protocol l s s' :
  server_do l s = Some s' -> protocol_run (timeout_of s) (event_of l s) (abstract s) (abstract s').
Proof.
  destruct s as [c conns ws]. unfold timeout_of, abstract.
  destruct l as [i|i data|i now io|i now|i|now|now]; cbn [server_do event_of sv_conns sv_co sv_overdue].
  - destruct (conns !! i) eqn:E; [done|]. intros [= <-]. apply protocol_run_one.
    cbn [set_conns sv_conns sv_co sv_overdue]. rewrite fmap_insert. apply PT_connected. by rewrite lookup_fmap, E.
  - destruct (conns !! i) as [cn|] eqn:E; [|done]. intros [= <-]. cbn [set_conns sv_conns sv_co sv_overdue].
    rewrite fmap_insert, insert_id; [constructor|]. by rewrite lookup_fmap, E.
  - destruct (conns !! i) as [cn|] eqn:E; [|done]. cbn [mbind option_bind].
    destruct (serve_one now io c cn) as [[[[c1 cn1] r] e]|] eqn:Es; [|done]. cbn [mbind option_bind].
    intros [= <-]. cbn [sv_conns sv_co sv_overdue]. pose proof (serve_request _ _ _ _ _ _ _ _ Es) as Hs.
    assert ((cn_worker <$> conns) !! i = Some (cn_worker cn)) as Hb by by rewrite lookup_fmap, E.
    destruct (front_message cn) as [msg|]; destruct Hs as [-> Hs]; apply protocol_run_one.
    + destruct Hs as [Hst Hw]. rewrite fmap_insert, Hw. by eapply PT_asked.
    + rewrite fmap_delete, Hs. by eapply PT_rejected.
  - destruct (conns !! i) as [cn|] eqn:E; [|done]. intros [= <-]. apply protocol_run_one.
    cbn [sv_conns sv_co sv_overdue]. rewrite fmap_delete.
    assert (co_store (close_connection true now c cn) =
      (if cn_worker cn is Some w then (mark_worker_lost w now (co_store c)).1 else co_store c)) as ->
      by (unfold close_connection; by destruct (cn_worker cn)).
    apply PT_closed. by rewrite lookup_fmap, E.
  - destruct (conns !! i) as [cn|] eqn:E; [|done]. intros [= <-]. apply protocol_run_one.
    cbn [set_conns sv_conns sv_co sv_overdue]. rewrite fmap_delete. eapply PT_left. by rewrite lookup_fmap, E.
  - destruct ws; [|done]. intros [= <-]. apply protocol_run_one. apply PT_looked;
      [apply overdue_workers_nodup|intros w; apply overdue_workers_silent].
  - destruct ws as [|w ws]; [done|]. intros [= <-]. apply protocol_run_one, PT_expired.
Qed.

(* ------------------------------------------------------------------ *)
(** ** Properties *)

(** C12. The coordinator implements the protocol: read off any run of the coordinator -
    however the bytes of any number of connections, their closes and the liveness
    scans interleave - the requests its frames decode to and the verdicts its replies
    give; that trace is a run of the abstract machine, from what the machine sees of
    the first state to what it sees of the last. Each request has the effect and the
    verdict the machine gives it; a connection is bound by a REGISTER to the worker it
    names, and takes that worker with it when it closes, not when it is dropped; a
    scan finds exactly the workers silent for longer than the timeout, and what is
    marked is what a scan found. *)
Theorem coordinator_refines_protocol ls s s' :
  server_run ls s = Some s' -> protocol_run (timeout_of s) (trace ls s) (abstract s) (abstract s').
Proof.
  revert s. induction ls as [|l ls IH]; intros s; cbn [server_run trace]; [intros [= <-]; constructor|].
  destruct (server_do l s) as [s1|] eqn:E; [|done]. cbn [mbind option_bind from_option]. intros Hr.
  eapply protocol_run_app; [by apply server_do_protocol|].
  assert (timeout_of s = timeout_of s1) as -> by (unfold timeout_of; by rewrite (proj2 (server_do_store _ _ _ E))).
  by apply IH.
Qed.
