(* ===== verification/FleetTyped.v ===== *)
(** * The types of the fleet state

    Every integer the store holds stays in the range of its C++ type, every
    enumeration is the value of a byte, and every text keeps a bound, in every state
    the running coordinator can reach: the decoder's, where the store takes the text
    as it was decoded. The device keys and the values a change is from and to are
    put together from such texts; the source bounds them nowhere, and the bounds here
    are what the parts add up to. *)

From stdpp Require Import relations.
From S2P Require Import Prelude Core Codec Message Framing Identity Health Eligibility Device.
From S2P Require Import Observation Change Pipeline Registration FleetState WireFormats.
From S2P Require Import ObservationCodec AdminPayload FleetSteps FleetInv FleetSafety FleetIngest.
From S2P Require Import SnapshotCodec Store Coordinator CoordinatorSafety Typed Runs.

(** A device key: taken from a state file, at most 256 bytes, or made of the parts of
    a decoded identity with separators between them. *)
Definition key_limit : Z := 600.

(** A value of a change: from a state file, or a field of a device's record, the
    longest of which is the text of up to 4096 capabilities. *)
Definition value_limit : Z := 4096 * (128 + 256 + 2).

(** A worker's record without the keys of its devices. *)
Definition without_keys (wr : WorkerRecord) : WorkerRecord :=
  MkWorker (w_worker wr) (w_boot wr) (w_registration_generation wr) (w_node wr) (w_agent wr)
    (w_agent_version wr) (w_protocol_version wr) (w_os_platform wr) (w_driver_version wr)
    [] (w_supported_capabilities wr) (w_registered_at wr) (w_last_heartbeat wr)
    (w_registered_epoch wr) (w_alive wr) (w_fenced wr) (w_lost wr).

(** A change without the values it is from and to. *)
Definition without_values (c : ChangeRecord) : ChangeRecord :=
  MkChange (c_kind c) (c_device_id c) (c_at c) (c_generation c) (c_epoch c) (c_detail c) "" "".

Definition worker_typed (w : WorkerId) (wr : WorkerRecord) : Prop :=
  w_worker wr = w /\ worker_record_wf (without_keys wr) /\
  Forall (str_fits key_limit) (w_device_identities wr).
Definition node_typed (n : NodeId) (r : NodeRecord) : Prop := n_node r = n /\ node_record_wf r.
Definition change_typed (c : ChangeRecord) : Prop :=
  change_wf (without_values c) /\ str_fits value_limit (c_from c) /\ str_fits value_limit (c_to c).

Record fleet_typed (st : FleetState) : Prop := {
  ft_coord : id_wf (fs_coord st);
  ft_epoch : gen_wf (fs_epoch st);
  ft_fleet : gen_wf (fs_fleet_gen st);
  ft_node : gen_wf (fs_node_gen st);
  ft_nodes : forall k n, fs_nodes st !! k = Some n -> node_typed k n;
  ft_workers : forall k wr, fs_workers st !! k = Some wr -> worker_typed k wr;
  ft_devices : forall k d, fs_devices st !! k = Some d -> device_state_wf d;
  ft_keys : forall k d, fs_devices st !! k = Some d -> str_fits key_limit k;
  ft_changes : Forall change_typed (fs_change_log st);
  ft_log : Z.of_nat (length (fs_change_log st)) <= 200000;
  ft_accepted : is_u64 (fs_accepted st)
}.

(** The sizes the state-file format holds; nothing else in the source bounds them. *)
Record within_limits (st : FleetState) : Prop := {
  wl_keys : forall k d, fs_devices st !! k = Some d -> str_fits 256 k;
  wl_identities : forall w wr, fs_workers st !! w = Some wr ->
    Forall (str_fits 256) (w_device_identities wr) /\ Z.of_nat (length (w_device_identities wr)) <= 4096;
  wl_values : Forall (fun c => str_fits 128 (c_from c) /\ str_fits 128 (c_to c)) (fs_change_log st);
  wl_nodes : Z.of_nat (length (map_entries (fs_nodes st))) <= 100000;
  wl_workers : Z.of_nat (length (map_entries (fs_workers st))) <= 100000;
  wl_devices : Z.of_nat (length (map_entries (fs_devices st))) <= 100000
}.

(** A clock reading of the label is a value of [Timestamp]. *)
Definition clock_typed (l : Label) : Prop := forall now, label_clock l = Some now -> is_i64 now.

(** The arguments of an operation, as its C++ types admit them. *)
Definition op_typed (op : Op) : Prop :=
  match op with
  | OpRoll ne => gen_wf ne
  | OpRegister reg now => registration_wf reg /\ is_i64 now
  | OpLost _ now => is_i64 now
  | OpIngest _ obs _ now => Forall observation_wf obs /\ is_i64 now
  | OpHeartbeat _ _ _ now _ => is_i64 now
  | OpDrain _ _ d now => enum_wf d /\ is_i64 now
  | OpQuarantine _ _ q now => quarantine_wf q /\ is_i64 now
  | OpClear _ _ _ now => is_i64 now
  end.

(* ------------------------------------------------------------------ *)
(** ** Lemmas: maps and logs *)

Lemma lookup_insert_all {K A} `{Countable K} (P : K -> A -> Prop) (m : gmap K A) k x :
  (forall k y, m !! k = Some y -> P k y) -> P k x -> forall k' y, <[k := x]> m !! k' = Some y -> P k' y.
Proof.
  intros Hm Hx k' y. destruct (decide (k = k')) as [<-|Hne].
  - rewrite lookup_insert_eq. by intros [= <-].
  - rewrite lookup_insert_ne by done. apply Hm.
Qed.

Lemma lookup_alter_all {K A} `{Countable K} (P : K -> A -> Prop) (m : gmap K A) k f :
  (forall k y, m !! k = Some y -> P k y) -> (forall y, P k y -> P k (f y)) ->
  forall k' y, alter f k m !! k' = Some y -> P k' y.
Proof.
  intros Hm Hf k' y. destruct (decide (k = k')) as [<-|Hne].
  - rewrite lookup_alter_eq. destruct (m !! k) as [z|] eqn:E; [|done]. intros [= <-]. eauto.
  - rewrite lookup_alter_ne by done. apply Hm.
Qed.

Lemma push_change_all P log c : Forall P log -> P c -> Forall P (push_change log c).
Proof.
  intros Hl Hc. unfold push_change. assert (Forall P (log ++ [c])) by (apply Forall_app; by split; [|constructor]).
  case_branch; [by apply Forall_drop|done].
Qed.

Lemma push_changes_all P log cs : Forall P log -> Forall P cs -> Forall P (foldl push_change log cs).
Proof.
  intros Hl Hcs. revert log Hl. induction Hcs as [|c cs Hc _ IH]; intros log Hl; cbn [foldl]; [done|].
  by apply IH, push_change_all.
Qed.

Lemma push_change_length log c :
  Z.of_nat (length log) <= 200000 -> Z.of_nat (length (push_change log c)) <= 200000.
Proof.
  intros H. unfold push_change. assert (Z.of_nat (length (log ++ [c])) <= 200001) as Hl
    by (rewrite length_app; cbn [length]; lia).
  destruct (_ >? _) eqn:E; zbool; [rewrite length_drop; lia|]. unfold kMaxChangeLog in E. lia.
Qed.

Lemma push_changes_length cs log :
  Z.of_nat (length log) <= 200000 -> Z.of_nat (length (foldl push_change log cs)) <= 200000.
Proof.
  revert log. induction cs as [|c cs IH]; intros log H; cbn [foldl]; [done|]. by apply IH, push_change_length.
Qed.

(* ------------------------------------------------------------------ *)
(** ** Lemmas: devices *)

Ltac dev_typed H :=
  destruct H; split; cbn in *; try assumption; try enum_wf_solve;
  try (vm_compute; congruence).

Lemma set_elig_typed s rs d :
  device_state_wf d -> enum_wf s -> Forall enum_wf rs -> Z.of_nat (length rs) <= 32 ->
  device_state_wf (d_set_elig s rs d).
Proof. intros H ? ? ?. dev_typed H. Qed.

Lemma set_fresh_typed b d : device_state_wf d -> device_state_wf (d_set_fresh b d).
Proof. intros H. dev_typed H. Qed.

Lemma set_presence_typed b h d : device_state_wf d -> enum_wf h -> device_state_wf (d_set_presence b h d).
Proof. intros H ?. dev_typed H. Qed.

Lemma set_drain_typed x d : device_state_wf d -> enum_wf x -> device_state_wf (d_set_drain x d).
Proof. intros H ?. dev_typed H. Qed.

Lemma set_quarantine_typed b q d :
  device_state_wf d -> quarantine_wf q -> device_state_wf (d_set_quarantine b q d).
Proof. intros H ?. dev_typed H. Qed.

Lemma set_health_generation_typed g d :
  device_state_wf d -> gen_wf g -> device_state_wf (d_set_health_generation g d).
Proof. intros H ?. dev_typed H. Qed.

#[export] Hint Resolve set_elig_typed set_fresh_typed set_presence_typed set_drain_typed
  set_quarantine_typed set_health_generation_typed : typed.
#[export] Hint Extern 1 (enum_wf _) => solve [enum_wf_solve] : typed.
#[export] Hint Extern 1 (Forall enum_wf _) =>
  solve [cbn; repeat (apply List.Forall_cons; [enum_wf_solve|]); apply List.Forall_nil] : typed.
#[export] Hint Extern 1 (_ <= 32) => solve [vm_compute; congruence] : typed.

(** An evaluation names enumerators, and at most one reason. *)
Lemma eligibility_typed inp :
  enum_wf (el_state (evaluate_eligibility inp)) /\
  Forall enum_wf (el_reasons (evaluate_eligibility inp)) /\
  Z.of_nat (length (el_reasons (evaluate_eligibility inp))) <= 32.
Proof.
  rewrite evaluate_is_spec. unfold eligibility_spec, gate_table. cbn [first_gate].
  repeat case_branch; split_and!; auto with typed; destruct (ei_health inp); auto with typed.
Qed.

Lemma recompute_typed d : device_state_wf d -> device_state_wf (recompute_device_eligibility d).
Proof.
  intros H. destruct (eligibility_typed (recompute_input d)) as (? & ? & ?).
  unfold recompute_device_eligibility. by apply set_elig_typed.
Qed.

Lemma lose_device_typed d : device_state_wf d -> device_state_wf (lose_device d).
Proof. intros H. unfold lose_device. case_branch; auto with typed. Qed.

Lemma disappeared_typed d : device_state_wf d -> device_state_wf (disappeared_device d).
Proof. intros H. unfold disappeared_device. auto 6 with typed. Qed.

Lemma recover_device_typed d : device_state_wf d -> device_state_wf (recover_device d).
Proof.
  intros H. unfold recover_device. repeat case_branch; auto with typed;
    apply set_elig_typed; auto with typed; destruct H; assumption.
Qed.


(** A field of a default value. *)
Ltac small_field :=
  first [ solve [unfold is_u, is_s, kInvalidTimestamp; cbn; lia] | solve [intros ? [=]]
        | apply List.Forall_nil | enum_wf_solve | solve [vm_compute; congruence] ].

Lemma device_default_typed : device_state_wf device_default.
Proof.
  split; cbn; try small_field.
  - split; cbn; small_field.
  - split; cbn; small_field.
Qed.

(** The pipeline's verdict on the health: an enumerator and one of its texts. *)
Lemma pipeline_health_typed o known stale :
  let h := evaluate_health (health_signals_from_probe o known stale) in
  enum_wf (h_state h) /\ str_fits 4096 (h_explanation h).
Proof.
  cbn zeta. unfold evaluate_health. cbn [health_signals_from_probe hs_quarantined hs_explicitly_drained
    hs_consecutive_failures hs_failure_threshold].
  assert (((if o_core_validation_ok o then 0 else 1) >=? 3) = false) as ->
    by (by destruct (o_core_validation_ok o)).
  repeat case_branch; (split; [auto with typed|vm_compute; congruence]).
Qed.

Lemma apply_observation_typed prior o policy now epoch :
  device_state_wf prior -> observation_wf o -> is_i64 now ->
  device_state_wf (ao_state (apply_observation prior o policy now epoch)).
Proof.
  intros [] [] Hnow. unfold apply_observation. cbv zeta. cbn [ao_state].
  match goal with |- context [evaluate_health (health_signals_from_probe o ?k ?s)] =>
    destruct (pipeline_health_typed o k s) as [Hh He] end. cbn zeta in Hh, He.
  match goal with |- context [el_state (evaluate_eligibility ?i)] =>
    destruct (eligibility_typed i) as (Hs & Hr & Hn) end.
  split; cbn; try assumption.
  - by case_branch.
  - by case_branch.
  - small_field.
Qed.

Lemma ingest_apply_typed o policy now st :
  fleet_typed st -> observation_wf o -> is_i64 now ->
  device_state_wf (ao_state (ingest_apply o policy now st)).
Proof.
  intros Hst Ho Hnow. unfold ingest_apply. cbn [ao_state]. apply set_health_generation_typed;
    [|by destruct Ho]. apply apply_observation_typed; [|done|done].
  destruct (fs_devices st !! _) as [d|] eqn:E; [by eapply ft_devices|apply device_default_typed].
Qed.

(* ------------------------------------------------------------------ *)
(** ** Lemmas: keys and values *)

Lemma key_typed i : identity_wf i -> str_fits key_limit (canonical_device_identity i).
Proof.
  intros [].
  assert (str_fits 16 (AcceleratorVendor.to_string (id_vendor i))) by (destruct (id_vendor i); vm_compute; congruence).
  unfold str_fits, key_limit, canonical_device_identity, pci_to_string, cc_to_string in *.
  rewrite !str_len_app.
  pose proof (to_dec_fits (id_total_physical_memory i)).
  pose proof (to_dec_fits (cc_major (id_compute_capability i))).
  pose proof (to_dec_fits (cc_minor (id_compute_capability i))).
  pose proof (to_hex_fits 4 (pci_domain (id_pci i)) ltac:(lia)).
  pose proof (to_hex_fits 2 (pci_bus (id_pci i)) ltac:(lia)).
  pose proof (to_hex_fits 2 (pci_device (id_pci i)) ltac:(lia)).
  pose proof (to_hex_fits 1 (pci_function (id_pci i)) ltac:(lia)).
  unfold str_fits in *. change (str_len "|") with 1. change (str_len ":") with 1. change (str_len ".") with 1.
  lia.
Qed.

Lemma value_small n s : str_fits n s -> n <= 4096 -> str_fits value_limit s.
Proof. intros H Hn. eapply fits_le; [exact H|]. unfold value_limit. lia. Qed.

Lemma value_dec n : str_fits value_limit (to_dec n).
Proof. apply (value_small 20); [apply to_dec_fits|lia]. Qed.

Lemma value_caps caps :
  Forall capability_wf caps -> Z.of_nat (length caps) <= 4096 -> str_fits value_limit (caps_key caps).
Proof.
  intros Hc Hn. assert (forall s, str_len (foldl (fun s x => s +:+ cap_name x +:+ "=" +:+ cap_value x +:+ ";") s caps)
    <= str_len s + Z.of_nat (length caps) * (128 + 256 + 2)) as H.
  { clear Hn. induction Hc as [|c caps [] _ IH]; intros s; cbn [foldl length]; [lia|].
    etransitivity; [apply IH|]. rewrite !str_len_app. unfold str_fits in *.
    change (str_len "=") with 1. change (str_len ";") with 1. lia. }
  unfold str_fits, value_limit, caps_key. specialize (H ""). change (str_len "") with 0 in H. lia.
Qed.

Lemma value_health h : str_fits value_limit (HealthState.to_string h).
Proof. apply (value_small 64); [destruct h; vm_compute; congruence|lia]. Qed.
Lemma value_eligibility e : str_fits value_limit (EligibilityState.to_string e).
Proof. apply (value_small 64); [destruct e; vm_compute; congruence|lia]. Qed.
Lemma value_drain d : str_fits value_limit (DrainState.to_string d).
Proof. apply (value_small 64); [destruct d; vm_compute; congruence|lia]. Qed.

Lemma value_id {t} (i : StrongId t) : str_fits value_limit (id_to_string i).
Proof. apply value_dec. Qed.

(** A value that is a literal, or the print of a field. *)
Ltac value_solve :=
  match goal with
  | |- str_fits value_limit (String _ _) => vm_compute; congruence
  | |- str_fits value_limit _ =>
      first [assumption | apply value_dec | apply value_id | apply value_health | apply value_eligibility
            | apply value_drain]
  end.
#[export] Hint Extern 1 (str_fits value_limit _) => value_solve : typed.

(* ------------------------------------------------------------------ *)
(** ** Lemmas: changes *)

Lemma change_typed_intro k id at_ g e detail from to :
  enum_wf k -> id_wf id -> is_i64 at_ -> gen_wf g -> gen_wf e -> str_fits 512 detail ->
  str_fits value_limit from -> str_fits value_limit to ->
  change_typed (MkChange k id at_ g e detail from to).
Proof. intros. split; [|by split]. split; cbn; try assumption; vm_compute; congruence. Qed.

Lemma push_if_typed cand t g e b k detail from to :
  device_state_wf cand -> enum_wf k -> is_i64 t -> gen_wf g -> gen_wf e -> str_fits 512 detail ->
  str_fits value_limit from -> str_fits value_limit to ->
  Forall change_typed (push_if cand t g e b k detail from to).
Proof.
  intros [] ? ? ? ? ? ? ?. unfold push_if. destruct b; [|by apply List.Forall_nil].
  constructor; [|by apply List.Forall_nil]. by apply change_typed_intro.
Qed.

Lemma diff_typed prior cand t g e :
  device_state_wf prior -> device_state_wf cand -> is_i64 t -> gen_wf g -> gen_wf e ->
  Forall change_typed (diff_device_state prior cand t g e).
Proof.
  intros Hp Hc Ht Hg He.
  assert (forall d, device_state_wf d -> str_fits value_limit (uuid_value (id_uuid (d_identity d))) /\
    str_fits value_limit (dv_text (id_driver_version (d_identity d))) /\
    str_fits value_limit (caps_key (d_capabilities d))) as Hv.
  { intros d [? ? [] ? ? ? ? ? ? ? ? ? ? ? ? Hcap Hn]. split_and!; [by apply (value_small 128)..|by apply value_caps]. }
  destruct (Hv prior Hp) as (? & ? & ?), (Hv cand Hc) as (? & ? & ?).
  unfold diff_device_state. repeat (apply Forall_app; split); repeat case_branch;
    try apply List.Forall_nil; (apply push_if_typed;
      [assumption|auto with typed|assumption..|vm_compute; congruence|value_solve|value_solve]).
Qed.

Lemma apply_changes_typed prior o policy now epoch :
  device_state_wf prior -> observation_wf o -> is_i64 now -> gen_wf epoch ->
  Forall change_typed (ao_changes (apply_observation prior o policy now epoch)).
Proof.
  intros Hp Ho Hnow He. pose proof (apply_observation_typed prior o policy now epoch Hp Ho Hnow) as Hc.
  unfold apply_observation in *. cbv zeta in *. cbn [ao_state ao_changes] in *.
  apply diff_typed; [exact Hp|exact Hc| | |done]; by destruct Ho.
Qed.

(* ------------------------------------------------------------------ *)
(** ** Lemmas: the store's members *)

Lemma set_devices_typed m st :
  fleet_typed st -> (forall k d, m !! k = Some d -> str_fits key_limit k /\ device_state_wf d) ->
  fleet_typed (set_devices m st).
Proof. intros [] Hm. split; try done; intros k d Hk; by apply (Hm k d). Qed.

Lemma set_workers_typed m st :
  fleet_typed st -> (forall k wr, m !! k = Some wr -> worker_typed k wr) -> fleet_typed (set_workers m st).
Proof. intros [] Hm. by split. Qed.

Lemma set_log_typed l st :
  fleet_typed st -> Forall change_typed l -> Z.of_nat (length l) <= 200000 ->
  fleet_typed (set_change_log l st).
Proof. intros [] ? ?. by split. Qed.

Lemma device_typed k d st :
  fleet_typed st -> fs_devices st !! k = Some d -> str_fits key_limit k /\ device_state_wf d.
Proof. intros Hst Hk. split; [by eapply ft_keys|by eapply ft_devices]. Qed.

Lemma put_device_typed k d st :
  fleet_typed st -> str_fits key_limit k -> device_state_wf d -> fleet_typed (put_device k d st).
Proof.
  intros Hst Hk Hd. apply set_devices_typed; [done|].
  apply (lookup_insert_all (fun k d => str_fits key_limit k /\ device_state_wf d)); [|done].
  intros k' d'. by apply device_typed.
Qed.

Lemma put_worker_typed w wr st : fleet_typed st -> worker_typed w wr -> fleet_typed (put_worker w wr st).
Proof. intros Hst Hw. apply set_workers_typed; [done|]. by apply lookup_insert_all; [apply ft_workers|]. Qed.

Lemma alter_worker_typed f w st :
  fleet_typed st -> (forall wr, worker_typed w wr -> worker_typed w (f wr)) -> fleet_typed (alter_worker f w st).
Proof. intros Hst Hf. apply set_workers_typed; [done|]. apply lookup_alter_all; [by apply ft_workers|done]. Qed.

Lemma log_change_typed c st : fleet_typed st -> change_typed c -> fleet_typed (log_change c st).
Proof.
  intros Hst Hc. apply set_log_typed; [done|apply push_change_all; [by apply ft_changes|done]|].
  apply push_change_length, ft_log, Hst.
Qed.

Lemma accepted_typed st : fleet_typed st -> fleet_typed (set_accepted (wrap 64 (fs_accepted st + 1)) st).
Proof. intros []. split; try done. cbn. by apply wrap_range. Qed.

Lemma ensure_node_typed n now st :
  id_wf n -> is_i64 now -> fleet_typed st -> fleet_typed (ensure_node n now st).
Proof.
  intros Hn Hnow Hst. unfold ensure_node. case_branch; [done|]. destruct Hst. split; try done. cbn.
  apply (lookup_insert_all node_typed); [done|]. split; [done|]. split; cbn; [done|unfold is_u; lia|done].
Qed.

#[export] Hint Resolve put_device_typed put_worker_typed alter_worker_typed log_change_typed accepted_typed
  ensure_node_typed recompute_typed disappeared_typed lose_device_typed : typed.

(* ------------------------------------------------------------------ *)
(** ** Lemmas: workers *)

Ltac wrk_typed H :=
  destruct H; split; cbn in *; first [assumption | apply List.Forall_nil | lia | idtac].

Lemma new_worker_typed reg now :
  registration_wf reg -> is_i64 now -> worker_typed (r_worker reg) (new_worker_record reg now).
Proof.
  intros H ?. split; [done|]. split.
  - wrk_typed H. by apply wrap_range.
  - eapply Forall_impl; [exact (rw_devices reg H)|]. intros s Hs. eapply fits_le; [exact Hs|done].
Qed.

Lemma reaffirm_typed reg now w wr :
  registration_wf reg -> is_i64 now -> worker_typed w wr -> worker_typed w (reaffirm_worker reg now wr).
Proof.
  intros Hr ? (Hw & H & Hk). split; [exact Hw|]. split.
  - destruct Hr. wrk_typed H.
  - eapply Forall_impl; [exact (rw_devices reg Hr)|]. intros s Hs. eapply fits_le; [exact Hs|done].
Qed.

Lemma lose_worker_typed w wr : worker_typed w wr -> worker_typed w (lose_worker wr).
Proof. intros (Hw & H & Hk). split_and!; [exact Hw| |exact Hk]. wrk_typed H. Qed.
Lemma push_identity_typed k w wr :
  str_fits key_limit k -> worker_typed w wr -> worker_typed w (push_identity k wr).
Proof.
  intros Hk (Hw & H & Hks). split_and!; [exact Hw|exact H|]. cbn. apply Forall_app. split; [done|].
  by apply Forall_singleton.
Qed.
Lemma touch_worker_typed now w wr : is_i64 now -> worker_typed w wr -> worker_typed w (touch_worker now wr).
Proof. intros ? (Hw & H & Hk). split_and!; [exact Hw| |exact Hk]. wrk_typed H. Qed.
Lemma beat_worker_typed now w wr : is_i64 now -> worker_typed w wr -> worker_typed w (beat_worker now wr).
Proof. intros ? (Hw & H & Hk). split_and!; [exact Hw| |exact Hk]. wrk_typed H. Qed.

#[export] Hint Resolve new_worker_typed reaffirm_typed lose_worker_typed push_identity_typed
  touch_worker_typed beat_worker_typed : typed.

(* ------------------------------------------------------------------ *)
(** ** Lemmas: operations *)

Lemma register_typed reg now st :
  registration_wf reg -> is_i64 now -> fleet_typed st -> fleet_typed (register_worker reg now st).1.
Proof.
  intros Hr Hnow Hst. assert (fleet_typed (admit_worker reg now st).1) as Ha.
  { unfold admit_worker. cbn [fst]. apply ensure_node_typed; [by destruct Hr|done|auto with typed]. }
  unfold register_worker. repeat case_branch; try done; cbn [fst].
  apply put_worker_typed; [done|]. apply reaffirm_typed; [done|done|]. eapply (ft_workers st Hst); eassumption.
Qed.

Lemma lost_typed w now st : fleet_typed st -> fleet_typed (mark_worker_lost w now st).1.
Proof.
  intros Hst. unfold mark_worker_lost. destruct (fs_workers st !! w) as [wr|] eqn:E; [|done]. cbn [fst].
  apply set_devices_typed; [apply put_worker_typed; [done|]; apply lose_worker_typed; by eapply ft_workers|].
  cbn. assert (forall k d, fs_devices st !! k = Some d -> str_fits key_limit k /\ device_state_wf d) as Hd
    by (intros k d; by apply device_typed). revert Hd. generalize (fs_devices st) as m.
  induction (w_device_identities wr) as [|k ks IH]; intros m Hm; cbn [foldl]; [done|].
  apply IH. apply (lookup_alter_all (fun k d => str_fits key_limit k /\ device_state_wf d)); [done|].
  intros d [? ?]. split; [done|by apply lose_device_typed].
Qed.

Lemma commit_typed w o policy now st :
  fleet_typed st -> observation_wf o -> is_i64 now ->
  fleet_typed (ingest_commit w o (ingest_apply o policy now st) st).
Proof.
  intros Hst Ho Hnow. unfold ingest_commit. cbv zeta.
  set (a := ingest_apply o policy now st).
  assert (str_fits key_limit (canonical_device_identity (o_identity o))) as Hkey
    by (apply key_typed; by destruct Ho).
  assert (fleet_typed (set_change_log (foldl push_change (fs_change_log st) (ao_changes a))
            (put_device (canonical_device_identity (o_identity o)) (ao_state a) st))) as H1.
  { apply set_log_typed; [apply put_device_typed; [done|done|by apply ingest_apply_typed]| |];
      [|apply push_changes_length, ft_log, Hst].
    apply push_changes_all; [by apply ft_changes|]. unfold a, ingest_apply. cbn [ao_changes].
    apply apply_changes_typed; [|done|done|by apply ft_epoch].
    destruct (fs_devices st !! _) as [d|] eqn:E; [by eapply ft_devices|apply device_default_typed]. }
  case_branch.
  - by apply (accepted_typed (set_change_log _ _)).
  - apply (accepted_typed (alter_worker _ _ _)). apply alter_worker_typed; [done|auto with typed].
Qed.

Lemma ingest_loop_typed w boot policy now obs acc :
  Forall observation_wf obs -> is_i64 now -> fleet_typed (ia_state acc) ->
  fleet_typed (ia_state (ingest_loop w boot policy now obs acc).1).
Proof.
  intros Hobs Hnow. revert acc. induction Hobs as [|o obs Ho _ IH]; intros acc Hacc; cbn [ingest_loop]; [done|].
  case_branch; [done|by apply IH|]. apply IH. cbn [ia_state]. by apply commit_typed.
Qed.

Lemma sweep_typed seen now keys st :
  is_i64 now -> fleet_typed st -> fleet_typed (foldl (sweep_key seen now) st keys).
Proof.
  intros Hnow. revert st. induction keys as [|k keys IH]; intros st Hst; cbn [foldl]; [done|]. apply IH.
  unfold sweep_key. case_branch; [done|]. destruct (fs_devices st !! k) as [d|] eqn:E; [|done].
  pose proof (ft_devices st Hst k d E) as Hd. apply put_device_typed;
    [|by eapply ft_keys|auto with typed].
  apply log_change_typed; [done|]. pose proof (ft_epoch st Hst). destruct Hd.
  apply change_typed_intro; auto with typed. vm_compute; congruence.
Qed.

Lemma ingest_typed w obs policy now st :
  Forall observation_wf obs -> is_i64 now -> fleet_typed st ->
  fleet_typed (ingest_snapshot w obs policy now st).1.
Proof.
  intros Hobs Hnow Hst. unfold ingest_snapshot. destruct (fs_workers st !! w) as [wr|]; [|done].
  case_branch; [done|].
  pose proof (ingest_loop_typed w (w_boot wr) policy now obs (MkAcc st ∅ applied_default) Hobs Hnow Hst) as Hl.
  destruct (ingest_loop _ _ _ _ _ _) as [acc [e|]]; cbn [fst] in *; [done|].
  apply alter_worker_typed; [by apply sweep_typed|auto with typed].
Qed.

Lemma heartbeat_typed w boot epoch now hg st :
  is_i64 now -> fleet_typed st -> fleet_typed (heartbeat w boot epoch now hg st).1.
Proof.
  intros Hnow Hst. unfold heartbeat. repeat case_branch; try done. cbn [fst].
  apply put_worker_typed; [done|]. apply beat_worker_typed; [done|]. by eapply ft_workers.
Qed.

(** The change an administrative operation logs. *)
Lemma admin_change_typed kind d now detail from to st :
  fleet_typed st -> device_state_wf d -> enum_wf kind -> is_i64 now -> str_fits 512 detail ->
  str_fits value_limit from -> str_fits value_limit to ->
  change_typed (admin_change kind d now detail from to st).
Proof. intros Hst [] ? ? ? ? ?. pose proof (ft_epoch st Hst). by apply change_typed_intro. Qed.

Lemma drain_kind_typed d : enum_wf (drain_change_kind d).
Proof. unfold drain_change_kind. case_branch; auto with typed. Qed.

Lemma drain_typed w k d now st :
  enum_wf d -> is_i64 now -> fleet_typed st -> fleet_typed (set_drain w k d now st).1.
Proof.
  intros Hd Hnow Hst. unfold set_drain. destruct (fs_devices st !! k) as [dev|] eqn:E; [|done].
  pose proof (ft_devices st Hst k dev E) as Hdev. case_branch; [done|]. cbn [fst].
  assert (device_state_wf (recompute_device_eligibility (d_set_drain d dev))) by auto with typed.
  pose proof (ft_keys st Hst k dev E). apply log_change_typed; [by apply put_device_typed|].
  apply admin_change_typed; auto using drain_kind_typed; [vm_compute; congruence|value_solve..].
Qed.

Lemma quarantine_typed w k q now st :
  quarantine_wf q -> is_i64 now -> fleet_typed st -> fleet_typed (set_quarantine w k q now st).1.
Proof.
  intros Hq Hnow Hst. unfold set_quarantine. destruct (fs_devices st !! k) as [dev|] eqn:E; [|done].
  pose proof (ft_devices st Hst k dev E) as Hdev. case_branch; [done|]. cbn [fst].
  assert (device_state_wf (recompute_device_eligibility (d_set_quarantine true q dev))) by auto with typed.
  pose proof (ft_keys st Hst k dev E).
  case_branch; [|by apply put_device_typed]. apply log_change_typed; [by apply put_device_typed|].
  apply admin_change_typed; auto with typed. by destruct Hq.
Qed.

Lemma quarantine_default_typed : quarantine_wf quarantine_default.
Proof. split; cbn; small_field. Qed.

Lemma clear_typed w k e now st :
  is_i64 now -> fleet_typed st -> fleet_typed (clear_quarantine w k e now st).1.
Proof.
  intros Hnow Hst. unfold clear_quarantine. case_branch; [done|].
  destruct (fs_devices st !! k) as [dev|] eqn:E; [|done].
  pose proof (ft_devices st Hst k dev E) as Hdev. case_branch; [done|]. cbn [fst].
  assert (device_state_wf (recompute_device_eligibility (d_set_quarantine false quarantine_default dev)))
    by auto using quarantine_default_typed with typed.
  pose proof (ft_keys st Hst k dev E). apply log_change_typed; [by apply put_device_typed|].
  apply admin_change_typed; auto with typed. vm_compute; congruence.
Qed.

Lemma roll_typed ne st : gen_wf ne -> fleet_typed st -> fleet_typed (roll_epoch ne st).1.
Proof.
  intros Hne Hst. unfold roll_epoch. case_branch; [done|]. destruct Hst. split; try done. cbn. apply gen_next_wf.
Qed.

Lemma run_op_typed op st : op_typed op -> fleet_typed st -> fleet_typed (run_op op st).
Proof.
  destruct op; cbn [op_typed run_op]; intros H Hst; deex;
    [by apply roll_typed|by apply register_typed|by apply lost_typed|by apply ingest_typed
    |by apply heartbeat_typed|by apply drain_typed|by apply quarantine_typed|by apply clear_typed].
Qed.

(* ------------------------------------------------------------------ *)
(** ** Lemmas: the coordinator *)

Lemma dispatch_op_typed now msg st op :
  message_wf msg -> is_i64 now -> fleet_typed st -> dispatch_op now msg st = Some op -> op_typed op.
Proof.
  intros Hm Hnow Hst. unfold dispatch_op. destruct (m_type msg); try done.
  - destruct (decode_registration _) as [reg|] eqn:E; [|done]. intros [= <-].
    split; [by eapply decode_registration_wf|done].
  - case_branch; [done|]. by intros [= <-].
  - destruct (decode_observation_batch _) as [obs|] eqn:E; [|done]. intros [= <-].
    split; [by eapply decode_observation_batch_wf|done].
  - destruct (decode_observation_batch _) as [obs|] eqn:E; [|done]. intros [= <-].
    split; [by eapply decode_observation_batch_wf|done].
  - destruct (decode_observation_batch _) as [obs|] eqn:E; [|done]. intros [= <-].
    split; [by eapply decode_observation_batch_wf|done].
  - destruct (decode_drain_target _) as [t|] eqn:E; [|done]. intros [= <-].
    split; [by apply (decode_drain_target_wf _ _ E)|done].
  - destruct (decode_drain_target _) as [t|] eqn:E; [|done]. intros [= <-].
    split; [by apply (decode_drain_target_wf _ _ E)|done].
  - destruct (decode_quarantine _) as [q|] eqn:E; [|done]. intros [= <-].
    destruct (decode_quarantine_wf _ _ E) as (_ & ? & ? & ?). split; [|done].
    split; try done; by apply ft_epoch.
  - destruct (decode_identity_target _) as [t|] eqn:E; [|done]. by intros [= <-].
  - intros [= <-]. cbn. by destruct Hm.
Qed.

Lemma label_op_typed l s op :
  clock_typed l -> fleet_typed (co_store (sv_co s)) ->
  label_op l s = Some op -> op_typed op.
Proof.
  unfold clock_typed. intros Hl Hst. destruct l as [i|i data|i now io|i now|i|now|now]; cbn [label_op label_clock] in *; try done.
  - destruct (sv_conns s !! i) as [cn|]; [|done]. cbn. unfold frame_op.
    destruct (scan (cn_buf cn)) as [[|f|m] buf]; try done.
    destruct (decode_message (f_payload f)) as [msg|] eqn:E; [|done].
    apply dispatch_op_typed; [by eapply decode_message_wf|by apply Hl|done].
  - destruct (sv_conns s !! i) as [cn|]; [|done]. cbn. destruct (cn_worker cn) as [w|]; [|done].
    intros [= <-]. by apply Hl.
  - destruct (sv_overdue s); [done|]. intros [= <-]. by apply Hl.
Qed.

Lemma server_do_typed l s s' :
  clock_typed l -> fleet_typed (co_store (sv_co s)) ->
  server_do l s = Some s' -> fleet_typed (co_store (sv_co s')).
Proof.
  intros Hl Hst Hdo. destruct (server_do_store _ _ _ Hdo) as [-> _]. unfold run_opt.
  destruct (label_op l s) as [op|] eqn:E; [|done].
  apply run_op_typed; [by eapply label_op_typed|done].
Qed.

Lemma server_run_typed ls s s' :
  Forall clock_typed ls ->
  fleet_typed (co_store (sv_co s)) -> server_run ls s = Some s' -> fleet_typed (co_store (sv_co s')).
Proof.
  intros Hls. revert s. induction Hls as [|l ls Hl _ IH]; intros s Hst; cbn [server_run]; [by intros [= <-]|].
  destruct (server_do l s) as [s1|] eqn:E; [|done]. cbn. apply IH. by eapply server_do_typed.
Qed.

(** Forgetting the keys of the devices keeps a record typed. *)
Lemma record_wf_typed wr : worker_record_wf wr -> worker_typed (w_worker wr) wr.
Proof.
  intros []. split_and!; [done|by split; cbn; first [assumption|apply List.Forall_nil|lia]|].
  eapply Forall_impl; [exact ww_devices|]. intros s Hs. eapply fits_le; [exact Hs|done].
Qed.

Lemma change_wf_typed c : change_wf c -> change_typed c.
Proof. destruct c. intros []. by apply change_typed_intro; [..|apply (value_small 128)|apply (value_small 128)]. Qed.

Lemma fleet_init_typed c e : id_wf c -> gen_wf e -> fleet_typed (fleet_init c e).
Proof.
  intros. split; cbn; try done; try (unfold is_u; lia); try lia.
Qed.

(** Whatever the state file holds, [start] leaves a typed store. *)
Lemma start_typed opts io fs :
  id_wf (op_coordinator_id opts) -> gen_wf (op_initial_epoch opts) ->
  fleet_typed (co_store (start opts io fs).1).
Proof.
  intros Hc He. destruct (start_store opts io fs) as [->|(s & Hs & ->)]; [by apply fleet_init_typed|].
  destruct (load_snapshot_wf _ _ _ _ Hs). cbn. split; cbn; try done.
  - intros k wr Hk. destruct (scw_workers k wr Hk) as [<- ?]. by apply record_wf_typed.
  - intros k d. rewrite lookup_fmap. destruct (s_devices s !! k) as [d0|] eqn:E; [|done].
    intros [= <-]. apply recover_device_typed. by eapply scw_devices.
  - intros k d. rewrite lookup_fmap. destruct (s_devices s !! k) as [d0|] eqn:E; [|done].
    intros _. eapply fits_le; [exact (proj1 (scw_devices _ _ E))|done].
  - eapply Forall_impl; [exact scw_changes|]. apply change_wf_typed.
Qed.

(** A typed store within the format's sizes is one the state file holds. *)
Lemma typed_codec_wf st : fleet_typed st -> within_limits st -> snapshot_codec_wf (snapshot st).
Proof.
  intros [] []. split; cbn; try assumption.
  - intros w wr Hw. destruct (ft_workers0 w wr Hw) as (? & [] & _). destruct (wl_identities0 w wr Hw).
    split; [done|]. by split.
  - intros k d Hk. split; [by eapply wl_keys0|by eapply ft_devices0].
  - apply Forall_forall. intros c Hc. rewrite !Forall_forall in *.
    destruct (ft_changes0 c Hc) as [[] _], (wl_values0 c Hc). by split.
Qed.

Lemma reachable_typed opts io fs ls s :
  id_wf (op_coordinator_id opts) -> gen_wf (op_initial_epoch opts) -> Forall clock_typed ls ->
  server_run ls (server_init (start opts io fs).1) = Some s -> fleet_typed (co_store (sv_co s)).
Proof. intros Hc He Hls. apply (server_run_typed ls _ _ Hls). by apply start_typed. Qed.

(* ------------------------------------------------------------------ *)
(** ** Properties *)

(** C8. The coordinator is well typed: started from any state file, whatever bytes its
    clients send and however the threads interleave, every integer it holds is in the
    range of its C++ type, every enumeration is the value of a byte, every node and
    worker is filed under its own id, and every text is bounded: those stored as they
    were decoded by the decoder's bound, device keys - those devices are filed under
    and those of a worker's devices - by 600 bytes, and the values a change is from
    and to by what the longest field of a record prints as. (What key a device is
    filed under is the concern of the store's invariant.) *)
Theorem coordinator_well_typed opts io fs ls s :
  id_wf (op_coordinator_id opts) -> gen_wf (op_initial_epoch opts) -> Forall clock_typed ls ->
  server_run ls (server_init (start opts io fs).1) = Some s -> fleet_typed (co_store (sv_co s)).
Proof. apply reachable_typed. Qed.

(** C17. Crash recovery in every reachable state: when a running coordinator
    acknowledges a SAVE, within the sizes of the state-file format, a coordinator
    started on the same file has the epoch, workers and change log that were
    saved, and every device with its identity, quarantine and drain, none of them
    fresh or schedulable. *)
Theorem reachable_state_recovered opts io fs ls s now sio msg :
  id_wf (op_coordinator_id opts) -> gen_wf (op_initial_epoch opts) -> Forall clock_typed ls ->
  server_run ls (server_init (start opts io fs).1) = Some s ->
  m_type msg = MessageType.SAVE -> m_ok (dispatch now sio msg (sv_co s)).2 = true ->
  within_limits (co_store (sv_co s)) -> store_fits (snapshot (co_store (sv_co s))) ->
  let r := start (co_opts (sv_co s)) (MkLoadIo true true true)
             (co_fs (dispatch now sio msg (sv_co s)).1) in
  let st := co_store r.1 in
  r.2 = Ok tt /\ fs_epoch st = fs_epoch (co_store (sv_co s)) /\
  fs_workers st = fs_workers (co_store (sv_co s)) /\ fs_nodes st = fs_nodes (co_store (sv_co s)) /\
  fs_change_log st = fs_change_log (co_store (sv_co s)) /\
  forall k d, fs_devices (co_store (sv_co s)) !! k = Some d ->
    exists d', fs_devices st !! k = Some d' /\ d_identity d' = d_identity d /\
      d_observation_fresh d' = false /\ schedulable (d_eligibility d') = false /\
      d_quarantined d' = d_quarantined d /\ d_quarantine d' = d_quarantine d /\
      d_drain d' = d_drain d.
Proof.
  intros Hc He Hls Hrun Hty Hok Hlim Hfit.
  apply saved_state_recovered; try done. apply typed_codec_wf; [by eapply reachable_typed|done].
Qed.
