(* ===== verification/Agent.v ===== *)
(** * The worker agent ([agent/agent.hpp], [src/agent/agent.cpp])

    The agent's life over a device backend: the handshake, the publication of
    observations, heartbeats, the polling of inbound frames, and reconnection.
    The backend is an argument of each operation, since the hardware changes
    between calls; the socket is the list of what its receive calls return. *)

From S2P Require Import Prelude Core Codec Crc Message Framing Identity Health Eligibility.
From S2P Require Import Device Observation Change Pipeline Registration ObservationCodec.
From S2P Require Import Coordinator.

(** [make_fresh_boot_id]: the launch time, the process id and the counter of the
    process, mixed by shifts and exclusive or on 64 bits. *)
Definition make_fresh_boot_id (t pid counter : Z) : Z :=
  Z.lxor (Z.lxor (wrap 64 (Z.shiftl t 16)) (wrap 64 (Z.shiftl pid 8))) (Z.land counter 255).

(** The options an incarnation keeps and the agent's counters. *)
Record Agent := MkAgent {
  ag_node : NodeId;
  ag_worker : WorkerId;
  ag_boot : WorkerBootId;
  ag_os_platform : string;
  ag_last_known_epoch : CoordinatorEpoch;
  ag_reg_gen : RegistrationGeneration;
  ag_obs_gen : ObservationGeneration;
  ag_health_gen : HealthGeneration;
  ag_device_gen : DeviceGeneration
}.

(** The constructor: a zero boot id is replaced by a fresh one. *)
Definition agent_init (node : NodeId) (worker : WorkerId) (boot : WorkerBootId) (os : string)
  (t pid counter : Z) : Agent :=
  MkAgent node worker
    (if id_is_zero boot then MkId (make_fresh_boot_id t pid counter) else boot) os
    (MkGen 0) (MkGen 1) (MkGen 1) (MkGen 1) (MkGen 1).

Definition learn_epoch (e : CoordinatorEpoch) (ag : Agent) : Agent :=
  MkAgent (ag_node ag) (ag_worker ag) (ag_boot ag) (ag_os_platform ag) e
    (ag_reg_gen ag) (ag_obs_gen ag) (ag_health_gen ag) (ag_device_gen ag).

Definition next_registration (ag : Agent) : Agent :=
  MkAgent (ag_node ag) (ag_worker ag) (ag_boot ag) (ag_os_platform ag) (ag_last_known_epoch ag)
    (gen_next (ag_reg_gen ag)) (ag_obs_gen ag) (ag_health_gen ag) (ag_device_gen ag).

Definition next_snapshot (ag : Agent) : Agent :=
  MkAgent (ag_node ag) (ag_worker ag) (ag_boot ag) (ag_os_platform ag) (ag_last_known_epoch ag)
    (ag_reg_gen ag) (gen_next (ag_obs_gen ag)) (ag_health_gen ag) (gen_next (ag_device_gen ag)).

(* ------------------------------------------------------------------ *)
(** ** Messages *)

(** The bytes of a message on the wire. *)
Definition message_frame (m : Message) : list byte := encode_frame (m_type m) (encode_message m).

(** The fields every request of the agent carries. *)
Definition agent_message (t : MessageType) (epoch : CoordinatorEpoch) (hg : HealthGeneration)
  (payload : list byte) (ag : Agent) : Message :=
  MkMessage t (MkId 0) epoch (ag_boot ag) (ag_worker ag) (MkId 0) (MkId 0) (MkGen 0) (MkGen 0) hg
    (MkGen 0) (MkGen 0) 0 true "" payload.

Definition hello_message (ag : Agent) : Message :=
  agent_message MessageType.HELLO (MkGen 0) (MkGen 0) [] ag.

Definition register_message (reg : Registration) (ag : Agent) : Message :=
  agent_message MessageType.REGISTER (ag_last_known_epoch ag) (MkGen 0) (encode_registration reg) ag.

Definition snapshot_message (batch : list DeviceObservation) (ag : Agent) : Message :=
  agent_message MessageType.DEVICE_SNAPSHOT (ag_last_known_epoch ag) (MkGen 0)
    (encode_observation_batch batch) ag.

(** [send_heartbeat]. *)
Definition heartbeat_message (ag : Agent) : Message :=
  agent_message MessageType.HEARTBEAT (ag_last_known_epoch ag) (ag_health_gen ag) [] ag.

(** [handle_admin]: requests are acknowledged, replies ignored. *)
Definition handle_admin (msg : Message) (ag : Agent) : option Message :=
  match m_type msg with
  | MessageType.ACK | MessageType.ERROR | MessageType.REGISTER_ACK
  | MessageType.SNAPSHOT_RESPONSE => None
  | _ => Some (MkMessage MessageType.ACK (MkId 0) (MkGen 0) (ag_boot ag) (ag_worker ag) (MkId 0)
                 (MkId 0) (MkGen 0) (MkGen 0) (MkGen 0) (MkGen 0) (MkGen 0) (m_request_id msg)
                 true "" [])
  end.

(* ------------------------------------------------------------------ *)
(** ** Receiving *)

(** The frames of the buffer up to the first that decodes; a frame that does not
    decode is skipped. *)
Inductive Scanned := Found (m : Message) | Wait (buf : list byte) | BadFrame.

Fixpoint first_message (fuel : nat) (buf : list byte) : Scanned :=
  match fuel with
  | O => Wait buf
  | S n =>
      match scan buf with
      | (NeedMore, buf) => Wait buf
      | (FeedError _, _) => BadFrame
      | (FrameReady pending, buf) =>
          match decode_message (f_payload pending) with
          | Ok m => Found m
          | Err _ => first_message n buf
          end
      end
  end.

(** [read_one_message]: at most [tries] receives, with a decoder of its own,
    whose leftover bytes are lost. A silent socket reports nothing until the
    tries are spent. *)
Fixpoint read_message (tries : nat) (buf : list byte) (events : list Recv)
  : Result Message * list Recv :=
  match tries with
  | O => (error_result Io "timeout waiting for message", events)
  | S n =>
      match events with
      | [] => (error_result Io "timeout waiting for message", [])
      | RecvError :: events => (error_result Io "recv error waiting for message", events)
      | RecvNone :: events => read_message n buf events
      | RecvData [] :: events => (error_result Io "connection closed waiting for message", events)
      | RecvData data :: events =>
          match first_message (S (length (buf ++ data))) (buf ++ data) with
          | Found m => (Ok m, events)
          | Wait buf => read_message n buf events
          | BadFrame => (error_result Io "frame error waiting for message", events)
          end
      end
  end.

Definition read_one_message (events : list Recv) : Result Message * list Recv :=
  read_message 64 [] events.

(** The frames of one receive of the main loop: the acknowledgements sent, the
    buffer left, and whether the stream is still good. *)
Fixpoint admin_frames (fuel : nat) (ag : Agent) (buf : list byte)
  : list Message * list byte * bool :=
  match fuel with
  | O => ([], buf, true)
  | S n =>
      match scan buf with
      | (NeedMore, buf) => ([], buf, true)
      | (FeedError _, buf) => ([], buf, false)
      | (FrameReady pending, buf) =>
          let '(out, buf', alive) := admin_frames n ag buf in
          (match decode_message (f_payload pending) with
           | Ok m => option_list (handle_admin m ag)
           | Err _ => []
           end ++ out, buf', alive)
      end
  end.

(** The inner polling loop: at most [tries] receives, until nothing is left. *)
Fixpoint poll (tries : nat) (ag : Agent) (buf : list byte) (events : list Recv)
  : list Message * list byte * bool * list Recv :=
  match tries with
  | O => ([], buf, true, events)
  | S n =>
      match events with
      | [] => ([], buf, true, [])
      | RecvNone :: events => ([], buf, true, events)
      | RecvError :: events => ([], buf, false, events)
      | RecvData [] :: events => ([], buf, false, events)
      | RecvData data :: events =>
          let buf := buf ++ data in
          match admin_frames (S (length buf)) ag buf with
          | (out, buf, false) => (out, buf, false, events)
          | (out, buf, true) =>
              let '(out', buf', alive, events') := poll n ag buf events in
              (out ++ out', buf', alive, events')
          end
      end
  end.

(* ------------------------------------------------------------------ *)
(** ** Over a device backend *)

Section Backend.
Context {B : Type} `{!DeviceBackend B}.

(** The registration built in [connect_and_register]. *)
Definition make_registration (b : B) (ag : Agent) : Registration :=
  MkRegistration (ag_node ag) (ag_worker ag) (ag_boot ag) (MkAgentVersion (MkSemanticVersion 1 0 0))
    (MkProtocolVersion protocol_version) (ag_os_platform ag) (MkDriverVersion "")
    (MkRuntimeVersion 0 0)
    (match backend_enumerate b with
     | Ok devices => map (fun d => canonical_device_identity (ed_identity d)) devices
     | Err _ => []
     end)
    ["cuda"; "synthetic"] (ag_reg_gen ag) (ag_last_known_epoch ag).

(** [connect_and_register]: the two sends' outcomes, what is received, and the
    messages sent. *)
Definition connect_and_register (b : B) (hello_sent register_sent : bool) (events : list Recv)
  (ag : Agent) : Agent * Result unit * list Message * list Recv :=
  let hello := hello_message ag in
  if negb hello_sent then (ag, error_result Io "hello send failed", [], events)
  else
    match read_one_message events with
    | (Err _, events) => (ag, error_result Io "no hello ack", [hello], events)
    | (Ok ack, events) =>
        let ag := learn_epoch (m_epoch ack) ag in
        let rmsg := register_message (make_registration b ag) ag in
        if negb register_sent then (ag, error_result Io "register send failed", [hello], events)
        else
          match read_one_message events with
          | (Err _, events) => (ag, error_result Io "no register ack", [hello; rmsg], events)
          | (Ok ack2, events) =>
              if negb (m_ok ack2) then
                (ag, error_result Rejected ("registration rejected: " +:+ m_reason ack2),
                 [hello; rmsg], events)
              else (next_registration ag, Ok tt, [hello; rmsg], events)
          end
    end.

(** The metadata of one device's observation. *)
Definition observation_metadata (now : Timestamp) (d : EnumeratedDevice) (ag : Agent)
  : ObservationMetadata :=
  MkMeta (MkId (wrap 64 (ed_ordinal d + 1))) (ag_obs_gen ag) (ag_health_gen ag) now (ag_boot ag)
    (ag_worker ag) (ag_node ag) (ag_last_known_epoch ag) (ag_device_gen ag).

(** The loop over the enumerated devices; the clock is read once per probed
    device. *)
Fixpoint observe_devices (b : B) (clock : nat -> Timestamp) (ag : Agent)
  (devices : list EnumeratedDevice) : list DeviceObservation :=
  match devices with
  | [] => []
  | d :: devices =>
      match backend_probe b d with
      | Err _ => observe_devices b clock ag devices
      | Ok probe =>
          normalize_observation probe (observation_metadata (clock 0%nat) d ag)
            :: observe_devices b (fun n => clock (S n)) ag devices
      end
  end.

(** [publish_snapshot]: the generations advance whether or not the send
    succeeds. *)
Definition publish_snapshot (b : B) (clock : nat -> Timestamp) (ag : Agent) : Agent * list Message :=
  match backend_enumerate b with
  | Err _ => (ag, [])
  | Ok devices =>
      match observe_devices b clock ag devices with
      | [] => (ag, [])
      | batch => (next_snapshot ag, [snapshot_message batch ag])
      end
  end.

(** One turn of the main loop of a connection: publish, poll, heartbeat. *)
Definition session_turn (b : B) (clock : nat -> Timestamp) (buf : list byte) (events : list Recv)
  (ag : Agent) : Agent * list Message * list byte * bool * list Recv :=
  let '(ag, published) := publish_snapshot b clock ag in
  let '(acks, buf, alive, events) := poll 16 ag buf events in
  (ag, published ++ acks ++ (if alive then [heartbeat_message ag] else []), buf, alive, events).

(** The environment of one turn: the hardware, the clock, what is received. *)
Record Turn := MkTurn { tn_backend : B; tn_clock : nat -> Timestamp; tn_events : list Recv }.

(** The turns of one connection, until it fails or the agent is stopped. *)
Fixpoint session (turns : list Turn) (buf : list byte) (ag : Agent) : Agent * list Message :=
  match turns with
  | [] => (ag, [])
  | t :: turns =>
      let '(ag, out, buf, alive, _) := session_turn (tn_backend t) (tn_clock t) buf (tn_events t) ag in
      if alive then let '(ag, out') := session turns buf ag in (ag, out ++ out') else (ag, out)
  end.

(** One attempt of [reconnect_loop]. *)
Record Attempt := MkAttempt {
  at_connected : bool;
  at_backend : B;
  at_hello_sent : bool;
  at_register_sent : bool;
  at_handshake : list Recv;
  at_turns : list Turn
}.

Definition attempt_connection (a : Attempt) (ag : Agent) : Agent * list Message :=
  if negb (at_connected a) then (ag, [])
  else
    match connect_and_register (at_backend a) (at_hello_sent a) (at_register_sent a)
            (at_handshake a) ag with
    | (ag, Ok _, out, _) => let '(ag, out') := session (at_turns a) [] ag in (ag, out ++ out')
    | (ag, Err _, out, _) => (ag, out)
    end.

(** The attempts made until [stop]. *)
Fixpoint reconnect_loop (attempts : list Attempt) (ag : Agent) : Agent * list Message :=
  match attempts with
  | [] => (ag, [])
  | a :: attempts =>
      let '(ag, out) := attempt_connection a ag in
      let '(ag, out') := reconnect_loop attempts ag in (ag, out ++ out')
  end.

End Backend.

Arguments Turn : clear implicits.
Arguments Attempt : clear implicits.

(* ------------------------------------------------------------------ *)
(** ** Lemmas *)

(** The incarnation an agent is, and a message that carries it. *)
Definition incarnation (ag : Agent) : WorkerId * WorkerBootId * NodeId :=
  (ag_worker ag, ag_boot ag, ag_node ag).
Definition carries (ag : Agent) (m : Message) : Prop :=
  m_worker m = ag_worker ag /\ m_worker_boot m = ag_boot ag.

(** What an operation of the agent preserves and sends. *)
Definition same_incarnation (ag : Agent) (r : Agent * list Message) : Prop :=
  incarnation r.1 = incarnation ag /\ Forall (carries ag) r.2.

Lemma carries_proper ag ag' m : incarnation ag' = incarnation ag -> carries ag' m -> carries ag m.
Proof. unfold carries. intros [= -> -> _]. done. Qed.

(** One operation after another. *)
Lemma same_incarnation_app ag ag1 out1 ag2 out2 :
  same_incarnation ag (ag1, out1) -> same_incarnation ag1 (ag2, out2) ->
  same_incarnation ag (ag2, out1 ++ out2).
Proof.
  intros [H1 F1] [H2 F2]. cbn in *. split; [cbn; congruence|]. apply Forall_app. split; [done|].
  eapply Forall_impl; [exact F2|]. intros m. by apply carries_proper.
Qed.

Lemma handle_admin_carries ag m : Forall (carries ag) (option_list (handle_admin m ag)).
Proof. unfold handle_admin. destruct (m_type m); repeat constructor. Qed.

Lemma admin_frames_carries fuel ag buf : Forall (carries ag) (admin_frames fuel ag buf).1.1.
Proof.
  revert buf. induction fuel as [|n IH]; intros buf; cbn [admin_frames]; [constructor|].
  destruct (scan buf) as [[|f|e] rest]; [constructor| |constructor].
  specialize (IH rest). destruct (admin_frames n ag rest) as [[out b] alive].
  apply Forall_app. split; [|exact IH].
  destruct (decode_message _); [apply handle_admin_carries|constructor].
Qed.

Lemma poll_carries tries ag buf events : Forall (carries ag) (poll tries ag buf events).1.1.1.
Proof.
  revert buf events. induction tries as [|n IH]; intros buf events; cbn [poll]; [constructor|].
  destruct events as [|[| |[|b data]] events]; try constructor.
  pose proof (admin_frames_carries (S (length (buf ++ b :: data))) ag (buf ++ b :: data)) as Ha.
  destruct (admin_frames _ ag _) as [[out buf'] [|]]; [|exact Ha].
  specialize (IH buf' events). destruct (poll n ag buf' events) as [[[out' b'] alive] ev].
  apply Forall_app. by split.
Qed.

Section Incarnation.
Context {B : Type} `{!DeviceBackend B}.

Lemma publish_incarnation (b : B) clock ag : same_incarnation ag (publish_snapshot b clock ag).
Proof.
  unfold publish_snapshot, same_incarnation.
  destruct (backend_enumerate b) as [ds|]; [|by split; [|constructor]].
  destruct (observe_devices b clock ag ds); split; try done; repeat constructor.
Qed.

Lemma turn_incarnation (b : B) clock buf events ag :
  let r := session_turn b clock buf events ag in same_incarnation ag (r.1.1.1.1, r.1.1.1.2).
Proof.
  unfold session_turn. pose proof (publish_incarnation b clock ag) as Hp.
  destruct (publish_snapshot b clock ag) as [ag1 out].
  pose proof (poll_carries 16 ag1 buf events) as Hpoll.
  destruct (poll 16 ag1 buf events) as [[[acks buf'] alive] ev]. cbn in *.
  eapply same_incarnation_app; [exact Hp|]. split; [done|]. cbn. apply Forall_app.
  split; [exact Hpoll|]. destruct alive; repeat constructor.
Qed.

Lemma session_incarnation (turns : list (Turn B)) buf ag :
  same_incarnation ag (session turns buf ag).
Proof.
  revert buf ag. induction turns as [|t turns IH]; intros buf ag; cbn [session].
  - split; [done|constructor].
  - pose proof (turn_incarnation (tn_backend t) (tn_clock t) buf (tn_events t) ag) as Ht.
    destruct (session_turn _ _ _ _ _) as [[[[ag1 out] buf1] [|]] ev]; cbn in Ht; [|exact Ht].
    specialize (IH buf1 ag1). destruct (session turns buf1 ag1) as [ag2 out2].
    by eapply same_incarnation_app.
Qed.

Lemma register_incarnation (b : B) s1 s2 events ag :
  let r := connect_and_register b s1 s2 events ag in same_incarnation ag (r.1.1.1, r.1.2).
Proof.
  unfold connect_and_register, same_incarnation. repeat case_match; cbn; split; try done;
    repeat constructor.
Qed.

Lemma attempt_incarnation (a : Attempt B) ag : same_incarnation ag (attempt_connection a ag).
Proof.
  unfold attempt_connection. destruct (at_connected a); cbn [negb]; [|by split; [|constructor]].
  pose proof (register_incarnation (at_backend a) (at_hello_sent a) (at_register_sent a)
    (at_handshake a) ag) as Hr.
  destruct (connect_and_register _ _ _ _ ag) as [[[ag1 [u|e]] out] ev]; [|exact Hr].
  pose proof (session_incarnation (at_turns a) [] ag1) as Hs.
  destruct (session (at_turns a) [] ag1) as [ag2 out2]. by eapply same_incarnation_app.
Qed.

Lemma session_epoch (turns : list (Turn B)) buf ag :
  ag_last_known_epoch (session turns buf ag).1 = ag_last_known_epoch ag /\
  ag_reg_gen (session turns buf ag).1 = ag_reg_gen ag.
Proof.
  revert buf ag. induction turns as [|t turns IH]; intros buf ag; cbn [session]; [done|].
  unfold session_turn, publish_snapshot.
  destruct (backend_enumerate (tn_backend t)) as [ds|];
    [destruct (observe_devices _ _ ag ds)|]; destruct (poll _ _ _ _) as [[[acks buf'] [|]] ev];
    try done;
    match goal with |- context [session turns ?b ?a] =>
      specialize (IH b a); destruct (session turns b a) as [ag2 out2] end; exact IH.
Qed.

End Incarnation.

(** Bits below the shift and bits above it do not meet. *)
Lemma lxor_disjoint a c : 0 <= c < 2 ^ 16 -> Z.lxor (a * 2 ^ 16) c = a * 2 ^ 16 + c.
Proof.
  intros Hc. rewrite <- Z.add_nocarry_lxor; [done|]. apply Z.bits_inj'. intros n Hn.
  rewrite Z.land_spec, Z.bits_0. destruct (Z_lt_le_dec n 16).
  - by rewrite Z.mul_pow2_bits_low.
  - rewrite (Z.bits_above_log2 c n), andb_false_r; [done|lia|].
    destruct (Z.eq_dec c 0) as [->|]; [cbn; lia|]. apply Z.log2_lt_pow2; [lia|].
    apply Z.lt_le_trans with (2 ^ 16); [lia|]. by apply Z.pow_le_mono_r.
Qed.

(** The launch time's part of the id. *)
Lemma wrap_shift_16 t : wrap 64 (Z.shiftl t 16) = (t mod 2 ^ 48) * 2 ^ 16.
Proof.
  unfold wrap. rewrite Z.shiftl_mul_pow2 by lia.
  change (2 ^ 64) with (2 ^ 48 * 2 ^ 16). by rewrite Z.mul_mod_distr_r.
Qed.

(* ------------------------------------------------------------------ *)
(** ** Properties *)

(** One process is one incarnation: through every reconnection, whatever it
    receives, an agent keeps its worker, boot and node ids, and every message it
    sends carries its worker and boot ids. *)
Theorem agent_is_one_incarnation {B} `{!DeviceBackend B} (attempts : list (Attempt B)) ag :
  let r := reconnect_loop attempts ag in
  incarnation r.1 = incarnation ag /\ Forall (carries ag) r.2.
Proof.
  cbn zeta. change (same_incarnation ag (reconnect_loop attempts ag)).
  revert ag. induction attempts as [|a attempts IH]; intros ag; cbn [reconnect_loop].
  - split; [done|constructor].
  - pose proof (attempt_incarnation a ag) as Ha. destruct (attempt_connection a ag) as [ag1 out].
    specialize (IH ag1). destruct (reconnect_loop attempts ag1) as [ag2 out2].
    by eapply same_incarnation_app.
Qed.

(** The epoch and the registration generation change in the handshake only:
    nothing received during a session moves them. *)
Theorem session_keeps_authority {B} `{!DeviceBackend B} (turns : list (Turn B)) buf ag :
  ag_last_known_epoch (session turns buf ag).1 = ag_last_known_epoch ag /\
  ag_reg_gen (session turns buf ag).1 = ag_reg_gen ag.
Proof. apply session_epoch. Qed.

(** Within a process the boot id identifies the launch: equal ids have equal
    launch times (to 48 bits) and equal counters (to 8 bits). *)
Theorem boot_id_fresh_in_process t1 t2 pid c1 c2 :
  make_fresh_boot_id t1 pid c1 = make_fresh_boot_id t2 pid c2 ->
  t1 mod 2 ^ 48 = t2 mod 2 ^ 48 /\ c1 mod 256 = c2 mod 256.
Proof.
  unfold make_fresh_boot_id. change 255 with (Z.ones 8). rewrite !Z.land_ones by lia.
  change (2 ^ 8) with 256. rewrite !wrap_shift_16. intros H.
  assert (forall a p c, Z.lxor (Z.lxor (Z.lxor a p) c) p = Z.lxor a c) as Hx.
  { intros a p c. rewrite (Z.lxor_assoc a p c), (Z.lxor_comm p c), <- (Z.lxor_assoc a c p).
    by rewrite Z.lxor_assoc, Z.lxor_nilpotent, Z.lxor_0_r. }
  apply (f_equal (fun z => Z.lxor z (wrap 64 (Z.shiftl pid 8)))) in H. rewrite !Hx in H.
  pose proof (Z.mod_pos_bound c1 256). pose proof (Z.mod_pos_bound c2 256).
  rewrite !lxor_disjoint in H by lia.
  change (2 ^ 16) with 65536 in H. lia.
Qed.

Lemma boot_id_fresh_in_process_witness :
  make_fresh_boot_id 1700000000000 4242 256 = make_fresh_boot_id 1700000000000 4242 0 /\
  1700000000000 mod 2 ^ 48 = 1700000000000 mod 2 ^ 48 /\ 256 mod 256 = 0 mod 256.
Proof.
  split; [vm_compute; reflexivity|].
  apply (boot_id_fresh_in_process 1700000000000 1700000000000 4242 256 0). vm_compute. reflexivity.
Defined.

(** Across processes it does not: the bits of the process id overlap those of
    the launch time. *)
Example boot_ids_collide :
  make_fresh_boot_id 1700000000001 4096 0 = make_fresh_boot_id 1700000000000 4352 0.
Proof. vm_compute. reflexivity. Qed.
