(* ===== verification/EndToEnd.v ===== *)
(** * Agent and coordinator together

    The agent's bytes served by the coordinator: the handshake registers the
    incarnation, and every later publication is accepted and recorded. The laws
    a device backend must satisfy are an interface, discharged by the synthetic
    backend. *)

From S2P Require Import Prelude Core Codec Crc Message Framing Identity Health Eligibility.
From S2P Require Import Device Observation Change Pipeline Registration WireFormats ObservationCodec.
From S2P Require Import FleetState FleetSteps FleetInv FleetSafety FleetIngest SnapshotCodec.
From S2P Require Import Store Coordinator CoordinatorSafety Agent.

(* ------------------------------------------------------------------ *)
(** ** Lemmas: one message across the wire *)

(** A message both ends carry without loss. *)
Definition message_fits (m : Message) : Prop :=
  message_wf m /\ Z.of_nat (length (encode_message m)) <= kMaxPayloadLength.

Lemma message_fits_frame m : message_fits m -> frame_wf (MkFrame (m_type m) (encode_message m)).
Proof. intros [[[Hv He] _] Hlen]. by split_and!. Qed.

Lemma message_decodes m : message_wf m -> decode_message (encode_message m) = Ok m.
Proof. intros H. exact (run_decoder_ok (message_parses m H)). Qed.

Lemma scan_message m rest :
  message_fits m ->
  scan (message_frame m ++ rest) = (FrameReady (MkFrame (m_type m) (encode_message m)), rest).
Proof. intros H. exact (scan_encoded _ rest (message_fits_frame m H)). Qed.

Definition bind_worker (msg : Message) (bound : option WorkerId) : option WorkerId :=
  if bool_decide (m_type msg = MessageType.REGISTER) then Some (m_worker msg) else bound.

(** The coordinator's side: the frame of a message is dispatched, answered, and
    consumed. *)
Lemma serve_message env c w msg :
  message_fits msg ->
  all_frames env c (MkConn (message_frame msg) w) =
    let r := dispatch (env (co_tick c)).1 (env (co_tick c)).2 msg (tick c) in
    (r.1, MkConn [] (bind_worker msg w), [r.2], Open).
Proof.
  intros Hfit. rewrite all_frames_unfold. unfold serve_one. cbn [cn_buf cn_worker].
  rewrite <- (app_nil_r (message_frame msg)), scan_message by exact Hfit.
  cbn [f_payload]. rewrite message_decodes by apply Hfit. cbn zeta.
  destruct (dispatch _ _ msg (tick c)) as [c1 r]. cbn [fst snd].
  rewrite all_frames_unfold. reflexivity.
Qed.

Lemma message_frame_nonempty m : exists b bs, message_frame m = b :: bs.
Proof.
  unfold message_frame, encode_frame, frame_signed_part. writer_norm.
  destruct (be32 kFrameMagic) as [|b bs] eqn:E; [discriminate|]. cbn [app]. eauto.
Qed.

Lemma first_message_found n m : message_fits m -> first_message (S n) (message_frame m) = Found m.
Proof.
  intros Hfit. cbn [first_message]. pose proof (scan_message m [] Hfit) as Hs.
  rewrite app_nil_r in Hs. rewrite Hs. cbn [f_payload]. by rewrite message_decodes by apply Hfit.
Qed.

(** A read that succeeds does not look past what it took. *)
Lemma read_message_app tries buf ev1 ev2 m :
  read_message tries buf ev1 = (Ok m, []) -> read_message tries buf (ev1 ++ ev2) = (Ok m, ev2).
Proof.
  revert buf ev1. induction tries as [|n IH]; intros buf ev1; cbn [read_message]; [done|].
  destruct ev1 as [|[| |[|b data]] ev1]; cbn [app]; try done; [apply IH|].
  destruct (first_message _ _) as [m'|buf'|]; [|apply IH|done]. by intros [= -> ->].
Qed.

Lemma read_one_app ev1 ev2 m :
  read_one_message ev1 = (Ok m, []) -> read_one_message (ev1 ++ ev2) = (Ok m, ev2).
Proof. unfold read_one_message. apply read_message_app. Qed.

(** The agent's side: a reply that arrives in one piece is read. *)
Lemma read_reply m events :
  message_fits m -> read_one_message (RecvData (message_frame m) :: events) = (Ok m, events).
Proof.
  intros Hfit. unfold read_one_message. destruct (message_frame_nonempty m) as (b & bs & E).
  assert (forall tries, read_message (S tries) [] (RecvData (message_frame m) :: events)
            = (Ok m, events)) as Hr; [|apply (Hr 63%nat)].
  intros tries. pose proof (first_message_found (length (message_frame m)) m Hfit) as Hf.
  rewrite E in *. cbn [read_message]. rewrite app_nil_l. by rewrite Hf.
Qed.

(* ------------------------------------------------------------------ *)
(** ** The interface of a backend *)

Record probe_wf (p : DeviceProbe) : Prop := {
  pw_identity : identity_wf (p_identity p);
  pw_total : is_u64 (p_total_memory p);
  pw_used : is_u64 (p_used_memory p);
  pw_free : is_u64 (p_free_memory p);
  pw_temperature : opt_f64_wf (p_temperature_c p);
  pw_power : opt_f64_wf (p_power_w p);
  pw_capabilities : Forall capability_wf (p_capabilities p);
  pw_capabilities_count : Z.of_nat (length (p_capabilities p)) <= 4096;
  pw_detail : str_fits 4096 (p_validation_detail p)
}.

(** What the agent relies on: at most 4096 devices, keys of at most 256 bytes,
    and probes the wire format can carry. *)
Class BackendLaws {B} `{DeviceBackend B} (b : B) : Prop := {
  bl_count : forall ds, backend_enumerate b = Ok ds -> Z.of_nat (length ds) <= 4096;
  bl_keys : forall ds d, backend_enumerate b = Ok ds -> d ∈ ds ->
    str_fits 256 (canonical_device_identity (ed_identity d));
  bl_probe : forall ds d p, backend_enumerate b = Ok ds -> d ∈ ds ->
    backend_probe b d = Ok p -> probe_wf p
}.

Record agent_wf (ag : Agent) : Prop := {
  aw_node : id_wf (ag_node ag);
  aw_worker : id_wf (ag_worker ag);
  aw_boot : id_wf (ag_boot ag);
  aw_os : str_fits 128 (ag_os_platform ag);
  aw_epoch : gen_wf (ag_last_known_epoch ag);
  aw_reg_gen : gen_wf (ag_reg_gen ag);
  aw_obs_gen : gen_wf (ag_obs_gen ag);
  aw_health_gen : gen_wf (ag_health_gen ag);
  aw_device_gen : gen_wf (ag_device_gen ag)
}.

(** A payload that leaves room for the envelope in a frame. *)
Definition payload_fits (p : list byte) : Prop := Z.of_nat (length p) <= kMaxPayloadLength - 106.

Ltac wf_const := vm_compute; try (split; congruence); congruence.

Lemma zero_id_wf {t} : id_wf (@MkId t 0). Proof. wf_const. Qed.
Lemma zero_gen_wf {t} : gen_wf (@MkGen t 0). Proof. wf_const. Qed.
#[export] Hint Resolve zero_id_wf zero_gen_wf : fleet.

(** A message with an empty reason fits when its fields do. *)
Lemma plain_message_fits m :
  valid_message_type (to_u8 (m_type m)) = true -> enum_wf (m_type m) ->
  id_wf (m_coordinator m) -> gen_wf (m_epoch m) -> id_wf (m_worker_boot m) ->
  id_wf (m_worker m) -> id_wf (m_node m) -> id_wf (m_agent m) -> gen_wf (m_reg_gen m) ->
  gen_wf (m_obs_gen m) -> gen_wf (m_health_gen m) -> gen_wf (m_device_gen m) ->
  gen_wf (m_cap_gen m) -> is_u64 (m_request_id m) -> m_reason m = ""%string ->
  payload_fits (m_payload m) -> message_fits m.
Proof.
  intros Ht He Hc Hep Hb Hw Hn Ha Hr Ho Hh Hd Hcp Hq Hreason Hp.
  unfold payload_fits, kMaxPayloadLength in Hp.
  split; [split; try assumption|].
  - by split.
  - rewrite Hreason. wf_const.
  - unfold kMaxBytesLen. lia.
  - rewrite encode_message_length, Hreason by (rewrite Hreason; wf_const).
    unfold kMaxPayloadLength. cbn. lia.
Qed.

Lemma agent_message_fits t epoch hg payload ag :
  agent_wf ag -> valid_message_type (to_u8 t) = true -> enum_wf t -> gen_wf epoch -> gen_wf hg ->
  payload_fits payload -> message_fits (agent_message t epoch hg payload ag).
Proof.
  intros [] Ht He Hep Hhg Hp.
  apply plain_message_fits; cbn; try assumption; auto with fleet; wf_const.
Qed.

(* ------------------------------------------------------------------ *)
(** ** The agent in step with the store *)

(** The store holds the agent's incarnation as authoritative under the epoch the
    agent knows, and has recorded nothing from it at or past its next
    generations. *)
Definition in_step (ag : Agent) (st : FleetState) : Prop :=
  fs_epoch st = ag_last_known_epoch ag /\
  (exists wr, fs_workers st !! ag_worker ag = Some wr /\ authoritative_worker wr /\
              w_boot wr = ag_boot ag) /\
  (forall k d, fs_devices st !! k = Some d -> d_source_worker_boot d = ag_boot ag ->
     gen_value (d_observation_generation d) < gen_value (ag_obs_gen ag) /\
     gen_value (d_generation d) < gen_value (ag_device_gen ag) /\
     gen_value (d_health_generation d) <= gen_value (ag_health_gen ag)).

(** The incarnation is new to the store: its worker may register, and no device
    was observed by it. *)
Definition fresh_incarnation (ag : Agent) (st : FleetState) : Prop :=
  match fs_workers st !! ag_worker ag with
  | None => True
  | Some wr => w_boot wr <> ag_boot ag /\ worker_live wr = false
  end /\
  forall k d, fs_devices st !! k = Some d -> d_source_worker_boot d <> ag_boot ag.

Section Handshake.
Context {B : Type} `{!DeviceBackend B} (b : B) {Hlaws : BackendLaws b}.

Lemma make_registration_wf ag : agent_wf ag -> registration_wf (make_registration b ag).
Proof using Hlaws.
  intros []. split; cbn; try assumption;
    lazymatch goal with |- context [b] => idtac | |- Forall _ _ => idtac | _ => wf_const end.
  - destruct (backend_enumerate b) as [ds|] eqn:E; [|constructor].
    apply Forall_forall. intros k Hk. apply list_elem_of_fmap in Hk as (d & -> & Hd).
    by eapply bl_keys.
  - destruct (backend_enumerate b) as [ds|] eqn:E; [|wf_const].
    rewrite length_map. by apply (bl_count ds).
  - repeat constructor; wf_const.
Qed.

Lemma register_fresh ag now st :
  fs_epoch st = ag_last_known_epoch ag -> fresh_incarnation ag st ->
  register_worker (make_registration b ag) now st = admit_worker (make_registration b ag) now st.
Proof.
  intros He [Hw _]. unfold register_worker. cbn [make_registration r_epoch r_worker r_worker_boot
    r_protocol_version pv_value].
  rewrite He, gen_eqb_refl. cbn [negb]. change (protocol_version =? 0) with false. cbn iota.
  destruct (fs_workers st !! ag_worker ag) as [wr|]; [|done]. destruct Hw as [Hb Hl].
  destruct (id_eqb_spec (w_boot wr) (ag_boot ag)); [done|].
  unfold worker_live in Hl. destruct (w_fenced wr), (w_lost wr), (w_alive wr); done.
Qed.

Lemma admitted_in_step ag now st :
  fs_epoch st = ag_last_known_epoch ag -> fresh_incarnation ag st ->
  in_step (next_registration ag) (admit_worker (make_registration b ag) now st).1.
Proof.
  intros He [_ Hd]. unfold admit_worker. cbn [fst]. split_and!.
  - unfold ensure_node. by case_branch.
  - exists (new_worker_record (make_registration b ag) now).
    rewrite ensure_node_workers. cbn. by rewrite lookup_insert_eq.
  - intros k d. rewrite ensure_node_devices. cbn. intros Hk Hboot. by destruct (Hd k d Hk).
Qed.

(** The coordinator's replies fit. *)
Lemma hello_ack_fits c epoch m :
  id_wf c -> gen_wf epoch -> is_u64 (m_request_id m) -> message_fits (hello_ack c epoch m).
Proof.
  intros. apply plain_message_fits; cbn; try assumption; auto with fleet; try wf_const. enum_wf_solve.
Qed.

Lemma register_ack_fits reg epoch m :
  id_wf (r_worker reg) -> id_wf (r_worker_boot reg) -> gen_wf epoch -> is_u64 (m_request_id m) ->
  message_fits (register_ack reg epoch m).
Proof.
  intros. apply plain_message_fits; cbn; try assumption; auto with fleet; try wf_const. enum_wf_solve.
Qed.

(** The REGISTER dispatched. *)
Lemma dispatch_register ag now io c :
  agent_wf ag -> fs_epoch (co_store c) = ag_last_known_epoch ag ->
  fresh_incarnation ag (co_store c) ->
  let reg := make_registration b ag in
  let rmsg := register_message reg ag in
  let r := dispatch now io rmsg c in
  r.2 = register_ack reg (ag_last_known_epoch ag) rmsg /\
  in_step (next_registration ag) (co_store r.1).
Proof using Hlaws.
  intros Hwf He Hf reg rmsg. pose proof (admitted_in_step ag now _ He Hf) as Hin.
  unfold dispatch. cbn [rmsg register_message agent_message m_type m_payload].
  unfold decode_registration.
  rewrite (run_decoder_ok (registration_parses reg (make_registration_wf ag Hwf))).
  unfold reg. rewrite (register_fresh ag now _ He Hf). cbn [admit_worker fst snd] in *.
  split; [|exact Hin]. destruct Hin as [-> _]. reflexivity.
Qed.

End Handshake.

(* ------------------------------------------------------------------ *)
(** ** Lemmas: publication *)

(** What the agent puts in an observation besides the probe. *)
Definition stamped (ag : Agent) (o : DeviceObservation) : Prop :=
  o_epoch o = ag_last_known_epoch ag /\ o_source_worker_boot o = ag_boot ag /\
  o_source_worker o = ag_worker ag /\ o_observation_generation o = ag_obs_gen ag /\
  o_device_generation o = ag_device_gen ag /\ o_health_generation o = ag_health_gen ag.

(** The records the loop has made of the agent's batch: those of its incarnation
    are behind its generations, or are of this batch. *)
Definition loop_in_step (ag : Agent) (acc : IngestAcc) : Prop :=
  fs_epoch (ia_state acc) = ag_last_known_epoch ag /\
  (forall k d, fs_devices (ia_state acc) !! k = Some d -> d_source_worker_boot d = ag_boot ag ->
     k ∈ ia_seen acc \/
     (gen_value (d_observation_generation d) < gen_value (ag_obs_gen ag) /\
      gen_value (d_generation d) < gen_value (ag_device_gen ag) /\
      gen_value (d_health_generation d) <= gen_value (ag_health_gen ag))) /\
  (forall k, k ∈ ia_seen acc -> exists d, fs_devices (ia_state acc) !! k = Some d /\
     gens_of d = (ag_boot ag, ag_obs_gen ag, ag_device_gen ag, ag_health_gen ag)).

Lemma gate_in_step ag acc o :
  loop_in_step ag acc -> stamped ag o ->
  let key := canonical_device_identity (o_identity o) in
  ingest_gate (ag_worker ag) (ag_boot ag) o (ia_state acc) =
    if bool_decide (key ∈ ia_seen acc) then Skip else Commit.
Proof.
  intros (He & Hbehind & Hseen) (Ho1 & Ho2 & Ho3 & Ho4 & Ho5 & Ho6) key. unfold ingest_gate.
  rewrite Ho1, Ho2, Ho3, Ho4, Ho5, Ho6, He, gen_eqb_refl, !id_eqb_refl. cbn [negb]. fold key.
  unfold gen_leb, gen_ltb. case_bool_decide as Hk.
  - destruct (Hseen key Hk) as (d & Hd & Hg). injection Hg as Hb Hob Hdg Hhg.
    rewrite Hd, Hb, Hob, id_eqb_refl, Z.leb_refl. done.
  - destruct (fs_devices (ia_state acc) !! key) as [d|] eqn:Hd; [|done].
    destruct (id_eqb_spec (ag_boot ag) (d_source_worker_boot d)) as [Hb|Hb]; cbn [andb].
    + destruct (Hbehind key d Hd (eq_sym Hb)) as [|(H1 & H2 & H3)]; [done|].
      destruct (Z.leb_spec (gen_value (ag_obs_gen ag)) (gen_value (d_observation_generation d))); [lia|].
      destruct (Z.ltb_spec (gen_value (ag_device_gen ag)) (gen_value (d_generation d))); [lia|].
      destruct (Z.ltb_spec (gen_value (ag_health_gen ag)) (gen_value (d_health_generation d))); [lia|].
      done.
    + by rewrite andb_false_r.
Qed.

Lemma loop_commit_in_step ag acc o policy now :
  loop_in_step ag acc -> stamped ag o ->
  let key := canonical_device_identity (o_identity o) in
  let a := ingest_apply o policy now (ia_state acc) in
  loop_in_step ag (MkAcc (ingest_commit (ag_worker ag) o a (ia_state acc))
                         ({[ key ]} ∪ ia_seen acc) a).
Proof.
  intros (He & Hbehind & Hseen) (Ho1 & Ho2 & Ho3 & Ho4 & Ho5 & Ho6) key a.
  unfold loop_in_step. cbn [ia_state ia_seen]. rewrite commit_epoch, commit_devices.
  split_and!; [exact He| |].
  - intros k d Hd Hb. destruct (decide (k = key)) as [->|Hne];
      [left; apply elem_of_union_l, elem_of_singleton_2; done|].
    rewrite lookup_insert_ne in Hd by done.
    destruct (Hbehind k d Hd Hb); [left; by apply elem_of_union_r|by right].
  - intros k Hk. destruct (decide (k = key)) as [->|Hne].
    + exists (ao_state a). rewrite lookup_insert_eq. split; [done|]. unfold gens_of.
      pose proof (commit_records o policy now (ia_state acc)) as Hr. fold a in Hr.
      destruct Hr as (_ & _ & -> & -> & -> & ->).
      by rewrite Ho2, Ho4, Ho5, Ho6.
    + rewrite lookup_insert_ne by done. apply Hseen.
      apply elem_of_union in Hk as [Hk|Hk]; [by apply elem_of_singleton in Hk|exact Hk].
Qed.

Lemma loop_accepts ag policy now obs acc :
  loop_in_step ag acc -> Forall (stamped ag) obs ->
  let r := ingest_loop (ag_worker ag) (ag_boot ag) policy now obs acc in
  r.2 = None /\ loop_in_step ag r.1 /\
  (forall o, o ∈ obs -> canonical_device_identity (o_identity o) ∈ ia_seen r.1).
Proof.
  intros Hin Hobs. revert acc Hin.
  induction Hobs as [|o obs Ho _ IH]; intros acc Hin; cbn [ingest_loop].
  - split_and!; [done|exact Hin|]. intros o Ho. by apply elem_of_nil in Ho.
  - rewrite (gate_in_step ag acc o Hin Ho). case_bool_decide as Hk.
    + destruct (IH acc Hin) as (H1 & H2 & H3). split_and!; [exact H1|exact H2|].
      intros o' Ho'. apply elem_of_cons in Ho' as [->|Ho']; [|by apply H3].
      by apply (loop_seen (ag_worker ag) (ag_boot ag) policy now obs acc).
    + pose proof (loop_commit_in_step ag acc o policy now Hin Ho) as Hc. cbn zeta in Hc |- *.
      match type of Hc with loop_in_step _ ?acc' =>
        destruct (IH acc' Hc) as (H1 & H2 & H3);
        pose proof (loop_seen (ag_worker ag) (ag_boot ag) policy now obs acc') as Hseen end.
      split_and!; [exact H1|exact H2|].
      intros o' Ho'. apply elem_of_cons in Ho' as [->|Ho']; [|by apply H3].
      cbn [ia_seen] in Hseen. by apply Hseen, elem_of_union_l, elem_of_singleton_2.
Qed.

Lemma sweep_epoch seen now keys st : fs_epoch (foldl (sweep_key seen now) st keys) = fs_epoch st.
Proof.
  revert st. induction keys as [|k keys IH]; intros st; cbn [foldl]; [done|].
  rewrite IH. unfold sweep_key. by repeat case_branch.
Qed.

Lemma in_step_loop ag st : in_step ag st -> loop_in_step ag (MkAcc st ∅ applied_default).
Proof.
  intros (He & _ & Hd). split_and!; [exact He| |set_solver].
  intros k d Hk Hb. right. by apply (Hd k).
Qed.

(** The agent's next generations do not wrap. *)
Definition has_room (ag : Agent) : Prop :=
  gen_value (ag_obs_gen ag) < 2 ^ 64 - 1 /\ gen_value (ag_device_gen ag) < 2 ^ 64 - 1.

Lemma gen_next_value {t} (g : Generation t) :
  gen_wf g -> gen_value g < 2 ^ 64 - 1 -> gen_value (gen_next g) = gen_value g + 1.
Proof. intros [H0 H1] H. unfold gen_next. cbn. apply wrap_small. unfold is_u. lia. Qed.

Lemma disappeared_gens d : gens_of (disappeared_device d) = gens_of d.
Proof. reflexivity. Qed.

(** The store's side of one publication. *)
Lemma ingest_in_step ag policy now obs st :
  agent_wf ag -> has_room ag -> in_step ag st -> Forall (stamped ag) obs ->
  let r := ingest_snapshot (ag_worker ag) obs policy now st in
  result_ok r.2 = true /\ in_step (next_snapshot ag) r.1 /\
  forall o, o ∈ obs -> exists d,
    fs_devices r.1 !! canonical_device_identity (o_identity o) = Some d /\
    gens_of d = (ag_boot ag, ag_obs_gen ag, ag_device_gen ag, ag_health_gen ag).
Proof.
  intros [] [Hr1 Hr2] Hin Hobs. pose proof (in_step_loop ag st Hin) as Hl.
  destruct Hin as (He & (wr & Hw & Ha & Hb) & Hd).
  destruct (loop_accepts ag policy now obs _ Hl Hobs) as (Hok & (He' & Hbehind & Hseen) & Hall).
  destruct (ingest_loop_micro any_scope (ag_worker ag) (ag_boot ag) policy now obs
              (MkAcc st ∅ applied_default) wr Hw Ha Hb) as (_ & wr' & Hw' & Ha' & Hb').
  unfold ingest_snapshot. rewrite Hw. destruct (Ha) as [-> ->]. cbn [orb]. rewrite Hb.
  destruct (ingest_loop _ _ _ _ _ _) as [acc e]. cbn [fst snd] in *. subst e. cbn [fst snd result_ok].
  set (st2 := foldl _ _ _).
  assert (forall k d, fs_devices st2 !! k = Some d -> exists d0,
    fs_devices (ia_state acc) !! k = Some d0 /\ gens_of d = gens_of d0) as Hsw.
  { intros k d Hk. destruct (sweep_devices (ia_seen acc) now (worker_keys (ag_worker ag) (ia_state acc))
      (ia_state acc) k) as [E|(d0 & E0 & _ & _ & E)].
    - exists d. by rewrite <- E.
    - exists d0. split; [done|]. fold st2 in E. rewrite Hk in E. injection E as ->. done. }
  split_and!; [done| |].
  - split_and!.
    + unfold st2, alter_worker. cbn. by rewrite sweep_epoch.
    + exists (touch_worker now wr'). unfold alter_worker. cbn.
      rewrite lookup_alter_eq. unfold st2. by rewrite sweep_workers, Hw'.
    + intros k d Hk Hbd. cbn in Hk. destruct (Hsw k d Hk) as (d0 & H0 & Hg). injection Hg as Eb Eo Ed Eh.
      rewrite Eo, Ed, Eh. cbn [next_snapshot ag_obs_gen ag_device_gen ag_health_gen ag_boot] in *.
      rewrite !gen_next_value by assumption.
      destruct (Hbehind k d0 H0 ltac:(congruence)) as [Hs|H]; [|lia].
      destruct (Hseen k Hs) as (d1 & H1 & Hg1). rewrite H0 in H1. injection H1 as <-.
      injection Hg1 as _ -> -> ->. lia.
  - intros o Ho. specialize (Hall o Ho). destruct (Hseen _ Hall) as (d & Hk & Hg). exists d.
    split; [|exact Hg]. cbn.
    destruct (sweep_devices (ia_seen acc) now (worker_keys (ag_worker ag) (ia_state acc))
      (ia_state acc) (canonical_device_identity (o_identity o))) as [E|(d0 & _ & _ & Hn & _)]; [|done].
    fold st2 in E. by rewrite E.
Qed.

(** With distinct keys each record is the observation applied to the record
    before the batch. *)
Definition obs_key (o : DeviceObservation) : string := canonical_device_identity (o_identity o).

Lemma loop_applies ag policy now obs acc o :
  loop_in_step ag acc -> Forall (stamped ag) obs -> NoDup (map obs_key obs) ->
  (forall o', o' ∈ obs -> obs_key o' ∉ ia_seen acc) -> o ∈ obs ->
  fs_devices (ia_state (ingest_loop (ag_worker ag) (ag_boot ag) policy now obs acc).1) !! obs_key o
    = Some (ao_state (ingest_apply o policy now (ia_state acc))).
Proof.
  intros Hin Hobs. revert acc Hin.
  induction Hobs as [|o0 obs Ho0 _ IH]; intros acc Hin Hnd Hns Ho; [by apply elem_of_nil in Ho|].
  cbn [map] in Hnd. apply NoDup_cons in Hnd as [Hn0 Hnd]. cbn [ingest_loop].
  rewrite (gate_in_step ag acc o0 Hin Ho0).
  rewrite bool_decide_false by (apply Hns, list_elem_of_here).
  pose proof (loop_commit_in_step ag acc o0 policy now Hin Ho0) as Hc. cbn zeta in Hc |- *.
  match type of Hc with loop_in_step _ ?acc' => set (acc1 := acc') in * end.
  assert (forall k, k <> obs_key o0 -> fs_devices (ia_state acc1) !! k = fs_devices (ia_state acc) !! k)
    as Hother by (intros k Hk; cbn [acc1 ia_state]; rewrite commit_devices, lookup_insert_ne; done).
  apply elem_of_cons in Ho as [->|Ho].
  - destruct (loop_devices (ag_worker ag) (ag_boot ag) policy now obs acc1 (obs_key o0))
      as [->|(o' & _ & Hin' & Hk & _)].
    + cbn [acc1 ia_state]. rewrite commit_devices. apply lookup_insert_eq.
    + exfalso. apply Hn0. rewrite Hk. by apply (list_elem_of_fmap_2 obs_key).
  - assert (obs_key o <> obs_key o0) as Hne
      by (intros E; apply Hn0; rewrite <- E; by apply (list_elem_of_fmap_2 obs_key)).
    rewrite IH; [|exact Hc|exact Hnd| |exact Ho].
    + do 2 f_equal. unfold ingest_apply. fold (obs_key o). rewrite Hother by exact Hne.
      cbn [acc1 ia_state]. by rewrite commit_epoch.
    + intros o' Ho'. cbn [acc1 ia_seen]. fold (obs_key o0).
      assert (obs_key o' <> obs_key o0)
        by (intros E; apply Hn0; rewrite <- E; by apply (list_elem_of_fmap_2 obs_key)).
      specialize (Hns o' (list_elem_of_further _ _ _ Ho')).
      rewrite elem_of_union, elem_of_singleton. tauto.
Qed.

Lemma ingest_applies ag policy now obs st o :
  in_step ag st -> Forall (stamped ag) obs -> NoDup (map obs_key obs) -> o ∈ obs ->
  fs_devices (ingest_snapshot (ag_worker ag) obs policy now st).1 !! obs_key o
    = Some (ao_state (ingest_apply o policy now st)).
Proof.
  intros Hin Hobs Hnd Ho. pose proof (in_step_loop ag st Hin) as Hl.
  destruct (loop_accepts ag policy now obs _ Hl Hobs) as (Hok & _ & Hall).
  pose proof (loop_applies ag policy now obs _ o Hl Hobs Hnd ltac:(set_solver) Ho) as Hd.
  destruct Hin as (_ & (wr & Hw & [Hlo Hf] & Hb) & _).
  unfold ingest_snapshot. rewrite Hw, Hlo, Hf, Hb. cbn [orb].
  destruct (ingest_loop _ _ _ _ _ _) as [acc e]. cbn [fst snd] in *. subst e. cbn [fst].
  unfold alter_worker. cbn [set_workers fs_devices].
  destruct (sweep_devices (ia_seen acc) now (worker_keys (ag_worker ag) (ia_state acc))
      (ia_state acc) (obs_key o)) as [E|(d0 & _ & _ & Hn & _)]; [by rewrite E|].
  by destruct (Hn (Hall o Ho)).
Qed.

(* ------------------------------------------------------------------ *)
(** ** Lemmas: what is published *)

Section Publication.
Context {B : Type} `{!DeviceBackend B} (b : B) {Hlaws : BackendLaws b}.

(** The observations of a batch: one per device whose probe succeeded. *)
Lemma observe_spec clock ag devices o :
  o ∈ observe_devices b clock ag devices ->
  exists n d p, d ∈ devices /\ backend_probe b d = Ok p /\
    o = normalize_observation p (observation_metadata (clock n) d ag).
Proof.
  revert clock. induction devices as [|d devices IH]; intros clock; cbn [observe_devices].
  { intros H. by apply elem_of_nil in H. }
  destruct (backend_probe b d) as [p|] eqn:E.
  - intros H. apply elem_of_cons in H as [->|H].
    + exists 0%nat, d, p. split_and!; [apply list_elem_of_here|done|done].
    + destruct (IH _ H) as (n & d' & p' & Hd & Hp & ->).
      exists (S n), d', p'. split_and!; [by apply list_elem_of_further|done|done].
  - intros H. destruct (IH _ H) as (n & d' & p' & Hd & Hp & ->).
    exists n, d', p'. split_and!; [by apply list_elem_of_further|done|done].
Qed.

Lemma observe_probed clock ag devices d p :
  d ∈ devices -> backend_probe b d = Ok p ->
  exists n, normalize_observation p (observation_metadata (clock n) d ag)
              ∈ observe_devices b clock ag devices.
Proof.
  revert clock. induction devices as [|d0 devices IH]; intros clock Hd Hp;
    [by apply elem_of_nil in Hd|]. cbn [observe_devices].
  apply elem_of_cons in Hd as [<-|Hd].
  - rewrite Hp. exists 0%nat. apply list_elem_of_here.
  - destruct (backend_probe b d0) as [p0|].
    + destruct (IH (fun n => clock (S n)) Hd Hp) as [n Hn]. exists (S n).
      by apply list_elem_of_further.
    + by apply IH.
Qed.

Lemma observe_length clock ag devices :
  (length (observe_devices b clock ag devices) <= length devices)%nat.
Proof.
  revert clock. induction devices as [|d devices IH]; intros clock; cbn; [done|].
  destruct (backend_probe b d) as [p|].
  - cbn. apply le_n_S, IH.
  - etransitivity; [apply IH|]. lia.
Qed.

Lemma observe_stamped clock ag devices : Forall (stamped ag) (observe_devices b clock ag devices).
Proof.
  apply Forall_forall. intros o Ho. apply observe_spec in Ho as (n & d & p & _ & _ & ->).
  by split_and!.
Qed.

Lemma blob_le_batch o obs :
  o ∈ obs -> (length (encode_device_observation o) <= length (encode_observation_batch obs))%nat.
Proof.
  intros Ho. unfold encode_observation_batch.
  rewrite (w_each_app _ (fun o => write_observation_blob o []) write_observation_blob_app).
  rewrite length_app. etransitivity; [|apply Nat.le_add_l].
  induction obs as [|o' obs IH]; [by apply elem_of_nil in Ho|]. cbn [map concat].
  rewrite length_app. apply elem_of_cons in Ho as [<-|Ho].
  - unfold write_observation_blob. writer_norm. rewrite length_app. lia.
  - specialize (IH Ho). lia.
Qed.

Lemma observation_published_wf ag p now d :
  agent_wf ag -> is_i64 now -> probe_wf p ->
  observation_wf (normalize_observation p (observation_metadata now d ag)).
Proof.
  intros [] Hnow []. split; cbn -[wrap]; try assumption.
  - by apply wrap_range.
  - destruct (p_present p); enum_wf_solve.
  - wf_const.
Qed.

Lemma published_batch_wf clock ag devices :
  agent_wf ag -> (forall n, is_i64 (clock n)) -> backend_enumerate b = Ok devices ->
  let batch := observe_devices b clock ag devices in
  payload_fits (encode_observation_batch batch) -> batch_wf batch.
Proof using Hlaws.
  intros Hag Hclock Hen batch Hfit. split.
  - pose proof (observe_length clock ag devices). pose proof (bl_count devices Hen).
    unfold batch. lia.
  - apply Forall_forall. intros o Ho. split.
    + apply observe_spec in Ho as (n & d & p & Hd & Hp & ->).
      apply observation_published_wf; [done|done|]. by eapply bl_probe.
    + pose proof (blob_le_batch o batch Ho). unfold payload_fits, kMaxPayloadLength in Hfit. lia.
Qed.

(** The dispatch of a published snapshot is its ingestion. *)
Lemma dispatch_published clock ag devices now io c :
  agent_wf ag -> (forall n, is_i64 (clock n)) -> backend_enumerate b = Ok devices ->
  let batch := observe_devices b clock ag devices in
  payload_fits (encode_observation_batch batch) ->
  dispatch now io (snapshot_message batch ag) c =
    ack_result (snapshot_message batch ag) c
      (ingest_snapshot (ag_worker ag) batch policy_default now (co_store c)).
Proof using Hlaws.
  intros Hag Hclock Hen batch Hfit. unfold dispatch. cbn [snapshot_message agent_message m_type].
  unfold decode_observation_batch. cbn [m_payload].
  by rewrite (run_decoder_ok (observation_batch_parses batch
                (published_batch_wf clock ag devices Hag Hclock Hen Hfit))).
Qed.

Lemma publish_inv clock ag ag' m :
  publish_snapshot b clock ag = (ag', [m]) ->
  exists devices, backend_enumerate b = Ok devices /\ ag' = next_snapshot ag /\
    m = snapshot_message (observe_devices b clock ag devices) ag.
Proof.
  unfold publish_snapshot. destruct (backend_enumerate b) as [devices|]; [|done].
  intros H. exists devices. split; [done|].
  destruct (observe_devices b clock ag devices) as [|o batch] eqn:E; [done|].
  by injection H as <- <-.
Qed.

End Publication.

Lemma next_snapshot_wf ag : agent_wf ag -> agent_wf (next_snapshot ag).
Proof. intros []. split; cbn -[gen_next]; try assumption; apply gen_next_wf. Qed.

(* ------------------------------------------------------------------ *)
(** ** A session: rounds of publication and heartbeat *)

Record Round (B : Type) := MkRound {
  rn_backend : B;
  rn_clock : nat -> Timestamp;   (** the agent's clock *)
  rn_now : Timestamp;            (** the coordinator's *)
  rn_io : SaveIo
}.
Arguments MkRound {B}.
Arguments rn_backend {B}.
Arguments rn_clock {B}.
Arguments rn_now {B}.
Arguments rn_io {B}.

(** The coordinator's answers to a list of messages. *)
Fixpoint dispatch_all (now : Timestamp) (io : SaveIo) (ms : list Message) (c : Coordinator)
  : Coordinator * list Message :=
  match ms with
  | [] => (c, [])
  | m :: ms =>
      let '(c1, reply) := dispatch now io m c in
      let '(c2, replies) := dispatch_all now io ms c1 in (c2, reply :: replies)
  end.

Section Session.
Context {B : Type} `{!DeviceBackend B}.

Fixpoint converse (rounds : list (Round B)) (ag : Agent) (c : Coordinator)
  : Agent * Coordinator * list Message :=
  match rounds with
  | [] => (ag, c, [])
  | r :: rounds =>
      let '(ag1, out) := publish_snapshot (rn_backend r) (rn_clock r) ag in
      let '(c1, replies) := dispatch_all (rn_now r) (rn_io r) (out ++ [heartbeat_message ag1]) c in
      let '(ag2, c2, replies') := converse rounds ag1 c1 in (ag2, c2, replies ++ replies')
  end.

(** What is asked of a round: the backend's laws, a clock in range, and a batch
    that fits a frame. *)
Definition round_ok (r : Round B) : Prop :=
  BackendLaws (rn_backend r) /\ (forall n, is_i64 (rn_clock r n)) /\
  forall ag ds, backend_enumerate (rn_backend r) = Ok ds ->
    payload_fits (encode_observation_batch (observe_devices (rn_backend r) (rn_clock r) ag ds)).

Lemma beat_in_step ag now hg st :
  in_step ag st ->
  let r := heartbeat (ag_worker ag) (ag_boot ag) (ag_last_known_epoch ag) now hg st in
  result_ok r.2 = true /\ in_step ag r.1.
Proof.
  intros (He & (wr & Hw & Ha & Hb) & Hd). unfold heartbeat.
  rewrite He, gen_eqb_refl, Hw, Hb, id_eqb_refl. cbn [negb fst snd]. split; [done|].
  split_and!; [exact He| |exact Hd]. exists (beat_worker now wr). cbn. rewrite lookup_insert_eq.
  split_and!; [done| |done]. by destruct Ha.
Qed.

Lemma ack_result_ok {T} msg c (r : FleetState * Result T) :
  result_ok r.2 = true -> m_ok (ack_result msg c r).2 = true.
Proof. unfold ack_result. by destruct r.2. Qed.

Lemma ack_result_bad {T} msg c (r : FleetState * Result T) :
  result_ok r.2 = false -> m_ok (ack_result msg c r).2 = false.
Proof. unfold ack_result. by destruct r.2. Qed.

Lemma dispatch_heartbeat ag now io c :
  in_step ag (co_store c) ->
  let r := dispatch now io (heartbeat_message ag) c in
  m_ok r.2 = true /\ in_step ag (co_store r.1).
Proof.
  intros Hin. destruct (beat_in_step ag now (ag_health_gen ag) _ Hin) as [Hok Hin'].
  unfold dispatch. cbn [heartbeat_message agent_message m_type m_worker_boot m_worker m_epoch
    m_health_gen]. destruct (_ || _); [|done].
  rewrite ack_result_store. split; [by apply ack_result_ok|exact Hin'].
Qed.

(** A publication, if there is one, is accepted and keeps the two in step. *)
Lemma publish_in_step (r : Round B) ag c :
  round_ok r -> agent_wf ag -> has_room ag -> in_step ag (co_store c) ->
  let '(ag', out) := publish_snapshot (rn_backend r) (rn_clock r) ag in
  let '(c', replies) := dispatch_all (rn_now r) (rn_io r) out c in
  Forall (fun m => m_ok m = true) replies /\ agent_wf ag' /\ in_step ag' (co_store c') /\
  (ag' = ag \/ ag' = next_snapshot ag).
Proof.
  intros (Hlaws & Hclock & Hfit) Hag Hroom Hin. unfold publish_snapshot.
  destruct (backend_enumerate (rn_backend r)) as [ds|] eqn:Hen;
    [|cbn; by auto using Forall_nil_2].
  pose proof (dispatch_published (rn_backend r) (rn_clock r) ag ds (rn_now r) (rn_io r) c Hag Hclock
    Hen (Hfit ag ds eq_refl)) as Hdisp. cbn zeta in Hdisp.
  pose proof (observe_stamped (rn_backend r) (rn_clock r) ag ds) as Hst.
  destruct (observe_devices _ _ _ _) as [|o batch]; [cbn; by auto using Forall_nil_2|].
  destruct (ingest_in_step ag policy_default (rn_now r) (o :: batch) (co_store c) Hag Hroom Hin Hst)
    as (Hok & Hin' & _).
  cbn [dispatch_all]. rewrite Hdisp.
  pose proof (ack_result_store (snapshot_message (o :: batch) ag) c
    (ingest_snapshot (ag_worker ag) (o :: batch) policy_default (rn_now r) (co_store c))) as Hs.
  pose proof (ack_result_ok (snapshot_message (o :: batch) ag) c _ Hok) as Hm.
  destruct (ack_result _ _ _) as [c' reply]. cbn [fst snd] in *. rewrite Hs.
  split_and!; [by repeat constructor|by apply next_snapshot_wf|exact Hin'|by right].
Qed.

Lemma dispatch_all_app now io ms1 ms2 c :
  dispatch_all now io (ms1 ++ ms2) c =
    let '(c1, r1) := dispatch_all now io ms1 c in
    let '(c2, r2) := dispatch_all now io ms2 c1 in (c2, r1 ++ r2).
Proof.
  revert c. induction ms1 as [|m ms1 IH]; intros c; cbn [app dispatch_all].
  - by destruct (dispatch_all now io ms2 c).
  - destruct (dispatch now io m c) as [c1 reply]. rewrite IH.
    destruct (dispatch_all now io ms1 c1) as [c2 r1]. by destruct (dispatch_all now io ms2 c2).
Qed.

End Session.

(** The evidence of a probe that proves every operational check. *)
Definition probe_healthy (p : DeviceProbe) : Prop :=
  p_present p = true /\ p_driver_runtime_ok p = true /\ p_cuda_init_ok p = true /\
  p_memory_alloc_ok p = true /\ p_kernel_exec_ok p = true /\ p_sync_ok p = true /\
  p_d2h_ok p = true /\ p_verify_ok p = true.

(** The device may be scheduled as far as the coordinator's record goes: not
    quarantined, not draining, last observed no later than [t]. *)
Definition not_held (prior : DeviceState) (t : Timestamp) : Prop :=
  d_quarantined prior = false /\ d_drain prior = DrainState.ACTIVE /\ d_last_observed_at prior <= t.

Lemma recent_is_fresh last t now :
  t <> kInvalidTimestamp -> last <= t -> 0 <= now - t <= 24 * 60 * 60 * 1000 ->
  observation_is_fresh last t (24 * 60 * 60 * 1000) now = true.
Proof.
  intros Ht Hl Hn. unfold observation_is_fresh, i64_sub.
  rewrite to_signed_wrap by (unfold is_s; lia).
  destruct (Z.eqb_spec t kInvalidTimestamp); [done|]. cbn [negb].
  rewrite (proj2 (Z.leb_le _ _)) by lia. rewrite (proj2 (Z.geb_le _ _)) by lia. done.
Qed.

Lemma healthy_observation_schedulable p meta prior now epoch :
  probe_wf p -> probe_healthy p -> not_held prior (mt_observed_at meta) ->
  mt_observed_at meta <> kInvalidTimestamp ->
  0 <= now - mt_observed_at meta <= 24 * 60 * 60 * 1000 ->
  schedulable (d_eligibility (ao_state
    (apply_observation prior (normalize_observation p meta) policy_default now epoch))) = true.
Proof.
  intros [] (Hp & H1 & H2 & H3 & H4 & H5 & H6 & H7) (Hq & Hd & Hl) Ht Hn.
  apply applied_schedulable. split_and!; try assumption.
  - by apply recent_is_fresh.
  - unfold checks_proven. cbn. by rewrite H1, H2, H3, H4, H5, H6, H7.
  - unfold requirements_met. cbn. unfold is_u in *. split_and!; try done; try lia.
    unfold architecture_match. cbn. by rewrite andb_false_r.
Qed.

(** A request of an agent whose epoch is not the coordinator's is refused. *)
Lemma stale_heartbeat_refused ag now io c :
  fs_epoch (co_store c) <> ag_last_known_epoch ag -> (ag_worker ag, ag_boot ag) <> (MkId 0, MkId 0) ->
  let r := dispatch now io (heartbeat_message ag) c in
  m_ok r.2 = false /\ co_store r.1 = co_store c.
Proof.
  intros He Hz. unfold dispatch. cbn [heartbeat_message agent_message m_type m_worker_boot m_worker
    m_epoch m_health_gen].
  destruct (negb _ || negb _) eqn:E.
  - rewrite ack_result_store. unfold heartbeat, ack_result.
    destruct (gen_eqb_spec (ag_last_known_epoch ag) (fs_epoch (co_store c))); [congruence|done].
  - exfalso. apply Hz. unfold id_is_zero in E. zbool. destruct (ag_worker ag), (ag_boot ag).
    cbn in *. by subst.
Qed.

Lemma stale_ingest_refused w boot o obs policy now st wr :
  fs_workers st !! w = Some wr -> w_boot wr = boot -> o_epoch o <> fs_epoch st ->
  result_ok (ingest_snapshot w (o :: obs) policy now st).2 = false /\
  (ingest_snapshot w (o :: obs) policy now st).1 = st.
Proof.
  intros Hw Hb Ho. unfold ingest_snapshot. rewrite Hw. destruct (_ || _); [done|].
  cbn [ingest_loop ia_state]. unfold ingest_gate.
  destruct (gen_eqb_spec (o_epoch o) (fs_epoch st)); [congruence|done].
Qed.

(** One publication, from the backend to the coordinator's record. *)
Lemma published_device_schedulable {B} `{!DeviceBackend B} (b : B) `{!BackendLaws b}
    clock ag ag' m devices d p now io c :
  agent_wf ag -> has_room ag -> in_step ag (co_store c) -> (forall n, is_i64 (clock n)) ->
  (forall n, clock n <> kInvalidTimestamp /\ 0 <= now - clock n <= 24 * 60 * 60 * 1000) ->
  backend_enumerate b = Ok devices -> publish_snapshot b clock ag = (ag', [m]) ->
  payload_fits (m_payload m) -> NoDup (map obs_key (observe_devices b clock ag devices)) ->
  d ∈ devices -> backend_probe b d = Ok p -> probe_healthy p ->
  (forall n, not_held (default device_default
               (fs_devices (co_store c) !! canonical_device_identity (p_identity p))) (clock n)) ->
  let r := dispatch now io m c in
  m_ok r.2 = true /\ exists s,
    fs_devices (co_store r.1) !! canonical_device_identity (p_identity p) = Some s /\
    d_present s = true /\ d_observation_fresh s = true /\ schedulable (d_eligibility s) = true.
Proof.
  intros Hag Hroom Hin Hclock Hrecent Hen Hpub Hfit Hnd Hd Hp Hh Hheld.
  destruct (publish_inv b clock ag ag' m Hpub) as (ds & Hen' & -> & ->).
  rewrite Hen in Hen'. injection Hen' as <-. cbn [m_payload snapshot_message agent_message] in Hfit.
  cbn zeta. rewrite (dispatch_published b clock ag devices now io c Hag Hclock Hen Hfit).
  pose proof (observe_stamped b clock ag devices) as Hst.
  destruct (observe_probed b clock ag devices d p Hd Hp) as [n Hn].
  destruct (ingest_in_step ag policy_default now _ (co_store c) Hag Hroom Hin Hst) as (Hok & _ & _).
  split; [by apply ack_result_ok|]. rewrite ack_result_store.
  pose proof (ingest_applies ag policy_default now _ (co_store c) _ Hin Hst Hnd Hn) as Ha.
  eexists. split; [exact Ha|]. unfold ingest_apply.
  cbn [ao_state d_set_health_generation d_present d_observation_fresh d_eligibility].
  match goal with |- context [schedulable (d_eligibility (ao_state ?x))] =>
    assert (schedulable (d_eligibility (ao_state x)) = true) as Hs end.
  { apply healthy_observation_schedulable; [by eapply bl_probe|exact Hh|apply Hheld|apply Hrecent..]. }
  split_and!; [apply Hh| |exact Hs]. by apply applied_schedulable in Hs as [Hf _].
Qed.

(* ------------------------------------------------------------------ *)
(** ** Properties *)

(** C19. The handshake: the bytes of a fresh incarnation's HELLO and REGISTER, served
    by the coordinator, and its two replies, read by the agent, leave the worker
    registered, the connection bound to it, and the two in step under the
    coordinator's epoch. *)
Theorem handshake_registers {B} `{!DeviceBackend B} (b : B) `{!BackendLaws b} env ag c :
  agent_wf ag -> id_wf (op_coordinator_id (co_opts c)) -> gen_wf (fs_epoch (co_store c)) ->
  fresh_incarnation ag (co_store c) ->
  let ag1 := learn_epoch (fs_epoch (co_store c)) ag in
  let reg := make_registration b ag1 in
  payload_fits (encode_registration reg) ->
  exists ack1 ack2 c1 c2,
    all_frames env c (MkConn (message_frame (hello_message ag)) None) =
      (c1, MkConn [] None, [ack1], Open) /\
    all_frames env c1 (MkConn (message_frame (register_message reg ag1)) None) =
      (c2, MkConn [] (Some (ag_worker ag)), [ack2], Open) /\
    connect_and_register b true true
      [RecvData (message_frame ack1); RecvData (message_frame ack2)] ag =
      (next_registration ag1, Ok tt, [hello_message ag; register_message reg ag1], []) /\
    in_step (next_registration ag1) (co_store c2).
Proof.
  intros Hag Hc Hep Hfresh ag1 reg Hfit.
  assert (agent_wf ag1) as Hag1 by (destruct Hag; by split).
  assert (message_fits (hello_message ag)) as Hm1
    by (apply agent_message_fits; [done|done|enum_wf_solve|wf_const..]).
  assert (message_fits (register_message reg ag1)) as Hm2
    by (apply agent_message_fits; [done|done|enum_wf_solve|apply Hag1|wf_const|done]).
  set (ack1 := hello_ack (op_coordinator_id (co_opts c)) (fs_epoch (co_store c)) (hello_message ag)).
  assert (message_fits ack1) as Ha1 by (apply hello_ack_fits; [done|done|wf_const]).
  set (rmsg := register_message reg ag1) in *.
  destruct (dispatch_register b ag1 (env (co_tick (tick c))).1 (env (co_tick (tick c))).2
    (tick (tick c)) Hag1 eq_refl Hfresh) as [Hr Hin]. fold reg rmsg in Hr, Hin.
  assert (message_fits (register_ack reg (ag_last_known_epoch ag1) rmsg)) as Ha2
    by (apply register_ack_fits; [apply Hag1|apply Hag1|done|wf_const]).
  exists ack1, (register_ack reg (ag_last_known_epoch ag1) rmsg), (tick c).
  eexists. split_and!; [by rewrite serve_message by exact Hm1| | |exact Hin].
  - rewrite serve_message by exact Hm2. cbn zeta. by rewrite Hr.
  - unfold connect_and_register. cbn [negb].
    rewrite read_reply by exact Ha1. cbn [ack1 hello_ack m_epoch]. fold ag1 reg rmsg.
    by rewrite read_reply by exact Ha2.
Qed.

(** C14. A session: as long as generations do not wrap, every snapshot and heartbeat
    an agent in step sends is accepted, and the two remain in step. *)
Theorem session_accepted {B} `{!DeviceBackend B} (rounds : list (Round B)) ag c :
  Forall round_ok rounds -> agent_wf ag -> in_step ag (co_store c) ->
  gen_value (ag_obs_gen ag) + Z.of_nat (length rounds) < 2 ^ 64 ->
  gen_value (ag_device_gen ag) + Z.of_nat (length rounds) < 2 ^ 64 ->
  let '(ag', c', replies) := converse rounds ag c in
  Forall (fun m => m_ok m = true) replies /\ in_step ag' (co_store c').
Proof.
  intros Hrounds. revert ag c. induction Hrounds as [|r rounds Hr _ IH];
    intros ag c Hag Hin Ho Hd; cbn [converse]; [by split|]. cbn [length] in Ho, Hd.
  assert (has_room ag) as Hroom by (split; lia).
  pose proof (publish_in_step r ag c Hr Hag Hroom Hin) as Hp.
  destruct (publish_snapshot _ _ ag) as [ag1 out]. rewrite dispatch_all_app.
  destruct (dispatch_all (rn_now r) (rn_io r) out c) as [c1 r1].
  destruct Hp as (Hok1 & Hag1 & Hin1 & Hnext).
  destruct (dispatch_heartbeat ag1 (rn_now r) (rn_io r) c1 Hin1) as [Hok2 Hin2].
  cbn [dispatch_all]. destruct (dispatch _ _ (heartbeat_message ag1) c1) as [c2 reply].
  assert (gen_value (ag_obs_gen ag1) <= gen_value (ag_obs_gen ag) + 1 /\
          gen_value (ag_device_gen ag1) <= gen_value (ag_device_gen ag) + 1) as [Hg1 Hg2].
  { destruct Hag, Hroom. destruct Hnext as [-> | ->]; cbn -[gen_next];
      rewrite ?gen_next_value by assumption; lia. }
  specialize (IH ag1 c2 Hag1 Hin2 ltac:(lia) ltac:(lia)).
  destruct (converse rounds ag1 c2) as [[ag2 c3] r3]. destruct IH as [Hok3 Hin3].
  split; [|exact Hin3]. rewrite <- app_assoc. apply Forall_app. split; [done|].
  apply Forall_app. split; [|done]. by repeat constructor.
Qed.

(** C15. Evidence reaches placement: when an agent in step with the coordinator, its
    generation counters not exhausted, publishes a snapshot that fits a frame and names
    each device once, at times no clock gives as 0 and at most a day before the
    coordinator's, then the snapshot is accepted, and each device whose probe proves
    every check is recorded present, fresh and schedulable - provided that the
    coordinator's record of it was neither quarantined nor draining nor dated later
    than the new observation. *)
Theorem healthy_device_becomes_schedulable {B} `{!DeviceBackend B} (b : B) `{!BackendLaws b}
    clock ag ag' m devices d p now io c :
  agent_wf ag -> has_room ag -> in_step ag (co_store c) -> (forall n, is_i64 (clock n)) ->
  (forall n, clock n <> kInvalidTimestamp /\ 0 <= now - clock n <= 24 * 60 * 60 * 1000) ->
  backend_enumerate b = Ok devices -> publish_snapshot b clock ag = (ag', [m]) ->
  payload_fits (m_payload m) -> NoDup (map obs_key (observe_devices b clock ag devices)) ->
  d ∈ devices -> backend_probe b d = Ok p -> probe_healthy p ->
  (forall n, not_held (default device_default
               (fs_devices (co_store c) !! canonical_device_identity (p_identity p))) (clock n)) ->
  let r := dispatch now io m c in
  m_ok r.2 = true /\ exists s,
    fs_devices (co_store r.1) !! canonical_device_identity (p_identity p) = Some s /\
    d_present s = true /\ d_observation_fresh s = true /\ schedulable (d_eligibility s) = true.
Proof. exact (published_device_schedulable b clock ag ag' m devices d p now io c). Qed.

(** C20. Epoch fencing: once the coordinator's epoch is not the agent's, every
    snapshot and heartbeat the agent sends is refused and changes nothing. *)
Theorem stale_epoch_refused {B} `{!DeviceBackend B} (b : B) `{!BackendLaws b}
    clock ag ag' m now io c wr :
  agent_wf ag -> (forall n, is_i64 (clock n)) -> publish_snapshot b clock ag = (ag', [m]) ->
  payload_fits (m_payload m) -> fs_workers (co_store c) !! ag_worker ag = Some wr ->
  fs_epoch (co_store c) <> ag_last_known_epoch ag -> (ag_worker ag, ag_boot ag) <> (MkId 0, MkId 0) ->
  let r1 := dispatch now io m c in
  let r2 := dispatch now io (heartbeat_message ag') c in
  m_ok r1.2 = false /\ co_store r1.1 = co_store c /\ m_ok r2.2 = false /\ co_store r2.1 = co_store c.
Proof.
  intros Hag Hclock Hpub Hfit Hw He Hz.
  destruct (stale_heartbeat_refused ag' now io c) as [H3 H4];
    [destruct (publish_inv b clock ag ag' m Hpub) as (ds & _ & -> & _); done..|].
  cut (m_ok (dispatch now io m c).2 = false /\ co_store (dispatch now io m c).1 = co_store c);
    [by intros []|].
  destruct (publish_inv b clock ag ag' m Hpub) as (ds & Hen & -> & ->).
  cbn [m_payload snapshot_message agent_message] in Hfit.
  rewrite (dispatch_published b clock ag ds now io c Hag Hclock Hen Hfit), ack_result_store.
  pose proof (observe_stamped b clock ag ds) as Hst. unfold publish_snapshot in Hpub. rewrite Hen in Hpub.
  destruct (observe_devices b clock ag ds) as [|o obs]; [done|].
  apply Forall_cons in Hst as [(Ho & _) _].
  destruct (stale_ingest_refused (ag_worker ag) (w_boot wr) o obs policy_default now _ wr Hw eq_refl
    ltac:(congruence)) as [Hok Hst].
  split; [by apply ack_result_bad|exact Hst].
Qed.
