(* ===== verification/EndToEndWitness.v ===== *)
(** * A synthetic fleet, end to end

    The synthetic backend satisfies the backend interface; the theorems on the
    coordinator and the agent at a concrete fleet; and the behaviours of the two
    processes that a reader of their documentation would not expect. *)

From stdpp Require Import relations.
From S2P Require Import Prelude Core Codec Crc Message Framing Identity Health Eligibility.
From S2P Require Import Device Observation Change Pipeline Registration WireFormats ObservationCodec.
From S2P Require Import AdminPayload FleetState FleetSteps FleetInv FleetSafety FleetIngest.
From S2P Require Import FleetWitness SnapshotCodec Store CodecWitness Coordinator CoordinatorSafety.
From S2P Require Import Agent EndToEnd.

(* ------------------------------------------------------------------ *)
(** ** The fleet *)

Definition io_ok : SaveIo := MkSaveIo true (Z.to_nat 20000) true true true true true true true.
Definition sample_env : Env := fun n => (1000 + Z.of_nat n, io_ok).
Definition sample_clock : nat -> Timestamp := fun n => 2000 + Z.of_nat n mod 100.

Definition sample_agent : Agent := agent_init (MkId 1) (MkId 10) (MkId 100) "linux" 0 0 0.
Definition informed_agent : Agent := learn_epoch (MkGen 1) sample_agent.
Definition registered_agent : Agent := next_registration informed_agent.

Definition sample_opts : Options := MkOptions "fleet.state" (MkId 1) (MkGen 1) 5000.
Definition sample_coordinator : Coordinator := coordinator_init sample_opts ∅.
Definition registered_coordinator : Coordinator :=
  set_store (admit_worker (make_registration synthetic_default informed_agent) 1001
               (co_store sample_coordinator)).1 sample_coordinator.

#[export] Instance synthetic_laws : BackendLaws synthetic_default.
Proof.
  split.
  - intros ds [= <-]. vm_compute. congruence.
  - intros ds d [= <-]. intros Hd. apply list_elem_of_singleton in Hd as ->. vm_compute. congruence.
  - intros ds d p [= <-] Hd [= <-]. apply list_elem_of_singleton in Hd as ->.
    split; try done; try (vm_compute; try (split; congruence); congruence).
    repeat constructor; try enum_wf_solve; vm_compute; try (split; congruence); congruence.
Qed.

Lemma sample_agent_wf : agent_wf sample_agent.
Proof. split; wf_const. Qed.
Lemma informed_agent_wf : agent_wf informed_agent.
Proof. split; wf_const. Qed.
Lemma registered_agent_wf : agent_wf registered_agent.
Proof. split; wf_const. Qed.

Lemma sample_fresh ag : fresh_incarnation ag (co_store sample_coordinator).
Proof. split; [done|]. intros k d Hd. discriminate. Qed.

Lemma registered_in_step : in_step registered_agent (co_store registered_coordinator).
Proof. apply (admitted_in_step synthetic_default informed_agent); [done|apply sample_fresh]. Qed.

Lemma sample_clock_range n : 2000 <= sample_clock n < 2100.
Proof. unfold sample_clock. pose proof (Z.mod_pos_bound (Z.of_nat n) 100). lia. Qed.

(* ------------------------------------------------------------------ *)
(** ** Witnesses: the coordinator *)

(** The REGISTER and a snapshot of the sample agent, as bytes on one connection. *)
Definition register_bytes : list byte :=
  message_frame (register_message (make_registration synthetic_default informed_agent) informed_agent).
Definition publish_bytes (ag : Agent) : list byte :=
  concat (map message_frame (publish_snapshot synthetic_default sample_clock ag).2).

Definition synthetic_key : string :=
  canonical_device_identity (synthetic_identity synthetic_default 0).

(** The server after the connection's bytes have arrived and been served. *)
Definition sample_conn : Conn := MkConn (register_bytes ++ publish_bytes registered_agent) None.
Definition served : Coordinator * Conn * list Message * ConnEnd :=
  all_frames sample_env sample_coordinator sample_conn.
Definition served_server : Server := MkServer served.1.1.1 (<[0%nat := served.1.1.2]> ∅) [].

Example served_replies :
  map m_type served.1.2 = [MessageType.REGISTER_ACK; MessageType.ACK] /\ served.2 = Open.
Proof. vm_compute. auto. Qed.

(** A connection's loop is a sequence of the server's steps. *)
Lemma serve_steps env c i cn conns ws n c' cn' out :
  serve n env c cn = (c', cn', out, Open) ->
  rtc server_step (MkServer c (<[i := cn]> conns) ws) (MkServer c' (<[i := cn']> conns) ws).
Proof.
  revert c cn out. induction n as [|n IH]; intros c cn out; cbn [serve].
  - intros [= <- <- _]. done.
  - destruct (serve_one _ _ c cn) as [[[[c1 cn1] reply] [|]]|] eqn:E; [|done|by intros [= <- <- _]].
    destruct (serve n env c1 cn1) as [[[c2 cn2] out2] e] eqn:E2. intros [= <- <- _ ->].
    eapply rtc_l; [eapply (SV_frame _ _ _ i cn); [apply lookup_insert_eq|exact E]|].
    rewrite insert_insert_eq. by eapply IH.
Qed.

Lemma all_frames_steps env c i cn conns ws :
  (all_frames env c cn).2 = Open ->
  let r := all_frames env c cn in
  rtc server_step (MkServer c (<[i := cn]> conns) ws)
    (MkServer r.1.1.1 (<[i := r.1.1.2]> conns) ws).
Proof.
  intros Ho r. destruct r as [[[c' cn'] out] e] eqn:E. subst r. rewrite E in Ho. cbn in Ho |- *.
  subst e. by eapply serve_steps.
Qed.

(** A client that connects and sends its bytes at once. *)
Lemma client_steps env c bytes :
  (all_frames env c (MkConn bytes None)).2 = Open ->
  let r := all_frames env c (MkConn bytes None) in
  rtc server_step (server_init c) (MkServer r.1.1.1 (<[0%nat := r.1.1.2]> ∅) []).
Proof.
  intros Ho r. eapply rtc_l; [by apply (SV_accept _ _ _ 0%nat)|].
  eapply rtc_l; [apply (SV_recv _ _ _ 0%nat conn_init bytes), lookup_insert_eq|].
  rewrite insert_insert_eq. by apply (all_frames_steps env c 0%nat (MkConn bytes None)).
Qed.

Lemma served_reachable : rtc server_step (server_init sample_coordinator) served_server.
Proof.
  apply (client_steps sample_env sample_coordinator (register_bytes ++ publish_bytes registered_agent)).
  vm_compute. reflexivity.
Qed.

Definition served_device : DeviceState :=
  default device_default (fs_devices (co_store (sv_co served_server)) !! synthetic_key).

Lemma start_sample : (start sample_opts (MkLoadIo true true true) ∅).1 = sample_coordinator.
Proof. reflexivity. Qed.

Lemma served_from_start :
  rtc server_step (server_init (start sample_opts (MkLoadIo true true true) ∅).1) served_server.
Proof. rewrite start_sample. exact served_reachable. Qed.

Lemma served_lookup : fs_devices (co_store (sv_co served_server)) !! synthetic_key = Some served_device.
Proof. vm_compute. reflexivity. Qed.

Lemma served_schedulable : schedulable (d_eligibility served_device) = true.
Proof. vm_compute. reflexivity. Qed.

Lemma network_placement_safe_witness :
  schedulable (d_eligibility served_device) = true /\ d_observation_fresh served_device = true.
Proof.
  split; [exact served_schedulable|].
  exact (proj1 (network_placement_safe sample_opts (MkLoadIo true true true) ∅ served_server
    synthetic_key served_device served_from_start served_lookup served_schedulable)).
Defined.

(** A heartbeat before any registration. *)
Lemma refused_request_changes_nothing_witness :
  m_ok (dispatch 1000 io_ok (heartbeat_message sample_agent) sample_coordinator).2 = false /\
  co_store (dispatch 1000 io_ok (heartbeat_message sample_agent) sample_coordinator).1 =
    co_store sample_coordinator.
Proof.
  split; [vm_compute; reflexivity|].
  apply refused_request_changes_nothing; vm_compute; reflexivity.
Defined.

Lemma connection_chunking_invariant_witness :
  handle_connection true sample_env
    ([RecvData (take 20 register_bytes); RecvNone; RecvData (drop 20 register_bytes)] ++ [RecvData []])
    sample_coordinator conn_init =
  handle_connection true sample_env ([RecvData register_bytes] ++ [RecvData []]) sample_coordinator conn_init.
Proof.
  apply connection_chunking_invariant; [repeat constructor..|].
  cbn [map received concat]. by rewrite !app_nil_r, app_nil_l, take_drop.
Defined.

Lemma serve_terminates_witness :
  serve 1000 sample_env sample_coordinator sample_conn =
    serve (S (length (cn_buf sample_conn))) sample_env sample_coordinator sample_conn.
Proof. apply serve_terminates. apply Nat.ltb_lt. vm_compute. reflexivity. Defined.

(** A coordinator that holds the sample fleet is told to save. *)
Definition saving_coordinator : Coordinator := set_store sample_fleet sample_coordinator.
Definition save_message : Message := new_message MessageType.SAVE.

Lemma saved_state_recovered_witness :
  let r := start sample_opts (MkLoadIo true true true)
             (co_fs (dispatch 3000 io_ok save_message saving_coordinator).1) in
  r.2 = Ok tt /\ fs_epoch (co_store r.1) = fs_epoch sample_fleet.
Proof.
  destruct (saved_state_recovered 3000 io_ok save_message saving_coordinator sample_opts)
    as (H1 & H2 & _);
    [reflexivity|vm_compute; reflexivity|reflexivity|exact sample_snapshot_wf
     |exact sample_snapshot_fits|].
  exact (conj H1 H2).
Defined.

(* ------------------------------------------------------------------ *)
(** ** Witnesses: the agent and the coordinator *)

Lemma sample_registration_fits :
  payload_fits (encode_registration (make_registration synthetic_default informed_agent)).
Proof. vm_compute. congruence. Qed.

Lemma handshake_registers_witness :
  exists ack1 ack2 c1 c2,
    all_frames sample_env sample_coordinator (MkConn (message_frame (hello_message sample_agent)) None)
      = (c1, MkConn [] None, [ack1], Open) /\
    all_frames sample_env c1 (MkConn register_bytes None) =
      (c2, MkConn [] (Some (MkId 10)), [ack2], Open) /\
    connect_and_register synthetic_default true true
      [RecvData (message_frame ack1); RecvData (message_frame ack2)] sample_agent =
      (registered_agent, Ok tt,
       [hello_message sample_agent;
        register_message (make_registration synthetic_default informed_agent) informed_agent], []) /\
    in_step registered_agent (co_store c2).
Proof.
  exact (handshake_registers synthetic_default sample_env sample_agent sample_coordinator
    sample_agent_wf ltac:(wf_const) ltac:(wf_const) (sample_fresh sample_agent)
    sample_registration_fits).
Defined.

Definition sample_round : Round SyntheticDeviceBackend :=
  MkRound synthetic_default sample_clock 2100 io_ok.

Lemma sample_round_ok : round_ok sample_round.
Proof.
  split; [apply synthetic_laws|]. split.
  - intros n. cbn [rn_clock sample_round]. pose proof (sample_clock_range n). unfold is_s. lia.
  - intros ag ds [= <-]. vm_compute. congruence.
Qed.

Lemma session_accepted_witness :
  let '(ag', c', replies) := converse [sample_round; sample_round] registered_agent
                               registered_coordinator in
  Forall (fun m => m_ok m = true) replies /\ in_step ag' (co_store c').
Proof.
  apply session_accepted;
    [repeat (apply Forall_cons_2; [apply sample_round_ok|]); apply Forall_nil_2
     |apply registered_agent_wf|apply registered_in_step
     |vm_compute; reflexivity|vm_compute; reflexivity].
Defined.

Definition sample_device_id : EnumeratedDevice :=
  MkEnumerated 0 (synthetic_identity synthetic_default 0) true.
Definition sample_probe : DeviceProbe :=
  match synthetic_probe synthetic_default sample_device_id with
  | Ok p => p
  | Err _ => MkProbe (synthetic_identity synthetic_default 0) false false false false 0 0 0 None None
               false false false false false false false "" []
  end.
Definition sample_published : Message :=
  snapshot_message (observe_devices synthetic_default sample_clock registered_agent [sample_device_id])
    registered_agent.

Lemma sample_published_fits : payload_fits (m_payload sample_published).
Proof. vm_compute. congruence. Qed.

Lemma healthy_device_becomes_schedulable_witness :
  m_ok (dispatch 2100 io_ok sample_published registered_coordinator).2 = true /\ exists s,
    fs_devices (co_store (dispatch 2100 io_ok sample_published registered_coordinator).1)
      !! synthetic_key = Some s /\
    d_present s = true /\ d_observation_fresh s = true /\ schedulable (d_eligibility s) = true.
Proof.
  apply (healthy_device_becomes_schedulable synthetic_default sample_clock registered_agent
    (next_snapshot registered_agent) sample_published [sample_device_id] sample_device_id sample_probe).
  - apply registered_agent_wf.
  - split; wf_const.
  - apply registered_in_step.
  - intros n. pose proof (sample_clock_range n). unfold is_s. lia.
  - intros n. pose proof (sample_clock_range n). unfold kInvalidTimestamp. lia.
  - reflexivity.
  - reflexivity.
  - apply sample_published_fits.
  - repeat constructor. intros Hin. by apply elem_of_nil in Hin.
  - apply list_elem_of_here.
  - reflexivity.
  - by split_and!.
  - intros n. pose proof (sample_clock_range n). split_and!; [reflexivity..|].
    replace (default _ _) with device_default by reflexivity. cbn. unfold kInvalidTimestamp. lia.
Defined.

(** The coordinator's epoch is rolled; the agent does not learn of it. *)
Definition rolled_coordinator : Coordinator :=
  set_store (roll_epoch (MkGen 2) (co_store registered_coordinator)).1 registered_coordinator.

Lemma stale_epoch_refused_witness :
  m_ok (dispatch 2100 io_ok sample_published rolled_coordinator).2 = false /\
  m_ok (dispatch 2100 io_ok (heartbeat_message (next_snapshot registered_agent))
          rolled_coordinator).2 = false.
Proof.
  destruct (stale_epoch_refused synthetic_default sample_clock registered_agent
    (next_snapshot registered_agent) sample_published 2100 io_ok rolled_coordinator
    (new_worker_record (make_registration synthetic_default informed_agent) 1001)) as (H1 & _ & H3 & _).
  - apply registered_agent_wf.
  - intros n. pose proof (sample_clock_range n). unfold is_s. lia.
  - reflexivity.
  - apply sample_published_fits.
  - vm_compute. reflexivity.
  - vm_compute. congruence.
  - vm_compute. congruence.
  - exact (conj H1 H3).
Defined.

(* ------------------------------------------------------------------ *)
(** ** Behaviours worth knowing *)

Definition worker_state (w : WorkerId) (c : Coordinator) : option (WorkerBootId * bool) :=
  (fun wr => (w_boot wr, worker_live wr)) <$> fs_workers (co_store c) !! w.

(** Another incarnation of worker 10 tries to register while the first is live:
    it is refused, but its connection is bound to the worker all the same, and
    closing it marks the live incarnation lost. *)
Definition intruder : Agent :=
  learn_epoch (MkGen 1) (agent_init (MkId 1) (MkId 10) (MkId 999) "linux" 0 0 0).
Definition intruder_bytes : list byte :=
  message_frame (register_message (make_registration synthetic_default intruder) intruder).

Example rejected_register_loses_live_worker :
  let r := handle_connection true sample_env [RecvData intruder_bytes; RecvData []]
             registered_coordinator conn_init in
  map m_reason r.2 =
    ["registration rejected: duplicate registration identity already active"%string] /\
  worker_state (MkId 10) registered_coordinator = Some (MkId 100, true) /\
  worker_state (MkId 10) r.1 = Some (MkId 100, false).
Proof. vm_compute. auto. Qed.

(** The liveness thread finds the incarnation 100 overdue; before it marks the
    worker, the incarnation is lost with its connection and its successor 999
    registers; the mark then falls on the successor. *)
Example stale_scan_loses_new_incarnation :
  let ws := overdue_workers 9000 5000 (snapshot (co_store registered_coordinator)) in
  let closed := close_connection true 9000 registered_coordinator (MkConn [] (Some (MkId 10))) in
  let succeeded := (handle_connection true sample_env [RecvData intruder_bytes] closed conn_init).1 in
  ws = [MkId 10] /\
  worker_state (MkId 10) succeeded = Some (MkId 999, true) /\
  fs_workers (mark_overdue 9000 ws (co_store succeeded)) !! MkId 10 =
    lose_worker <$> fs_workers (co_store succeeded) !! MkId 10.
Proof. vm_compute. auto. Qed.

(** A connection dropped for a malformed frame leaves its worker live. *)
Example dropped_connection_keeps_worker :
  let r := handle_connection true sample_env
             [RecvData register_bytes; RecvData (repeat Byte.x00 20); RecvData []]
             sample_coordinator conn_init in
  map m_type r.2 = [MessageType.REGISTER_ACK; MessageType.ERROR] /\
  worker_state (MkId 10) r.1 = Some (MkId 100, true).
Proof. vm_compute. auto. Qed.

(** The acknowledgement of a registration is lost: the coordinator has recorded
    generation 1, the agent has not advanced, and its next registration is
    refused as stale, whether or not it was marked lost in between. *)
Example lost_register_ack_wedges_agent :
  let ack := hello_ack (MkId 1) (MkGen 1) (hello_message sample_agent) in
  let '(ag, r, sent, _) := connect_and_register synthetic_default true true
                             [RecvData (message_frame ack); RecvError] sample_agent in
  let again := register_message (make_registration synthetic_default ag) ag in
  let lost := close_connection true 2000 registered_coordinator (MkConn [] (Some (MkId 10))) in
  result_ok r = false /\ last sent = Some again /\
  m_reason (dispatch 2000 io_ok again registered_coordinator).2 =
    "registration rejected: stale registration generation"%string /\
  m_reason (dispatch 2000 io_ok again lost).2 =
    "registration rejected: stale registration generation"%string.
Proof. vm_compute. auto. Qed.

(** After its second snapshot a device cannot be quarantined at generation 1,
    the generation the command line tool always sends. *)
Definition quarantine_request : Message :=
  MkMessage MessageType.QUARANTINE (MkId 0) (MkGen 0) (MkId 0) (MkId 0) (MkId 0) (MkId 0) (MkGen 0)
    (MkGen 0) (MkGen 0) (MkGen 0) (MkGen 0) 7 true ""
    (encode_quarantine synthetic_key "manual" "operator" (MkGen 1)).

Example cli_quarantine_refused :
  let '(_, c1, _) := converse [sample_round] registered_agent registered_coordinator in
  let '(_, c2, _) := converse [sample_round; sample_round] registered_agent registered_coordinator in
  m_ok (dispatch 2200 io_ok quarantine_request c1).2 = true /\
  m_reason (dispatch 2200 io_ok quarantine_request c2).2 = "stale quarantine generation"%string.
Proof. vm_compute. auto. Qed.

(** The replies the agent acts on after registering: none. An ERROR, which is
    how the coordinator refuses a stale epoch, is ignored. *)
Example agent_ignores_refusals :
  handle_admin (dispatch 2100 io_ok sample_published rolled_coordinator).2 registered_agent = None.
Proof. vm_compute. reflexivity. Qed.
