(* ===== verification/Fairness.v ===== *)
(** * What the coordinator does in the long run

    Runs without end in which the liveness thread is never left out for ever:
    a worker that falls silent is found by [liveness_loop], marked lost, and its
    devices are withdrawn, whatever the other connections do meanwhile. *)

From stdpp Require Import relations.
From S2P Require Import Prelude Core Codec Message Framing Identity Health Eligibility Device.
From S2P Require Import Observation Change Pipeline Registration ObservationCodec AdminPayload.
From S2P Require Import FleetState FleetSteps FleetInv FleetSafety FleetIngest SnapshotCodec Store.
From S2P Require Import Coordinator CoordinatorSafety Runs.

(** The steps of [liveness_loop]. *)
Definition is_liveness (l : Label) : bool :=
  match l with Scan _ | Mark _ => true | _ => false end.

(** A run without end; the liveness thread acts again and again. *)
Record FairRun (sched : nat -> Label) (run : nat -> Server) : Prop := {
  fr_step : forall n, server_do (sched n) (run n) = Some (run (S n));
  fr_fair : forall n, exists m, (n <= m)%nat /\ is_liveness (sched m) = true
}.

(** The operations that renew a worker's record. *)
Definition refreshes (w : WorkerId) (op : Op) : bool :=
  match op with
  | OpRegister reg _ => bool_decide (r_worker reg = w)
  | OpHeartbeat v _ _ _ _ => bool_decide (v = w)
  | OpIngest v _ _ _ => bool_decide (v = w)
  | _ => false
  end.

Definition loses (w : WorkerId) (op : Op) : bool :=
  match op with OpLost v _ => bool_decide (v = w) | _ => false end.

Definition store_at (run : nat -> Server) (n : nat) : FleetState := co_store (sv_co (run n)).

(** From step [n] on nothing of the worker is heard. *)
Definition silent (w : WorkerId) (sched : nat -> Label) (run : nat -> Server) (n : nat) : Prop :=
  forall m op, (n <= m)%nat -> label_op (sched m) (run m) = Some op -> refreshes w op = false.

(** From some step on, every reading of the clock by a scan is past the timeout. *)
Definition timeout_passes (timeout last : Z) (sched : nat -> Label) : Prop :=
  exists n, forall m now, (n <= m)%nat -> sched m = Scan now -> i64_sub now last > timeout.

(** The worker is out of service. *)
Definition worker_out (w : WorkerId) (st : FleetState) : Prop :=
  exists wr, fs_workers st !! w = Some wr /\ w_alive wr = false /\ w_lost wr = true /\
             w_fenced wr = true.

(** None of these devices may be scheduled. *)
Definition devices_out (keys : list string) (st : FleetState) : Prop :=
  forall k d, k ∈ keys -> fs_devices st !! k = Some d ->
    d_observation_fresh d = false /\ d_present d = false /\ schedulable (d_eligibility d) = false.

(* ------------------------------------------------------------------ *)
(** ** Lemmas: one operation *)

Lemma ingest_loop_other v w boot policy now obs acc :
  v <> w ->
  fs_workers (ia_state (ingest_loop v boot policy now obs acc).1) !! w =
    fs_workers (ia_state acc) !! w.
Proof.
  intros Hne. revert acc. induction obs as [|o obs IH]; intros acc; cbn [ingest_loop]; [done|].
  destruct (ingest_gate _ _ _ _); [done|apply IH|]. rewrite IH. cbn [ia_state].
  unfold ingest_commit. case_branch; cbn; [done|]. by rewrite lookup_alter_ne.
Qed.

Lemma ingest_other v w obs policy now st :
  v <> w -> fs_workers (ingest_snapshot v obs policy now st).1 !! w = fs_workers st !! w.
Proof.
  intros Hne. unfold ingest_snapshot. destruct (fs_workers st !! v) as [wr|]; [|done].
  case_branch; [done|].
  pose proof (ingest_loop_other v w (w_boot wr) policy now obs (MkAcc st ∅ applied_default) Hne) as Hl.
  destruct (ingest_loop _ _ _ _ _ _) as [acc [e|]]; cbn [fst ia_state] in *; [done|].
  cbn. rewrite lookup_alter_ne by done. by rewrite sweep_workers.
Qed.

Lemma lost_worker_record v w now st :
  fs_workers (mark_worker_lost v now st).1 !! w =
    if bool_decide (v = w) then lose_worker <$> fs_workers st !! w else fs_workers st !! w.
Proof.
  unfold mark_worker_lost. case_bool_decide as Hv; [subst v|];
    destruct (fs_workers st !! _) as [wr|] eqn:E; cbn; rewrite ?E; try done.
  - by rewrite lookup_insert_eq.
  - by rewrite lookup_insert_ne.
Qed.

(** An operation that does not renew a worker's record leaves it, or loses it. *)
Lemma run_op_worker w op st :
  refreshes w op = false ->
  fs_workers (run_op op st) !! w =
    if loses w op then lose_worker <$> fs_workers st !! w else fs_workers st !! w.
Proof.
  destruct op as [ne|reg now|v now|v obs policy now|v boot epoch now hg|v k d now|v k q now|v k e now];
    cbn [refreshes loses run_op]; intros Hr; try apply bool_decide_eq_false in Hr.
  - unfold roll_epoch. by case_branch.
  - unfold register_worker, admit_worker. repeat case_branch; try done; cbn [fst];
      rewrite ?ensure_node_workers; cbn; by rewrite lookup_insert_ne.
  - apply lost_worker_record.
  - by apply ingest_other.
  - unfold heartbeat. repeat case_branch; try done. cbn. by rewrite lookup_insert_ne.
  - unfold set_drain. by repeat case_branch.
  - unfold set_quarantine. by repeat case_branch.
  - unfold clear_quarantine. by repeat case_branch.
Qed.

Lemma worker_out_op w op st :
  refreshes w op = false -> worker_out w st -> worker_out w (run_op op st).
Proof.
  intros Hr (wr & Hw & H). unfold worker_out. rewrite (run_op_worker w op st Hr), Hw.
  destruct (loses w op); cbn; [by exists (lose_worker wr)|by exists wr].
Qed.

(** Losing the worker takes it and its devices out of service. *)
Lemma lost_out w now st wr :
  (forall k d, fs_devices st !! k = Some d -> placed d) -> fs_workers st !! w = Some wr ->
  let st' := (mark_worker_lost w now st).1 in
  worker_out w st' /\ devices_out (w_device_identities wr) st'.
Proof.
  intros Hp Hw. cbn zeta. split.
  - exists (lose_worker wr). by rewrite lost_worker_record, bool_decide_true, Hw.
  - intros k d Hk. unfold mark_worker_lost. rewrite Hw. cbn.
    destruct (fs_devices st !! k) as [d0|] eqn:Hd.
    + rewrite (foldl_alter_lookup _ _ _ _ d0 lose_device_idemp Hd), bool_decide_true by exact Hk.
      intros [= <-]. apply (lose_device_placed d0), (Hp k d0 Hd).
    + rewrite (foldl_alter_none _ _ _ _ Hd). done.
Qed.

(* ------------------------------------------------------------------ *)
(** ** Lemmas: runs *)

Lemma start_opts opts io fs : co_opts (start opts io fs).1 = opts.
Proof. unfold start, load_state. by repeat case_branch. Qed.

(** A decidable property that holds somewhere holds somewhere first. *)
Lemma first_time (f : nat -> bool) lo n :
  (lo <= n)%nat -> f n = true ->
  exists m, (lo <= m)%nat /\ f m = true /\ forall k, (lo <= k < m)%nat -> f k = false.
Proof.
  induction (lt_wf n) as [n _ IH]. intros Hle Hf.
  destruct (existsb f (seq lo (n - lo))) eqn:E.
  - apply existsb_exists in E as (k & Hk%in_seq & Hfk). apply (IH k); [lia|lia|done].
  - exists n. split_and!; [done|done|]. intros k Hk. apply not_true_iff_false. intros Hfk.
    apply not_true_iff_false in E. apply E, existsb_exists. exists k. split; [|done].
    apply in_seq. lia.
Qed.

Section Run.
Context (sched : nat -> Label) (run : nat -> Server) (Hrun : FairRun sched run).

(** The step by which worker [w] is marked lost. *)
Definition loses_at (w : WorkerId) (n : nat) : bool :=
  match label_op (sched n) (run n) with Some op => loses w op | None => false end.

Lemma run_opts n : co_opts (sv_co (run n)) = co_opts (sv_co (run 0%nat)).
Proof.
  induction n as [|n IH]; [done|].
  destruct (server_do_store _ _ _ (fr_step _ _ Hrun n)) as [_ ->]. exact IH.
Qed.

Lemma run_store n : store_at run (S n) = run_opt (label_op (sched n) (run n)) (store_at run n).
Proof. apply (server_do_store _ _ _ (fr_step _ _ Hrun n)). Qed.

(** Only the liveness thread touches its list. *)
Lemma overdue_kept n :
  is_liveness (sched n) = false -> sv_overdue (run (S n)) = sv_overdue (run n).
Proof.
  pose proof (fr_step _ _ Hrun n) as Hs. destruct (sched n) as [i|i data|i now io|i now|i|now|now];
    try discriminate; intros _; cbn in Hs.
  - destruct (sv_conns _ !! i); [done|]. by injection Hs as <-.
  - destruct (sv_conns _ !! i); [|done]. by injection Hs as <-.
  - destruct (sv_conns _ !! i) as [cn|]; [|done]. cbn in Hs.
    destruct (serve_one _ _ _ cn) as [[[[c1 cn1] r] e]|]; [|done]. by injection Hs as <-.
  - destruct (sv_conns _ !! i); [|done]. by injection Hs as <-.
  - destruct (sv_conns _ !! i); [|done]. by injection Hs as <-.
Qed.

(** The next step of the liveness thread finds its list as it is. *)
Lemma next_liveness n :
  exists m, (n <= m)%nat /\ is_liveness (sched m) = true /\ sv_overdue (run m) = sv_overdue (run n).
Proof.
  destruct (fr_fair _ _ Hrun n) as (m0 & Hle & Hm0).
  destruct (first_time (fun m => is_liveness (sched m)) n m0 Hle Hm0) as (m & Hm & Hlive & Hbefore).
  exists m. split_and!; [done|done|]. clear Hle Hm0 Hlive m0.
  induction Hm as [|m Hm IH]; [done|].
  rewrite overdue_kept by (apply Hbefore; lia). apply IH. intros k Hk. apply Hbefore. lia.
Qed.

(** One round of the liveness thread: a scan, or the first of its list. *)
Lemma next_mark n v ws :
  sv_overdue (run n) = v :: ws ->
  exists m, (n <= m)%nat /\ loses_at v m = true /\ sv_overdue (run (S m)) = ws.
Proof.
  intros Hw. destruct (next_liveness n) as (m & Hm & Hl & Ho). exists m. rewrite Hw in Ho.
  pose proof (fr_step _ _ Hrun m) as Hs. unfold loses_at.
  destruct (sched m) as [| | | | |now|now]; try discriminate Hl; cbn in *; rewrite Ho in *;
    [done|]. injection Hs as <-. cbn. by rewrite bool_decide_true.
Qed.

Lemma pending_marked w ws n :
  sv_overdue (run n) = ws -> w ∈ ws -> exists m, (n <= m)%nat /\ loses_at w m = true.
Proof.
  revert n. induction ws as [|v ws IH]; intros n Hw Hin; [by apply elem_of_nil in Hin|].
  destruct (next_mark n v ws Hw) as (m & Hm & Hl & Ho).
  apply elem_of_cons in Hin as [->|Hin]; [by exists m|].
  destruct (IH (S m) Ho Hin) as (m' & Hm' & Hl'). exists m'. split; [lia|done].
Qed.

Lemma list_emptied ws n :
  sv_overdue (run n) = ws -> exists m, (n <= m)%nat /\ sv_overdue (run m) = [].
Proof.
  revert n. induction ws as [|v ws IH]; intros n Hw; [by exists n|].
  destruct (next_mark n v ws Hw) as (m & Hm & _ & Ho).
  destruct (IH (S m) Ho) as (m' & Hm' & Hl'). exists m'. split; [lia|done].
Qed.

Lemma next_scan n :
  sv_overdue (run n) = [] ->
  exists m now, (n <= m)%nat /\ sched m = Scan now /\
    sv_overdue (run (S m)) =
      overdue_workers now (op_heartbeat_timeout_ms (co_opts (sv_co (run 0%nat))))
        (snapshot (store_at run m)).
Proof.
  intros Hw. destruct (next_liveness n) as (m & Hm & Hl & Ho). rewrite Hw in Ho.
  pose proof (fr_step _ _ Hrun m) as Hs. rewrite <- (run_opts m).
  destruct (sched m) as [| | | | |now|now] eqn:E; try discriminate Hl; cbn in Hs; rewrite Ho in Hs;
    [|done]. injection Hs as Hs. exists m, now. split_and!; [done|exact E|]. by rewrite <- Hs.
Qed.

(** A silent worker's record stays as it is until it is lost. *)
Lemma silent_kept w wr n0 n :
  silent w sched run n0 -> fs_workers (store_at run n0) !! w = Some wr -> (n0 <= n)%nat ->
  (exists k, (n0 <= k)%nat /\ loses_at w k = true) \/ fs_workers (store_at run n) !! w = Some wr.
Proof.
  intros Hq Hw Hle. induction Hle as [|n Hle [IH|IH]]; [by right|by left|].
  rewrite run_store. destruct (label_op (sched n) (run n)) as [op|] eqn:Eo; [|by right].
  cbn [run_opt]. rewrite (run_op_worker w op _ (Hq n op Hle Eo)), IH.
  destruct (loses w op) eqn:El; [|by right]. left. exists n. split; [done|].
  unfold loses_at. by rewrite Eo.
Qed.

Lemma overdue_found w wr now timeout st :
  fs_workers st !! w = Some wr -> overdue now timeout wr = true ->
  w ∈ overdue_workers now timeout (snapshot st).
Proof.
  intros Hw Ho. unfold overdue_workers. apply list_elem_of_fmap. exists (w, wr). split; [done|].
  apply list_elem_of_In, List.filter_In. split; [|done]. apply list_elem_of_In.
  unfold map_entries. rewrite merge_sort_Permutation. by apply elem_of_map_to_list.
Qed.

(** It is marked lost in the end. *)
Lemma silent_lost w wr n0 :
  fs_workers (store_at run n0) !! w = Some wr -> worker_live wr = true ->
  w_last_heartbeat wr <> kInvalidTimestamp -> silent w sched run n0 ->
  timeout_passes (op_heartbeat_timeout_ms (co_opts (sv_co (run 0%nat)))) (w_last_heartbeat wr) sched ->
  exists m, (n0 <= m)%nat /\ loses_at w m = true.
Proof.
  intros Hw Hlive Hh Hq [n1 Hn1]. destruct (list_emptied _ (n0 `max` n1)%nat eq_refl) as (n & Hn & He).
  destruct (next_scan n He) as (m & now & Hm & Hsc & Ho).
  destruct (silent_kept w wr n0 m Hq Hw) as [Hd|Hk]; [lia|exact Hd|].
  destruct (pending_marked w _ (S m) Ho) as (m' & Hm' & Hl'); [|exists m'; split; [lia|done]].
  apply overdue_found with wr; [exact Hk|]. unfold overdue. unfold worker_live in Hlive.
  apply andb_true_iff in Hlive as [[-> ->]%andb_true_iff ->].
  apply Z.eqb_neq in Hh. rewrite Hh. cbn. rewrite Z.gtb_ltb. apply Z.ltb_lt.
  assert (i64_sub now (w_last_heartbeat wr) >
    op_heartbeat_timeout_ms (co_opts (sv_co (run 0%nat)))) by (apply (Hn1 m); [lia|done]).
  lia.
Qed.

Lemma run_reachable n : rtc server_step (run 0%nat) (run n).
Proof.
  induction n as [|n IH]; [done|]. eapply rtc_r; [exact IH|].
  eapply server_do_step, (fr_step _ _ Hrun).
Qed.

Lemma lost_stays w n0 n :
  silent w sched run n0 -> (n0 <= n)%nat -> worker_out w (store_at run n) ->
  forall m, (n <= m)%nat -> worker_out w (store_at run m).
Proof.
  intros Hq Hn Hout m Hm. induction Hm as [|m Hm IH]; [done|]. rewrite run_store.
  destruct (label_op (sched m) (run m)) as [op|] eqn:Eo; [|done].
  apply worker_out_op; [|done]. apply (Hq m op); [lia|done].
Qed.

End Run.

(* ------------------------------------------------------------------ *)
(** ** Properties *)

(** C6. A worker that falls silent is withdrawn: on every run in which the liveness
    thread keeps acting and its clock gets past the timeout, whatever the bytes of
    the connections and the schedule of the threads, a live worker of which nothing
    more is heard is marked lost and fenced at some step, none of its devices is
    schedulable after that step, and it stays lost. *)
Theorem silent_worker_withdrawn opts io fs sched run w wr n0 :
  FairRun sched run -> run 0%nat = server_init (start opts io fs).1 ->
  fs_workers (store_at run n0) !! w = Some wr -> worker_live wr = true ->
  w_last_heartbeat wr <> kInvalidTimestamp -> silent w sched run n0 ->
  timeout_passes (op_heartbeat_timeout_ms opts) (w_last_heartbeat wr) sched ->
  exists n, (n0 <= n)%nat /\ devices_out (w_device_identities wr) (store_at run n) /\
    forall m, (n <= m)%nat -> worker_out w (store_at run m).
Proof.
  intros Hrun H0 Hw Hlive Hh Hq Ht. pose proof Ht as Ht'.
  assert (op_heartbeat_timeout_ms opts = op_heartbeat_timeout_ms (co_opts (sv_co (run 0%nat)))) as E
    by (rewrite H0; cbn; by rewrite start_opts).
  rewrite E in Ht'.
  destruct (silent_lost sched run Hrun w wr n0 Hw Hlive Hh Hq Ht') as (m0 & Hm0 & Hl0).
  destruct (first_time (loses_at sched run w) n0 m0 Hm0 Hl0) as (m & Hm & Hl & Hbefore).
  assert (fs_workers (store_at run m) !! w = Some wr) as Hwm.
  { clear Hl. induction Hm as [|m Hm IH]; [done|]. rewrite (run_store sched run Hrun).
    pose proof (Hbefore m ltac:(lia)) as Hb. unfold loses_at in Hb.
    destruct (label_op (sched m) (run m)) as [op|] eqn:Eo; cbn [run_opt];
      [rewrite (run_op_worker w op _ (Hq m op Hm Eo)), Hb|]; apply IH; intros; apply Hbefore; lia. }
  assert (forall k d, fs_devices (store_at run m) !! k = Some d -> placed d) as Hp.
  { unfold store_at. destruct (server_history _ _ (run_reachable sched run Hrun m)) as [ops ->].
    apply run_ops_placed. rewrite H0. apply start_placed. }
  exists (S m). unfold loses_at in Hl. pose proof (run_store sched run Hrun m) as Hst.
  destruct (label_op (sched m) (run m)) as [[| |v now| | | | |]|] eqn:Eo; try discriminate Hl.
  cbn [loses] in Hl. apply bool_decide_eq_true in Hl as ->. cbn [run_opt run_op] in Hst.
  destruct (lost_out w now (store_at run m) wr Hp Hwm) as [Hout Hdev]. rewrite <- Hst in Hout, Hdev.
  split_and!; [lia|exact Hdev|]. apply (lost_stays sched run Hrun w n0); [exact Hq|lia|exact Hout].
Qed.
