(* ===== verification/System.v ===== *)
(** * The whole system

    One coordinator, any number of worker agents over their device backends, and
    any number of administrative clients, joined by connections that carry bytes:
    delivered in pieces of any size, late, or not at all. A send may fail after any
    part of its frame, and its sender may write on. The coordinator is the
    [Server] of [Coordinator], an agent runs the functions of [Agent], and the
    evidence of every device the coordinator holds is traced back to a probe of an
    agent's backend. *)

From stdpp Require Import relations.
From S2P Require Import Prelude Core Codec Crc Message Framing Identity Health Eligibility Device.
From S2P Require Import Observation Change Pipeline Registration FleetState WireFormats.
From S2P Require Import ObservationCodec AdminPayload FleetSteps FleetInv FleetSafety FleetIngest.
From S2P Require Import SnapshotCodec Store Coordinator CoordinatorSafety Agent EndToEnd Typed Runs.
From S2P Require Import FleetTyped.

(** Where an agent's thread is: between connections, waiting for the reply to its
    HELLO or to its REGISTER, or in the main loop with its decoder's buffer. *)
Inductive AgentPc :=
  | Idle
  | HelloSent (i : nat)
  | RegisterSent (i : nat)
  | InSession (i : nat) (buf : list byte).

Record Worker := MkWk { wk_agent : Agent; wk_pc : AgentPc }.

(** A connection: the bytes on their way to the coordinator and to the client,
    whether the client may still write, and whether the client is an agent; then two
    notes that no step of the program reads: the messages the client has begun to
    send, and whether one of its frames was cut short or too large. *)
Record Link := MkLink {
  lk_up : list byte;
  lk_down : list byte;
  lk_open : bool;
  lk_admin : bool;
  lk_sent : list Message;
  lk_torn : bool
}.

Definition fresh_link (admin : bool) : Link := MkLink [] [] true admin [] false.

(** The frame's length field admits the message. *)
Definition fits (m : Message) : bool :=
  Z.of_nat (length (encode_message m)) <=? kMaxPayloadLength.

(** One call of [send_all], of which [p.2] bytes go out: all of the frame when it
    succeeds, any part of it when it fails. On a stream that is closed none does. *)
Definition write_one (lk : Link) (p : Message * nat) : Link :=
  let '(m, n) := p in
  if lk_open lk && negb (n =? 0)%nat then
    MkLink (lk_up lk ++ take n (message_frame m)) (lk_down lk) true (lk_admin lk)
      (if fits m then lk_sent lk ++ [m] else lk_sent lk)
      (lk_torn lk || negb (fits m && (length (message_frame m) <=? n)%nat))
  else lk.

(** Calls in a row, whose results the callers ignore. *)
Definition write_up (parts : list (Message * nat)) (lk : Link) : Link := foldl write_one lk parts.
Definition write_down (part : Message * nat) (lk : Link) : Link :=
  MkLink (lk_up lk) (lk_down lk ++ take part.2 (message_frame part.1)) (lk_open lk) (lk_admin lk)
    (lk_sent lk) (lk_torn lk).
Definition set_up (up : list byte) (lk : Link) : Link :=
  MkLink up (lk_down lk) (lk_open lk) (lk_admin lk) (lk_sent lk) (lk_torn lk).
Definition set_down (down : list byte) (lk : Link) : Link :=
  MkLink (lk_up lk) down (lk_open lk) (lk_admin lk) (lk_sent lk) (lk_torn lk).
Definition hang_up (lk : Link) : Link :=
  MkLink (lk_up lk) (lk_down lk) false (lk_admin lk) (lk_sent lk) (lk_torn lk).

(** Pieces of frames that a torn stream puts together have a checksum that does not
    match: a frame the decoder delivers from it is one of those sent. *)
Definition unspliced (cn : Conn) (lk : Link) : Prop :=
  lk_torn lk = true -> forall f rest, scan (cn_buf cn) = (FrameReady f, rest) ->
  exists m, m ∈ lk_sent lk /\ f = MkFrame (m_type m) (encode_message m).

(** The bytes the receive calls return come off the connection in order. *)
Definition hears (events : list Recv) (lk : Link) (rest : list byte) : Prop :=
  lk_down lk = concat (map received events) ++ rest.

Section System.
Context {B : Type} `{!DeviceBackend B}.

(** One publication: the agent as it was, what its backend is, its clock. *)
Record Probing := MkProbing {
  pb_agent : Agent;
  pb_backend : B;
  pb_clock : nat -> Timestamp
}.

(** The state, and the publications made so far, which no step reads. *)
Record System := MkSystem {
  sy_server : Server;
  sy_links : gmap nat Link;
  sy_workers : gmap nat Worker;
  sy_probed : list Probing
}.

Definition set_server (s : Server) (y : System) : System :=
  MkSystem s (sy_links y) (sy_workers y) (sy_probed y).
Definition alter_link (f : Link -> Link) (i : nat) (y : System) : System :=
  MkSystem (sy_server y) (alter f i (sy_links y)) (sy_workers y) (sy_probed y).
Definition put_link (i : nat) (lk : Link) (y : System) : System :=
  MkSystem (sy_server y) (<[i := lk]> (sy_links y)) (sy_workers y) (sy_probed y).
Definition set_worker (a : nat) (ag : Agent) (pc : AgentPc) (y : System) : System :=
  MkSystem (sy_server y) (sy_links y) (<[a := MkWk ag pc]> (sy_workers y)) (sy_probed y).
Definition note_probing (p : Probing) (y : System) : System :=
  MkSystem (sy_server y) (sy_links y) (sy_workers y) (sy_probed y ++ [p]).

(** What the agent does with the reply to its HELLO: it learns the epoch and sends
    the registration; without one the attempt is over. *)
Definition after_hello (b : B) (r : Result Message) (ag : Agent) : Agent * option Message :=
  match r with
  | Err _ => (ag, None)
  | Ok ack =>
      let ag := learn_epoch (m_epoch ack) ag in
      (ag, Some (register_message (make_registration b ag) ag))
  end.

(** What it does with the reply to its REGISTER. *)
Definition after_register (r : Result Message) (ag : Agent) : Agent * bool :=
  match r with
  | Err _ => (ag, false)
  | Ok ack => if m_ok ack then (next_registration ag, true) else (ag, false)
  end.

(** A new coordinator; the agents and the tools still hold their ends. *)
Definition restarted (c : Coordinator) (y : System) : System :=
  MkSystem (server_init c) (hang_up <$> sy_links y) (sy_workers y) (sy_probed y).

(** The threads of the coordinator that need no bytes from outside. *)
Definition internal (l : Label) : bool :=
  match l with Close _ _ | Leave _ | Scan _ | Mark _ => true | _ => false end.

Inductive sys_step : System -> System -> Prop :=
  (** the coordinator *)
  | SY_internal y l s :
      internal l = true -> server_do l (sy_server y) = Some s -> sys_step y (set_server s y)
  | SY_serve y i now io cn r s n :
      sv_conns (sy_server y) !! i = Some cn ->
      (forall lk, sy_links y !! i = Some lk -> unspliced cn lk) ->
      serve_one now io (sv_co (sy_server y)) cn = Some r ->
      server_do (Serve i now io) (sy_server y) = Some s ->
      sys_step y (set_server s (alter_link (write_down (r.1.2, n)) i y))
  (** the network *)
  | SY_deliver y i lk data rest s :
      sy_links y !! i = Some lk -> lk_up lk = data ++ rest ->
      server_do (Receive i data) (sy_server y) = Some s ->
      sys_step y (set_server s (put_link i (set_up rest lk) y))
  | SY_break y i lk n k :
      sy_links y !! i = Some lk ->
      sys_step y
        (put_link i (hang_up (set_up (take n (lk_up lk)) (set_down (take k (lk_down lk)) lk))) y)
  (** the agents *)
  | SY_connect y a ag i s n :
      sy_workers y !! a = Some (MkWk ag Idle) -> sy_links y !! i = None ->
      server_do (Accept i) (sy_server y) = Some s ->
      sys_step y
        (set_worker a ag (HelloSent i)
          (set_server s (put_link i (write_up [(hello_message ag, n)] (fresh_link false)) y)))
  | SY_hello y a ag i lk b events rest r ag' m n :
      sy_workers y !! a = Some (MkWk ag (HelloSent i)) -> sy_links y !! i = Some lk ->
      BackendLaws b -> hears events lk rest -> read_one_message events = (r, []) ->
      after_hello b r ag = (ag', Some m) ->
      sys_step y
        (set_worker a ag' (RegisterSent i) (put_link i (write_up [(m, n)] (set_down rest lk)) y))
  | SY_register y a ag i lk events rest r ag' :
      sy_workers y !! a = Some (MkWk ag (RegisterSent i)) -> sy_links y !! i = Some lk ->
      hears events lk rest -> read_one_message events = (r, []) ->
      after_register r ag = (ag', true) ->
      sys_step y (set_worker a ag' (InSession i []) (put_link i (set_down rest lk) y))
  | SY_turn y a ag i buf lk b clock events rest ag' parts buf' alive :
      sy_workers y !! a = Some (MkWk ag (InSession i buf)) -> sy_links y !! i = Some lk ->
      BackendLaws b -> (forall n, is_i64 (clock n)) -> hears events lk rest ->
      session_turn b clock buf events ag = (ag', map fst parts, buf', alive, []) ->
      sys_step y
        (note_probing (MkProbing ag b clock)
          (set_worker a ag' (if alive then InSession i buf' else Idle)
            (put_link i (let lk := write_up parts (set_down rest lk) in
                         if alive then lk else hang_up lk) y)))
  | SY_hang_up y a ag i pc :
      sy_workers y !! a = Some (MkWk ag pc) ->
      (pc = HelloSent i \/ pc = RegisterSent i \/ exists buf, pc = InSession i buf) ->
      sys_step y (set_worker a ag Idle (alter_link hang_up i y))
  (** the administrative clients: any request that carries no observations *)
  | SY_admin y i s :
      sy_links y !! i = None -> server_do (Accept i) (sy_server y) = Some s ->
      sys_step y (set_server s (put_link i (fresh_link true) y))
  | SY_request y i lk m n :
      sy_links y !! i = Some lk -> lk_admin lk = true -> message_wf m ->
      carries_observations m = false ->
      sys_step y (put_link i (write_up [(m, n)] lk) y)
  (** the coordinator's process dies, at any point, and another is started on
      whatever the disk then holds; every connection is gone *)
  | SY_restart y opts io fs :
      (start opts io fs).2 = Ok tt ->
      sys_step y (restarted (start opts io fs).1 y).

(** The coordinator of a system: its own steps, and the processes that follow it. *)
Inductive coordinator_life : Server -> Server -> Prop :=
  | life_step s s' : server_step s s' -> coordinator_life s s'
  | life_restart s opts io fs :
      (start opts io fs).2 = Ok tt -> coordinator_life s (server_init (start opts io fs).1).

(** The coordinator just started, the agents as constructed. *)
Definition system_init (c : Coordinator) (agents : list Agent) : System :=
  MkSystem (server_init c) ∅ (map_seq 0 (map (fun ag => MkWk ag Idle) agents)) [].

(* ------------------------------------------------------------------ *)
(** ** Where the evidence of a device comes from *)

(** The device of the record was probed in one of the publications, by the
    incarnation the record names and at the time it gives, and every check of the
    probe succeeded. *)
Definition evidence (probed : list Probing) (k : string) (d : DeviceState) : Prop :=
  exists pub devices dev p n,
    pub ∈ probed /\ backend_enumerate (pb_backend pub) = Ok devices /\ dev ∈ devices /\
    backend_probe (pb_backend pub) dev = Ok p /\ probe_healthy p /\
    k = canonical_device_identity (p_identity p) /\ d_identity d = p_identity p /\
    d_source_worker_boot d = ag_boot (pb_agent pub) /\ d_last_observed_at d = pb_clock pub n.

(** A record with fresh evidence of operational health is backed by a probe. *)
Definition traced (probed : list Probing) (k : string) (d : DeviceState) : Prop :=
  d_observation_fresh d = true ->
  (d_health d = HealthState.HEALTHY \/ d_health d = HealthState.DEGRADED) -> evidence probed k d.

Definition probing_ok (pub : Probing) : Prop :=
  BackendLaws (pb_backend pub) /\ agent_wf (pb_agent pub) /\ (forall n, is_i64 (pb_clock pub n)).

(** A message on its way: without observations, or one of the publications. *)
Definition legit (probed : list Probing) (m : Message) : Prop :=
  message_fits m /\
  (carries_observations m = false \/
   exists pub devices, pub ∈ probed /\ backend_enumerate (pb_backend pub) = Ok devices /\
     m = snapshot_message (observe_devices (pb_backend pub) (pb_clock pub) (pb_agent pub) devices)
           (pb_agent pub) /\
     payload_fits (m_payload m)).

(** What is sent on a connection are such messages; unless one of the frames was cut
    short or too large, the bytes are their frames, the last of them perhaps lost in
    part when the connection broke. *)
Definition stream_ok (probed : list Probing) (cn : Conn) (lk : Link) : Prop :=
  Forall (legit probed) (lk_sent lk) /\
  (lk_torn lk = false ->
   exists ms tail, (forall m, m ∈ ms -> m ∈ lk_sent lk) /\ (lk_open lk = true -> tail = []) /\
     cn_buf cn ++ lk_up lk ++ tail = concat (map message_frame ms)).

Record sys_inv (y : System) : Prop := {
  si_devices : forall k d, fs_devices (co_store (sv_co (sy_server y))) !! k = Some d ->
    traced (sy_probed y) k d;
  si_placed : forall k d, fs_devices (co_store (sv_co (sy_server y))) !! k = Some d -> placed d;
  si_streams : forall i cn, sv_conns (sy_server y) !! i = Some cn ->
    exists lk, sy_links y !! i = Some lk /\ stream_ok (sy_probed y) cn lk;
  si_agents : forall a wk, sy_workers y !! a = Some wk -> agent_wf (wk_agent wk);
  si_probed : Forall probing_ok (sy_probed y)
}.

(* ------------------------------------------------------------------ *)
(** ** Lemmas: the devices of the store *)

Definition all_devices (P : string -> DeviceState -> Prop) (st : FleetState) : Prop :=
  forall k d, fs_devices st !! k = Some d -> P k d.

(** What every update of a record but an observation preserves. *)
Record stable (P : string -> DeviceState -> Prop) : Prop := {
  sb_lost : forall k d, P k d -> P k (lose_device d);
  sb_gone : forall k d, P k d -> P k (disappeared_device d);
  sb_drain : forall k d x, P k d -> P k (recompute_device_eligibility (d_set_drain x d));
  sb_quarantine : forall k d b q, P k d -> P k (recompute_device_eligibility (d_set_quarantine b q d))
}.

Lemma loop_all P w boot policy now obs acc :
  (forall o st, o ∈ obs -> P (canonical_device_identity (o_identity o)) (ao_state (ingest_apply o policy now st))) ->
  all_devices P (ia_state acc) -> all_devices P (ia_state (ingest_loop w boot policy now obs acc).1).
Proof.
  revert acc. induction obs as [|o obs IH]; intros acc Hobs Hacc; cbn [ingest_loop]; [done|].
  assert (forall o' st, o' ∈ obs -> P (canonical_device_identity (o_identity o'))
            (ao_state (ingest_apply o' policy now st))) as Hrest
    by (intros; apply Hobs; by apply list_elem_of_further).
  case_branch; [done|by apply IH|]. apply IH; [done|]. cbn [ia_state]. unfold all_devices.
  rewrite commit_devices. apply lookup_insert_all; [done|]. apply Hobs, list_elem_of_here.
Qed.

Lemma sweep_all P seen now keys st :
  stable P -> all_devices P st -> all_devices P (foldl (sweep_key seen now) st keys).
Proof.
  intros HP. revert st. induction keys as [|k keys IH]; intros st Hst; cbn [foldl]; [done|]. apply IH.
  unfold sweep_key. case_branch; [done|]. destruct (fs_devices st !! k) as [d|] eqn:E; [|done].
  unfold all_devices. cbn. apply lookup_insert_all; [done|]. apply sb_gone; [done|]. by apply Hst.
Qed.

Lemma run_op_all P op st :
  stable P ->
  (forall w obs policy now, op = OpIngest w obs policy now -> forall o st', o ∈ obs ->
     P (canonical_device_identity (o_identity o)) (ao_state (ingest_apply o policy now st'))) ->
  all_devices P st -> all_devices P (run_op op st).
Proof.
  intros HP Hobs Hst. destruct op as [ne|reg now|w now|w obs policy now|w boot e now hg|w k d now
    |w k q now|w k e now]; cbn [run_op].
  - unfold roll_epoch. by case_branch.
  - unfold register_worker, admit_worker. repeat case_branch; try done;
      unfold all_devices; cbn; by rewrite ensure_node_devices.
  - unfold mark_worker_lost. destruct (fs_workers st !! w) as [wr|]; [|done]. unfold all_devices. cbn.
    revert Hst. unfold all_devices. generalize (fs_devices st) as m.
    induction (w_device_identities wr) as [|k ks IH]; intros m Hm; cbn [foldl]; [done|].
    apply IH. apply lookup_alter_all; [done|]. intros d. by apply sb_lost.
  - unfold ingest_snapshot. destruct (fs_workers st !! w) as [wr|]; [|done]. case_branch; [done|].
    pose proof (loop_all P w (w_boot wr) policy now obs (MkAcc st ∅ applied_default)
      (Hobs _ _ _ _ eq_refl) Hst) as Hl.
    destruct (ingest_loop _ _ _ _ _ _) as [acc [e|]]; cbn [fst] in *; [done|].
    by apply (sweep_all P (ia_seen acc) now (worker_keys w (ia_state acc)) (ia_state acc) HP).
  - unfold heartbeat. by repeat case_branch.
  - unfold set_drain. destruct (fs_devices st !! k) as [dev|] eqn:E; [|done]. case_branch; [done|].
    unfold all_devices. cbn. apply lookup_insert_all; [done|]. apply sb_drain; [done|]. by apply Hst.
  - unfold set_quarantine. destruct (fs_devices st !! k) as [dev|] eqn:E; [|done]. case_branch; [done|].
    case_branch; unfold all_devices; cbn; (apply lookup_insert_all; [done|]);
      (apply sb_quarantine; [done|]); by apply Hst.
  - unfold clear_quarantine. case_branch; [done|]. destruct (fs_devices st !! k) as [dev|] eqn:E; [|done].
    case_branch; [done|]. unfold all_devices. cbn. apply lookup_insert_all; [done|].
    apply sb_quarantine; [done|]. by apply Hst.
Qed.

(* ------------------------------------------------------------------ *)
(** ** Lemmas: evidence *)

Lemma traced_stable probed : stable (traced probed).
Proof.
  split; unfold traced, evidence.
  - intros k d H. unfold lose_device. cbn. case_branch; cbn; congruence.
  - intros k d H. cbn. congruence.
  - intros k d x H. exact H.
  - intros k d b q H. exact H.
Qed.

Lemma traced_more probed probed' k d :
  (forall pub, pub ∈ probed -> pub ∈ probed') -> traced probed k d -> traced probed' k d.
Proof.
  intros Hsub Ht Hf Hh. destruct (Ht Hf Hh) as (pub & ds & dev & p & n & Hin & H).
  exists pub, ds, dev, p, n. auto.
Qed.

(** A published observation that makes its record operational is a successful
    probe. *)
Lemma published_traced probed pub devices o now st :
  pub ∈ probed -> backend_enumerate (pb_backend pub) = Ok devices ->
  o ∈ observe_devices (pb_backend pub) (pb_clock pub) (pb_agent pub) devices ->
  traced probed (canonical_device_identity (o_identity o))
    (ao_state (ingest_apply o policy_default now st)).
Proof.
  intros Hin Hen Ho. apply observe_spec in Ho as (n & dev & p & Hdev & Hp & ->).
  unfold traced. cbn [ao_state ingest_apply d_set_health_generation d_observation_fresh d_health
    apply_observation].
  intros Hf Hh. rewrite Hf in Hh. apply pipeline_health_operational in Hh as (Hpr & _ & Hc).
  exists pub, devices, dev, p, n. split_and!; try done.
  unfold checks_proven in Hc. rewrite !andb_true_iff in Hc. cbn in Hc, Hpr.
  unfold probe_healthy. tauto.
Qed.

(* ------------------------------------------------------------------ *)
(** ** Lemmas: the bytes on a connection *)

Lemma legit_more probed probed' m :
  (forall pub, pub ∈ probed -> pub ∈ probed') -> legit probed m -> legit probed' m.
Proof.
  intros Hsub [Hfit [Hm|(pub & ds & Hin & H)]]; split; [done|by left|done|]. right. eauto 10.
Qed.

Lemma stream_more probed probed' cn lk :
  (forall pub, pub ∈ probed -> pub ∈ probed') -> stream_ok probed cn lk -> stream_ok probed' cn lk.
Proof.
  intros Hsub [Hms H]. split; [|done]. eapply Forall_impl; [exact Hms|]. intros m. by apply legit_more.
Qed.

(** What the decoder finds at the front of a stream that is not torn is the first
    message, and it finds no error. *)
Lemma whole_front probed cn lk f rest :
  stream_ok probed cn lk -> lk_torn lk = false -> scan (cn_buf cn) = (FrameReady f, rest) ->
  exists m, m ∈ lk_sent lk /\ f = MkFrame (m_type m) (encode_message m) /\
    forall w, stream_ok probed (MkConn rest w) lk.
Proof.
  intros [Hl Hw] Hn Hs. destruct (Hw Hn) as (ms & tail & Hms & Ht & E).
  pose proof (scan_extend (cn_buf cn) (lk_up lk ++ tail)) as Hx.
  rewrite Hs in Hx. destruct Hx as [Hx Hlen]. rewrite E in Hx.
  destruct ms as [|m ms]; [by rewrite scan_short in Hx by (cbn; lia)|].
  assert (m ∈ lk_sent lk) as Hm by apply Hms, list_elem_of_here.
  pose proof (proj1 (Forall_forall _ _) Hl m Hm) as [Hfit _].
  cbn [map concat] in Hx. rewrite scan_message in Hx by exact Hfit. injection Hx as <- E'.
  exists m. split_and!; [done|done|]. intros w. split; [done|]. intros _. exists ms, tail.
  split_and!; [|done|done]. intros m' Hm'. by apply Hms, list_elem_of_further.
Qed.

Lemma whole_decodes probed cn lk :
  stream_ok probed cn lk -> lk_torn lk = false -> forall e, (scan (cn_buf cn)).1 <> FeedError e.
Proof.
  intros [Hl Hw] Hn e He. destruct (Hw Hn) as (ms & tail & Hms & Ht & E).
  pose proof (scan_extend (cn_buf cn) (lk_up lk ++ tail)) as Hx.
  destruct (scan (cn_buf cn)) as [[|f|e'] rest]; try done. destruct Hx as [_ Hx]. rewrite E in Hx.
  destruct ms as [|m ms]; [by rewrite scan_short in Hx by (cbn; lia)|].
  pose proof (proj1 (Forall_forall _ _) Hl m (Hms m (list_elem_of_here _ _))) as [Hfit _].
  cbn [map concat] in Hx. by rewrite scan_message in Hx by exact Hfit.
Qed.

(** From any stream, the decoder delivers messages that were sent. *)
Lemma stream_front probed cn lk f rest :
  stream_ok probed cn lk -> unspliced cn lk -> scan (cn_buf cn) = (FrameReady f, rest) ->
  exists m, legit probed m /\ f = MkFrame (m_type m) (encode_message m) /\
    forall w, stream_ok probed (MkConn rest w) lk.
Proof.
  intros Hok Hun Hs. pose proof Hok as [Hl _]. rewrite Forall_forall in Hl.
  destruct (lk_torn lk) eqn:Et.
  - destruct (Hun Et f rest Hs) as (m & Hm & ->). exists m. split_and!; [by apply Hl|done|].
    intros w. split; [by apply Forall_forall|]. congruence.
  - destruct (whole_front _ _ _ _ _ Hok Et Hs) as (m & Hm & -> & Hr). exists m. by split_and!; [apply Hl|..].
Qed.

Lemma stream_write_one probed cn lk m n :
  (fits m = true -> legit probed m) -> stream_ok probed cn lk -> stream_ok probed cn (write_one lk (m, n)).
Proof.
  intros Hm [Hl Hw]. unfold write_one.
  destruct (lk_open lk && negb (n =? 0)%nat) eqn:Eb; [|by split]. apply andb_true_iff in Eb as [Ho _].
  split; cbn [lk_sent lk_torn lk_up lk_open].
  - destruct (fits m); [|done]. apply Forall_app. split; [done|]. by apply Forall_singleton, Hm.
  - intros [Ht Hf]%orb_false_iff. apply negb_false_iff, andb_true_iff in Hf as [Hf Hlen].
    rewrite Hf. apply Nat.leb_le in Hlen. destruct (Hw Ht) as (ms & tail & Hms & Htail & E).
    rewrite (Htail Ho), app_nil_r in E. exists (ms ++ [m]), []. split_and!; [|done|].
    + intros m'. rewrite !elem_of_app. intros [?|?]; [left; by apply Hms|by right].
    + rewrite take_ge by exact Hlen. rewrite app_nil_r, app_assoc, E, map_app, concat_app. cbn.
      by rewrite app_nil_r.
Qed.

Lemma stream_write probed cn lk parts :
  Forall (fun m => fits m = true -> legit probed m) (map fst parts) ->
  stream_ok probed cn lk -> stream_ok probed cn (write_up parts lk).
Proof.
  unfold write_up. revert lk. induction parts as [|[m n] parts IH]; intros lk Hp Hok; [done|].
  cbn [map] in Hp. apply Forall_cons in Hp as [Hm Hp]. cbn [foldl]. apply IH; [done|].
  by apply stream_write_one.
Qed.

Lemma stream_fresh probed admin : stream_ok probed conn_init (fresh_link admin).
Proof. split; [by apply List.Forall_nil|]. intros _. exists [], []. by split_and!. Qed.

Lemma stream_deliver probed cn lk data rest w :
  lk_up lk = data ++ rest -> stream_ok probed cn lk ->
  stream_ok probed (MkConn (cn_buf cn ++ data) w) (set_up rest lk).
Proof.
  intros Hu [Hl Hw]. split; [done|]. intros Hn. destruct (Hw Hn) as (ms & tail & Hms & Ht & E).
  exists ms, tail. split_and!; [done|done|]. cbn. by rewrite Hu, <- !app_assoc in *.
Qed.

Lemma stream_break probed cn lk n k :
  stream_ok probed cn lk ->
  stream_ok probed cn (hang_up (set_up (take n (lk_up lk)) (set_down (take k (lk_down lk)) lk))).
Proof.
  intros [Hl Hw]. split; [done|]. intros Hn. destruct (Hw Hn) as (ms & tail & Hms & Ht & E).
  exists ms, (drop n (lk_up lk) ++ tail). split_and!; [done|done|].
  cbn. by rewrite (app_assoc (take n _)), take_drop.
Qed.

Lemma stream_hang_up probed cn lk : stream_ok probed cn lk -> stream_ok probed cn (hang_up lk).
Proof.
  intros [Hl Hw]. split; [done|]. intros Hn. destruct (Hw Hn) as (ms & tail & Hms & Ht & E).
  by exists ms, tail.
Qed.

(** Only what goes up matters. *)
Lemma stream_ext probed cn lk lk' :
  lk_up lk' = lk_up lk -> lk_open lk' = lk_open lk -> lk_sent lk' = lk_sent lk ->
  lk_torn lk' = lk_torn lk -> stream_ok probed cn lk -> stream_ok probed cn lk'.
Proof. unfold stream_ok. by intros -> -> -> ->. Qed.

(* ------------------------------------------------------------------ *)
(** ** Lemmas: the coordinator's steps *)

(** A snapshot the coordinator ingests is a publication. *)
Lemma frame_op_published probed cn lk now st w obs policy t :
  Forall probing_ok probed -> stream_ok probed cn lk -> unspliced cn lk ->
  frame_op now cn st = Some (OpIngest w obs policy t) ->
  policy = policy_default /\
  exists pub devices, pub ∈ probed /\ backend_enumerate (pb_backend pub) = Ok devices /\
    obs = observe_devices (pb_backend pub) (pb_clock pub) (pb_agent pub) devices.
Proof.
  intros Hok Hs Hun. unfold frame_op. destruct (scan (cn_buf cn)) as [[|f|e] rest] eqn:E; try done.
  destruct (stream_front _ _ _ _ _ Hs Hun E) as (m & [Hfit Hm] & -> & _). cbn [f_payload].
  rewrite message_decodes by apply Hfit.
  destruct Hm as [Hc|(pub & ds & Hin & Hen & -> & Hp)].
  - unfold carries_observations in Hc. unfold dispatch_op.
    destruct (m_type m); try discriminate Hc; repeat case_branch; done.
  - rewrite Forall_forall in Hok. destruct (Hok pub Hin) as (Hlaws & Hag & Hcl).
    unfold dispatch_op, decode_observation_batch.
    cbn [snapshot_message agent_message m_type m_payload m_worker] in *.
    rewrite (run_decoder_ok (observation_batch_parses _
               (published_batch_wf _ _ _ ds Hag Hcl Hen Hp))).
    intros [= <- <- <- _]. split; [done|]. by exists pub, ds.
Qed.

Lemma server_do_traced l y s :
  sys_inv y ->
  (forall i now io cn lk, l = Serve i now io -> sv_conns (sy_server y) !! i = Some cn ->
     sy_links y !! i = Some lk -> unspliced cn lk) -> server_do l (sy_server y) = Some s ->
  all_devices (traced (sy_probed y)) (co_store (sv_co s)).
Proof.
  intros [Hd _ Hs _ Hp] Hun Hdo. destruct (server_do_store _ _ _ Hdo) as [-> _]. unfold run_opt.
  destruct (label_op l (sy_server y)) as [op|] eqn:E; [|exact Hd].
  apply run_op_all; [apply traced_stable| |exact Hd]. intros w obs policy t -> o st' Ho.
  destruct l as [i|i data|i now io|i now|i|now|now]; cbn [label_op] in E; try done.
  - destruct (sv_conns (sy_server y) !! i) as [cn|] eqn:Ec; [|done]. cbn in E.
    destruct (Hs i cn Ec) as (lk & Hlk & Hok).
    destruct (frame_op_published _ _ _ _ _ _ _ _ _ Hp Hok (Hun _ _ _ _ _ eq_refl Ec Hlk) E) as (-> & pub & ds & Hin & Hen & ->).
    by eapply published_traced.
  - destruct (sv_conns (sy_server y) !! i) as [cn|]; [|done]. cbn in E. by destruct (cn_worker cn).
  - by destruct (sv_overdue (sy_server y)).
Qed.

Lemma internal_conns l s s' i cn :
  internal l = true -> server_do l s = Some s' -> sv_conns s' !! i = Some cn -> sv_conns s !! i = Some cn.
Proof.
  destruct l as [j|j data|j now io|j now|j|now|now]; try done; intros _; cbn.
  - destruct (sv_conns s !! j); [|done]. intros [= <-]. cbn. by intros [_ ?]%lookup_delete_Some.
  - destruct (sv_conns s !! j); [|done]. intros [= <-]. cbn. by intros [_ ?]%lookup_delete_Some.
  - destruct (sv_overdue s); [|done]. by intros [= <-].
  - destruct (sv_overdue s); [done|]. by intros [= <-].
Qed.

(** Serving a frame consumes it. *)
Lemma serve_stream probed now io c cn lk c' cn' r :
  stream_ok probed cn lk -> unspliced cn lk ->
  serve_one now io c cn = Some (c', cn', r, Open) -> stream_ok probed cn' lk.
Proof.
  intros Hs Hun. unfold serve_one. destruct (scan (cn_buf cn)) as [[|f|e] rest] eqn:E; try done.
  destruct (stream_front _ _ _ _ _ Hs Hun E) as (m & _ & _ & Hrest).
  destruct (decode_message _) as [msg|]; [|done]. destruct (dispatch _ _ _ _). intros [= _ <- _].
  apply Hrest.
Qed.

Lemma serve_conns l i now io s s' j cn :
  l = Serve i now io -> server_do l s = Some s' -> sv_conns s' !! j = Some cn ->
  (j <> i /\ sv_conns s !! j = Some cn) \/
  (j = i /\ exists cn0 c' r, sv_conns s !! i = Some cn0 /\
     serve_one now io (sv_co s) cn0 = Some (c', cn, r, Open)).
Proof.
  intros ->. cbn. destruct (sv_conns s !! i) as [cn0|] eqn:Ec; [|done]. cbn.
  destruct (serve_one now io (sv_co s) cn0) as [[[[c' cn'] r] e]|] eqn:Es; [|done]. intros [= <-].
  cbn. destruct e.
  - intros [[<- <-]|[Hne ?]]%lookup_insert_Some; [right; eauto 10|left; by split].
  - intros [Hne ?]%lookup_delete_Some. left. by split.
Qed.

(* ------------------------------------------------------------------ *)
(** ** Lemmas: the invariant *)

Definition streams (y : System) : Prop :=
  forall i cn, sv_conns (sy_server y) !! i = Some cn ->
    exists lk, sy_links y !! i = Some lk /\ stream_ok (sy_probed y) cn lk.

(** Another end of one connection. *)
Lemma put_streams y i lk lk' :
  sy_links y !! i = Some lk ->
  (forall cn, stream_ok (sy_probed y) cn lk -> stream_ok (sy_probed y) cn lk') ->
  streams y -> streams (put_link i lk' y).
Proof.
  intros Hl Hlk Hs j cn Hc. cbn in *. destruct (Hs j cn Hc) as (lk0 & Hl0 & Hok).
  destruct (decide (i = j)) as [<-|Hne].
  - rewrite lookup_insert_eq. exists lk'. split; [done|]. apply Hlk. congruence.
  - rewrite lookup_insert_ne by done. eauto.
Qed.

Lemma alter_streams y i f :
  (forall cn lk, stream_ok (sy_probed y) cn lk -> stream_ok (sy_probed y) cn (f lk)) ->
  streams y -> streams (alter_link f i y).
Proof.
  intros Hf Hs j cn Hc. cbn in *. destruct (Hs j cn Hc) as (lk & Hl & Hok).
  destruct (decide (i = j)) as [<-|Hne].
  - rewrite lookup_alter_eq, Hl. cbn. eauto.
  - rewrite lookup_alter_ne by done. eauto.
Qed.

(** A connection just made. *)
Lemma accept_streams y i lk s :
  server_do (Accept i) (sy_server y) = Some s ->
  stream_ok (sy_probed y) conn_init lk -> streams y -> streams (set_server s (put_link i lk y)).
Proof.
  cbn. destruct (sv_conns (sy_server y) !! i) eqn:E; [done|]. intros [= <-] Hlk Hs j cn. cbn.
  intros [[<- <-]|[Hne Hc]]%lookup_insert_Some.
  - exists lk. by rewrite lookup_insert_eq.
  - rewrite lookup_insert_ne by done. by apply Hs.
Qed.

Lemma deliver_streams y i lk data rest s :
  sy_links y !! i = Some lk -> lk_up lk = data ++ rest ->
  server_do (Receive i data) (sy_server y) = Some s -> streams y ->
  streams (set_server s (put_link i (set_up rest lk) y)).
Proof.
  intros Hl Hu. cbn. destruct (sv_conns (sy_server y) !! i) as [cn0|] eqn:E; [|done].
  intros [= <-] Hs j cn. cbn. intros [[<- <-]|[Hne Hc]]%lookup_insert_Some.
  - rewrite lookup_insert_eq. eexists. split; [done|]. destruct (Hs i cn0 E) as (lk0 & Hl0 & Hok).
    apply stream_deliver; [done|]. congruence.
  - rewrite lookup_insert_ne by done. by apply Hs.
Qed.

Lemma serve_streams y i now io cn r s n :
  sv_conns (sy_server y) !! i = Some cn ->
  (forall lk, sy_links y !! i = Some lk -> unspliced cn lk) -> serve_one now io (sv_co (sy_server y)) cn = Some r ->
  server_do (Serve i now io) (sy_server y) = Some s -> streams y ->
  streams (set_server s (alter_link (write_down (r.1.2, n)) i y)).
Proof.
  intros Hi Hun Hr Hdo Hs j cn' Hc. cbn in Hc.
  assert (forall lk, sy_links y !! j = Some lk -> stream_ok (sy_probed y) cn' lk ->
    exists lk', sy_links (set_server s (alter_link (write_down (r.1.2, n)) i y)) !! j = Some lk' /\
      stream_ok (sy_probed y) cn' lk') as Hlink.
  { intros lk Hl Hok. cbn. destruct (decide (i = j)) as [<-|Hne].
    - rewrite lookup_alter_eq, Hl. cbn. eexists. split; [done|]. by eapply stream_ext; [..|exact Hok].
    - rewrite lookup_alter_ne by done. eauto. }
  destruct (serve_conns _ _ _ _ _ _ _ _ eq_refl Hdo Hc) as [[Hne Hc']|[-> (cn0 & c' & r' & Hc0 & Hs0)]].
  - destruct (Hs j cn' Hc') as (lk & Hl & Hok). by eapply Hlink.
  - destruct (Hs i cn0 Hc0) as (lk & Hl & Hok). eapply Hlink; [exact Hl|].
    assert (cn0 = cn) as -> by congruence. eapply serve_stream; [exact Hok|by apply Hun|exact Hs0].
Qed.

Lemma note_streams p y : streams y -> streams (note_probing p y).
Proof.
  intros Hs i cn Hc. destruct (Hs i cn Hc) as (lk & Hl & Hok). exists lk. split; [done|].
  eapply stream_more; [|exact Hok]. intros pub. cbn. rewrite elem_of_app. by left.
Qed.

Lemma agents_put a ag pc (m : gmap nat Worker) :
  agent_wf ag -> (forall a wk, m !! a = Some wk -> agent_wf (wk_agent wk)) ->
  forall a' wk, <[a := MkWk ag pc]> m !! a' = Some wk -> agent_wf (wk_agent wk).
Proof. intros Hag Hm a' wk [[<- <-]|[_ ?]]%lookup_insert_Some; [done|]. by eapply Hm. Qed.

(* ------------------------------------------------------------------ *)
(** ** Lemmas: what an agent reads and writes *)

Lemma first_message_wf n buf m : first_message n buf = Found m -> message_wf m.
Proof.
  revert buf. induction n as [|n IH]; intros buf; cbn [first_message]; [done|].
  destruct (scan buf) as [[|f|e] rest]; try done.
  destruct (decode_message (f_payload f)) as [m'|] eqn:E; [|apply IH].
  intros [= <-]. by eapply decode_message_wf.
Qed.

Lemma read_message_wf tries buf events m rest :
  read_message tries buf events = (Ok m, rest) -> message_wf m.
Proof.
  revert buf events. induction tries as [|n IH]; intros buf events; cbn [read_message]; [done|].
  destruct events as [|[| |[|b data]] events]; try done; [apply IH|].
  destruct (first_message _ _) as [m'|buf'|] eqn:E; [|apply IH|done].
  intros [= <- _]. by eapply first_message_wf.
Qed.

Lemma read_one_wf events m rest : read_one_message events = (Ok m, rest) -> message_wf m.
Proof. unfold read_one_message. apply read_message_wf. Qed.

Lemma after_hello_wf b events r rest ag ag' m :
  read_one_message events = (r, rest) -> after_hello b r ag = (ag', m) -> agent_wf ag -> agent_wf ag'.
Proof.
  intros Hr. destruct r as [ack|e]; cbn [after_hello]; [|by intros [= <- _]].
  apply read_one_wf in Hr as []. intros [= <- _] []. by split.
Qed.

Lemma after_register_wf r ag ag' b : after_register r ag = (ag', b) -> agent_wf ag -> agent_wf ag'.
Proof.
  unfold after_register. destruct r as [ack|]; [|by intros [= <- _]]. case_branch; [|by intros [= <- _]].
  intros [= <- _] []. split; cbn -[gen_next]; try assumption; apply gen_next_wf.
Qed.

Lemma empty_payload_fits : payload_fits [].
Proof. wf_const. Qed.

(** A message of the agent that carries no observations. *)
Definition plain (m : Message) : Prop := message_fits m /\ carries_observations m = false.

Lemma plain_legit probed m : plain m -> fits m = true -> legit probed m.
Proof. intros [? ?] _. split; [done|by left]. Qed.

(** A message that a frame admits has a payload that fits. *)
Lemma fits_payload m : m_reason m = "" -> fits m = true -> payload_fits (m_payload m).
Proof.
  intros Hr Hf. apply Z.leb_le in Hf. unfold payload_fits.
  rewrite encode_message_length in Hf by (rewrite Hr; wf_const). lia.
Qed.

Lemma hello_plain ag : agent_wf ag -> plain (hello_message ag).
Proof.
  intros Hag. split; [|reflexivity].
  apply agent_message_fits; auto using empty_payload_fits with fleet. enum_wf_solve.
Qed.

Lemma heartbeat_plain ag : agent_wf ag -> plain (heartbeat_message ag).
Proof.
  intros Hag. split; [|reflexivity].
  apply agent_message_fits; auto using empty_payload_fits with fleet; [enum_wf_solve|by destruct Hag..].
Qed.

Lemma register_legit probed reg ag :
  agent_wf ag -> fits (register_message reg ag) = true -> legit probed (register_message reg ag).
Proof.
  intros Hag Hp%fits_payload; [|reflexivity]. split; [|by left].
  apply agent_message_fits; auto with fleet; [enum_wf_solve|by destruct Hag].
Qed.

Lemma handle_admin_plain ag m : agent_wf ag -> message_wf m -> Forall plain (option_list (handle_admin m ag)).
Proof.
  intros [] []. assert (plain (MkMessage MessageType.ACK (MkId 0) (MkGen 0) (ag_boot ag) (ag_worker ag)
    (MkId 0) (MkId 0) (MkGen 0) (MkGen 0) (MkGen 0) (MkGen 0) (MkGen 0) (m_request_id m) true "" [])).
  { split; [|reflexivity].
    apply plain_message_fits; cbn; auto using empty_payload_fits with fleet; enum_wf_solve || (unfold is_u; lia). }
  unfold handle_admin. destruct (m_type m); cbn [option_list]; first [apply List.Forall_nil | by apply Forall_singleton].
Qed.

Lemma admin_frames_plain fuel ag buf : agent_wf ag -> Forall plain (admin_frames fuel ag buf).1.1.
Proof.
  intros Hag. revert buf. induction fuel as [|n IH]; intros buf; cbn [admin_frames]; [constructor|].
  destruct (scan buf) as [[|f|e] rest]; [constructor| |constructor].
  specialize (IH rest). destruct (admin_frames n ag rest) as [[out b] alive].
  apply Forall_app. split; [|exact IH].
  destruct (decode_message _) as [m|] eqn:E; [|constructor].
  apply handle_admin_plain; [done|by eapply decode_message_wf].
Qed.

Lemma poll_plain tries ag buf events : agent_wf ag -> Forall plain (poll tries ag buf events).1.1.1.
Proof.
  intros Hag. revert buf events. induction tries as [|n IH]; intros buf events; cbn [poll]; [constructor|].
  destruct events as [|[| |[|b data]] events]; try constructor.
  pose proof (admin_frames_plain (S (length (buf ++ b :: data))) ag (buf ++ b :: data) Hag) as Ha.
  destruct (admin_frames _ ag _) as [[out buf'] [|]]; [|exact Ha].
  specialize (IH buf' events). destruct (poll n ag buf' events) as [[[out' b'] alive] ev].
  apply Forall_app. by split.
Qed.

(** A turn sends a publication and messages without observations. *)
Lemma turn_legit probed b clock buf events ag ag' out buf' alive rest :
  let pub := MkProbing ag b clock in
  pub ∈ probed -> probing_ok pub ->
  session_turn b clock buf events ag = (ag', out, buf', alive, rest) ->
  agent_wf ag' /\ Forall (fun m => fits m = true -> legit probed m) out.
Proof.
  cbn zeta. intros Hin (Hlaws & Hag & Hcl) Ht. cbn [pb_backend pb_agent pb_clock] in *.
  unfold session_turn in Ht. destruct (publish_snapshot b clock ag) as [ag1 published] eqn:Ep.
  assert (agent_wf ag1 /\ (published = [] \/ exists devices, backend_enumerate b = Ok devices /\
    published = [snapshot_message (observe_devices b clock ag devices) ag])) as [Hag1 Hpub].
  { unfold publish_snapshot in Ep. destruct (backend_enumerate b) as [ds|]; [|injection Ep as <- <-; by auto].
    destruct (observe_devices b clock ag ds) as [|o os] eqn:Eo; injection Ep as <- <-; [by auto|].
    split; [by apply next_snapshot_wf|]. right. exists ds. by rewrite Eo. }
  pose proof (poll_plain 16 ag1 buf events Hag1) as Hpoll.
  destruct (poll 16 ag1 buf events) as [[[acks b'] al] ev]. injection Ht as <- <- _ _ _.
  split; [done|]. cbn [fst] in Hpoll. rewrite !Forall_app. split_and!.
  - destruct Hpub as [->|(ds & Hen & ->)]; [by apply List.Forall_nil|].
    apply Forall_singleton. intros Hfp%fits_payload; [|reflexivity].
    split; [|right; exists (MkProbing ag b clock), ds; exact (conj Hin (conj Hen (conj eq_refl Hfp)))].
    apply agent_message_fits; auto with fleet; [enum_wf_solve|by destruct Hag].
  - eapply Forall_impl; [exact Hpoll|]. intros m. apply plain_legit.
  - destruct al; [|by apply List.Forall_nil]. apply Forall_singleton. by apply plain_legit, heartbeat_plain.
Qed.

(* ------------------------------------------------------------------ *)
(** ** Lemmas: reachable systems *)

(** The coordinator of the system takes its own steps, or none, or is replaced. *)
Lemma sys_step_server y y' :
  sys_step y y' ->
  sy_server y' = sy_server y \/ coordinator_life (sy_server y) (sy_server y').
Proof. destruct 1; cbn; eauto using server_do_step, life_step, life_restart. Qed.

Lemma sys_step_streams y y' : sys_inv y -> sys_step y y' -> streams y'.
Proof.
  intros [Hd _ Hs Ha Hp] Hstep.
  destruct Hstep as [y l s Hint Hdo|y i now io cn r s n Hc Hun Hr Hdo|y i lk data rest s Hl Hu Hdo|y i lk n k Hl
    |y a ag i s n Hw Hl Hdo|y a ag i lk b events rest r ag' m n Hw Hl Hlaws Hh Hread Hafter
    |y a ag i lk events rest r ag' Hw Hl Hh Hread Hafter
    |y a ag i buf lk b clock events rest ag' parts buf' alive Hw Hl Hlaws Hcl Hh Hturn
    |y a ag i pc Hw Hpc|y i s Hl Hdo|y i lk m n Hl Had Hwf Hobs|y opts io fs Hok].
  - intros j cn Hc. apply Hs. by eapply internal_conns.
  - by eapply serve_streams.
  - by eapply deliver_streams.
  - eapply put_streams; [exact Hl| |exact Hs]. intros cn. apply stream_break.
  - apply (accept_streams y i); [exact Hdo| |exact Hs].
    apply stream_write, stream_fresh. apply Forall_singleton, plain_legit, hello_plain. exact (Ha _ _ Hw).
  - refine (put_streams _ i lk _ Hl _ Hs). intros cn Hok. apply stream_write.
    + apply Forall_singleton. intros Hfit. pose proof (Ha _ _ Hw) as Hag.
      pose proof (after_hello_wf _ _ _ _ _ _ _ Hread Hafter Hag) as Hag'.
      destruct r as [ack|]; [|done]. injection Hafter as <- <-. by apply register_legit.
    + by eapply stream_ext; [..|exact Hok].
  - refine (put_streams _ i lk _ Hl _ Hs). intros cn Hok. by eapply stream_ext; [..|exact Hok].
  - assert (probing_ok (MkProbing ag b clock)) as Hpok by (split_and!; [done|exact (Ha _ _ Hw)|done]).
    refine (put_streams (note_probing (MkProbing ag b clock) y) i lk _ Hl _ (note_streams _ _ Hs)).
    intros cn Hok.
    destruct (turn_legit (sy_probed y ++ [MkProbing ag b clock]) _ _ _ _ _ _ _ _ _ _
                ltac:(apply elem_of_app; right; apply list_elem_of_here) Hpok Hturn) as [_ Hout].
    assert (stream_ok (sy_probed y ++ [MkProbing ag b clock]) cn (write_up parts (set_down rest lk))) as Hok'
      by (apply stream_write; [exact Hout|by eapply stream_ext; [..|exact Hok]]).
    destruct alive; [exact Hok'|by apply stream_hang_up].
  - refine (alter_streams _ i hang_up _ Hs). intros cn lk. apply stream_hang_up.
  - apply (accept_streams y i); [exact Hdo|apply stream_fresh|exact Hs].
  - refine (put_streams _ i lk _ Hl _ Hs). intros cn Hok.
    apply stream_write; [|exact Hok]. apply Forall_singleton. intros Hfit%Z.leb_le. split; [by split|by left].
  - done.
Qed.

Lemma start_traced probed opts io fs : all_devices (traced probed) (co_store (start opts io fs).1).
Proof.
  intros k d. destruct (start_store opts io fs) as [->|(s & _ & ->)]; cbn; [done|].
  rewrite lookup_fmap. destruct (s_devices s !! k) as [d0|]; cbn; [|done].
  intros [= <-] Hf. by rewrite (proj1 (proj2 (recover_device_spec d0))) in Hf.
Qed.

Lemma life_placed s s' :
  coordinator_life s s' -> all_devices (fun _ => placed) (co_store (sv_co s)) ->
  all_devices (fun _ => placed) (co_store (sv_co s')).
Proof.
  intros [s1 s2 Hstep|s1 opts io fs _] Hp k d.
  - destruct (server_history s1 s2 (rtc_once _ _ Hstep)) as [ops ->]. by apply run_ops_placed.
  - apply start_placed.
Qed.

Lemma sys_step_devices y y' :
  sys_inv y -> sys_step y y' ->
  all_devices (traced (sy_probed y')) (co_store (sv_co (sy_server y'))).
Proof.
  intros Hy Hstep. assert (all_devices (traced (sy_probed y)) (co_store (sv_co (sy_server y')))) as Hd.
  { destruct Hstep; try exact (si_devices y Hy); try apply start_traced;
      (eapply server_do_traced; [exact Hy| |eassumption]); intros; simplify_eq; auto; by destruct l. }
  intros k d Hk. eapply traced_more; [|by apply Hd]. intros pub Hin.
  destruct Hstep; try exact Hin. apply elem_of_app. by left.
Qed.

Lemma sys_step_agents y y' :
  sys_inv y -> sys_step y y' -> forall a wk, sy_workers y' !! a = Some wk -> agent_wf (wk_agent wk).
Proof.
  intros [_ _ _ Ha _] Hstep. destruct Hstep; cbn; try exact Ha; apply agents_put; try exact Ha;
    try (by eapply (Ha a (MkWk _ _))).
  - eapply after_hello_wf; [eassumption..|]. by eapply (Ha a (MkWk _ _)).
  - eapply after_register_wf; [eassumption|]. by eapply (Ha a (MkWk _ _)).
  - match goal with H : session_turn _ _ _ _ _ = _ |- _ =>
      eapply (turn_legit [MkProbing ag b clock]); [apply list_elem_of_here| |exact H] end.
    split_and!; try assumption. by eapply (Ha a (MkWk _ _)).
Qed.

Lemma sys_step_probed y y' : sys_inv y -> sys_step y y' -> Forall probing_ok (sy_probed y').
Proof.
  intros [_ _ _ Ha Hp] Hstep. destruct Hstep; try exact Hp. cbn. apply Forall_app. split; [exact Hp|].
  apply Forall_singleton. split_and!; try assumption. by eapply (Ha a (MkWk _ _)).
Qed.

Lemma sys_step_inv y y' : sys_step y y' -> sys_inv y -> sys_inv y'.
Proof.
  intros Hstep Hy. split.
  - by eapply sys_step_devices.
  - destruct (sys_step_server _ _ Hstep) as [->|Hl]; [exact (si_placed y Hy)|].
    exact (life_placed _ _ Hl (si_placed y Hy)).
  - by eapply sys_step_streams.
  - by eapply sys_step_agents.
  - by eapply sys_step_probed.
Qed.

Lemma system_init_inv opts io fs agents :
  Forall agent_wf agents -> sys_inv (system_init (start opts io fs).1 agents).
Proof.
  intros Hag. split; cbn; [apply start_traced|apply start_placed|done| |by apply List.Forall_nil].
  intros a wk Hwk. rewrite lookup_map_seq_0, list_lookup_fmap in Hwk.
  destruct (agents !! a) as [ag|] eqn:E; [|done]. injection Hwk as <-. cbn.
  rewrite Forall_lookup in Hag. by eapply Hag.
Qed.

Lemma reachable_inv opts io fs agents y :
  Forall agent_wf agents -> rtc sys_step (system_init (start opts io fs).1 agents) y -> sys_inv y.
Proof.
  intros Hag Hy. pose proof (system_init_inv opts io fs agents Hag) as H0.
  induction Hy as [|y1 y2 y3 Hstep _ IH]; [done|]. apply IH. by eapply sys_step_inv.
Qed.

Lemma sys_server_run y y' : rtc sys_step y y' -> rtc coordinator_life (sy_server y) (sy_server y').
Proof.
  induction 1 as [|y1 y2 y3 Hstep _ IH]; [done|].
  destruct (sys_step_server _ _ Hstep) as [<-|Hl]; [done|by eapply rtc_l].
Qed.

(* ------------------------------------------------------------------ *)
(** ** Properties *)

(** The agent of the system is the agent of the code: its two handshake steps are
    [connect_and_register] on what the two waits receive. *)
Theorem handshake_is_two_steps b ev1 ev2 r1 r2 ag ag1 ag2 m :
  read_one_message ev1 = (r1, []) -> after_hello b r1 ag = (ag1, Some m) ->
  read_one_message ev2 = (r2, []) -> after_register r2 ag1 = (ag2, true) ->
  connect_and_register b true true (ev1 ++ ev2) ag = (ag2, Ok tt, [hello_message ag; m], []).
Proof.
  intros H1 Ha H2 Hb. destruct r1 as [ack|]; [|done]. destruct r2 as [ack2|]; [|done].
  injection Ha as <- <-. cbn [after_register] in Hb. unfold connect_and_register. cbn [negb].
  rewrite (read_one_app _ _ _ H1), H2. destruct (m_ok ack2); [|done]. by injection Hb as <-.
Qed.

(** C18. However the system runs, its coordinator makes the steps of the coordinator
    alone, from one restart to the next. On a connection none of whose sends was cut
    short or too large for a frame, nothing it is sent is malformed, however the
    stream is cut into pieces, delayed or broken off: every frame it serves is a
    message the client sent, it decodes to that message, the reply is the one the
    message calls for, and the connection is not dropped. (An agent whose send fails
    half-way writes on, and that stream the coordinator may drop.) *)
Theorem system_stream_sound opts io fs agents y i cn lk now sio r :
  Forall agent_wf agents -> rtc sys_step (system_init (start opts io fs).1 agents) y ->
  sv_conns (sy_server y) !! i = Some cn -> sy_links y !! i = Some lk ->
  serve_one now sio (sv_co (sy_server y)) cn = Some r ->
  rtc coordinator_life (server_init (start opts io fs).1) (sy_server y) /\
  (lk_torn lk = false -> r.2 = Open /\
   exists m, m ∈ lk_sent lk /\ message_fits m /\
     scan (cn_buf cn) = (FrameReady (MkFrame (m_type m) (encode_message m)), cn_buf r.1.1.2) /\
     r.1.2 = (dispatch now sio m (tick (sv_co (sy_server y)))).2).
Proof.
  intros Hag Hy Hc Hlk Hr. split; [exact (sys_server_run _ _ Hy)|]. intros Hn.
  destruct (si_streams y (reachable_inv _ _ _ _ _ Hag Hy) i cn Hc) as (lk0 & Hlk0 & Hok).
  assert (lk0 = lk) as -> by congruence. pose proof Hok as [Hl _]. rewrite Forall_forall in Hl.
  unfold serve_one in Hr. pose proof (whole_decodes _ _ _ Hok Hn) as Hd.
  destruct (scan (cn_buf cn)) as [[|f|e] rest] eqn:E; [done| |by destruct (Hd e)].
  destruct (whole_front _ _ _ _ _ Hok Hn E) as (m & Hm & -> & _). cbn [f_payload] in Hr.
  destruct (Hl m Hm) as [Hfit _]. rewrite message_decodes in Hr by apply Hfit.
  destruct (dispatch now sio m (tick (sv_co (sy_server y)))) as [c' reply] eqn:Ed.
  injection Hr as <-. cbn. split; [done|]. exists m. by rewrite Ed.
Qed.

(** C1. Every placement is backed by a probe: in a system of agents, administrative
    clients and a coordinator started from any state file and restarted at any
    moment, however they interleave and however the network cuts, delays and breaks
    their streams or sends fail half-way - pieces of cut frames being told by their
    checksum - a device the coordinator holds schedulable was probed on the
    backend of one of the agents, by the incarnation the record names and at the
    time it gives, and that probe found it present and proved every operational
    check. *)
Theorem schedulable_device_was_probed opts io fs agents y k d :
  Forall agent_wf agents -> rtc sys_step (system_init (start opts io fs).1 agents) y ->
  fs_devices (co_store (sv_co (sy_server y))) !! k = Some d -> schedulable (d_eligibility d) = true ->
  evidence (sy_probed y) k d.
Proof.
  intros Hag Hy Hd Hs. pose proof (reachable_inv _ _ _ _ _ Hag Hy) as Hinv.
  destruct (si_placed y Hinv k d Hd Hs) as (Hf & _ & _ & _ & Hh). exact (si_devices y Hinv k d Hd Hf Hh).
Qed.

End System.
