(* ===== verification/RunsWitness.v ===== *)
(** * A run without end

    A worker registers, publishes once and is never heard again. Up to there, the state
    is typed and a SAVE is recovered. *)

From stdpp Require Import relations.
From S2P Require Import Prelude Core Codec Message Framing Identity Health Eligibility Device.
From S2P Require Import Observation Change Pipeline Registration ObservationCodec AdminPayload.
From S2P Require Import FleetState FleetSteps FleetInv FleetSafety FleetIngest SnapshotCodec Store.
From S2P Require Import Coordinator CoordinatorSafety Agent EndToEnd EndToEndWitness Runs Protocol FleetTyped Fairness.

(** The connection, its two frames, and the liveness thread from then on. *)
Definition silent_sched (n : nat) : Label :=
  match n with
  | 0%nat => Accept 0
  | 1%nat => Receive 0 (register_bytes ++ publish_bytes registered_agent)
  | 2%nat => Serve 0 1000 io_ok
  | 3%nat => Serve 0 1001 io_ok
  | 4%nat => Scan 10000
  | 5%nat => Mark 10001
  | _ => Scan 20000
  end.

Fixpoint silent_run (n : nat) : Server :=
  match n with
  | O => server_init (start sample_opts (MkLoadIo true true true) ∅).1
  | S n => let s := silent_run n in default s (server_do (silent_sched n) s)
  end.

Lemma silent_run_S n :
  silent_run (S n) = default (silent_run n) (server_do (silent_sched n) (silent_run n)).
Proof. reflexivity. Qed.

Definition done_at (n : nat) : bool := bool_decide (is_Some (server_do (silent_sched n) (silent_run n))).

Lemma done_step n : done_at n = true -> server_do (silent_sched n) (silent_run n) = Some (silent_run (S n)).
Proof. intros [s E]%bool_decide_eq_true. rewrite silent_run_S, E. reflexivity. Qed.

Lemma silent_settles : server_do (Scan 20000) (silent_run 6) = Some (silent_run 6).
Proof. vm_compute. reflexivity. Qed.

Lemma silent_rest n : silent_run (6 + n) = silent_run 6.
Proof.
  induction n as [|n IH]; [done|]. rewrite <- plus_n_Sm, silent_run_S, IH.
  change (silent_sched (6 + n)) with (Scan 20000). rewrite silent_settles. reflexivity.
Qed.

Lemma silent_fair : FairRun silent_sched silent_run.
Proof.
  split.
  - intros n. destruct (Nat.lt_ge_cases n 6) as [Hn|Hn].
    + apply done_step. do 6 (destruct n as [|n]; [vm_compute; reflexivity|]). lia.
    + replace n with (6 + (n - 6))%nat by lia. generalize (n - 6)%nat as m. intros m.
      rewrite plus_n_Sm, !silent_rest. apply silent_settles.
  - intros n. exists (6 + n)%nat. split; [lia|done].
Qed.

Definition silent_record : option WorkerRecord := fs_workers (store_at silent_run 4) !! MkId 10.

Lemma silent_worker_withdrawn_witness :
  exists wr n, silent_record = Some wr /\ (4 <= n)%nat /\
    devices_out (w_device_identities wr) (store_at silent_run n) /\
    forall m, (n <= m)%nat -> worker_out (MkId 10) (store_at silent_run m).
Proof.
  destruct silent_record as [wr|] eqn:E; [|vm_compute in E; discriminate].
  assert (worker_live wr = true /\ w_last_heartbeat wr = 1001) as [Hl Hh]
    by (vm_compute in E; injection E as <-; split; reflexivity).
  destruct (silent_worker_withdrawn sample_opts (MkLoadIo true true true) ∅ silent_sched silent_run
              (MkId 10) wr 4 silent_fair eq_refl E Hl) as (n & Hn & Hd & Ho).
  - rewrite Hh. discriminate.
  - intros m op Hm. destruct (Nat.lt_ge_cases m 6) as [Hm'|Hm'].
    + assert (m = 4 \/ m = 5)%nat as [-> | ->] by lia; cbn [silent_sched label_op]; [done|].
      destruct (sv_overdue _); [done|]. by intros [= <-].
    + replace m with (6 + (m - 6))%nat by lia. done.
  - rewrite Hh. exists 4%nat. intros m now Hm. destruct (Nat.lt_ge_cases m 6) as [Hm'|Hm'].
    + assert (m = 4 \/ m = 5)%nat as [-> | ->] by lia; [|done]. by intros [= <-].
    + replace m with (6 + (m - 6))%nat by lia. by intros [= <-].
  - exists wr, n. exact (conj eq_refl (conj Hn (conj Hd Ho))).
Defined.

(* ------------------------------------------------------------------ *)
(** ** Witnesses: the types of the state *)

(** The worker's registration and first publication. *)
Definition first_labels : list Label :=
  [Accept 0; Receive 0 (register_bytes ++ publish_bytes registered_agent); Serve 0 1000 io_ok;
   Serve 0 1001 io_ok].

Definition first_server : Server := silent_run 4.

Lemma first_run :
  server_run first_labels (server_init (start sample_opts (MkLoadIo true true true) ∅).1) = Some first_server.
Proof. vm_compute. reflexivity. Qed.

Lemma first_clocks : Forall clock_typed first_labels.
Proof.
  repeat (apply List.Forall_cons; [intros t E; try discriminate E; injection E as <-; split; vm_compute; congruence|]).
  apply List.Forall_nil.
Qed.

(** The run as the protocol sees it: the registration and the report, both accepted. *)
Definition first_start : Server := server_init (start sample_opts (MkLoadIo true true true) ∅).1.

Definition event_shape (e : Event) : nat * option WorkerId * bool :=
  match e with
  | Asked i _ (Enrol _) b ok => (1%nat, b, ok)
  | Asked i _ (Report _ obs) b ok => (2 + length obs, b, ok)%nat
  | _ => (0%nat, None, true)
  end.

Lemma coordinator_refines_protocol_witness :
  map event_shape (trace first_labels first_start) =
    [(0%nat, None, true); (1%nat, Some (MkId 10), true); (3%nat, None, true)] /\
  protocol_run (timeout_of first_start) (trace first_labels first_start) (abstract first_start)
    (abstract first_server).
Proof.
  split; [vm_compute; reflexivity|]. exact (coordinator_refines_protocol first_labels first_start _ first_run).
Defined.

Lemma coordinator_well_typed_witness :
  fs_devices (co_store (sv_co first_server)) <> ∅ /\ fleet_typed (co_store (sv_co first_server)).
Proof.
  split; [by intros E%(f_equal size); vm_compute in E|].
  refine (coordinator_well_typed sample_opts (MkLoadIo true true true) ∅ first_labels first_server
    _ _ first_clocks first_run); split; vm_compute; congruence.
Defined.

Definition limits_ok (st : FleetState) : bool :=
  bool_decide (map_Forall (fun k _ => str_len k <= 256) (fs_devices st)) &&
  bool_decide (map_Forall (fun _ wr => Forall (fun s => str_len s <= 256) (w_device_identities wr) /\
    Z.of_nat (length (w_device_identities wr)) <= 4096) (fs_workers st)) &&
  bool_decide (Forall (fun c => str_len (c_from c) <= 128 /\ str_len (c_to c) <= 128) (fs_change_log st)) &&
  (Z.of_nat (length (map_entries (fs_nodes st))) <=? 100000) &&
  (Z.of_nat (length (map_entries (fs_workers st))) <=? 100000) &&
  (Z.of_nat (length (map_entries (fs_devices st))) <=? 100000).

Lemma limits_ok_within st : limits_ok st = true -> within_limits st.
Proof.
  unfold limits_ok. rewrite !andb_true_iff, !bool_decide_eq_true, !Z.leb_le.
  intros (((((Hk & Hw) & Hv) & ?) & ?) & ?). by split.
Qed.

Lemma reachable_state_recovered_witness :
  let r := start sample_opts (MkLoadIo true true true)
             (co_fs (dispatch 3000 io_ok save_message (sv_co first_server)).1) in
  r.2 = Ok tt /\ fs_workers (co_store r.1) = fs_workers (co_store (sv_co first_server)).
Proof.
  destruct (reachable_state_recovered sample_opts (MkLoadIo true true true) ∅ first_labels
    first_server 3000 io_ok save_message) as (H1 & _ & H2 & _);
    [split; vm_compute; congruence|split; vm_compute; congruence|exact first_clocks|exact first_run
    |reflexivity|vm_compute; reflexivity|apply limits_ok_within; vm_compute; reflexivity
    |vm_compute; congruence|].
  exact (conj H1 H2).
Defined.
