(* ===== verification/SystemWitness.v ===== *)
(** * A system at work

    One agent over the synthetic backend and one coordinator: the handshake, a
    publication, and the placement it leads to, step by step; the coordinator dies,
    and the same again with the next one; and what becomes of a publication that is
    cut short. *)

From stdpp Require Import relations.
From S2P Require Import Prelude Core Codec Crc Message Framing Identity Health Eligibility Device.
From S2P Require Import Observation Change Pipeline Registration FleetState WireFormats.
From S2P Require Import ObservationCodec AdminPayload FleetSteps FleetInv FleetSafety FleetIngest.
From S2P Require Import SnapshotCodec Store Coordinator CoordinatorSafety Agent EndToEnd Typed Runs.
From S2P Require Import FleetTyped EndToEndWitness System.

Definition Sys : Type := System (B := SyntheticDeviceBackend).

(** What one of the steps makes of a state, when it is possible. *)
Inductive Move :=
  | Connects (a i : nat)
  | Delivers (i : nat)
  | Serves (i : nat) (now : Timestamp)
  | Greets (a : nat)
  | Registers (a : nat)
  | Turns (a : nat) (cut : option nat)
  | HangsUp (a : nat)
  | Restarts.

Definition first_coordinator : Coordinator := (start sample_opts (MkLoadIo true true true) ∅).1.

(** A message sent whole, or cut short. *)
Definition sent_whole (m : Message) : Message * nat := (m, length (message_frame m)).
Definition sent_cut (cut : option nat) (m : Message) : Message * nat :=
  (m, default (length (message_frame m)) cut).
Definition sent_all (cut : option nat) (out : list Message) : list (Message * nat) :=
  match out with m :: out => sent_cut cut m :: map sent_whole out | [] => [] end.

(** Nothing is spliced: the stream is whole, or the decoder delivers no frame. *)
Definition unspliced_ok (cn : Conn) (lk : Link) : bool :=
  negb (lk_torn lk) || match (scan (cn_buf cn)).1 with FrameReady _ => false | _ => true end.

Definition move (v : Move) (y : Sys) : option Sys :=
  match v with
  | Connects a i =>
      match sy_workers y !! a, sy_links y !! i with
      | Some (MkWk ag Idle), None =>
          s ← server_do (Accept i) (sy_server y);
          Some (set_worker a ag (HelloSent i)
            (set_server s (put_link i (write_up [sent_whole (hello_message ag)] (fresh_link false)) y)))
      | _, _ => None
      end
  | Delivers i =>
      lk ← sy_links y !! i;
      s ← server_do (Receive i (lk_up lk)) (sy_server y);
      Some (set_server s (put_link i (set_up [] lk) y))
  | Serves i now =>
      cn ← sv_conns (sy_server y) !! i;
      lk ← sy_links y !! i;
      r ← serve_one now io_ok (sv_co (sy_server y)) cn;
      s ← server_do (Serve i now io_ok) (sy_server y);
      if unspliced_ok cn lk then
        Some (set_server s (alter_link (write_down (sent_whole r.1.2)) i y))
      else None
  | Greets a =>
      match sy_workers y !! a with
      | Some (MkWk ag (HelloSent i)) =>
          lk ← sy_links y !! i;
          match read_one_message [RecvData (lk_down lk)] with
          | (r, []) =>
              match after_hello synthetic_default r ag with
              | (ag', Some m) =>
                  Some (set_worker a ag' (RegisterSent i)
                    (put_link i (write_up [sent_whole m] (set_down [] lk)) y))
              | _ => None
              end
          | _ => None
          end
      | _ => None
      end
  | Registers a =>
      match sy_workers y !! a with
      | Some (MkWk ag (RegisterSent i)) =>
          lk ← sy_links y !! i;
          match read_one_message [RecvData (lk_down lk)] with
          | (r, []) =>
              match after_register r ag with
              | (ag', true) =>
                  Some (set_worker a ag' (InSession i []) (put_link i (set_down [] lk) y))
              | _ => None
              end
          | _ => None
          end
      | _ => None
      end
  | Turns a cut =>
      match sy_workers y !! a with
      | Some (MkWk ag (InSession i buf)) =>
          lk ← sy_links y !! i;
          match session_turn synthetic_default sample_clock buf [RecvNone] ag with
          | (ag', out, buf', alive, []) =>
              Some (note_probing (MkProbing ag synthetic_default sample_clock)
                (set_worker a ag' (if alive then InSession i buf' else Idle)
                  (put_link i (let lk := write_up (sent_all cut out) (set_down (lk_down lk) lk) in
                               if alive then lk else hang_up lk) y)))
          | _ => None
          end
      | _ => None
      end
  | HangsUp a =>
      match sy_workers y !! a with
      | Some (MkWk ag (InSession i _)) => Some (set_worker a ag Idle (alter_link hang_up i y))
      | _ => None
      end
  | Restarts => Some (restarted first_coordinator y)
  end.

Fixpoint moves (vs : list Move) (y : Sys) : option Sys :=
  match vs with
  | [] => Some y
  | v :: vs => y' ← move v y; moves vs y'
  end.

Lemma sent_all_messages cut out : map fst (sent_all cut out) = out.
Proof.
  destruct out as [|m out]; [done|]. cbn. f_equal. rewrite map_map. by rewrite map_id.
Qed.

Lemma unspliced_ok_spec cn lk : unspliced_ok cn lk = true -> unspliced cn lk.
Proof.
  unfold unspliced_ok, unspliced. intros H Ht f rest Hs. rewrite Ht, Hs in H. discriminate H.
Qed.

Lemma hears_all lk : hears [RecvData (lk_down lk)] lk [].
Proof. unfold hears. cbn. by rewrite !app_nil_r. Qed.

Lemma sample_clock_typed n : is_i64 (sample_clock n).
Proof. pose proof (sample_clock_range n). unfold is_s. lia. Qed.

Lemma Some_same {A} (x y : A) : Some x = Some y -> x = y.
Proof. by intros [=]. Qed.

Lemma move_step v y y' : move v y = Some y' -> sys_step y y'.
Proof.
  destruct v as [a i|i|i now|a|a|a cut|a|]; cbn [move].
  - destruct (sy_workers y !! a) as [[ag []]|] eqn:Ew; try done.
    destruct (sy_links y !! i) eqn:El; [done|].
    destruct (server_do _ _) as [s|] eqn:Es; [|done]. intros <-%Some_same. by eapply SY_connect.
  - destruct (sy_links y !! i) as [lk|] eqn:El; [|done]. cbn -[server_do].
    destruct (server_do _ _) as [s|] eqn:Es; [|done]. intros <-%Some_same.
    eapply SY_deliver; [exact El|symmetry; apply app_nil_r|exact Es].
  - destruct (sv_conns _ !! i) as [cn|] eqn:Ec; [|done]. cbn -[server_do serve_one unspliced_ok].
    destruct (sy_links y !! i) as [lk|] eqn:El; [|done]. cbn -[server_do serve_one unspliced_ok].
    destruct (serve_one _ _ _ _) as [r|] eqn:Er; [|done]. cbn -[server_do unspliced_ok].
    destruct (server_do _ _) as [s|] eqn:Es; [|done].
    cbn -[unspliced_ok]. destruct (unspliced_ok cn lk) eqn:Eu; [|done]. intros <-%Some_same.
    eapply SY_serve; [exact Ec| |exact Er|exact Es]. intros lk' Hlk'.
    assert (lk' = lk) as -> by congruence. by apply unspliced_ok_spec.
  - destruct (sy_workers y !! a) as [[ag [|i| |]]|] eqn:Ew; try done.
    destruct (sy_links y !! i) as [lk|] eqn:El; [|done]. cbn -[read_one_message after_hello].
    destruct (read_one_message _) as [r []] eqn:Er; [|done].
    destruct (after_hello _ _ _) as [ag' [m|]] eqn:Ea; [|done]. intros <-%Some_same.
    exact (SY_hello y a ag i lk synthetic_default _ [] r ag' m _ Ew El _ (hears_all lk) Er Ea).
  - destruct (sy_workers y !! a) as [[ag [| |i|]]|] eqn:Ew; try done.
    destruct (sy_links y !! i) as [lk|] eqn:El; [|done]. cbn -[read_one_message after_register].
    destruct (read_one_message _) as [r []] eqn:Er; [|done].
    destruct (after_register _ _) as [ag' [|]] eqn:Ea; [|done]. intros <-%Some_same.
    exact (SY_register y a ag i lk _ [] r ag' Ew El (hears_all lk) Er Ea).
  - destruct (sy_workers y !! a) as [[ag [| | |i buf]]|] eqn:Ew; try done.
    destruct (sy_links y !! i) as [lk|] eqn:El; [|done]. cbn -[session_turn].
    destruct (session_turn _ _ _ _ _) as [[[[ag' out] buf'] alive] []] eqn:Et; [|done].
    intros <-%Some_same. rewrite <- (sent_all_messages cut out) in Et.
    exact (SY_turn y a ag i buf lk synthetic_default sample_clock [RecvNone] (lk_down lk) ag'
             (sent_all cut out) buf' alive Ew El _ sample_clock_typed eq_refl Et).
  - destruct (sy_workers y !! a) as [[ag [| | |i buf]]|] eqn:Ew; try done. intros <-%Some_same.
    eapply SY_hang_up; [exact Ew|eauto].
  - intros <-%Some_same. by apply SY_restart.
Qed.

Lemma moves_steps vs y y' : moves vs y = Some y' -> rtc sys_step y y'.
Proof.
  revert y. induction vs as [|v vs IH]; intros y; cbn [moves]; [by intros [= <-]|].
  destruct (move v y) as [y1|] eqn:E; [|done]. cbn. intros Hr.
  eapply rtc_l; [by eapply move_step|by apply IH].
Qed.

(* ------------------------------------------------------------------ *)
(** ** Witnesses *)

Definition session_moves (i : nat) : list Move :=
  [Connects 0 i; Delivers i; Serves i 1000; Greets 0; Delivers i; Serves i 1001; Registers 0; Turns 0 None;
   Delivers i].

(** A session, the coordinator dies after the placement, and a second session. *)
Definition handshake_moves : list Move :=
  session_moves 0 ++ [Serves 0 2100; Restarts; HangsUp 0] ++ session_moves 1.

Definition first_system : Sys := system_init first_coordinator [sample_agent].
Definition published_system : Sys := default first_system (moves handshake_moves first_system).
Definition placed_system : Sys := default first_system (move (Serves 1 2100) published_system).

(** Evaluated to a boolean, so that no proof carries a state of the system. *)
Definition found {A} (r : option A) : bool := match r with Some _ => true | None => false end.

Lemma found_default {A} (r : option A) x : found r = true -> r = Some (default x r).
Proof. by destruct r. Qed.

Lemma published_reachable : rtc sys_step first_system published_system.
Proof. apply (moves_steps handshake_moves), found_default. vm_compute. reflexivity. Qed.

Lemma placed_reachable : rtc sys_step first_system placed_system.
Proof.
  eapply rtc_r; [exact published_reachable|]. apply (move_step (Serves 1 2100)), found_default.
  vm_compute. reflexivity.
Qed.

Lemma sample_agents_wf : Forall agent_wf [sample_agent].
Proof. apply Forall_singleton, sample_agent_wf. Qed.

Definition placed_device : option DeviceState :=
  fs_devices (co_store (sv_co (sy_server placed_system))) !! synthetic_key.

Lemma schedulable_device_was_probed_witness :
  exists d, placed_device = Some d /\ schedulable (d_eligibility d) = true /\
    evidence (sy_probed placed_system) synthetic_key d.
Proof.
  assert (match placed_device with Some d => schedulable (d_eligibility d) | None => false end = true)
    as Hs by (vm_compute; reflexivity).
  destruct placed_device as [d|] eqn:E; [|discriminate Hs].
  exact (ex_intro _ d (conj eq_refl (conj Hs
    (schedulable_device_was_probed sample_opts (MkLoadIo true true true) ∅ [sample_agent] placed_system
       synthetic_key d sample_agents_wf placed_reachable E Hs)))).
Defined.

Lemma system_stream_sound_witness :
  exists cn lk r, sv_conns (sy_server published_system) !! 1%nat = Some cn /\
    sy_links published_system !! 1%nat = Some lk /\ lk_torn lk = false /\
    serve_one 2100 io_ok (sv_co (sy_server published_system)) cn = Some r /\ r.2 = Open.
Proof.
  assert (found (cn ← sv_conns (sy_server published_system) !! 1%nat;
                 serve_one 2100 io_ok (sv_co (sy_server published_system)) cn) = true) as Hf
    by (vm_compute; reflexivity).
  assert (option_map lk_torn (sy_links published_system !! 1%nat) = Some false) as Ht
    by (vm_compute; reflexivity).
  destruct (sv_conns (sy_server published_system) !! 1%nat) as [cn|] eqn:E; [|discriminate Hf]. cbn [mbind option_bind] in Hf.
  destruct (serve_one 2100 io_ok (sv_co (sy_server published_system)) cn) as [r|] eqn:Er; [|discriminate Hf].
  destruct (sy_links published_system !! 1%nat) as [lk|] eqn:El; [|discriminate Ht].
  injection Ht as Ht.
  destruct (system_stream_sound sample_opts (MkLoadIo true true true) ∅ [sample_agent] published_system
    1 cn lk 2100 io_ok r sample_agents_wf published_reachable E El Er) as (_ & Hw).
  exact (ex_intro _ cn (ex_intro _ lk (ex_intro _ r
    (conj eq_refl (conj eq_refl (conj Ht (conj Er (proj1 (Hw Ht))))))))).
Defined.

(* ------------------------------------------------------------------ *)
(** ** What a reader of the documentation would not expect *)

(** A publication whose send fails half-way: the agent ignores the failure, sends its
    heartbeat and publishes again; the coordinator takes those bytes for the rest of
    the first frame, finds the checksum wrong and drops the connection. *)
Definition cut_moves : list Move :=
  [Connects 0 0; Delivers 0; Serves 0 1000; Greets 0; Delivers 0; Serves 0 1001; Registers 0;
   Turns 0 (Some 60%nat); Turns 0 None; Turns 0 None; Delivers 0].

Definition cut_system : Sys := default first_system (moves cut_moves first_system).

Example cut_publication_drops :
  found (moves cut_moves first_system) = true /\
  option_map lk_torn (sy_links cut_system !! 0%nat) = Some true /\
  option_map (fun r => r.2)
    (cn ← sv_conns (sy_server cut_system) !! 0%nat;
     serve_one 2100 io_ok (sv_co (sy_server cut_system)) cn) = Some Dropped.
Proof. vm_compute. auto. Qed.
