(* ===== verification/Effects.v ===== *)
(** * Calls into libraries outside the sources

    The CUDA runtime and the socket library are not under [src/]: each of their
    functions is a parameter, a function of the library's own state. A routine
    that calls them is an [Eff]: it threads that state and logs the calls it
    makes with their outcomes. [settle] replays a log against the set of handles
    the routine holds, and [holds] is a small program logic over it: acquiring,
    using and releasing handles in the right order, on every path. *)

From stdpp Require Import gmultiset.
From S2P Require Import Prelude.

(** A routine over a library state [S] with calls logged as [E]. *)
Definition Eff (S E A : Type) : Type := S -> A * S * list E.

Definition eff_ret {S E A} (a : A) : Eff S E A := fun s => (a, s, []).

Definition eff_bind {S E A B} (m : Eff S E A) (k : A -> Eff S E B) : Eff S E B := fun s =>
  let '(a, s1, log1) := m s in
  let '(b, s2, log2) := k a s1 in
  (b, s2, log1 ++ log2).

(** One call of the library: [f] is the library's function, [ev] the log entry. *)
Definition eff_call {S E A} (f : S -> A * S) (ev : A -> E) : Eff S E A := fun s =>
  let (a, s') := f s in (a, s', [ev a]).

Notation "x <- m ;; k" := (eff_bind m (fun x => k))
  (at level 100, m at next level, right associativity) : fleet_scope.
Notation "m ;;; k" := (eff_bind m (fun _ => k))
  (at level 100, right associativity) : fleet_scope.

Definition eff_result {S E A} (m : Eff S E A) (s : S) : A := (m s).1.1.
Definition eff_state {S E A} (m : Eff S E A) (s : S) : S := (m s).1.2.
Definition eff_log {S E A} (m : Eff S E A) (s : S) : list E := (m s).2.

Section Equations.
Context {S E : Type}.

Lemma eff_bind_ret {A B} (a : A) (k : A -> Eff S E B) s : eff_bind (eff_ret a) k s = k a s.
Proof. unfold eff_bind, eff_ret. by destruct (k a s) as [[b s2] l]. Qed.

(** The library's answer decides how the routine goes on. *)
Lemma eff_bind_call {A B} (f : S -> A * S) ev (k : A -> Eff S E B) s a s1 b s2 l :
  f s = (a, s1) -> k a s1 = (b, s2, l) -> eff_bind (eff_call f ev) k s = (b, s2, ev a :: l).
Proof. intros Hf Hk. unfold eff_bind, eff_call. by rewrite Hf, Hk. Qed.

Lemma eff_bind_assoc {A B C} (m : Eff S E A) (k : A -> Eff S E B) (h : B -> Eff S E C) s :
  eff_bind (eff_bind m k) h s = eff_bind m (fun a => eff_bind (k a) h) s.
Proof.
  unfold eff_bind. destruct (m s) as [[a s1] l1]. destruct (k a s1) as [[b s2] l2].
  destruct (h b s2) as [[c s3] l3]. by rewrite app_assoc.
Qed.

End Equations.

(** What holds of the result and the log, from any library state. *)
Definition logs {S E A} (m : Eff S E A) (Q : A -> list E -> Prop) : Prop :=
  forall s, Q (eff_result m s) (eff_log m s).

(** A sequence, in terms of its parts. *)
Lemma eff_bind_result {S E A B} (m : Eff S E A) (k : A -> Eff S E B) s :
  eff_result (eff_bind m k) s = eff_result (k (eff_result m s)) (eff_state m s).
Proof.
  unfold eff_result, eff_state, eff_bind. destruct (m s) as [[a s1] l]. cbn [fst snd].
  by destruct (k a s1) as [[b s2] l'].
Qed.

Lemma eff_bind_state {S E A B} (m : Eff S E A) (k : A -> Eff S E B) s :
  eff_state (eff_bind m k) s = eff_state (k (eff_result m s)) (eff_state m s).
Proof.
  unfold eff_result, eff_state, eff_bind. destruct (m s) as [[a s1] l]. cbn [fst snd].
  by destruct (k a s1) as [[b s2] l'].
Qed.

Lemma eff_bind_log {S E A B} (m : Eff S E A) (k : A -> Eff S E B) s :
  eff_log (eff_bind m k) s = eff_log m s ++ eff_log (k (eff_result m s)) (eff_state m s).
Proof.
  unfold eff_result, eff_state, eff_log, eff_bind. destruct (m s) as [[a s1] l]. cbn [fst snd].
  by destruct (k a s1) as [[b s2] l'].
Qed.

Lemma logs_ret {S E A} (a : A) (Q : A -> list E -> Prop) : Q a [] -> logs (eff_ret a : Eff S E A) Q.
Proof. intros HQ s. exact HQ. Qed.

Lemma logs_call {S E A B} (f : S -> A * S) ev (k : A -> Eff S E B) Q :
  (forall a, logs (k a) (fun b l => Q b (ev a :: l))) -> logs (eff_bind (eff_call f ev) k) Q.
Proof.
  intros Hk s. unfold eff_result, eff_log, eff_bind, eff_call. destruct (f s) as [a s1].
  specialize (Hk a s1). unfold eff_result, eff_log in Hk. by destruct (k a s1) as [[b s2] l].
Qed.

(** The same, for a library function whose answers are known to satisfy [P]. *)
Lemma logs_call_where {S E A B} (P : A -> Prop) (f : S -> A * S) ev (k : A -> Eff S E B) Q :
  (forall s, P (f s).1) -> (forall a, P a -> logs (k a) (fun b l => Q b (ev a :: l))) ->
  logs (eff_bind (eff_call f ev) k) Q.
Proof.
  intros HP Hk s. specialize (HP s). unfold eff_result, eff_log, eff_bind, eff_call.
  destruct (f s) as [a s1]. specialize (Hk a HP s1). unfold eff_result, eff_log in Hk.
  by destruct (k a s1) as [[b s2] l].
Qed.

Lemma logs_bind {S E A B} (m : Eff S E A) (k : A -> Eff S E B) P Q :
  logs m P -> (forall a l, P a l -> logs (k a) (fun b l' => Q b (l ++ l'))) ->
  logs (eff_bind m k) Q.
Proof.
  intros Hm Hk s. specialize (Hm s). unfold eff_result, eff_log, eff_bind in *.
  destruct (m s) as [[a s1] l]. specialize (Hk a l Hm s1). unfold eff_result, eff_log in Hk.
  by destruct (k a s1) as [[b s2] l'].
Qed.

Lemma logs_weaken {S E A} (m : Eff S E A) (P Q : A -> list E -> Prop) :
  logs m P -> (forall a l, P a l -> Q a l) -> logs m Q.
Proof. intros Hm HPQ s. apply HPQ, Hm. Qed.

(** Runs a routine to its leaves, one call or one test at a time. *)
Ltac logs_step :=
  first
    [ apply logs_ret
    | apply logs_call; intros ?; cbn beta
    | match goal with |- logs (if ?b then _ else _) _ => destruct b eqn:? end ].

(** What holds of the result, the log and the library's state, from one state, when
    every call the routine makes turns out [ok]. *)
Definition given {S E A} (ok : E -> bool) (m : Eff S E A) (s : S) (Q : A -> list E -> S -> Prop) : Prop :=
  forallb ok (eff_log m s) = true -> Q (eff_result m s) (eff_log m s) (eff_state m s).

Lemma given_ret {S E A} ok (a : A) s (Q : A -> list E -> S -> Prop) :
  Q a [] s -> given ok (eff_ret a : Eff S E A) s Q.
Proof. intros HQ _. exact HQ. Qed.

Lemma given_call {S E A B} ok (f : S -> A * S) ev (k : A -> Eff S E B) s Q :
  (forall a s1, f s = (a, s1) -> ok (ev a) = true ->
     given ok (k a) s1 (fun b l s' => Q b (ev a :: l) s')) ->
  given ok (eff_bind (eff_call f ev) k) s Q.
Proof.
  unfold given. rewrite eff_bind_result, eff_bind_log, eff_bind_state.
  assert (eff_call f ev s = ((f s).1, (f s).2, [ev (f s).1])) as Ec by (unfold eff_call; by destruct (f s)).
  assert (eff_result (eff_call f ev) s = (f s).1) as -> by (unfold eff_result; by rewrite Ec).
  assert (eff_state (eff_call f ev) s = (f s).2) as -> by (unfold eff_state; by rewrite Ec).
  assert (eff_log (eff_call f ev) s = [ev (f s).1]) as -> by (unfold eff_log; by rewrite Ec).
  cbn [app forallb]. rewrite andb_true_iff. intros Hk [Ha Hl].
  exact (Hk (f s).1 (f s).2 (surjective_pairing _) Ha Hl).
Qed.

Lemma given_bind {S E A B} ok (m : Eff S E A) (k : A -> Eff S E B) s P Q :
  given ok m s P ->
  (forall a l s', P a l s' -> given ok (k a) s' (fun b l' s'' => Q b (l ++ l') s'')) ->
  given ok (eff_bind m k) s Q.
Proof.
  unfold given. rewrite eff_bind_result, eff_bind_log, eff_bind_state, forallb_app, andb_true_iff.
  intros Hm Hk [H1 H2]. exact (Hk _ _ _ (Hm H1) H2).
Qed.

(** What holds of the result, the log and the library's state, from one state. *)
Definition runs {S E A} (m : Eff S E A) (s : S) (Q : A -> list E -> S -> Prop) : Prop :=
  Q (eff_result m s) (eff_log m s) (eff_state m s).

Lemma runs_ret {S E A} (a : A) s (Q : A -> list E -> S -> Prop) :
  Q a [] s -> runs (eff_ret a : Eff S E A) s Q.
Proof. done. Qed.

Lemma runs_call {S E A B} (f : S -> A * S) ev (k : A -> Eff S E B) s a s1 Q :
  f s = (a, s1) -> runs (k a) s1 (fun b l s' => Q b (ev a :: l) s') ->
  runs (eff_bind (eff_call f ev) k) s Q.
Proof.
  unfold runs, eff_result, eff_state, eff_log, eff_bind, eff_call. intros ->.
  by destruct (k a s1) as [[b s2] l].
Qed.

Lemma runs_bind {S E A B} (m : Eff S E A) (k : A -> Eff S E B) s P Q :
  runs m s P -> (forall a l s', P a l s' -> runs (k a) s' (fun b l' s'' => Q b (l ++ l') s'')) ->
  runs (eff_bind m k) s Q.
Proof. unfold runs. rewrite eff_bind_result, eff_bind_log, eff_bind_state. auto. Qed.

(* ------------------------------------------------------------------ *)
(** ** Handles *)

(** The handles of the libraries: a block of device memory, a socket, a list of
    resolved addresses. *)
Inductive Handle := DevicePtr (p : Z) | Socket (s : Z) | AddrInfo (p : Z).

#[export] Instance Handle_eq_dec : EqDecision Handle.
Proof. solve_decision. Defined.
#[export] Program Instance Handle_countable : Countable Handle :=
  inj_countable'
    (fun h => match h with DevicePtr p => inl (inl p) | Socket s => inl (inr s) | AddrInfo p => inr p end)
    (fun x => match x with inl (inl p) => DevicePtr p | inl (inr s) => Socket s | inr p => AddrInfo p end)
    _.
Next Obligation. by intros []. Qed.

(** What a call does to the handles the caller holds. *)
Inductive Action := Acquire (h : Handle) | Use (h : Handle) | Release (h : Handle).

Abbreviation Handles := (gmultiset Handle).

(** One action: using or releasing a handle that is not held is a fault. *)
Definition act (live : Handles) (a : Action) : option Handles :=
  match a with
  | Acquire h => Some ({[+ h +]} ⊎ live)
  | Use h => if decide (h ∈ live) then Some live else None
  | Release h => if decide (h ∈ live) then Some (live ∖ {[+ h +]}) else None
  end.

Fixpoint acts (live : Handles) (l : list Action) : option Handles :=
  match l with
  | [] => Some live
  | a :: l => match act live a with Some live => acts live l | None => None end
  end.

(** How the calls of a library act on handles. *)
Class Ledger (E : Type) := actions_of : E -> list Action.

Fixpoint settle {E} `{Ledger E} (live : Handles) (log : list E) : option Handles :=
  match log with
  | [] => Some live
  | e :: log => match acts live (actions_of e) with Some live => settle live log | None => None end
  end.

(** From any library state, whatever the library answers, the routine started
    with the handles [live] commits no fault, and ends with handles and a result
    that satisfy [Q]. *)
Definition holds {S E A} `{Ledger E} (live : Handles) (m : Eff S E A)
    (Q : A -> Handles -> Prop) : Prop :=
  forall s, exists live', settle live (eff_log m s) = Some live' /\ Q (eff_result m s) live'.

Section Rules.
Context {S E : Type} `{Ledger E}.

Lemma settle_app live log1 log2 :
  settle live (log1 ++ log2) =
    match settle live log1 with Some live => settle live log2 | None => None end.
Proof.
  revert live. induction log1 as [|e log1 IH]; intros live; [done|]. cbn.
  by destruct (acts live (actions_of e)).
Qed.

Lemma holds_ret {A} live (a : A) (Q : A -> Handles -> Prop) :
  Q a live -> holds live (eff_ret a : Eff S E A) Q.
Proof. intros HQ s. by exists live. Qed.

Lemma holds_bind {A B} live (m : Eff S E A) (k : A -> Eff S E B) P Q :
  holds live m P -> (forall a live', P a live' -> holds live' (k a) Q) ->
  holds live (eff_bind m k) Q.
Proof.
  intros Hm Hk s. destruct (Hm s) as (live1 & H1 & HP).
  unfold eff_log, eff_result, eff_bind in *. destruct (m s) as [[a s1] l1]. cbn in H1, HP.
  destruct (Hk a live1 HP s1) as (live2 & H2 & HQ). unfold eff_log, eff_result in H2, HQ.
  destruct (k a s1) as [[b s2] l2]. cbn in H2, HQ |- *.
  exists live2. by rewrite settle_app, H1.
Qed.

Lemma holds_weaken {A} live (m : Eff S E A) (P Q : A -> Handles -> Prop) :
  holds live m P -> (forall a live', P a live' -> Q a live') -> holds live m Q.
Proof. intros Hm HPQ s. destruct (Hm s) as (live' & ? & ?). eauto. Qed.

(** A call followed by the rest of the routine, by the effect of the call. *)
Lemma holds_call {A B} live (f : S -> A * S) ev (k : A -> Eff S E B) Q :
  (forall a, exists live', acts live (actions_of (ev a)) = Some live' /\ holds live' (k a) Q) ->
  holds live (eff_bind (eff_call f ev) k) Q.
Proof.
  intros Hk. apply (holds_bind live _ _
    (fun a live' => acts live (actions_of (ev a)) = Some live')).
  - intros s. unfold eff_log, eff_result, eff_call. destruct (f s) as [a s1]. cbn.
    destruct (Hk a) as (live' & Ha & _). exists live'. by rewrite Ha.
  - intros a live' Ha. destruct (Hk a) as (live2 & Ha2 & Hr).
    rewrite Ha in Ha2. by injection Ha2 as ->.
Qed.

(** A call that ends a routine. *)
Lemma holds_last {A} live (f : S -> A * S) ev Q :
  (forall a, exists live', acts live (actions_of (ev a)) = Some live' /\ Q a live') ->
  holds live (eff_call f ev) Q.
Proof.
  intros Hk s. unfold eff_log, eff_result, eff_call. destruct (f s) as [a s1].
  destruct (Hk a) as (live' & Ha & HQ). exists live'. cbn. by rewrite Ha.
Qed.

End Rules.

Lemma acts_use h live l r : h ∈ live -> acts live l = r -> acts live (Use h :: l) = r.
Proof. intros Hh <-. cbn [acts]. unfold act. by rewrite decide_True. Qed.

Lemma acts_release h live l r :
  h ∈ live -> acts (live ∖ {[+ h +]}) l = r -> acts live (Release h :: l) = r.
Proof. intros Hh <-. cbn [acts]. unfold act. by rewrite decide_True. Qed.

(** Runs the logic through one call, by the call's effect on handles. *)
Ltac ledger_effect :=
  first [ reflexivity
        | apply acts_use; [multiset_solver | ledger_effect]
        | eapply acts_release; [multiset_solver | ledger_effect] ].

Ltac ledger_step :=
  first
    [ apply holds_ret
    | apply holds_call; intros ?; eexists; split; [ledger_effect|]; cbn beta
    | match goal with |- holds _ (if ?b then _ else _) _ => destruct b eqn:? end ].
