(* ===== verification/Cuda.v ===== *)
(** * CUDA validation ([cuda/cuda_validation.hpp], [src/cuda/cuda_validation.cpp])

    The validation sequence a device must pass, over a parameter for the CUDA
    runtime: each runtime function is a field of [CudaRuntime], a function of the
    runtime's own state. Floats are IEEE 754 binary32 ([spec_float] at precision
    24 and exponent 128). *)

From stdpp Require Import gmultiset.
From Stdlib Require Import SpecFloat.
From S2P Require Import Prelude Core Effects.

(* ------------------------------------------------------------------ *)
(** ** Floats *)

Abbreviation float32 := spec_float.

(** [static_cast<float>(n)]. *)
Definition float_of_Z (n : Z) : float32 := binary_normalize 24 128 n 0 false.
Definition fmul (x y : float32) : float32 := SFmul 24 128 x y.
Definition fadd (x y : float32) : float32 := SFadd 24 128 x y.
Definition fsub (x y : float32) : float32 := SFsub 24 128 x y.

(** The literal [1e-5f], 0x3727C5AC. *)
Definition kTolerance : float32 := S754_finite false 10995116 (-40).

(* ------------------------------------------------------------------ *)
(** ** The runtime *)

Definition cudaError := Z.
Definition cudaSuccess : cudaError := 0.

(** [cudaDeviceProp]: the fields the backend reads, as the runtime's types. *)
Record cudaDeviceProp := MkProp {
  prop_pciDomainID : Z;
  prop_pciBusID : Z;
  prop_pciDeviceID : Z;
  prop_major : Z;
  prop_minor : Z;
  prop_totalGlobalMem : Z
}.

(** One thread of a kernel: its block and thread index, the input buffer and the
    output buffer before and after it. *)
Definition Kernel := Z * Z -> list float32 -> list float32 -> list float32.

(** The functions of the runtime the program calls. An out-parameter is returned
    beside the status, with the value it has after the call. *)
Record CudaRuntime (S : Type) := MkRuntime {
  cudaGetErrorString : cudaError -> string;
  cudaGetDeviceCount : S -> (cudaError * Z) * S;
  cudaGetDeviceProperties : Z -> S -> (cudaError * cudaDeviceProp) * S;
  cudaDriverGetVersion : S -> (cudaError * Z) * S;
  cudaRuntimeGetVersion : S -> (cudaError * Z) * S;
  cudaSetDevice : Z -> S -> cudaError * S;
  cudaMemGetInfo : S -> (cudaError * (Z * Z)) * S;
  cudaMalloc : Z -> S -> (cudaError * Z) * S;
  cudaFree : Z -> S -> cudaError * S;
  cudaMemcpyHostToDevice : Z -> list float32 -> Z -> S -> cudaError * S;
  cudaMemcpyDeviceToHost : list float32 -> Z -> Z -> S -> (cudaError * list float32) * S;
  cudaLaunchKernel : Kernel -> Z -> Z -> Z -> Z -> S -> unit * S;
  cudaGetLastError : S -> cudaError * S;
  cudaDeviceSynchronize : S -> cudaError * S
}.
Arguments cudaGetErrorString {S}.
Arguments cudaGetDeviceCount {S}.
Arguments cudaGetDeviceProperties {S}.
Arguments cudaDriverGetVersion {S}.
Arguments cudaRuntimeGetVersion {S}.
Arguments cudaSetDevice {S}.
Arguments cudaMemGetInfo {S}.
Arguments cudaMalloc {S}.
Arguments cudaFree {S}.
Arguments cudaMemcpyHostToDevice {S}.
Arguments cudaMemcpyDeviceToHost {S}.
Arguments cudaLaunchKernel {S}.
Arguments cudaGetLastError {S}.
Arguments cudaDeviceSynchronize {S}.

(** The log of the calls: the arguments that matter and the outcome. *)
Inductive CudaEvent :=
  | GetDeviceCount (e : cudaError) (count : Z)
  | GetDeviceProperties (ordinal : Z) (e : cudaError) (p : cudaDeviceProp)
  | DriverGetVersion (e : cudaError) (v : Z)
  | RuntimeGetVersion (e : cudaError) (v : Z)
  | SetDevice (ordinal : Z) (e : cudaError)
  | MemGetInfo (e : cudaError) (free total : Z)
  | Malloc (bytes : Z) (e : cudaError) (p : Z)
  | Free (p : Z) (e : cudaError)
  | FreeNull (e : cudaError)
  | CopyIn (p bytes : Z) (data : list float32) (e : cudaError)
  | Launch (blocks threads : Z) (p_in p_out : Z)
  | LastError (e : cudaError)
  | Synchronize (e : cudaError)
  | CopyOut (p bytes : Z) (e : cudaError) (data : list float32).

(** A successful [cudaMalloc] hands out a block; [cudaFree] takes it back, whatever
    status it returns; copies and launches use the blocks they name. *)
#[export] Instance cuda_ledger : Ledger CudaEvent := fun ev =>
  match ev with
  | Malloc _ e p => if e =? cudaSuccess then [Acquire (DevicePtr p)] else []
  | Free p _ => [Release (DevicePtr p)]
  | CopyIn p _ _ _ | CopyOut p _ _ _ => [Use (DevicePtr p)]
  | Launch _ _ p_in p_out => [Use (DevicePtr p_in); Use (DevicePtr p_out)]
  | _ => []
  end.

Section Runtime.
Context {S : Type} (rt : CudaRuntime S).

Definition call_get_device_count : Eff S CudaEvent (cudaError * Z) :=
  eff_call (cudaGetDeviceCount rt) (fun r => GetDeviceCount r.1 r.2).
Definition call_get_device_properties (ordinal : Z) : Eff S CudaEvent (cudaError * cudaDeviceProp) :=
  eff_call (cudaGetDeviceProperties rt ordinal) (fun r => GetDeviceProperties ordinal r.1 r.2).
Definition call_driver_version : Eff S CudaEvent (cudaError * Z) :=
  eff_call (cudaDriverGetVersion rt) (fun r => DriverGetVersion r.1 r.2).
Definition call_runtime_version : Eff S CudaEvent (cudaError * Z) :=
  eff_call (cudaRuntimeGetVersion rt) (fun r => RuntimeGetVersion r.1 r.2).
Definition call_set_device (ordinal : Z) : Eff S CudaEvent cudaError :=
  eff_call (cudaSetDevice rt ordinal) (SetDevice ordinal).
Definition call_mem_get_info : Eff S CudaEvent (cudaError * (Z * Z)) :=
  eff_call (cudaMemGetInfo rt) (fun r => MemGetInfo r.1 r.2.1 r.2.2).
Definition call_malloc (bytes : Z) : Eff S CudaEvent (cudaError * Z) :=
  eff_call (cudaMalloc rt bytes) (fun r => Malloc bytes r.1 r.2).
Definition call_free (p : Z) : Eff S CudaEvent cudaError :=
  eff_call (cudaFree rt p) (Free p).
(** [cudaFree(nullptr)]: frees nothing; it forces the context. *)
Definition call_free_null : Eff S CudaEvent cudaError :=
  eff_call (cudaFree rt 0) FreeNull.
Definition call_copy_in (p : Z) (data : list float32) (bytes : Z) : Eff S CudaEvent cudaError :=
  eff_call (cudaMemcpyHostToDevice rt p data bytes) (CopyIn p bytes data).
Definition call_copy_out (host : list float32) (p bytes : Z)
  : Eff S CudaEvent (cudaError * list float32) :=
  eff_call (cudaMemcpyDeviceToHost rt host p bytes) (fun r => CopyOut p bytes r.1 r.2).
Definition call_launch (k : Kernel) (blocks threads p_in p_out : Z) : Eff S CudaEvent unit :=
  eff_call (cudaLaunchKernel rt k blocks threads p_in p_out)
    (fun _ => Launch blocks threads p_in p_out).
Definition call_last_error : Eff S CudaEvent cudaError :=
  eff_call (cudaGetLastError rt) LastError.
Definition call_synchronize : Eff S CudaEvent cudaError :=
  eff_call (cudaDeviceSynchronize rt) Synchronize.

End Runtime.

(* ------------------------------------------------------------------ *)
(** ** The validation *)

Definition kElements : Z := Z.shiftl 1 20.
Definition kBlock : Z := 256.
Definition kMaxJustifiedDelta : Z := 16 * 1024 * 1024.

(** The element function of the kernel and of the CPU reference:
    [x * 2.0f + 1.0f]. *)
Definition scaled (x : float32) : float32 := fadd (fmul x (float_of_Z 2)) (float_of_Z 1).

(** The thread's element: [blockIdx.x * blockDim.x + threadIdx.x], unsigned,
    converted to [int]. *)
Definition thread_index (block_dim : Z) (t : Z * Z) : Z :=
  to_signed 32 (wrap 32 (wrap 32 (t.1 * block_dim) + t.2)).

(** [add_scaled_kernel] for one thread. *)
Definition add_scaled_kernel (block_dim n : Z) : Kernel := fun t input out =>
  let i := thread_index block_dim t in
  if i <? n then
    <[Z.to_nat i := scaled (nth (Z.to_nat i) input (S754_zero false))]> out
  else out.

Record CudaValidationResult := MkValidation {
  v_ok : bool;
  v_elements : Z;
  v_baseline_free : Z;
  v_baseline_used : Z;
  v_after_free : Z;
  v_after_used : Z;
  v_delta_free : Z;
  v_memory_baseline_restored : bool;
  v_alloc_ok : bool;
  v_h2d_ok : bool;
  v_kernel_ok : bool;
  v_sync_ok : bool;
  v_d2h_ok : bool;
  v_verify_ok : bool;
  v_detail : string
}.

(** [CudaValidationResult r; r.elements = kElements;] *)
Definition validation_init : CudaValidationResult :=
  MkValidation false kElements 0 0 0 0 0 false false false false false false false "".

Definition set_baseline (free total : Z) (r : CudaValidationResult) : CudaValidationResult :=
  MkValidation (v_ok r) (v_elements r) free (wrap 64 (total - free)) (v_after_free r)
    (v_after_used r) (v_delta_free r) (v_memory_baseline_restored r) (v_alloc_ok r) (v_h2d_ok r)
    (v_kernel_ok r) (v_sync_ok r) (v_d2h_ok r) (v_verify_ok r) (v_detail r).
Definition set_alloc_ok (b : bool) (r : CudaValidationResult) : CudaValidationResult :=
  MkValidation (v_ok r) (v_elements r) (v_baseline_free r) (v_baseline_used r) (v_after_free r)
    (v_after_used r) (v_delta_free r) (v_memory_baseline_restored r) b (v_h2d_ok r)
    (v_kernel_ok r) (v_sync_ok r) (v_d2h_ok r) (v_verify_ok r) (v_detail r).
Definition set_h2d_ok (b : bool) (r : CudaValidationResult) : CudaValidationResult :=
  MkValidation (v_ok r) (v_elements r) (v_baseline_free r) (v_baseline_used r) (v_after_free r)
    (v_after_used r) (v_delta_free r) (v_memory_baseline_restored r) (v_alloc_ok r) b
    (v_kernel_ok r) (v_sync_ok r) (v_d2h_ok r) (v_verify_ok r) (v_detail r).
Definition set_kernel_ok (b : bool) (r : CudaValidationResult) : CudaValidationResult :=
  MkValidation (v_ok r) (v_elements r) (v_baseline_free r) (v_baseline_used r) (v_after_free r)
    (v_after_used r) (v_delta_free r) (v_memory_baseline_restored r) (v_alloc_ok r) (v_h2d_ok r)
    b (v_sync_ok r) (v_d2h_ok r) (v_verify_ok r) (v_detail r).
Definition set_sync_ok (b : bool) (r : CudaValidationResult) : CudaValidationResult :=
  MkValidation (v_ok r) (v_elements r) (v_baseline_free r) (v_baseline_used r) (v_after_free r)
    (v_after_used r) (v_delta_free r) (v_memory_baseline_restored r) (v_alloc_ok r) (v_h2d_ok r)
    (v_kernel_ok r) b (v_d2h_ok r) (v_verify_ok r) (v_detail r).
Definition set_d2h_ok (b : bool) (r : CudaValidationResult) : CudaValidationResult :=
  MkValidation (v_ok r) (v_elements r) (v_baseline_free r) (v_baseline_used r) (v_after_free r)
    (v_after_used r) (v_delta_free r) (v_memory_baseline_restored r) (v_alloc_ok r) (v_h2d_ok r)
    (v_kernel_ok r) (v_sync_ok r) b (v_verify_ok r) (v_detail r).
Definition set_verify_ok (b : bool) (r : CudaValidationResult) : CudaValidationResult :=
  MkValidation (v_ok r) (v_elements r) (v_baseline_free r) (v_baseline_used r) (v_after_free r)
    (v_after_used r) (v_delta_free r) (v_memory_baseline_restored r) (v_alloc_ok r) (v_h2d_ok r)
    (v_kernel_ok r) (v_sync_ok r) (v_d2h_ok r) b (v_detail r).

(** The closure [fail]: the first message is kept; a fatal one clears [ok]. The
    local [detail] of the source is the field here: it is copied to it at every
    return and read nowhere before. *)
Definition fail (msg : string) (fatal : bool) (r : CudaValidationResult) : CudaValidationResult :=
  MkValidation (if fatal then false else v_ok r) (v_elements r) (v_baseline_free r)
    (v_baseline_used r) (v_after_free r) (v_after_used r) (v_delta_free r)
    (v_memory_baseline_restored r) (v_alloc_ok r) (v_h2d_ok r) (v_kernel_ok r) (v_sync_ok r)
    (v_d2h_ok r) (v_verify_ok r)
    (if bool_decide (v_detail r = "") then msg else v_detail r).

(** [std::llabs] on 64 bits; of the least value it is that value, as the targets
    compute it. *)
Definition llabs (z : Z) : Z := to_signed 64 (wrap 64 (Z.abs z)).

(** [static_cast<std::int64_t>(free_after) - static_cast<std::int64_t>(free_b)]. *)
Definition memory_delta (free_b free_after : Z) : Z :=
  to_signed 64 (wrap 64 (to_signed 64 (wrap 64 free_after) - to_signed 64 (wrap 64 free_b))).

(** The end of the routine, from the second memory query on. *)
Definition conclude (free_b free_after total_after : Z) (r : CudaValidationResult)
  : CudaValidationResult :=
  let delta := memory_delta free_b free_after in
  let restored := llabs delta <=? kMaxJustifiedDelta in
  let ok := v_alloc_ok r && v_h2d_ok r && v_kernel_ok r && v_sync_ok r && v_d2h_ok r &&
            v_verify_ok r && restored in
  MkValidation ok (v_elements r) (v_baseline_free r) (v_baseline_used r) free_after
    (wrap 64 (total_after - free_after)) delta restored (v_alloc_ok r) (v_h2d_ok r)
    (v_kernel_ok r) (v_sync_ok r) (v_d2h_ok r) (v_verify_ok r)
    (if ok then
       "CUDA validation OK: alloc, H2D, kernel, sync, D2H, CPU verify, free; mem delta " +:+
       to_dec_signed delta +:+ " bytes (bounded)."
     else v_detail r).

(** [h_in[i] = static_cast<float>(i % 97)]. *)
Definition host_input : list float32 :=
  map (fun i => float_of_Z (Z.of_nat i mod 97)) (seq 0 (Z.to_nat kElements)).

(** The comparison with the CPU reference: [!(fabs(out - ref) > 1e-5f)]. *)
Definition element_ok (x out : float32) : bool :=
  negb (SFltb kTolerance (SFabs (fsub out (scaled x)))).

(** The verification loop, from element [i]: the first mismatch. *)
Fixpoint first_mismatch (i : nat) (h_in h_out : list float32) : option nat :=
  match h_in with
  | [] => None
  | x :: h_in =>
      let out := match h_out with y :: _ => y | [] => S754_zero false end in
      if element_ok x out then first_mismatch (Datatypes.S i) h_in (tail h_out) else Some i
  end.

(** The messages of the failing steps. *)
Definition step_failed {S} (rt : CudaRuntime S) (what : string) (e : cudaError) : string :=
  what +:+ " failed: " +:+ cudaGetErrorString rt e.

Definition failed (e : cudaError) : bool := negb (e =? cudaSuccess).

(** The outcome of the verification loop. *)
Definition record_verification (mismatch : option nat) (r : CudaValidationResult)
  : CudaValidationResult :=
  match mismatch with
  | Some i => set_verify_ok false (fail ("D2H result did not match CPU reference at element " +:+
                                         to_dec (Z.of_nat i)) false r)
  | None => set_verify_ok true r
  end.

Section Validation.
Context {S : Type} (rt : CudaRuntime S).

(** An early return after both buffers were allocated:
    [fail(...); cudaFree(d_in); cudaFree(d_out); return r;]. *)
Definition release_both (d_in d_out : Z) (r : CudaValidationResult)
  : Eff S CudaEvent CudaValidationResult :=
  call_free rt d_in ;;; call_free rt d_out ;;; eff_ret r.

(** From the verification to the end. *)
Definition verify_and_release (free_b d_in d_out : Z) (h_out : list float32)
    (r : CudaValidationResult) : Eff S CudaEvent CudaValidationResult :=
  let r := record_verification (first_mismatch 0 host_input h_out) r in
  call_free rt d_in ;;;
  e <- call_free rt d_out ;;
  let r := if failed e then fail (step_failed rt "cudaFree" e) false r else r in
  info <- call_mem_get_info rt ;;
  if failed info.1 then eff_ret (fail (step_failed rt "cudaMemGetInfo(after)" info.1) true r)
  else eff_ret (conclude free_b info.2.1 info.2.2 r).

(** From the first copy to the verification. *)
Definition exercise (bytes free_b d_in d_out : Z) (r : CudaValidationResult)
  : Eff S CudaEvent CudaValidationResult :=
  e <- call_copy_in rt d_in host_input bytes ;;
  if failed e then release_both d_in d_out (fail (step_failed rt "cudaMemcpy H2D" e) true r) else
  let r := set_h2d_ok true r in
  let blocks := (kElements + kBlock - 1) / kBlock in
  call_launch rt (add_scaled_kernel kBlock kElements) blocks kBlock d_in d_out ;;;
  e <- call_last_error rt ;;
  if failed e then release_both d_in d_out (fail (step_failed rt "kernel launch" e) true r) else
  let r := set_kernel_ok true r in
  e <- call_synchronize rt ;;
  if failed e then
    release_both d_in d_out (fail (step_failed rt "cudaDeviceSynchronize" e) true r) else
  let r := set_sync_ok true r in
  out <- call_copy_out rt (replicate (Z.to_nat kElements) (S754_zero false)) d_out bytes ;;
  if failed out.1 then
    release_both d_in d_out (fail (step_failed rt "cudaMemcpy D2H" out.1) true r) else
  verify_and_release free_b d_in d_out out.2 (set_d2h_ok true r).

Definition run_cuda_validation (ordinal : Z) : Eff S CudaEvent CudaValidationResult :=
  let r := validation_init in
  e <- call_set_device rt ordinal ;;
  if failed e then eff_ret (fail (step_failed rt "cudaSetDevice" e) true r) else
  info <- call_mem_get_info rt ;;
  if failed info.1 then eff_ret (fail (step_failed rt "cudaMemGetInfo(meminfo)" info.1) true r) else
  let free_b := info.2.1 in
  let r := set_baseline free_b info.2.2 r in
  let bytes := kElements * 4 in
  d_in <- call_malloc rt bytes ;;
  if failed d_in.1 then eff_ret (fail (step_failed rt "cudaMalloc(d_in)" d_in.1) true r) else
  let r := set_alloc_ok true r in
  d_out <- call_malloc rt bytes ;;
  if failed d_out.1 then
    let r := fail (step_failed rt "cudaMalloc(d_out)" d_out.1) true r in
    call_free rt d_in.2 ;;; eff_ret r
  else exercise bytes free_b d_in.2 d_out.2 r.

End Validation.

(** What the comparison accepts: a value within the tolerance of the reference, or
    one whose difference to it is not a number. *)
Definition accepted_output (x out : float32) : Prop :=
  fsub out (scaled x) = S754_nan \/ SFleb (SFabs (fsub out (scaled x))) kTolerance = true.

(** A log that proves the device, as far as the routine looks: every step of the
    sequence in order, on the two blocks handed out, each with success; the whole
    input copied in and a grid that covers it; every element read back within the
    tolerance of the reference, or not a number; and memory back to within the
    allowance. *)
Definition proves_device (ordinal : Z) (log : list CudaEvent) : Prop :=
  match log with
  | [SetDevice o e1; MemGetInfo e2 free_b _; Malloc n1 e3 d_in; Malloc n2 e4 d_out;
     CopyIn p1 m1 data e5; Launch blocks threads k_in k_out; LastError e6; Synchronize e7;
     CopyOut p2 m2 e8 out; Free q1 _; Free q2 _; MemGetInfo e9 free_after _] =>
      o = ordinal /\
      Forall (fun e => e = cudaSuccess) [e1; e2; e3; e4; e5; e6; e7; e8; e9] /\
      Forall (fun n => n = kElements * 4) [n1; n2; m1; m2] /\
      Forall (fun p => p = d_in) [p1; k_in; q1] /\ Forall (fun p => p = d_out) [p2; k_out; q2] /\
      data = host_input /\ kElements <= blocks * threads /\
      (forall i x, host_input !! i = Some x -> accepted_output x (nth i out (S754_zero false))) /\
      llabs (memory_delta free_b free_after) <= kMaxJustifiedDelta
  | _ => False
  end.

(** The threads of a launch of [blocks] blocks of [threads] threads. *)
Definition grid (blocks threads : Z) : list (Z * Z) :=
  flat_map (fun b => map (fun t => (Z.of_nat b, Z.of_nat t)) (seq 0 (Z.to_nat threads)))
    (seq 0 (Z.to_nat blocks)).

(** The effect of a launch whose threads run in a given order. *)
Definition run_threads (k : Kernel) (order : list (Z * Z)) (input out : list float32)
  : list float32 := fold_left (fun out t => k t input out) order out.

(** What can be seen of a device through a runtime's state: whether it is usable, and
    its blocks with their sizes and contents. *)
Record DeviceView (S : Type) := MkView {
  dv_ready : S -> Prop;
  dv_heap : S -> gmap Z (Z * list float32)
}.
Arguments dv_ready {S}.
Arguments dv_heap {S}.

(** The state moved on without an effect the view can see. *)
Definition view_same {S} (dv : DeviceView S) (s s' : S) : Prop :=
  dv_ready dv s' /\ dv_heap dv s' = dv_heap dv s.

(** The block [p] holds [data]. *)
Definition view_stored {S} (dv : DeviceView S) (p n : Z) (data : list float32) (s s' : S) : Prop :=
  dv_ready dv s' /\ dv_heap dv s' = <[p := (n, data)]> (dv_heap dv s).

(** The documented effect of the calls that report success; whether a call succeeds
    and how much memory it reports are the runtime's to say. An allocation hands out
    a new block, copies move the data, and once a launch has been reported without an
    error and waited for, every thread of its grid has run once, in an order of the
    device's choosing. *)
Class Conforming {S} (rt : CudaRuntime S) (dv : DeviceView S) (ordinal : Z) : Prop := {
  cf_set_device : forall s s', dv_ready dv s ->
    cudaSetDevice rt ordinal s = (cudaSuccess, s') -> view_same dv s s';
  cf_mem_info : forall info s s', dv_ready dv s ->
    cudaMemGetInfo rt s = ((cudaSuccess, info), s') -> view_same dv s s';
  cf_malloc : forall n p s s', dv_ready dv s -> 0 < n -> n mod 4 = 0 ->
    cudaMalloc rt n s = ((cudaSuccess, p), s') ->
    dv_ready dv s' /\ dv_heap dv s !! p = None /\
    exists data, Z.of_nat (length data) * 4 = n /\ dv_heap dv s' = <[p := (n, data)]> (dv_heap dv s);
  cf_free_null : forall s s', dv_ready dv s ->
    cudaFree rt 0 s = (cudaSuccess, s') -> view_same dv s s';
  cf_driver_version : forall v s s', dv_ready dv s ->
    cudaDriverGetVersion rt s = ((cudaSuccess, v), s') -> view_same dv s s';
  cf_runtime_version : forall v s s', dv_ready dv s ->
    cudaRuntimeGetVersion rt s = ((cudaSuccess, v), s') -> view_same dv s s';
  cf_copy_in : forall p n old data s s', dv_ready dv s -> dv_heap dv s !! p = Some (n, old) ->
    Z.of_nat (length data) * 4 = n ->
    cudaMemcpyHostToDevice rt p data n s = (cudaSuccess, s') -> view_stored dv p n data s s';
  cf_kernel : forall k blocks threads p_in p_out n m input out s u s1 s2 s', dv_ready dv s ->
    dv_heap dv s !! p_in = Some (n, input) -> dv_heap dv s !! p_out = Some (m, out) ->
    p_in <> p_out -> 0 < blocks < 2 ^ 31 -> 0 < threads <= 1024 ->
    cudaLaunchKernel rt k blocks threads p_in p_out s = (u, s1) ->
    cudaGetLastError rt s1 = (cudaSuccess, s2) ->
    cudaDeviceSynchronize rt s2 = (cudaSuccess, s') ->
    exists order, order ≡ₚ grid blocks threads /\
      view_stored dv p_out m (run_threads k order input out) s s';
  cf_copy_out : forall host p n data out s s', dv_ready dv s -> dv_heap dv s !! p = Some (n, data) ->
    Z.of_nat (length host) * 4 = n ->
    cudaMemcpyDeviceToHost rt host p n s = ((cudaSuccess, out), s') ->
    out = data /\ view_same dv s s'
}.

(** The call reported success. The status of the frees of the two blocks is nothing
    the verdict depends on. *)
Definition call_ok (ev : CudaEvent) : bool :=
  match ev with
  | GetDeviceCount e _ | GetDeviceProperties _ e _ | DriverGetVersion e _ | RuntimeGetVersion e _
  | SetDevice _ e | MemGetInfo e _ _ | Malloc _ e _ | FreeNull e | CopyIn _ _ _ e | LastError e
  | Synchronize e | CopyOut _ _ e _ => e =? cudaSuccess
  | Free _ _ | Launch _ _ _ _ => true
  end.

(** The amounts of free memory reported along a log. *)
Definition free_reports (log : list CudaEvent) : list Z :=
  omap (fun ev => match ev with MemGetInfo _ free _ => Some free | _ => None end) log.

(** The last amount reported is within the allowance of the one before it. *)
Definition memory_restored (log : list CudaEvent) : Prop :=
  match rev (free_reports log) with
  | free_after :: free_b :: _ => llabs (memory_delta free_b free_after) <= kMaxJustifiedDelta
  | _ => False
  end.

(** Bytes requested from the device along a log. *)
Definition bytes_requested (log : list CudaEvent) : Z :=
  fold_right (fun ev n => match ev with Malloc b _ _ => b + n | _ => n end) 0 log.

(** Every step of a result is proven, the memory comparison apart. *)
Definition steps_proven (r : CudaValidationResult) : bool :=
  v_alloc_ok r && v_h2d_ok r && v_kernel_ok r && v_sync_ok r && v_d2h_ok r && v_verify_ok r.

(* ------------------------------------------------------------------ *)
(** ** Lemmas: the steps *)

#[local] Opaque kElements host_input first_mismatch replicate to_dec step_failed llabs memory_delta.

Lemma failed_true e : failed e = true -> e <> cudaSuccess.
Proof. unfold failed. intros H ->. discriminate. Qed.

Lemma failed_false e : failed e = false -> e = cudaSuccess.
Proof. unfold failed. intros H. zbool. done. Qed.

(** The comparison as the processor makes it: false exactly on a greater value. *)
Lemma compare_flip x y :
  SFcompare y x = match SFcompare x y with Some c => Some (CompOpp c) | None => None end.
Proof.
  destruct x as [[]|[]| |[] m e], y as [[]|[]| |[] m' e']; try reflexivity;
    unfold SFcompare; rewrite (Z.compare_antisym e e'); destruct (e ?= e'); cbn [CompOpp]; try reflexivity;
    change (Pos.compare_cont Eq m' m) with (Pos.compare m' m);
    change (Pos.compare_cont Eq m m') with (Pos.compare m m');
    rewrite (Pos.compare_antisym m m'); by destruct (Pos.compare m m').
Qed.

Lemma element_ok_spec x out : element_ok x out = true <-> accepted_output x out.
Proof.
  unfold element_ok, accepted_output, SFltb, SFleb. set (d := fsub out (scaled x)).
  rewrite (compare_flip (SFabs d) kTolerance). split.
  - intros H. destruct (SFcompare (SFabs d) kTolerance) as [[]|] eqn:Ec;
      [by right|by right|discriminate H|left].
    destruct d as [b|b| |b m e]; try done; unfold SFcompare, kTolerance, SFabs in Ec; done.
  - intros [-> | H]; [done|]. by destruct (SFcompare _ _) as [[]|].
Qed.

Lemma first_mismatch_none i h_in h_out :
  first_mismatch i h_in h_out = None <->
  forall j x, h_in !! j = Some x -> element_ok x (nth j h_out (S754_zero false)) = true.
Proof.
  revert i h_out. induction h_in as [|x h_in IH]; intros i h_out; [by split|].
  #[local] Transparent first_mismatch. cbn [first_mismatch].
  assert (match h_out with y :: _ => y | [] => S754_zero false end = nth 0 h_out (S754_zero false))
    as -> by by destruct h_out.
  assert (forall j, nth j (tail h_out) (S754_zero false) = nth (Datatypes.S j) h_out (S754_zero false))
    as Ht by (intros j; destruct h_out; [by destruct j|done]).
  destruct (element_ok x _) eqn:Hx; split.
  - intros Hm [|j] y; [by intros [= <-]|]. cbn. intros Hy. rewrite <- Ht. by eapply IH.
  - intros Hall. apply IH. intros j y Hy. rewrite Ht. by apply (Hall (Datatypes.S j)).
  - done.
  - intros Hall. by rewrite (Hall 0%nat x eq_refl) in Hx.
  #[local] Opaque first_mismatch.
Qed.

Lemma grid_covers : kElements <= (kElements + kBlock - 1) / kBlock * kBlock.
Proof. vm_compute. congruence. Qed.

Lemma conclude_ok free_b free_after total r :
  v_ok (conclude free_b free_after total r) =
    steps_proven r && (llabs (memory_delta free_b free_after) <=? kMaxJustifiedDelta).
Proof. done. Qed.

Lemma step_failed_nonempty {S} (rt : CudaRuntime S) what e : step_failed rt what e <> "".
Proof. #[local] Transparent step_failed. unfold step_failed. by destruct what.
  #[local] Opaque step_failed. Qed.

(** The launch configuration: 4096 blocks of 256 threads. *)
Lemma launch_bounds :
  0 < (kElements + kBlock - 1) / kBlock < 2 ^ 31 /\ 0 < kBlock <= 1024 /\
  kElements <= (kElements + kBlock - 1) / kBlock * kBlock <= 2 ^ 31.
Proof. vm_compute. repeat split; congruence. Qed.

(** An allocation hands out a block exactly when it succeeds. *)
Lemma holds_malloc {S B} (rt : CudaRuntime S) live n (k : cudaError * Z -> Eff S CudaEvent B) Q :
  (forall a, failed a.1 = true -> holds live (k a) Q) ->
  (forall a, failed a.1 = false -> holds ({[+ DevicePtr a.2 +]} ⊎ live) (k a) Q) ->
  holds live (eff_bind (call_malloc rt n) k) Q.
Proof.
  intros Ht Hf. apply holds_call. intros [e p]. specialize (Ht (e, p)). specialize (Hf (e, p)).
  unfold failed in *. cbn in *. destruct (e =? cudaSuccess); cbn [negb] in *; eauto.
Qed.

Ltac cuda_ledger_step :=
  first [ apply holds_malloc; (let Hf := fresh "Hf" in intros ? Hf; rewrite Hf) | ledger_step ].

Section ValidationLemmas.
Context {S : Type} (rt : CudaRuntime S).

Lemma release_both_holds live d_in d_out r Q :
  live = {[+ DevicePtr d_in +]} ⊎ {[+ DevicePtr d_out +]} -> Q r ∅ -> holds live (release_both rt d_in d_out r) Q.
Proof.
  intros -> HQ. unfold release_both. repeat ledger_step.
  by replace (_ ∖ _) with (∅ : Handles) by multiset_solver.
Qed.

Lemma run_cuda_validation_holds ordinal :
  holds ∅ (run_cuda_validation rt ordinal) (fun _ live => live = ∅).
Proof.
  unfold run_cuda_validation, exercise, verify_and_release.
  repeat first [ apply release_both_holds; [multiset_solver|] | cuda_ledger_step ]; try done.
  all: multiset_solver.
Qed.

(** At every leaf the result's verdict and the log are known. *)
Lemma run_cuda_validation_proves ordinal :
  logs (run_cuda_validation rt ordinal) (fun r log => v_ok r = true <-> proves_device ordinal log).
Proof.
  unfold run_cuda_validation, exercise, release_both, verify_and_release.
  repeat logs_step; cbn; try by split.
  all: pose proof grid_covers; setoid_rewrite <- element_ok_spec;
    rewrite <- first_mismatch_none with (i := 0%nat).
  all: repeat match goal with H : failed _ = false |- _ => apply failed_false in H end.
  - match goal with H : failed _ = true |- _ => apply failed_true in H end.
    rewrite !Forall_cons. split; [done|tauto].
  - match goal with |- context [failed ?e] => destruct (failed e) end;
      destruct (first_mismatch _ _ _); cbn;
      (split; [intros Hok; try discriminate Hok; apply Z.leb_le in Hok; split_and!; auto; by repeat constructor
              | intros (_ & _ & _ & _ & _ & _ & _ & Hm & Hr);
                first [discriminate Hm | by apply Z.leb_le]]).
Qed.

Lemma run_cuda_validation_steps ordinal :
  logs (run_cuda_validation rt ordinal) (fun r _ => v_ok r = true -> steps_proven r = true).
Proof.
  unfold run_cuda_validation, exercise, release_both, verify_and_release.
  repeat logs_step; try (intros H; discriminate H).
  rewrite conclude_ok. intros H. zbool. done.
Qed.

Lemma run_cuda_validation_explained ordinal :
  logs (run_cuda_validation rt ordinal) (fun r _ =>
    v_ok r = true \/ v_detail r <> "" \/
    (v_verify_ok r = true /\ v_memory_baseline_restored r = false)).
Proof.
  unfold run_cuda_validation, exercise, release_both, verify_and_release.
  repeat logs_step; cbn; try (right; left; apply step_failed_nonempty).
  - match goal with |- context [failed ?e] => destruct (failed e) end;
      destruct (first_mismatch _ _ _); cbn; right; left; try apply step_failed_nonempty; done.
  - match goal with |- context [failed ?e] => destruct (failed e) end;
      destruct (first_mismatch _ _ _); cbn; try (right; left; done);
      destruct (llabs _ <=? _); cbn; auto.
Qed.

Lemma run_cuda_validation_requests ordinal :
  logs (run_cuda_validation rt ordinal) (fun _ log => bytes_requested log <= 8 * 1024 * 1024).
Proof.
  unfold run_cuda_validation, exercise, release_both, verify_and_release.
  assert (kElements * 4 = 4 * 1024 * 1024) as E by reflexivity. rewrite E.
  repeat logs_step; cbn; lia.
Qed.

End ValidationLemmas.

(* ------------------------------------------------------------------ *)
(** ** Lemmas: the kernel *)

Lemma thread_index_exact dim b t :
  0 <= b -> 0 <= t < dim -> (b + 1) * dim <= 2 ^ 31 -> thread_index dim (b, t) = b * dim + t.
Proof.
  intros Hb Ht Hn. unfold thread_index. cbn [fst snd].
  rewrite (wrap_small 32 (b * dim)) by (unfold is_u; nia).
  apply to_signed_wrap; [lia|unfold is_s; change (32 - 1) with 31; nia].
Qed.

Lemma elem_of_grid blocks dim t :
  t ∈ grid blocks dim <-> 0 <= t.1 < blocks /\ 0 <= t.2 < dim.
Proof.
  unfold grid. rewrite list_elem_of_In, in_flat_map. setoid_rewrite in_map_iff.
  setoid_rewrite in_seq. destruct t as [b x]; cbn. split.
  - intros (b' & Hb & x' & [= <- <-] & Hx). lia.
  - intros [Hb Hx]. exists (Z.to_nat b). split; [lia|]. exists (Z.to_nat x).
    rewrite !Z2Nat.id by lia. split; [done|lia].
Qed.

(** One thread: its element is written, the others are kept. *)
Lemma add_scaled_kernel_length dim n t input out :
  length (add_scaled_kernel dim n t input out) = length out.
Proof. unfold add_scaled_kernel. case_branch; [apply length_insert|done]. Qed.

Lemma add_scaled_kernel_keeps dim n t input out i :
  (i < length out)%nat -> 0 <= thread_index dim t -> Z.of_nat i < n ->
  out !! i = Some (scaled (nth i input (S754_zero false))) \/ thread_index dim t = Z.of_nat i ->
  add_scaled_kernel dim n t input out !! i = Some (scaled (nth i input (S754_zero false))).
Proof.
  intros Hi Ht Hn Hor. unfold add_scaled_kernel.
  destruct (Z.eq_dec (thread_index dim t) (Z.of_nat i)) as [E|E].
  - rewrite E, Nat2Z.id. destruct (Z.ltb_spec (Z.of_nat i) n); [|lia].
    by apply list_lookup_insert_eq.
  - destruct Hor as [Ho|]; [|done]. case_branch; [|done].
    rewrite list_lookup_insert_ne by lia. exact Ho.
Qed.

Lemma run_threads_length dim n order input out :
  length (run_threads (add_scaled_kernel dim n) order input out) = length out.
Proof.
  unfold run_threads. revert out. induction order as [|t order IH]; intros out; [done|].
  cbn. by rewrite IH, add_scaled_kernel_length.
Qed.

Lemma run_threads_lookup dim n order input out i :
  (forall t, t ∈ order -> 0 <= thread_index dim t) -> (i < length out)%nat -> Z.of_nat i < n ->
  out !! i = Some (scaled (nth i input (S754_zero false))) \/
    (exists t, t ∈ order /\ thread_index dim t = Z.of_nat i) ->
  run_threads (add_scaled_kernel dim n) order input out !! i =
    Some (scaled (nth i input (S754_zero false))).
Proof.
  unfold run_threads. revert out. induction order as [|t order IH]; intros out Ho Hi Hn Hor; cbn.
  - destruct Hor as [H|(t & Ht & _)]; [done|by apply elem_of_nil in Ht].
  - assert (0 <= thread_index dim t) by (apply Ho; left).
    apply IH; [intros; apply Ho; by right|by rewrite add_scaled_kernel_length|done|].
    destruct Hor as [H1|(t' & Ht' & E)].
    + left. by apply add_scaled_kernel_keeps; auto.
    + apply elem_of_cons in Ht' as [->|Ht']; [left; apply add_scaled_kernel_keeps; auto|].
      right. by exists t'.
Qed.

Lemma grid_index blocks dim t :
  t ∈ grid blocks dim -> blocks * dim <= 2 ^ 31 ->
  thread_index dim t = t.1 * dim + t.2 /\ 0 <= thread_index dim t < blocks * dim.
Proof.
  intros Ht Hn. apply elem_of_grid in Ht as [Hb Hx]. destruct t as [b x]. cbn [fst snd] in *.
  assert ((b + 1) * dim <= blocks * dim) by nia.
  rewrite thread_index_exact by lia. split; [done|nia].
Qed.

(** Every element below the number of threads has its thread. *)
Lemma grid_thread blocks dim i :
  0 < dim -> 0 <= i < blocks * dim -> blocks * dim <= 2 ^ 31 ->
  exists t, t ∈ grid blocks dim /\ thread_index dim t = i.
Proof.
  intros Hd Hi Hn. exists (i / dim, i mod dim).
  pose proof (Z.div_mod i dim ltac:(lia)). pose proof (Z.mod_pos_bound i dim Hd).
  assert (0 <= i / dim < blocks) by (split; [apply Z.div_pos; lia|apply Z.div_lt_upper_bound; lia]).
  assert ((i / dim + 1) * dim <= blocks * dim) by (apply Z.mul_le_mono_nonneg_r; lia).
  split; [by apply elem_of_grid|]. 
  rewrite thread_index_exact; [nia|lia|done|by etrans].
Qed.

Lemma run_threads_grid blocks dim n order input out :
  order ≡ₚ grid blocks dim -> 0 < dim -> n <= blocks * dim <= 2 ^ 31 ->
  Z.of_nat (length input) = n -> length out = length input ->
  run_threads (add_scaled_kernel dim n) order input out = map scaled input.
Proof.
  intros Hp Hd Hn Hin Hout. apply list_eq. intros i.
  destruct (decide (i < length input)%nat) as [Hi|Hi].
  - rewrite run_threads_lookup.
    + change (map scaled input) with (scaled <$> input). rewrite list_lookup_fmap.
      destruct (lookup_lt_is_Some_2 input i Hi) as [x Hx]. rewrite Hx. cbn.
      by rewrite (nth_lookup_Some _ _ _ _ Hx).
    + intros t Ht. rewrite Hp in Ht. destruct (grid_index blocks dim t); [done|lia..].
    + lia.
    + lia.
    + right. destruct (grid_thread blocks dim (Z.of_nat i)) as (t & Ht & E); [lia..|].
      exists t. by rewrite Hp.
  - rewrite !lookup_ge_None_2; [done|rewrite length_map; lia|rewrite run_threads_length; lia].
Qed.

(* ------------------------------------------------------------------ *)
(** ** Lemmas: a working device *)

Lemma host_input_length : Z.of_nat (length host_input) = kElements.
Proof.
  #[local] Transparent host_input. unfold host_input. #[local] Opaque host_input.
  rewrite length_map, length_seq. apply Z2Nat.id. vm_compute. congruence.
Qed.

(** The input's values are exact, and so is the reference at each of them. *)
Lemma residues_exact :
  forallb (fun i => element_ok (float_of_Z i) (scaled (float_of_Z i)))
    (map Z.of_nat (seq 0 97)) = true.
Proof. vm_compute. reflexivity. Qed.

Lemma host_input_exact x : x ∈ host_input -> element_ok x (scaled x) = true.
Proof.
  #[local] Transparent host_input. unfold host_input. #[local] Opaque host_input.
  rewrite list_elem_of_In, in_map_iff. intros (i & <- & _).
  apply (proj1 (forallb_forall _ _) residues_exact). apply in_map_iff.
  pose proof (Z.mod_pos_bound (Z.of_nat i) 97 eq_refl).
  exists (Z.to_nat (Z.of_nat i mod 97)). split; [lia|]. apply in_seq. lia.
Qed.

Lemma reference_matches i : first_mismatch i host_input (map scaled host_input) = None.
Proof.
  apply first_mismatch_none. intros j x Hj.
  rewrite (nth_lookup_Some _ _ _ (scaled x)).
  - apply host_input_exact. by eapply list_elem_of_lookup_2.
  - change (map scaled host_input) with (scaled <$> host_input). by rewrite list_lookup_fmap, Hj.
Qed.

Section WorkingDevice.
Context {S : Type} (rt : CudaRuntime S) (dv : DeviceView S) (ordinal : Z).
Context {Hcf : Conforming rt dv ordinal}.

(** The verdict rests on the last comparison of memory alone. *)
Definition verdict_on_memory (free_b : Z) (r : CudaValidationResult) (log : list CudaEvent) : Prop :=
  exists free_after, free_reports log = [free_after] /\
    v_ok r = (llabs (memory_delta free_b free_after) <=? kMaxJustifiedDelta).

Lemma verify_and_release_given s free_b d_in d_out out r :
  first_mismatch 0 host_input out = None ->
  v_alloc_ok r = true -> v_h2d_ok r = true -> v_kernel_ok r = true -> v_sync_ok r = true ->
  v_d2h_ok r = true ->
  given call_ok (verify_and_release rt free_b d_in d_out out r) s
    (fun r' l _ => verdict_on_memory free_b r' l).
Proof.
  intros Hm H1 H2 H3 H4 H5. unfold verify_and_release. rewrite Hm.
  apply given_call; intros e1 s1 _ _. apply given_call; intros e2 s2 _ _.
  apply given_call; intros [e3 [free_after total]] s3 _ Hok. cbn [call_ok fst snd] in *.
  apply Z.eqb_eq in Hok as ->. cbn [failed]. apply given_ret.
  exists free_after. split; [done|]. rewrite conclude_ok. unfold steps_proven.
  destruct (failed e2); cbn; by rewrite H1, H2, H3, H4, H5.
Qed.

Lemma exercise_given s heap d_in d_out n old1 old2 free_b r :
  dv_ready dv s -> d_in <> d_out -> n = kElements * 4 -> Z.of_nat (length old2) * 4 = n ->
  dv_heap dv s = <[d_out := (n, old2)]> (<[d_in := (n, old1)]> heap) -> v_alloc_ok r = true ->
  given call_ok (exercise rt n free_b d_in d_out r) s (fun r' l _ => verdict_on_memory free_b r' l).
Proof.
  intros Hs Hne Hn Hlen Hheap Hr. unfold exercise. pose proof host_input_length as Hhl.
  apply given_call; intros e1 s1 E1 Hok. cbn [call_ok] in Hok. apply Z.eqb_eq in Hok as ->. cbn [failed].
  destruct (cf_copy_in d_in n old1 host_input s s1 Hs) as [Hs1 Hh1];
    [by rewrite Hheap, lookup_insert_ne, lookup_insert_eq by congruence|lia|exact E1|].
  destruct launch_bounds as (Hb & Hk & Hg). set (blocks := (kElements + kBlock - 1) / kBlock) in *.
  apply given_call; intros u s2 E2 _.
  apply given_call; intros e3 s3 E3 Hok. cbn [call_ok] in Hok. apply Z.eqb_eq in Hok as ->. cbn [failed].
  apply given_call; intros e4 s4 E4 Hok. cbn [call_ok] in Hok. apply Z.eqb_eq in Hok as ->. cbn [failed].
  destruct (cf_kernel (add_scaled_kernel kBlock kElements) blocks kBlock d_in d_out n n
    host_input old2 s1 u s2 s3 s4) as (order & Hord & Hs4 & Hh4);
    [done|by rewrite Hh1, lookup_insert_eq
    |by rewrite Hh1, lookup_insert_ne, Hheap, lookup_insert_eq by congruence|done|exact Hb|exact Hk
    |exact E2|exact E3|exact E4|].
  rewrite (run_threads_grid blocks kBlock kElements order host_input old2) in Hh4;
    [|exact Hord|lia|exact Hg|exact Hhl|lia].
  apply given_call; intros [e5 out] s5 E5 Hok. cbn [call_ok fst snd] in *. apply Z.eqb_eq in Hok as ->.
  cbn [failed].
  destruct (cf_copy_out (replicate (Z.to_nat kElements) (S754_zero false)) d_out n
    (map scaled host_input) out s4 s5) as [-> _];
    [done|by rewrite Hh4, lookup_insert_eq|rewrite length_replicate; lia|exact E5|].
  apply (verify_and_release_given s5); [apply reference_matches|exact Hr|reflexivity..].
Qed.

Lemma run_cuda_validation_given s :
  dv_ready dv s ->
  given call_ok (run_cuda_validation rt ordinal) s (fun r l _ =>
    exists free_b free_after, free_reports l = [free_b; free_after] /\
      v_ok r = (llabs (memory_delta free_b free_after) <=? kMaxJustifiedDelta)).
Proof.
  intros Hs. unfold run_cuda_validation.
  apply given_call; intros e1 s1 E1 Hok. cbn [call_ok] in Hok. apply Z.eqb_eq in Hok as ->. cbn [failed].
  destruct (cf_set_device s s1 Hs E1) as [Hs1 _].
  apply given_call; intros [e2 [free_b total]] s2 E2 Hok. cbn [call_ok fst snd] in *.
  apply Z.eqb_eq in Hok as ->. cbn [failed]. destruct (cf_mem_info _ s1 s2 Hs1 E2) as [Hs2 _].
  apply given_call; intros [e3 d_in] s3 E3 Hok. cbn [call_ok fst snd] in *. apply Z.eqb_eq in Hok as ->.
  cbn [failed]. destruct (cf_malloc (kElements * 4) d_in s2 s3 Hs2) as (Hs3 & Hf1 & old1 & Hl1 & Hh3);
    [done|done|exact E3|].
  apply given_call; intros [e4 d_out] s4 E4 Hok. cbn [call_ok fst snd] in *. apply Z.eqb_eq in Hok as ->.
  cbn [failed]. destruct (cf_malloc (kElements * 4) d_out s3 s4 Hs3) as (Hs4 & Hf2 & old2 & Hl2 & Hh4);
    [done|done|exact E4|].
  rewrite Hh3, lookup_insert_None in Hf2. destruct Hf2 as [_ Hne]. rewrite Hh3 in Hh4.
  intros Hall. pose proof (exercise_given s4 (dv_heap dv s2) d_in d_out (kElements * 4) old1 old2 free_b
    (set_alloc_ok true (set_baseline free_b total validation_init)) Hs4 Hne eq_refl Hl2 Hh4 eq_refl Hall)
    as (free_after & Hr & Hv).
  exists free_b, free_after. split; [|exact Hv]. cbn [free_reports omap list_omap]. by rewrite <- Hr.
Qed.

End WorkingDevice.

(** A proof is a log of calls that succeeded. *)
Lemma proof_succeeds ordinal log :
  proves_device ordinal log -> forallb call_ok log = true /\ memory_restored log.
Proof.
  unfold proves_device. intros H. repeat case_match; try done.
  destruct H as (_ & He & _ & _ & _ & _ & _ & _ & Hm). split; [|exact Hm].
  rewrite !Forall_cons in He. destruct He as (-> & -> & -> & -> & -> & -> & -> & -> & -> & _). reflexivity.
Qed.

(* ------------------------------------------------------------------ *)
(** ** Properties *)

(** C7. A device is validated exactly on the proof the routine looks for: whatever the
    runtime answers, the result of [run_cuda_validation] is ok if and only if the
    calls it made are the whole sequence, in order and on the blocks it was handed,
    each successful except the two frees, with the free memory back to within 16 MiB
    and every element read back either within the tolerance of the CPU reference or
    such that its difference to the reference is not a number: a NaN is accepted. *)
Theorem validated_iff_proven {S} (rt : CudaRuntime S) ordinal s :
  v_ok (eff_result (run_cuda_validation rt ordinal) s) = true <->
  proves_device ordinal (eff_log (run_cuda_validation rt ordinal) s).
Proof. exact (run_cuda_validation_proves rt ordinal s). Qed.

(** C27. Device memory: whatever the runtime answers, on every path each block a
    successful [cudaMalloc] handed out is freed exactly once, and every copy and
    launch uses only blocks allocated and not yet freed. *)
Theorem device_memory_settled {S} (rt : CudaRuntime S) ordinal s :
  settle ∅ (eff_log (run_cuda_validation rt ordinal) s) = Some ∅.
Proof.
  destruct (run_cuda_validation_holds rt ordinal s) as (live & Hs & ->). exact Hs.
Qed.

(** C28. The kernel computes the reference in any order of its threads: run over a grid
    of [blocks * dim >= n] threads that an [int] can index, [add_scaled_kernel]
    leaves the reference value in each of the [n] elements. *)
Theorem kernel_any_order blocks dim n order input out :
  order ≡ₚ grid blocks dim -> 0 < dim -> n <= blocks * dim <= 2 ^ 31 ->
  Z.of_nat (length input) = n -> length out = length input ->
  run_threads (add_scaled_kernel dim n) order input out = map scaled input.
Proof. apply run_threads_grid. Qed.

(** The launch of the validation stays in bounds without races: each thread's index
    is one of the [kElements] elements, and no two threads share one. *)
Theorem launch_in_bounds t1 t2 :
  let blocks := (kElements + kBlock - 1) / kBlock in
  t1 ∈ grid blocks kBlock -> t2 ∈ grid blocks kBlock ->
  0 <= thread_index kBlock t1 < kElements /\
  (thread_index kBlock t1 = thread_index kBlock t2 -> t1 = t2).
Proof.
  intros blocks H1 H2. destruct launch_bounds as (_ & _ & _ & Hle).
  destruct (grid_index blocks kBlock t1 H1 Hle) as [E1 B1].
  destruct (grid_index blocks kBlock t2 H2 Hle) as [E2 B2].
  split; [exact B1|]. rewrite E1, E2. apply elem_of_grid in H1 as [_ X1], H2 as [_ X2].
  destruct t1 as [b1 x1], t2 as [b2 x2]. cbn [fst snd] in *. intros E.
  assert (b1 = b2) as -> by nia. f_equal. lia.
Qed.

(** Allocation is bounded: no run requests more than 8 MiB of the device. *)
Theorem allocation_bounded {S} (rt : CudaRuntime S) ordinal s :
  bytes_requested (eff_log (run_cuda_validation rt ordinal) s) <= 8 * 1024 * 1024.
Proof. exact (run_cuda_validation_requests rt ordinal s). Qed.

(** A failure is explained: a result that is not ok carries a message, except when
    all that failed is the memory comparison. *)
Theorem failure_explained {S} (rt : CudaRuntime S) ordinal s :
  let r := eff_result (run_cuda_validation rt ordinal) s in
  v_ok r = false -> v_detail r <> "" \/
  (v_verify_ok r = true /\ v_memory_baseline_restored r = false).
Proof.
  intros r Hr. destruct (run_cuda_validation_explained rt ordinal s) as [H|H]; [|exact H].
  fold r in H. congruence.
Qed.

(** C29. Rejected only for cause: on a device whose successful calls do what CUDA documents
    for them, the validation succeeds exactly when every call it makes, but the frees,
    reports success and the free memory reported at the end is within 16 MiB of that
    at the start. The comparison with the reference never fails there, in whatever
    order the threads of the kernel run. *)
Theorem working_device_validates {S} (rt : CudaRuntime S) (dv : DeviceView S) ordinal s :
  Conforming rt dv ordinal -> dv_ready dv s ->
  let log := eff_log (run_cuda_validation rt ordinal) s in
  v_ok (eff_result (run_cuda_validation rt ordinal) s) = true <->
  forallb call_ok log = true /\ memory_restored log.
Proof.
  intros Hcf Hs log. split; [intros H; by apply (proof_succeeds ordinal), run_cuda_validation_proves|].
  intros [Hok Hm]. destruct (run_cuda_validation_given rt dv ordinal s Hs Hok) as (b & a & Hr & ->).
  unfold memory_restored, log in Hm. rewrite Hr in Hm. by apply Z.leb_le.
Qed.

(** Not-a-number passes the verification: its distance to the reference is not
    greater than the tolerance. *)
Theorem nan_matches_reference i n :
  (length host_input <= n)%nat -> first_mismatch i host_input (replicate n S754_nan) = None.
Proof.
  intros Hn. apply first_mismatch_none. intros j x Hj.
  rewrite (nth_lookup_Some _ _ _ S754_nan); [done|].
  apply lookup_replicate_2. apply lookup_lt_Some in Hj. lia.
Qed.
