(* ===== verification/CudaBackend.v ===== *)
(** * The CUDA backend ([cuda/cuda_backend.hpp], [src/cuda/cuda_backend.cpp],
      [src/cuda/cuda_disabled.cpp])

    Enumeration and probing over the runtime parameter of [Cuda], as an instance of
    the class [DeviceBackend], and the interface [BackendLaws] the end-to-end
    theorems ask of it. *)

From stdpp Require Import gmultiset.
From S2P Require Import Prelude Core Codec Effects Cuda Identity Device Health Eligibility.
From S2P Require Import Observation Change Pipeline Registration WireFormats ObservationCodec.
From S2P Require Import Message FleetState FleetSteps FleetInv FleetSafety FleetIngest.
From S2P Require Import Coordinator CoordinatorSafety Agent EndToEnd.

Definition arch_for (major minor : Z) : string :=
  if major >=? 12 then "blackwell"
  else if major =? 9 then "hopper"
  else if major =? 8 then "ampere"
  else if major =? 7 then "volta"
  else if major =? 6 then "pascal"
  else "cuda".

(** [int] division truncates; the result converts to [std::uint32_t]. *)
Definition driver_major (v : Z) : Z := wrap 32 (Z.quot v 1000).
Definition runtime_major (v : Z) : Z := wrap 32 (Z.quot v 1000).
Definition runtime_minor (v : Z) : Z := wrap 32 (Z.rem (Z.quot v 10) 100).

Definition make_cap (id : Z) (name : string) (kind : CapabilityKind) (value desc : string)
  : Capability := MkCapability (MkId id) name kind value desc.

Section Backend.
Context {S : Type} (rt : CudaRuntime S).

Definition cuda_available : Eff S CudaEvent bool :=
  r <- call_get_device_count rt ;;
  eff_ret ((r.1 =? cudaSuccess) && (r.2 >? 0)).

(** [snprintf] into 128 bytes keeps 127 characters. *)
Definition cuda_driver_summary : Eff S CudaEvent string :=
  dv <- call_driver_version rt ;;
  rv <- call_runtime_version rt ;;
  count <- call_get_device_count rt ;;
  let text := "CUDA driver=" +:+ to_dec_signed dv.2 +:+ " runtime=" +:+ to_dec_signed rv.2 +:+
              " devices=" +:+ to_dec_signed count.2 +:+ " driverVersion=" +:+
              to_dec (driver_major dv.2) +:+ "." +:+ to_dec 0 +:+ " runtimeVersion=" +:+
              to_dec (runtime_major rv.2) +:+ "." +:+ to_dec (runtime_minor rv.2) in
  let s := String.substring 0 127 text in
  eff_ret (if failed dv.1 || failed rv.1 then s +:+ " (version query incomplete)" else s).

(** The identity of one device. The [int] fields of the properties convert to the
    widths of the identity. *)
Definition cuda_identity (prop : cudaDeviceProp) (dv rv : Z) : DeviceIdentity :=
  MkIdentity AcceleratorVendor.Nvidia "NVIDIA" (MkUuid "")
    (MkPci (wrap 32 (prop_pciDomainID prop)) (wrap 16 (prop_pciBusID prop))
       (wrap 16 (prop_pciDeviceID prop)) 0)
    (arch_for (wrap 32 (prop_major prop)) (wrap 32 (prop_minor prop)))
    (MkCC (wrap 32 (prop_major prop)) (wrap 32 (prop_minor prop)))
    (prop_totalGlobalMem prop) (-1) (MkDriverVersion (to_dec_signed dv))
    (MkRuntimeVersion (runtime_major rv) (runtime_minor rv)) (MkMig 0 0) None.

(** The loop over the ordinals: a device whose properties cannot be read is
    skipped; the statuses of the version queries are not looked at. *)
Fixpoint enumerate_loop (ords : list Z) : Eff S CudaEvent (list EnumeratedDevice) :=
  match ords with
  | [] => eff_ret []
  | ord :: ords =>
      prop <- call_get_device_properties rt ord ;;
      if failed prop.1 then enumerate_loop ords else
      dv <- call_driver_version rt ;;
      rv <- call_runtime_version rt ;;
      out <- enumerate_loop ords ;;
      eff_ret (MkEnumerated ord (cuda_identity prop.2 dv.2 rv.2) true :: out)
  end.

Definition cuda_enumerate : Eff S CudaEvent (Result (list EnumeratedDevice)) :=
  count <- call_get_device_count rt ;;
  if failed count.1 then
    eff_ret (error_result Unsupported (step_failed rt "cudaGetDeviceCount" count.1))
  else
  out <- enumerate_loop (map Z.of_nat (seq 0 (Z.to_nat count.2))) ;;
  eff_ret (Ok out).

(** The capabilities published with a probe. *)
Definition cuda_capabilities (id : DeviceIdentity) (total_b free_b rv : Z) : list Capability :=
  let major := cc_major (id_compute_capability id) in
  [make_cap 1 "vendor" CapabilityKind.DISCOVERED "nvidia" "vendor reported by CUDA";
   make_cap 2 "architecture" CapabilityKind.DISCOVERED (id_architecture id)
     "architecture from compute capability";
   make_cap 3 "compute_capability" CapabilityKind.DISCOVERED (cc_to_string (id_compute_capability id))
     "compute capability";
   make_cap 4 "total_memory" CapabilityKind.DISCOVERED (to_dec total_b)
     "total physical memory bytes";
   make_cap 5 "usable_memory" CapabilityKind.DISCOVERED (to_dec free_b)
     "free memory bytes at probe";
   make_cap 6 "cuda_available" CapabilityKind.DISCOVERED "true" "CUDA runtime initialized";
   make_cap 7 "runtime" CapabilityKind.DISCOVERED
     (to_dec (runtime_major rv) +:+ "." +:+ to_dec (runtime_minor rv)) "CUDA runtime version";
   make_cap 8 "dtypes" CapabilityKind.DISCOVERED "fp32" "validated dtype (fp32)";
   make_cap 9 "tensor_cores" CapabilityKind.INFERRED (if major >=? 7 then "true" else "false")
     "tensor cores inferred from compute capability";
   make_cap 10 "unified_addressing" CapabilityKind.DISCOVERED
     (if major >=? 6 then "true" else "false") "unified addressing (historical, discovered)";
   make_cap 11 "graphs" CapabilityKind.INFERRED "true" "CUDA graphs inferred for CUDA >= 10";
   make_cap 12 "cooperative_launch" CapabilityKind.UNKNOWN "unknown"
     "not queried via CUDA runtime";
   make_cap 13 "kernel_execution" CapabilityKind.VALIDATED "true"
     "a real CUDA kernel executed and synchronized";
   make_cap 14 "memory_roundtrip" CapabilityKind.VALIDATED "true"
     "H2D + D2H round-trip verified against CPU reference";
   make_cap 15 "driver" CapabilityKind.DISCOVERED (dv_text (id_driver_version id))
     "CUDA driver version";
   make_cap 16 "numa" CapabilityKind.UNKNOWN "unknown" "NUMA node not surfaced by CUDA runtime"].

(** The two version queries: the second runs only if the first succeeds. *)
Definition query_versions : Eff S CudaEvent (bool * Z) :=
  dv <- call_driver_version rt ;;
  if failed dv.1 then eff_ret (false, 0) else
  rv <- call_runtime_version rt ;;
  eff_ret (negb (failed rv.1), rv.2).

Definition cuda_probe (device : EnumeratedDevice) : Eff S CudaEvent (Result DeviceProbe) :=
  e <- call_set_device rt (ed_ordinal device) ;;
  if failed e then eff_ret (error_result Unsupported (step_failed rt "cudaSetDevice" e)) else
  e <- call_free_null rt ;;
  if failed e then eff_ret (error_result Unsupported "CUDA context initialization failed") else
  versions <- query_versions ;;
  info <- call_mem_get_info rt ;;
  if failed info.1 then eff_ret (error_result Unsupported "cudaMemGetInfo failed") else
  let free_b := info.2.1 in
  let total_b := info.2.2 in
  v <- run_cuda_validation rt (ed_ordinal device) ;;
  eff_ret (Ok (MkProbe (ed_identity device) true true versions.1 true total_b
    (wrap 64 (total_b - free_b)) free_b None None (v_alloc_ok v) (v_h2d_ok v) (v_kernel_ok v)
    (v_sync_ok v) (v_d2h_ok v) (v_verify_ok v) (v_ok v) (v_detail v)
    (cuda_capabilities (ed_identity device) total_b free_b versions.2))).

End Backend.

(** [CudaDeviceBackend] on a host: the runtime, with the states its calls find
    when the backend is asked whether it is available, enumerates, or probes. *)
Record CudaDeviceBackend (S : Type) := MkCudaBackend {
  cu_runtime : CudaRuntime S;
  cu_at_available : S;
  cu_at_enumerate : S;
  cu_at_probe : EnumeratedDevice -> S
}.
Arguments MkCudaBackend {S}.
Arguments cu_runtime {S}.
Arguments cu_at_available {S}.
Arguments cu_at_enumerate {S}.
Arguments cu_at_probe {S}.

#[export] Instance cuda_backend_instance {S} : DeviceBackend (CudaDeviceBackend S) := {|
  backend_name := fun _ => "cuda";
  backend_available := fun b => eff_result (cuda_available (cu_runtime b)) (cu_at_available b);
  backend_enumerate := fun b => eff_result (cuda_enumerate (cu_runtime b)) (cu_at_enumerate b);
  backend_probe := fun b d => eff_result (cuda_probe (cu_runtime b) d) (cu_at_probe b d)
|}.

(** [make_cuda_backend]. *)
Definition make_cuda_backend {S} (b : CudaDeviceBackend S) : option (CudaDeviceBackend S) :=
  if negb (backend_available b) then None else Some b.

(** The entry points of a build without CUDA. *)
Definition disabled_cuda_available : bool := false.
Definition disabled_cuda_driver_summary : string :=
  "CUDA backend not built (GPUFLEETAGENT_HAVE_CUDA=0)".
Definition disabled_make_cuda_backend {S} (_ : CudaDeviceBackend S)
  : option (CudaDeviceBackend S) := None.

(** What the types and limits of the runtime's answers are: at most 4096 devices,
    [size_t] amounts of memory, and error strings of at most 1024 bytes. *)
Class RuntimeTyped {S} (rt : CudaRuntime S) : Prop := {
  ty_count : forall s, (cudaGetDeviceCount rt s).1.1 = cudaSuccess ->
    (cudaGetDeviceCount rt s).1.2 <= 4096;
  ty_properties : forall ord s, is_u64 (prop_totalGlobalMem (cudaGetDeviceProperties rt ord s).1.2);
  ty_mem_info : forall s, is_u64 (cudaMemGetInfo rt s).1.2.1 /\ is_u64 (cudaMemGetInfo rt s).1.2.2;
  ty_error_string : forall e, str_fits 1024 (cudaGetErrorString rt e)
}.

(* ------------------------------------------------------------------ *)
(** ** Lemmas: the interface *)

#[local] Opaque to_dec to_hex to_dec_signed kElements host_input first_mismatch replicate llabs
  memory_delta.

Lemma arch_for_fits major minor : str_fits 9 (arch_for major minor).
Proof. unfold arch_for. repeat case_match; vm_compute; congruence. Qed.

Lemma step_failed_fits {S} (rt : CudaRuntime S) `{!RuntimeTyped rt} what e :
  str_fits 64 what -> str_fits 2048 (step_failed rt what e).
Proof.
  intros Hw. unfold step_failed.
  eapply fits_le; [apply fits_app; [exact Hw|apply fits_app; [|apply ty_error_string]]|].
  - by apply (Z.le_refl 9).
  - done.
Qed.

Lemma cuda_identity_wf prop dv rv :
  is_u64 (prop_totalGlobalMem prop) -> identity_wf (cuda_identity prop dv rv).
Proof.
  intros Hm. split; unfold cuda_identity; cbn -[wrap arch_for driver_major runtime_major runtime_minor];
    [enum_wf_solve|wf_const|wf_const|by apply wrap_range|by apply wrap_range|by apply wrap_range
    |wf_const| |by apply wrap_range|by apply wrap_range|exact Hm|wf_const|
    |by apply wrap_range|by apply wrap_range|wf_const|wf_const|discriminate].
  - eapply fits_le; [apply arch_for_fits|done].
  - eapply fits_le; [apply to_dec_signed_fits|done].
Qed.

(** Sums the lengths of the parts of a printed string. *)
Ltac fits_sum :=
  unfold str_fits; rewrite ?str_len_app;
  repeat match goal with
  | |- context [str_len (to_dec ?n)] =>
      let H := fresh in pose proof (to_dec_fits n) as H; unfold str_fits in H;
      generalize dependent (str_len (to_dec n)); intros
  | |- context [str_len (to_dec_signed ?n)] =>
      let H := fresh in pose proof (to_dec_signed_fits n) as H; unfold str_fits in H;
      generalize dependent (str_len (to_dec_signed n)); intros
  | |- context [str_len (to_hex ?w ?n)] =>
      let H := fresh in pose proof (to_hex_fits w n ltac:(lia)) as H; unfold str_fits in H;
      generalize dependent (str_len (to_hex w n)); intros
  | |- context [str_len (arch_for ?m ?n)] =>
      let H := fresh in pose proof (arch_for_fits m n) as H; unfold str_fits in H;
      generalize dependent (str_len (arch_for m n)); intros
  | |- context [str_len ?x] => let v := eval vm_compute in (str_len x) in change (str_len x) with v
  end; lia.

Lemma cuda_key_fits prop dv rv :
  str_fits 256 (canonical_device_identity (cuda_identity prop dv rv)).
Proof.
  unfold canonical_device_identity, pci_to_string, cc_to_string, cuda_identity.
  cbn [id_vendor id_vendor_name id_uuid uuid_value id_pci pci_domain pci_bus pci_device pci_function
    id_architecture id_compute_capability cc_major cc_minor id_total_physical_memory
    id_driver_version dv_text].
  fits_sum.
Qed.

Lemma cuda_capabilities_wf id total_b free_b rv :
  str_fits 64 (id_architecture id) -> str_fits 128 (dv_text (id_driver_version id)) ->
  Forall capability_wf (cuda_capabilities id total_b free_b rv).
Proof.
  intros Ha Hd. unfold cuda_capabilities, make_cap.
  repeat apply Forall_cons_2; [..|apply Forall_nil_2].
  all: split; [wf_const|wf_const|enum_wf_solve|cbn [cap_value]|wf_const].
  all: try match goal with |- str_fits _ (String _ _) => wf_const end.
  - by eapply fits_le.
  - unfold cc_to_string. fits_sum.
  - fits_sum.
  - fits_sum.
  - fits_sum.
  - destruct (_ >=? _); wf_const.
  - destruct (_ >=? _); wf_const.
  - by eapply fits_le.
Qed.

Section Laws.
Context {S : Type} (rt : CudaRuntime S) {Hty : RuntimeTyped rt}.

Definition enumerated_ok (d : EnumeratedDevice) : Prop :=
  exists prop dv rv, is_u64 (prop_totalGlobalMem prop) /\ ed_identity d = cuda_identity prop dv rv.

(** An enumerated device carries an identity read from the runtime; no ordinal
    gives more than one. *)
Lemma enumerate_loop_logs ords :
  logs (enumerate_loop rt ords)
    (fun ds _ => (length ds <= length ords)%nat /\ Forall enumerated_ok ds).
Proof.
  induction ords as [|ord ords IH]; cbn [enumerate_loop]; [by apply logs_ret|].
  apply (logs_call_where (fun r => is_u64 (prop_totalGlobalMem r.2))); [apply ty_properties|].
  intros [e prop] Hp. destruct (failed _).
  - eapply logs_weaken; [exact IH|]. cbn. intros ds _ [Hl Hd]. split; [lia|done].
  - apply logs_call; intros dv. apply logs_call; intros rv.
    eapply logs_bind; [exact IH|]. intros ds _ [Hl Hd]. apply logs_ret. cbn. split; [lia|].
    constructor; [|done]. by exists prop, dv.2, rv.2.
Qed.

Lemma cuda_enumerate_logs :
  logs (cuda_enumerate rt) (fun r _ => forall ds, r = Ok ds ->
    Z.of_nat (length ds) <= 4096 /\ Forall enumerated_ok ds).
Proof.
  unfold cuda_enumerate.
  apply (logs_call_where (fun r => r.1 = cudaSuccess -> r.2 <= 4096)); [apply ty_count|].
  intros [e n] Hn. cbn [fst snd] in *. destruct (failed e) eqn:He; [by apply logs_ret|].
  apply failed_false in He. specialize (Hn He).
  eapply logs_bind; [apply enumerate_loop_logs|]. intros ds _ [Hl Hd].
  apply logs_ret. intros ds' [= <-]. split; [|done].
  rewrite length_map, length_seq in Hl. lia.
Qed.

Definition detail_fits (r : CudaValidationResult) : Prop := str_fits 4096 (v_detail r).

Lemma fail_fits msg fatal r : str_fits 4096 msg -> detail_fits r -> detail_fits (fail msg fatal r).
Proof. unfold detail_fits, fail. cbn [v_detail]. by destruct (bool_decide _). Qed.

Lemma fail_step_fits what e fatal r :
  str_fits 64 what -> detail_fits r -> detail_fits (fail (step_failed rt what e) fatal r).
Proof.
  intros Hw. apply fail_fits. eapply fits_le; [by apply step_failed_fits|done].
Qed.

Lemma conclude_fits a b c r : detail_fits r -> detail_fits (conclude a b c r).
Proof.
  unfold detail_fits, conclude. cbn [v_detail]. intros Hr. destruct (_ && _); [fits_sum|done].
Qed.

Lemma record_fits m r : detail_fits r -> detail_fits (record_verification m r).
Proof.
  intros Hr. destruct m as [i|]; [|exact Hr].
  apply (fail_fits ("D2H result did not match CPU reference at element " +:+ to_dec (Z.of_nat i)));
    [fits_sum|exact Hr].
Qed.

Lemma run_cuda_validation_detail ordinal :
  logs (run_cuda_validation rt ordinal) (fun r _ => str_fits 4096 (v_detail r)).
Proof.
  unfold run_cuda_validation, exercise, release_both, verify_and_release.
  assert (detail_fits validation_init) as H0 by (vm_compute; congruence).
  apply (logs_weaken _ (fun r _ => detail_fits r)); [|done].
  repeat logs_step;
    repeat first [ apply fail_step_fits; [vm_compute; congruence|] | apply conclude_fits ];
    try exact H0.
  all: match goal with |- context [failed ?e] => destruct (failed e) end;
    try (apply fail_step_fits; [vm_compute; congruence|]).
  all: apply record_fits; exact H0.
Qed.

(** A probe that succeeds can be carried by the wire format. *)
Lemma cuda_probe_logs d :
  enumerated_ok d ->
  logs (cuda_probe rt d) (fun r _ => forall p, r = Ok p -> probe_wf p).
Proof.
  intros (prop & dv & rv & Hm & Hid). unfold cuda_probe, query_versions.
  apply logs_call. intros e. destruct (failed e); [by apply logs_ret|].
  apply logs_call. intros e'. destruct (failed e'); [by apply logs_ret|].
  apply (logs_bind _ _ (fun _ _ => True)); [repeat logs_step; done|]. intros versions l _.
  apply (logs_call_where (fun r => is_u64 r.2.1 /\ is_u64 r.2.2)); [apply ty_mem_info|].
  intros [e2 [free_b total_b]] [Hf Ht]. destruct (failed _); [by apply logs_ret|].
  eapply logs_bind; [apply run_cuda_validation_detail|]. intros v l' Hv.
  apply logs_ret. intros p [= <-].
  split; cbn [p_identity p_total_memory p_used_memory p_free_memory p_temperature_c p_power_w
    p_capabilities p_validation_detail fst snd] in *; try done.
  - rewrite Hid. by apply cuda_identity_wf.
  - by apply wrap_range.
  - apply cuda_capabilities_wf; rewrite Hid; cbn [cuda_identity id_architecture id_driver_version
      dv_text].
    + eapply fits_le; [apply arch_for_fits|done].
    + eapply fits_le; [apply to_dec_signed_fits|done].
Qed.

End Laws.

(** The CUDA backend keeps the interface the end-to-end theorems ask for. *)
#[export] Instance cuda_laws {S} (b : CudaDeviceBackend S) `{!RuntimeTyped (cu_runtime b)} :
  BackendLaws b.
Proof.
  pose proof (cuda_enumerate_logs (cu_runtime b) (cu_at_enumerate b)) as He.
  split; cbn [backend_enumerate backend_probe cuda_backend_instance].
  - intros ds Hds. by apply He in Hds as [? _].
  - intros ds d Hds Hd. apply He in Hds as [_ Hok]. rewrite Forall_forall in Hok.
    destruct (Hok d Hd) as (prop & dv & rv & _ & ->). apply cuda_key_fits.
  - intros ds d p Hds Hd. apply He in Hds as [_ Hok]. rewrite Forall_forall in Hok.
    by apply (cuda_probe_logs (cu_runtime b) d (Hok d Hd)).
Qed.

(** What a probe that claims core validation has logged. *)
Lemma probe_proof_logs {S} (rt : CudaRuntime S) d :
  logs (cuda_probe rt d) (fun r log => forall p, r = Ok p -> p_core_validation_ok p = true ->
    (exists before proof, log = before ++ proof /\ proves_device (ed_ordinal d) proof) /\
    p_memory_alloc_ok p = true /\ p_h2d_ok p = true /\ p_kernel_exec_ok p = true /\
    p_sync_ok p = true /\ p_d2h_ok p = true /\ p_verify_ok p = true).
Proof.
  unfold cuda_probe, query_versions.
  apply logs_call. intros e. destruct (failed e); [by apply logs_ret|].
  apply logs_call. intros e'. destruct (failed e'); [by apply logs_ret|].
  apply (logs_bind _ _ (fun _ _ => True)); [repeat logs_step; done|]. intros versions l _.
  apply logs_call. intros info. destruct (failed _); [by apply logs_ret|].
  eapply (logs_bind _ _ (fun v log => v_ok v = true ->
    proves_device (ed_ordinal d) log /\ steps_proven v = true)).
  - intros s Hv. split; [by apply run_cuda_validation_proves|].
    by apply (run_cuda_validation_steps rt (ed_ordinal d) s).
  - intros v proof Hv. apply logs_ret. intros p [= <-] Hok.
    cbn [p_core_validation_ok p_memory_alloc_ok p_h2d_ok p_kernel_exec_ok p_sync_ok p_d2h_ok
      p_verify_ok] in *.
    destruct (Hv Hok) as [Hproof Hsteps]. unfold steps_proven in Hsteps. zbool.
    split; [|by split_and!].
    exists ([SetDevice (ed_ordinal d) e; FreeNull e'] ++ l ++
            [MemGetInfo info.1 info.2.1 info.2.2]), proof.
    split; [|done]. cbn. by rewrite app_nil_r, <- app_assoc.
Qed.

(* ------------------------------------------------------------------ *)
(** ** Lemmas: a working device *)

Section WorkingDevice.
Context {S : Type} (rt : CudaRuntime S) (dv : DeviceView S) (d : EnumeratedDevice).
Context {Hcf : Conforming rt dv (ed_ordinal d)}.

Lemma query_versions_given s :
  dv_ready dv s -> given call_ok (query_versions rt) s (fun r l s' => r.1 = true /\ dv_ready dv s').
Proof.
  intros Hs. unfold query_versions.
  apply given_call; intros [e1 v1] s1 E1 Hok. cbn [call_ok fst] in Hok. apply Z.eqb_eq in Hok as ->.
  cbn [failed fst]. destruct (cf_driver_version v1 s s1 Hs E1) as [Hs1 _].
  apply given_call; intros [e2 v2] s2 E2 Hok. cbn [call_ok fst] in Hok. apply Z.eqb_eq in Hok as ->.
  destruct (cf_runtime_version v2 s1 s2 Hs1 E2) as [Hs2 _]. apply given_ret. by split.
Qed.

(** A probe all of whose calls succeed and report the memory restored. *)
Lemma cuda_probe_given s :
  dv_ready dv s ->
  given call_ok (cuda_probe rt d) s (fun r l _ => memory_restored l ->
    exists p, r = Ok p /\ p_identity p = ed_identity d /\ p_core_validation_ok p = true /\
      p_enumerated p = true /\ p_present p = true /\ p_driver_runtime_ok p = true /\
      p_cuda_init_ok p = true).
Proof.
  intros Hs. unfold cuda_probe.
  apply given_call; intros e1 s1 E1 Hok. cbn [call_ok] in Hok. apply Z.eqb_eq in Hok as ->. cbn [failed].
  destruct (cf_set_device s s1 Hs E1) as [Hs1 _].
  apply given_call; intros e2 s2 E2 Hok. cbn [call_ok] in Hok. apply Z.eqb_eq in Hok as ->. cbn [failed].
  destruct (cf_free_null s1 s2 Hs1 E2) as [Hs2 _].
  eapply given_bind; [by apply query_versions_given|]. intros versions l1 s3 [Hv Hs3].
  apply given_call; intros [e4 info] s4 E4 Hok. cbn [call_ok fst] in Hok. apply Z.eqb_eq in Hok as ->.
  cbn [failed fst]. destruct (cf_mem_info info s3 s4 Hs3 E4) as [Hs4 _].
  eapply given_bind; [by apply (run_cuda_validation_given rt dv (ed_ordinal d))|].
  intros v l2 s5 (b & a & Hr & Hok). apply given_ret. intros Hm. eexists. split; [reflexivity|].
  cbn [p_identity p_core_validation_ok p_enumerated p_present p_driver_runtime_ok p_cuda_init_ok].
  split_and!; try done. rewrite Hok. apply Z.leb_le.
  unfold memory_restored, free_reports in *. rewrite app_nil_r in Hm.
  cbn [omap list_omap] in Hm. rewrite omap_app in Hm. cbn [omap list_omap] in Hm.
  rewrite Hr, rev_app_distr in Hm. exact Hm.
Qed.

End WorkingDevice.

(* ------------------------------------------------------------------ *)
(** ** Properties *)

(** A probe reports what was proven: if [CudaDeviceBackend::probe] returns a probe
    that claims core validation, its calls end with a complete proof of that very
    device, and the flags the health evaluator reads are the steps of that proof. *)
Theorem probe_validation_proven {S} (rt : CudaRuntime S) d s p :
  eff_result (cuda_probe rt d) s = Ok p -> p_core_validation_ok p = true ->
  (exists before proof, eff_log (cuda_probe rt d) s = before ++ proof /\
     proves_device (ed_ordinal d) proof) /\
  p_memory_alloc_ok p = true /\ p_h2d_ok p = true /\ p_kernel_exec_ok p = true /\
  p_sync_ok p = true /\ p_d2h_ok p = true /\ p_verify_ok p = true.
Proof. exact (probe_proof_logs rt d s p). Qed.

(** C21. Evidence from real hardware reaches placement. Take a host whose successful CUDA
    calls do what CUDA documents for them, and a device its backend enumerates; if
    every call of the probe but the frees reports success and the free memory reported
    last is within 16 MiB of the report before it, then the device passes the
    validation, and the coordinator that ingests the agent's snapshot holds it
    present, fresh and schedulable. This is for an agent in step with the coordinator
    whose generation counters are not exhausted, a snapshot that fits a frame and names
    each device once, clock readings other than 0 and at most a day before the
    coordinator's, and a device that was neither quarantined nor draining nor dated
    later. *)
Theorem cuda_device_becomes_schedulable {S} (b : CudaDeviceBackend S)
    `{!RuntimeTyped (cu_runtime b)} dv clock ag ag' m devices d now io c :
  Conforming (cu_runtime b) dv (ed_ordinal d) -> dv_ready dv (cu_at_probe b d) ->
  let log := eff_log (cuda_probe (cu_runtime b) d) (cu_at_probe b d) in
  forallb call_ok log = true -> memory_restored log ->
  agent_wf ag -> has_room ag -> in_step ag (co_store c) -> (forall n, is_i64 (clock n)) ->
  (forall n, clock n <> kInvalidTimestamp /\ 0 <= now - clock n <= 24 * 60 * 60 * 1000) ->
  backend_enumerate b = Ok devices -> publish_snapshot b clock ag = (ag', [m]) ->
  payload_fits (m_payload m) -> NoDup (map obs_key (observe_devices b clock ag devices)) ->
  d ∈ devices ->
  (forall n, not_held (default device_default
     (fs_devices (co_store c) !! canonical_device_identity (ed_identity d))) (clock n)) ->
  let r := dispatch now io m c in
  (exists p, backend_probe b d = Ok p /\ p_core_validation_ok p = true) /\
  m_ok r.2 = true /\ exists s,
    fs_devices (co_store r.1) !! canonical_device_identity (ed_identity d) = Some s /\
    d_present s = true /\ d_observation_fresh s = true /\ schedulable (d_eligibility s) = true.
Proof.
  intros Hcf Hready log Hok Hmem Hag Hroom Hin Hclock Hrecent Hen Hpub Hfit Hnd Hd Hheld.
  destruct (cuda_probe_given (cu_runtime b) dv d (cu_at_probe b d) Hready Hok Hmem)
    as (p & Hp & Hid & Hv & H1 & H2 & H3 & H4).
  pose proof (probe_proof_logs (cu_runtime b) d (cu_at_probe b d) p Hp Hv) as (_ & ? & ? & ? & ? & ? & ?).
  split; [by exists p|]. rewrite <- Hid in *.
  apply (published_device_schedulable b clock ag ag' m devices d p now io c); try assumption.
  repeat split; assumption.
Qed.
