(* ===== verification/CudaWitness.v ===== *)
(** * A simulated CUDA runtime

    A runtime over a heap of blocks that behaves as documented, and one on which
    kernels fail: the instances of the theorems on CUDA, and the behaviours worth
    knowing. *)

From stdpp Require Import gmultiset.
From Stdlib Require Import SpecFloat.
From S2P Require Import Prelude Core Codec Effects Cuda Identity Device Health Eligibility.
From S2P Require Import Observation Change Pipeline Registration WireFormats ObservationCodec.
From S2P Require Import Message FleetState FleetSteps FleetInv FleetSafety FleetIngest.
From S2P Require Import FleetWitness Store Coordinator CoordinatorSafety Agent EndToEnd.
From S2P Require Import EndToEndWitness CudaBackend.

(* ------------------------------------------------------------------ *)
(** ** The runtime *)

(** Blocks and the next address to hand out. *)
Record Sim := MkSim {
  sim_heap : gmap Z (Z * list float32);
  sim_next : Z
}.

Definition cudaErrorMemoryAllocation : cudaError := 2.
Definition cudaErrorInvalidValue : cudaError := 1.

Definition sim_total : Z := 8 * 1024 * 1024 * 1024.

(** It reports the same free memory at any time, as one that keeps a pool may. *)
Definition sim_free_memory : Z := 6 * 1024 * 1024 * 1024.

Definition sim_store (p : Z) (b : Z * list float32) (s : Sim) : Sim :=
  MkSim (<[p := b]> (sim_heap s)) (sim_next s).

Definition sim_malloc (n : Z) (s : Sim) : (cudaError * Z) * Sim :=
  if (0 <? n) && (n mod 4 =? 0) && (n <=? 1024 * 1024 * 1024) then
    ((cudaSuccess, sim_next s),
     MkSim (<[sim_next s := (n, replicate (Z.to_nat (n / 4)) (S754_zero false))]> (sim_heap s))
       (sim_next s + 1))
  else ((cudaErrorMemoryAllocation, 0), s).

Definition sim_free (p : Z) (s : Sim) : cudaError * Sim :=
  if p =? 0 then (cudaSuccess, s) else
  match sim_heap s !! p with
  | Some (n, _) => (cudaSuccess, MkSim (delete p (sim_heap s)) (sim_next s))
  | None => (cudaErrorInvalidValue, s)
  end.

Definition sim_copy_in (p : Z) (data : list float32) (n : Z) (s : Sim) : cudaError * Sim :=
  match sim_heap s !! p with
  | Some (m, _) => if m =? n then (cudaSuccess, sim_store p (n, data) s)
                   else (cudaErrorInvalidValue, s)
  | None => (cudaErrorInvalidValue, s)
  end.

Definition sim_copy_out (host : list float32) (p n : Z) (s : Sim)
  : (cudaError * list float32) * Sim :=
  match sim_heap s !! p with
  | Some (m, data) => if m =? n then ((cudaSuccess, data), s) else ((cudaErrorInvalidValue, host), s)
  | None => ((cudaErrorInvalidValue, host), s)
  end.

(** The threads run block by block. *)
Definition sim_launch (k : Kernel) (blocks threads p_in p_out : Z) (s : Sim) : unit * Sim :=
  match sim_heap s !! p_in, sim_heap s !! p_out with
  | Some (_, input), Some (m, out) =>
      (tt, sim_store p_out (m, run_threads k (grid blocks threads) input out) s)
  | _, _ => (tt, s)
  end.

Definition sim_props : cudaDeviceProp := MkProp 0 1 0 12 0 sim_total.

Definition sim_runtime (malloc : Z -> Sim -> (cudaError * Z) * Sim) : CudaRuntime Sim := {|
  cudaGetErrorString := fun e => "error " +:+ to_dec e;
  cudaGetDeviceCount := fun s => ((cudaSuccess, 1), s);
  cudaGetDeviceProperties := fun _ s => ((cudaSuccess, sim_props), s);
  cudaDriverGetVersion := fun s => ((cudaSuccess, 13040), s);
  cudaRuntimeGetVersion := fun s => ((cudaSuccess, 13000), s);
  cudaSetDevice := fun _ s => (cudaSuccess, s);
  cudaMemGetInfo := fun s => ((cudaSuccess, (sim_free_memory, sim_total)), s);
  cudaMalloc := malloc;
  cudaFree := sim_free;
  cudaMemcpyHostToDevice := sim_copy_in;
  cudaMemcpyDeviceToHost := sim_copy_out;
  cudaLaunchKernel := sim_launch;
  cudaGetLastError := fun s => (cudaSuccess, s);
  cudaDeviceSynchronize := fun s => (cudaSuccess, s)
|}.

Definition sim : CudaRuntime Sim := sim_runtime sim_malloc.

(** A device whose memory is exhausted. *)
Definition sim_full : CudaRuntime Sim :=
  sim_runtime (fun _ s => ((cudaErrorMemoryAllocation, 0), s)).

(** Addresses from [sim_next] on are free, and so is the null address. *)
Definition sim_ready (s : Sim) : Prop :=
  0 < sim_next s /\ sim_heap s !! 0 = None /\ forall p, sim_next s <= p -> sim_heap s !! p = None.

Definition sim_view : DeviceView Sim := {| dv_ready := sim_ready; dv_heap := sim_heap |}.

Definition sim_start : Sim := MkSim ∅ 1.

(* ------------------------------------------------------------------ *)
(** ** The runtime behaves as documented *)

Lemma sim_store_ready p n old data s :
  sim_ready s -> sim_heap s !! p = Some (n, old) ->
  view_stored sim_view p n data s (sim_store p (n, data) s).
Proof.
  intros (Hn & H0 & Hf) Hp. split; [|done]. split_and!; cbn [sim_store sim_heap sim_next]; [done| |].
  - rewrite lookup_insert_ne; [done|]. intros ->. congruence.
  - intros q Hq. rewrite lookup_insert_ne; [by apply Hf|]. intros <-. by rewrite Hf in Hp.
Qed.

Lemma sim_same s : sim_ready s -> view_same sim_view s s.
Proof. by split. Qed.

Lemma sim_malloc_spec n s :
  0 < n <= 1024 * 1024 * 1024 -> n mod 4 = 0 ->
  sim_malloc n s = ((cudaSuccess, sim_next s),
    MkSim (<[sim_next s := (n, replicate (Z.to_nat (n / 4)) (S754_zero false))]> (sim_heap s))
      (sim_next s + 1)).
Proof.
  intros [H1 H2] H3. unfold sim_malloc.
  by rewrite (proj2 (Z.ltb_lt _ _) H1), (proj2 (Z.eqb_eq _ _) H3), (proj2 (Z.leb_le _ _) H2).
Qed.

#[export] Instance sim_conforming : Conforming sim sim_view 0.
Proof.
  split; cbn [sim sim_runtime cudaSetDevice cudaMemGetInfo cudaMalloc cudaFree cudaDriverGetVersion
    cudaRuntimeGetVersion cudaMemcpyHostToDevice cudaLaunchKernel cudaGetLastError
    cudaDeviceSynchronize cudaMemcpyDeviceToHost sim_view dv_ready dv_heap].
  - intros s s' Hs [= <-]. by apply sim_same.
  - intros info s s' Hs [= _ <-]. by apply sim_same.
  - intros n p s s' (Hn & H0 & Hf) Hpos Hmod. unfold sim_malloc. case_branch; [|done].
    intros [= <- <-]. cbn [sim_heap sim_next].
    split_and!; [split_and!|by apply Hf|eexists; split; [|reflexivity]]; cbn [sim_heap sim_next]; [lia| | |].
    + by rewrite lookup_insert_ne by lia.
    + intros q Hq. rewrite lookup_insert_ne by lia. apply Hf. lia.
    + rewrite length_replicate. pose proof (Z.div_mod n 4). lia.
  - intros s s' Hs [= <-]. by apply sim_same.
  - intros v s s' Hs [= _ <-]. by apply sim_same.
  - intros v s s' Hs [= _ <-]. by apply sim_same.
  - intros p n old data s s' Hs Hp _. unfold sim_copy_in. rewrite Hp, Z.eqb_refl. intros [= <-].
    by eapply sim_store_ready.
  - intros k blocks threads p_in p_out n m input out s u s1 s2 s' Hs Hi Ho _ _ _. unfold sim_launch.
    rewrite Hi, Ho. intros [= _ <-] [= <-] [= <-]. eexists. split; [reflexivity|]. by eapply sim_store_ready.
  - intros host p n data out s s' Hs Hp _. unfold sim_copy_out. rewrite Hp, Z.eqb_refl.
    intros [= <- <-]. split; [done|by apply sim_same].
Qed.

#[export] Instance sim_typed malloc : RuntimeTyped (sim_runtime malloc).
Proof.
  split.
  - intros s _. wf_const.
  - intros ord s. wf_const.
  - intros s. split; wf_const.
  - intros e. unfold str_fits, sim_runtime. cbn [cudaGetErrorString]. rewrite str_len_app.
    pose proof (to_dec_fits e) as H. unfold str_fits in H.
    change (str_len "error ") with 6. lia.
Qed.

(* ------------------------------------------------------------------ *)
(** ** Witnesses *)

Definition sim_device : EnumeratedDevice := MkEnumerated 0 (cuda_identity sim_props 13040 13000) true.

Lemma sim_start_ready : sim_ready sim_start.
Proof. by split_and!. Qed.

(** The run of the validation on the simulated device, call by call. *)
Definition sim_result : CudaValidationResult :=
  MkValidation true kElements sim_free_memory (sim_total - sim_free_memory) sim_free_memory
    (sim_total - sim_free_memory) 0 true true true true true true true
    "CUDA validation OK: alloc, H2D, kernel, sync, D2H, CPU verify, free; mem delta 0 bytes (bounded).".

#[local] Opaque kElements host_input first_mismatch replicate.

(** The calls on a heap that holds the blocks they name. *)
Lemma sim_copy_in_spec p old data n s :
  sim_heap s !! p = Some (n, old) -> sim_copy_in p data n s = (cudaSuccess, sim_store p (n, data) s).
Proof. intros Hp. unfold sim_copy_in. by rewrite Hp, Z.eqb_refl. Qed.

Lemma sim_copy_out_spec host p data n s :
  sim_heap s !! p = Some (n, data) -> sim_copy_out host p n s = ((cudaSuccess, data), s).
Proof. intros Hp. unfold sim_copy_out. by rewrite Hp, Z.eqb_refl. Qed.

Lemma sim_launch_spec k blocks threads p_in p_out n m input out s :
  sim_heap s !! p_in = Some (n, input) -> sim_heap s !! p_out = Some (m, out) ->
  sim_launch k blocks threads p_in p_out s =
    (tt, sim_store p_out (m, run_threads k (grid blocks threads) input out) s).
Proof. intros Hi Ho. unfold sim_launch. by rewrite Hi, Ho. Qed.

(** Releasing the blocks succeeds, and so do the queries after it. *)
Lemma sim_release n n' a b free_b r (s : Sim) :
  sim_heap s !! 1 = Some (n, a) -> sim_heap s !! 2 = Some (n', b) ->
  runs (verify_and_release sim free_b 1 2 (map scaled host_input) r) s (fun r' l _ =>
    r' = conclude free_b sim_free_memory sim_total (set_verify_ok true r) /\
    forallb call_ok l = true /\ free_reports l = [sim_free_memory]).
Proof.
  intros H1 H2. unfold verify_and_release. rewrite reference_matches.
  eapply runs_call; [exact (surjective_pairing (sim_free 1 s))|].
  eapply (runs_call _ _ _ _ cudaSuccess).
  { change (cudaFree sim) with sim_free. unfold sim_free at 1. change (2 =? 0) with false.
    assert (sim_heap (sim_free 1 s).2 !! 2 = Some (n', b)) as ->; [|reflexivity].
    unfold sim_free. change (1 =? 0) with false. rewrite H1. cbn [snd sim_heap].
    rewrite lookup_delete_ne by discriminate. exact H2. }
  eapply runs_call; [reflexivity|]. apply runs_ret. split_and!; reflexivity.
Qed.

Lemma sim_exercise n r a b (s : Sim) :
  n = kElements * 4 -> length b = length host_input ->
  sim_heap s !! 1 = Some (n, a) -> sim_heap s !! 2 = Some (n, b) ->
  runs (exercise sim n sim_free_memory 1 2 r) s (fun r' l _ =>
    r' = conclude sim_free_memory sim_free_memory sim_total (set_verify_ok true (set_d2h_ok true
           (set_sync_ok true (set_kernel_ok true (set_h2d_ok true r))))) /\
    forallb call_ok l = true /\ free_reports l = [sim_free_memory]).
Proof.
  intros Hn Hb H1 H2. unfold exercise. destruct launch_bounds as (_ & Hk & Hg).
  eapply runs_call; [by apply sim_copy_in_spec with (old := a)|].
  change (failed cudaSuccess) with false. cbn iota.
  set (s1 := sim_store 1 (n, host_input) s).
  assert (sim_heap s1 !! 1 = Some (n, host_input)) as H1' by apply lookup_insert_eq.
  assert (sim_heap s1 !! 2 = Some (n, b)) as H2'
    by (subst s1; cbn [sim_store sim_heap]; rewrite lookup_insert_ne by discriminate; exact H2).
  eapply runs_call; [by eapply sim_launch_spec|].
  rewrite (run_threads_grid ((kElements + kBlock - 1) / kBlock) kBlock kElements);
    [|reflexivity|lia|exact Hg|exact host_input_length|exact Hb].
  set (s2 := sim_store 2 (n, map scaled host_input) s1).
  assert (sim_heap s2 !! 1 = Some (n, host_input)) as H1''
    by (subst s2; cbn [sim_store sim_heap]; rewrite lookup_insert_ne by discriminate; exact H1').
  assert (sim_heap s2 !! 2 = Some (n, map scaled host_input)) as H2'' by apply lookup_insert_eq.
  eapply runs_call; [reflexivity|]. change (failed cudaSuccess) with false. cbn iota.
  eapply runs_call; [reflexivity|]. change (failed cudaSuccess) with false. cbn iota.
  eapply runs_call; [by apply sim_copy_out_spec|]. cbn [fst snd].
  change (failed cudaSuccess) with false. cbn iota.
  exact (sim_release n n _ _ _ _ s2 H1'' H2'').
Qed.

Lemma sim_validation :
  runs (run_cuda_validation sim 0) sim_start (fun r l _ =>
    r = sim_result /\ forallb call_ok l = true /\ free_reports l = [sim_free_memory; sim_free_memory]).
Proof.
  unfold run_cuda_validation. eapply runs_call; [reflexivity|]. eapply runs_call; [reflexivity|].
  cbn [failed negb Z.eqb cudaSuccess fst snd].
  eapply runs_call; [apply (sim_malloc_spec (kElements * 4)); by vm_compute|].
  cbn [failed negb Z.eqb cudaSuccess fst snd].
  eapply runs_call; [apply (sim_malloc_spec (kElements * 4)); by vm_compute|].
  cbn [failed negb Z.eqb cudaSuccess fst snd sim_start sim_next sim_heap].
  set (b := replicate (Z.to_nat (kElements * 4 / 4)) (S754_zero false : float32)).
  assert (length b = length host_input) as Hb.
  { subst b. rewrite length_replicate. pose proof host_input_length as Hl.
    rewrite Z.div_mul by discriminate. rewrite <- Hl. apply Nat2Z.id. }
  destruct (sim_exercise (kElements * 4) (set_alloc_ok true (set_baseline sim_free_memory sim_total
    validation_init)) b b (MkSim (<[2 := (kElements * 4, b)]> (<[1 := (kElements * 4, b)]> ∅)) 3)
    eq_refl Hb) as (Hr & Hl & Hf).
  { cbn [sim_heap]. rewrite lookup_insert_ne by discriminate. apply lookup_insert_eq. }
  { apply lookup_insert_eq. }
  split_and!; [|exact Hl|].
  - etransitivity; [exact Hr|]. #[local] Transparent kElements. vm_compute. reflexivity.
  - exact (f_equal (cons sim_free_memory) Hf).
Qed.

Lemma kernel_any_order_witness :
  run_threads (add_scaled_kernel 2 3) [(1, 1); (0, 1); (1, 0); (0, 0)]
    (map float_of_Z [5; 6; 7]) (map float_of_Z [0; 0; 0]) = map float_of_Z [11; 13; 15].
Proof.
  rewrite (kernel_any_order 2 2 3); [by vm_compute| |done|done|done|done].
  change (grid 2 2) with [(0, 0); (0, 1); (1, 0); (1, 1)]. solve_Permutation.
Defined.

Lemma launch_in_bounds_witness :
  0 <= thread_index kBlock (4095, 255) < kElements.
Proof.
  apply (launch_in_bounds (4095, 255) (4095, 255)); apply elem_of_grid;
    (split; [split; [done|by vm_compute]|done]).
Defined.

Lemma failure_explained_witness :
  v_detail (eff_result (run_cuda_validation sim_full 0) sim_start) <> "".
Proof.
  destruct (failure_explained sim_full 0 sim_start eq_refl) as [H|[H _]]; [exact H|].
  exfalso. discriminate H.
Defined.

Lemma working_device_validates_witness :
  v_ok (eff_result (run_cuda_validation sim 0) sim_start) = true.
Proof.
  apply (working_device_validates sim sim_view 0 sim_start sim_conforming sim_start_ready).
  destruct sim_validation as (_ & Hl & Hf). split; [exact Hl|].
  unfold memory_restored. rewrite Hf. vm_compute. congruence.
Defined.

(** The probe of the simulated device, and its publication. *)
Definition sim_probe : DeviceProbe :=
  MkProbe (ed_identity sim_device) true true true true sim_total (sim_total - sim_free_memory)
    sim_free_memory None None true true true true true true true (v_detail sim_result)
    (cuda_capabilities (ed_identity sim_device) sim_total sim_free_memory 13000).

Lemma sim_probes :
  runs (cuda_probe sim sim_device) sim_start (fun r l _ =>
    r = Ok sim_probe /\ forallb call_ok l = true /\ memory_restored l).
Proof.
  unfold cuda_probe, query_versions. do 2 (eapply runs_call; [reflexivity|]).
  cbn [failed negb Z.eqb cudaSuccess fst snd].
  eapply (runs_bind _ _ _ (fun r l s => r = (true, 13000) /\ s = sim_start /\
            l = [DriverGetVersion cudaSuccess 13040; RuntimeGetVersion cudaSuccess 13000]));
    [split_and!; reflexivity|]. intros versions l s (-> & -> & ->).
  eapply runs_call; [reflexivity|]. cbn [failed negb Z.eqb cudaSuccess fst snd].
  eapply runs_bind; [exact sim_validation|]. intros v l s (-> & Hl & Hf). apply runs_ret.
  rewrite app_nil_r. split_and!; [reflexivity|exact Hl|].
  unfold memory_restored, free_reports in *. cbn [app omap list_omap]. rewrite Hf. vm_compute. congruence.
Qed.

Lemma probe_validation_proven_witness :
  exists before proof, eff_log (cuda_probe sim sim_device) sim_start = before ++ proof /\
    proves_device 0 proof.
Proof. exact (proj1 (probe_validation_proven sim sim_device sim_start _ (proj1 sim_probes) eq_refl)). Defined.

(** A host with the simulated device, and its publication by the registered agent:
    the probe is known, so the message can be evaluated. *)
Definition sim_host : CudaDeviceBackend Sim :=
  MkCudaBackend sim sim_start sim_start (fun _ => sim_start).

Definition sim_observation : DeviceObservation :=
  normalize_observation sim_probe
    (observation_metadata (sample_clock 0) sim_device registered_agent).

Example sim_enumerates : backend_enumerate sim_host = Ok [sim_device].
Proof. reflexivity. Qed.

Lemma sim_observes : observe_devices sim_host sample_clock registered_agent [sim_device] = [sim_observation].
Proof.
  cbn [observe_devices].
  change (backend_probe sim_host sim_device) with (eff_result (cuda_probe sim sim_device) sim_start).
  by rewrite (proj1 sim_probes : eff_result (cuda_probe sim sim_device) sim_start = _).
Qed.

Definition sim_published : Message := snapshot_message [sim_observation] registered_agent.

Lemma sim_publishes :
  publish_snapshot sim_host sample_clock registered_agent =
    (next_snapshot registered_agent, [sim_published]).
Proof. unfold publish_snapshot. by rewrite sim_enumerates, sim_observes. Qed.

Definition sim_key : string := canonical_device_identity (ed_identity sim_device).

Lemma cuda_device_becomes_schedulable_witness :
  (exists p, backend_probe sim_host sim_device = Ok p /\ p_core_validation_ok p = true) /\
  m_ok (dispatch 2100 io_ok sim_published registered_coordinator).2 = true /\ exists s,
    fs_devices (co_store (dispatch 2100 io_ok sim_published registered_coordinator).1)
      !! sim_key = Some s /\
    d_present s = true /\ d_observation_fresh s = true /\ schedulable (d_eligibility s) = true.
Proof.
  apply (cuda_device_becomes_schedulable sim_host sim_view sample_clock registered_agent
    (next_snapshot registered_agent) sim_published [sim_device] sim_device).
  - apply sim_conforming.
  - exact sim_start_ready.
  - exact (proj1 (proj2 sim_probes)).
  - exact (proj2 (proj2 sim_probes)).
  - apply registered_agent_wf.
  - split; wf_const.
  - apply registered_in_step.
  - intros n. pose proof (sample_clock_range n). unfold is_s. lia.
  - intros n. pose proof (sample_clock_range n). unfold kInvalidTimestamp. lia.
  - apply sim_enumerates.
  - apply sim_publishes.
  - vm_compute. congruence.
  - rewrite sim_observes. apply NoDup_singleton.
  - apply list_elem_of_here.
  - intros n. pose proof (sample_clock_range n). split_and!; [reflexivity..|].
    replace (default _ _) with device_default by reflexivity. cbn. unfold kInvalidTimestamp. lia.
Defined.

(* ------------------------------------------------------------------ *)
(** ** What a reader of the documentation would not expect *)

(** The capabilities of a probe do not depend on the outcome of the validation:
    kernel execution and the memory round trip are advertised as validated by every
    probe that returns. *)
Lemma validated_capabilities_unconditional {S} (rt : CudaRuntime S) d :
  logs (cuda_probe rt d) (fun r _ => forall p, r = Ok p ->
    exists total free rv, p_capabilities p = cuda_capabilities (ed_identity d) total free rv).
Proof.
  unfold cuda_probe, query_versions.
  apply logs_call. intros e. destruct (failed e); [by apply logs_ret|].
  apply logs_call. intros e'. destruct (failed e'); [by apply logs_ret|].
  apply (logs_bind _ _ (fun _ _ => True)); [repeat logs_step; done|]. intros versions l _.
  apply logs_call. intros info. destruct (failed _); [by apply logs_ret|].
  apply (logs_bind _ _ (fun _ _ => True)); [done|]. intros v l' _.
  apply logs_ret. intros p [= <-]. cbn. by do 3 eexists.
Qed.

(** On a device that cannot even allocate, the probe says that a kernel executed. *)
Example fabricated_capability :
  match eff_result (cuda_probe sim_full sim_device) sim_start with
  | Ok p => p_memory_alloc_ok p = false /\ p_kernel_exec_ok p = false /\
            In (make_cap 13 "kernel_execution" CapabilityKind.VALIDATED "true"
                  "a real CUDA kernel executed and synchronized") (p_capabilities p)
  | Err _ => False
  end.
Proof. cbn -[kElements host_input]. split; [reflexivity|]. split; [reflexivity|]. tauto. Qed.

(** A device with room for one buffer only is reported as able to allocate. *)
Definition sim_one_buffer : CudaRuntime Sim :=
  sim_runtime (fun n s => if sim_next s =? 1 then sim_malloc n s
                          else ((cudaErrorMemoryAllocation, 0), s)).

Example alloc_ok_after_one_buffer :
  v_alloc_ok (eff_result (run_cuda_validation sim_one_buffer 0) sim_start) = true /\
  v_ok (eff_result (run_cuda_validation sim_one_buffer 0) sim_start) = false.
Proof. split; reflexivity. Qed.
