(* ===== verification/Lifecycle.v ===== *)
(** * The coordinator's threads ([src/coordinator/coordinator.cpp])

    [start], [accept_loop], the outer loops of [handle_connection] and
    [liveness_loop], and [stop], as the program points of five kinds of thread that
    interleave. What they do to the fleet state is a [server_step] of the server of
    [Coordinator]. Each call of the socket library, each sleep and each dispatch is
    taken to return. *)

From stdpp Require Import relations.
From S2P Require Import Prelude Core Codec Message Framing FleetState FleetSteps Store Coordinator.
From S2P Require Import Device Observation Eligibility FleetInv FleetSafety CoordinatorSafety.

(** A [std::thread] object: not joinable, at a point of its function, or ended and
    not yet joined. *)
Inductive Thread (P : Type) := Absent | At (p : P) | Ended.
Arguments Absent {P}.
Arguments At {P}.
Arguments Ended {P}.

(** [accept_loop]: the loop's test; in [accept]; about to take [conn_mu_] with an
    accepted stream; holding it; in the pause after a failure. *)
Inductive AcceptPc := AcTest | AcAccept | AcLock | AcSpawn | AcPause.

(** [liveness_loop]: the test; about to take its snapshot; marking. *)
Inductive LivePc := LvTest | LvScan | LvMark.

(** [handle_connection]: the test; in [recv_some_opt]; in the loop over the frames;
    after the loop. *)
Inductive ConnPc := CnTest | CnRecv | CnFrames | CnClose.

(** The owner's thread: outside [start] and [stop], or at a point of either. *)
Inductive OwnerPc :=
  | OwOutside
  | OwRun | OwSpawnAccept | OwSpawnLiveness
  | OwClose | OwJoinAccept | OwJoinLiveness | OwLock | OwJoinConns.

Record Process := MkProcess {
  pr_running : bool;
  pr_listening : bool;
  pr_owner : OwnerPc;
  pr_accept : Thread AcceptPc;
  pr_liveness : Thread LivePc;
  pr_conns : list (nat * Thread ConnPc);   (** [conn_threads_], by connection *)
  pr_next : nat;                           (** the next connection *)
  pr_locked : bool;                        (** [conn_mu_] *)
  pr_server : Server
}.

Definition set_running (b : bool) (p : Process) : Process :=
  MkProcess b (pr_listening p) (pr_owner p) (pr_accept p) (pr_liveness p) (pr_conns p) (pr_next p)
    (pr_locked p) (pr_server p).
Definition set_listening (b : bool) (p : Process) : Process :=
  MkProcess (pr_running p) b (pr_owner p) (pr_accept p) (pr_liveness p) (pr_conns p) (pr_next p)
    (pr_locked p) (pr_server p).
Definition set_owner (o : OwnerPc) (p : Process) : Process :=
  MkProcess (pr_running p) (pr_listening p) o (pr_accept p) (pr_liveness p) (pr_conns p) (pr_next p)
    (pr_locked p) (pr_server p).
Definition set_accept (t : Thread AcceptPc) (p : Process) : Process :=
  MkProcess (pr_running p) (pr_listening p) (pr_owner p) t (pr_liveness p) (pr_conns p) (pr_next p)
    (pr_locked p) (pr_server p).
Definition set_liveness (t : Thread LivePc) (p : Process) : Process :=
  MkProcess (pr_running p) (pr_listening p) (pr_owner p) (pr_accept p) t (pr_conns p) (pr_next p)
    (pr_locked p) (pr_server p).
Definition set_conns (l : list (nat * Thread ConnPc)) (p : Process) : Process :=
  MkProcess (pr_running p) (pr_listening p) (pr_owner p) (pr_accept p) (pr_liveness p) l (pr_next p)
    (pr_locked p) (pr_server p).
Definition set_locked (b : bool) (p : Process) : Process :=
  MkProcess (pr_running p) (pr_listening p) (pr_owner p) (pr_accept p) (pr_liveness p) (pr_conns p)
    (pr_next p) b (pr_server p).
Definition set_server (s : Server) (p : Process) : Process :=
  MkProcess (pr_running p) (pr_listening p) (pr_owner p) (pr_accept p) (pr_liveness p) (pr_conns p)
    (pr_next p) (pr_locked p) s.

(** [conn_threads_.emplace_back]. *)
Definition spawn_conn (p : Process) : Process :=
  MkProcess (pr_running p) (pr_listening p) (pr_owner p) (pr_accept p) (pr_liveness p)
    (pr_conns p ++ [(pr_next p, At CnTest)]) (S (pr_next p)) (pr_locked p)
    (MkServer (sv_co (pr_server p)) (<[pr_next p := conn_init]> (sv_conns (pr_server p)))
       (sv_overdue (pr_server p))).

(** The thread of connection [i] moves. *)
Definition move_conn (i : nat) (t : Thread ConnPc) (l : list (nat * Thread ConnPc))
  : list (nat * Thread ConnPc) :=
  map (fun it => if bool_decide (it.1 = i) then (i, t) else it) l.
Definition set_conn (i : nat) (t : Thread ConnPc) (p : Process) : Process :=
  set_conns (move_conn i t (pr_conns p)) p.

(** The server without connection [i]; with connection [i] as [cn]; with state [c]. *)
Definition drop_conn (i : nat) (s : Server) : Server :=
  MkServer (sv_co s) (delete i (sv_conns s)) (sv_overdue s).
Definition put_conn (i : nat) (cn : Conn) (s : Server) : Server :=
  MkServer (sv_co s) (<[i := cn]> (sv_conns s)) (sv_overdue s).
Definition put_co (c : Coordinator) (s : Server) : Server :=
  MkServer c (sv_conns s) (sv_overdue s).
Definition put_overdue (ws : list WorkerId) (s : Server) : Server :=
  MkServer (sv_co s) (sv_conns s) ws.

(** The constructor. *)
Definition process_init (opts : Options) (fs : FileSystem) : Process :=
  MkProcess false false OwOutside Absent Absent [] 0 false (server_init (coordinator_init opts fs)).

(* ------------------------------------------------------------------ *)
(** ** Steps *)

(** The accept thread. Whether [accept] returns a stream is the library's choice,
    also while the listener is being closed. *)
Inductive accept_step : Process -> Process -> Prop :=
  | AS_go p : pr_accept p = At AcTest -> pr_running p = true ->
      accept_step p (set_accept (At AcAccept) p)
  | AS_end p : pr_accept p = At AcTest -> pr_running p = false -> accept_step p (set_accept Ended p)
  | AS_failed p : pr_accept p = At AcAccept -> accept_step p (set_accept (At AcPause) p)
  | AS_again p : pr_accept p = At AcPause -> accept_step p (set_accept (At AcTest) p)
  | AS_accepted p : pr_accept p = At AcAccept -> accept_step p (set_accept (At AcLock) p)
  | AS_lock p : pr_accept p = At AcLock -> pr_locked p = false ->
      accept_step p (set_accept (At AcSpawn) (set_locked true p))
  | AS_spawn p : pr_accept p = At AcSpawn ->
      accept_step p (set_accept (At AcTest) (set_locked false (spawn_conn p))).

(** The liveness thread. *)
Inductive liveness_step : Process -> Process -> Prop :=
  | LS_go p : pr_liveness p = At LvTest -> pr_running p = true ->
      liveness_step p (set_liveness (At LvScan) p)
  | LS_end p : pr_liveness p = At LvTest -> pr_running p = false ->
      liveness_step p (set_liveness Ended p)
  | LS_scan p now : pr_liveness p = At LvScan ->
      let c := sv_co (pr_server p) in
      liveness_step p (set_liveness (At LvMark) (set_server
        (put_overdue (overdue_workers now (op_heartbeat_timeout_ms (co_opts c)) (snapshot (co_store c)))
           (pr_server p)) p))
  | LS_mark p w ws now : pr_liveness p = At LvMark -> sv_overdue (pr_server p) = w :: ws ->
      let c := sv_co (pr_server p) in
      liveness_step p (set_server
        (put_overdue ws (put_co (set_store (mark_worker_lost w now (co_store c)).1 c) (pr_server p))) p)
  | LS_done p : pr_liveness p = At LvMark -> sv_overdue (pr_server p) = [] ->
      liveness_step p (set_liveness (At LvTest) p).

(** The thread of connection [i]. Only while the coordinator runs does its end mark
    the worker it is bound to. *)
Inductive conn_step (i : nat) : Process -> Process -> Prop :=
  | CS_go p : (i, At CnTest) ∈ pr_conns p -> pr_running p = true ->
      conn_step i p (set_conn i (At CnRecv) p)
  | CS_stop p : (i, At CnTest) ∈ pr_conns p -> pr_running p = false ->
      conn_step i p (set_conn i (At CnClose) p)
  | CS_nothing p : (i, At CnRecv) ∈ pr_conns p -> conn_step i p (set_conn i (At CnTest) p)
  | CS_closed p : (i, At CnRecv) ∈ pr_conns p -> conn_step i p (set_conn i (At CnClose) p)
  | CS_data p cn data : (i, At CnRecv) ∈ pr_conns p -> sv_conns (pr_server p) !! i = Some cn ->
      conn_step i p (set_conn i (At CnFrames)
        (set_server (put_conn i (MkConn (cn_buf cn ++ data) (cn_worker cn)) (pr_server p)) p))
  | CS_frame p cn now io c' cn' reply :
      (i, At CnFrames) ∈ pr_conns p -> sv_conns (pr_server p) !! i = Some cn ->
      serve_one now io (sv_co (pr_server p)) cn = Some (c', cn', reply, Open) ->
      conn_step i p (set_server (put_conn i cn' (put_co c' (pr_server p))) p)
  | CS_more p cn now io :
      (i, At CnFrames) ∈ pr_conns p -> sv_conns (pr_server p) !! i = Some cn ->
      serve_one now io (sv_co (pr_server p)) cn = None -> conn_step i p (set_conn i (At CnTest) p)
  | CS_drop p cn now io c' cn' reply :
      (i, At CnFrames) ∈ pr_conns p -> sv_conns (pr_server p) !! i = Some cn ->
      serve_one now io (sv_co (pr_server p)) cn = Some (c', cn', reply, Dropped) ->
      conn_step i p (set_conn i Ended (set_server (drop_conn i (put_co c' (pr_server p))) p))
  | CS_mark p cn now : (i, At CnClose) ∈ pr_conns p -> sv_conns (pr_server p) !! i = Some cn ->
      pr_running p = true ->
      conn_step i p (set_conn i Ended (set_server
        (drop_conn i (put_co (close_connection true now (sv_co (pr_server p)) cn) (pr_server p))) p))
  | CS_leave p : (i, At CnClose) ∈ pr_conns p -> pr_running p = false ->
      conn_step i p (set_conn i Ended (set_server (drop_conn i (pr_server p)) p)).

(** The owner's thread in [start] ([opened], [load]: the outcomes of binding and of
    reading the state file) and in [stop]. It calls [start] on a coordinator that is
    not running. A thread that is not joinable is not joined. *)
Inductive owner_step : Process -> Process -> Prop :=
  | OS_unrecovered p io c e : pr_owner p = OwOutside -> pr_running p = false ->
      load_state io (sv_co (pr_server p)) = (c, Err e) ->
      owner_step p (set_listening true (set_server (put_co c (pr_server p)) p))
  | OS_start p io c : pr_owner p = OwOutside -> pr_running p = false ->
      load_state io (sv_co (pr_server p)) = (c, Ok tt) ->
      owner_step p (set_owner OwRun (set_listening true (set_server (put_co c (pr_server p)) p)))
  | OS_run p : pr_owner p = OwRun ->
      owner_step p (set_owner OwSpawnAccept (set_running true p))
  | OS_spawn_accept p : pr_owner p = OwSpawnAccept ->
      owner_step p (set_owner OwSpawnLiveness (set_accept (At AcTest) p))
  | OS_spawn_liveness p : pr_owner p = OwSpawnLiveness ->
      owner_step p (set_owner OwOutside (set_liveness (At LvTest) p))
  | OS_stop p : pr_owner p = OwOutside -> pr_running p = true ->
      owner_step p (set_owner OwClose (set_running false p))
  | OS_close p : pr_owner p = OwClose ->
      owner_step p (set_owner OwJoinAccept (set_listening false p))
  | OS_join_accept p : pr_owner p = OwJoinAccept -> (forall pc, pr_accept p <> At pc) ->
      owner_step p (set_owner OwJoinLiveness (set_accept Absent p))
  | OS_join_liveness p : pr_owner p = OwJoinLiveness -> (forall pc, pr_liveness p <> At pc) ->
      owner_step p (set_owner OwLock (set_liveness Absent p))
  | OS_lock p : pr_owner p = OwLock -> pr_locked p = false ->
      owner_step p (set_owner OwJoinConns (set_locked true p))
  | OS_join_conn p i t l : pr_owner p = OwJoinConns -> pr_conns p = (i, t) :: l ->
      (forall pc, t <> At pc) ->
      owner_step p (set_conns l p)
  | OS_return p : pr_owner p = OwJoinConns -> pr_conns p = [] ->
      owner_step p (set_owner OwOutside (set_locked false p)).

(** One step of one thread. *)
Inductive process_step (p p' : Process) : Prop :=
  | PS_accept : accept_step p p' -> process_step p p'
  | PS_liveness : liveness_step p p' -> process_step p p'
  | PS_conn i : conn_step i p p' -> process_step p p'
  | PS_owner : owner_step p p' -> process_step p p'.

(** What the owner is inside of. *)
Definition stopping (p : Process) : bool :=
  match pr_owner p with
  | OwClose | OwJoinAccept | OwJoinLiveness | OwLock | OwJoinConns => true
  | _ => false
  end.

(** No thread is left. *)
Definition quiet (p : Process) : Prop :=
  pr_accept p = Absent /\ pr_liveness p = Absent /\ pr_conns p = [].

(** [stop] has returned. *)
Definition stopped (p : Process) : Prop :=
  pr_owner p = OwOutside /\ pr_running p = false /\ pr_listening p = false /\
  pr_locked p = false /\ quiet p.

(* ------------------------------------------------------------------ *)
(** ** The invariant *)

Definition owner_inv (p : Process) : Prop :=
  match pr_owner p with
  | OwOutside => pr_running p = false -> quiet p
  | OwRun => pr_running p = false /\ quiet p
  | OwSpawnAccept => pr_running p = true /\ quiet p
  | OwSpawnLiveness => pr_running p = true /\ pr_liveness p = Absent
  | OwClose => pr_running p = false
  | OwJoinAccept => pr_running p = false /\ pr_listening p = false
  | OwJoinLiveness => pr_running p = false /\ pr_listening p = false /\ pr_accept p = Absent
  | OwLock | OwJoinConns =>
      pr_running p = false /\ pr_listening p = false /\ pr_accept p = Absent /\
      pr_liveness p = Absent
  end.

Record process_wf (p : Process) : Prop := {
  pw_fresh : forall i, (pr_next p <= i)%nat -> sv_conns (pr_server p) !! i = None;
  pw_known : forall i t, (i, t) ∈ pr_conns p -> (i < pr_next p)%nat;
  pw_unique : NoDup (pr_conns p).*1;
  pw_open : forall i pc, (i, At pc) ∈ pr_conns p -> is_Some (sv_conns (pr_server p) !! i);
  pw_overdue : pr_liveness p <> At LvMark -> sv_overdue (pr_server p) = [];
  pw_lock : pr_locked p = true <-> pr_accept p = At AcSpawn \/ pr_owner p = OwJoinConns;
  pw_owner : owner_inv p
}.

(* ------------------------------------------------------------------ *)
(** ** Lemmas *)

Lemma move_conn_elem i t l j u :
  (j, u) ∈ move_conn i t l -> (j = i /\ u = t) \/ (j <> i /\ (j, u) ∈ l).
Proof.
  intros (it & E & Hin)%list_elem_of_fmap. revert E. case_bool_decide as Hi.
  - intros [= -> ->]. by left.
  - intros <-. by right.
Qed.

Lemma move_conn_ids i t l : (move_conn i t l).*1 = l.*1.
Proof.
  induction l as [|[j u] l IH]; [done|]. cbn. f_equal; [|exact IH]. by case_bool_decide; cbn in *.
Qed.

Lemma move_conn_known i t l j u v :
  (i, v) ∈ l -> (j, u) ∈ move_conn i t l -> exists w, (j, w) ∈ l.
Proof. intros Hi [[-> ->]|[_ H]]%move_conn_elem; eauto. Qed.

Lemma init_wf opts fs : process_wf (process_init opts fs).
Proof.
  split; cbn; try done; [by intros i t ?%not_elem_of_nil|apply NoDup_nil_2
    |by intros i pc ?%not_elem_of_nil|].
  split; [done|]. by intros [|].
Qed.

(** The lock and the owner's assertion, by cases on where the owner is. *)
Ltac owner_cases :=
  unfold owner_inv, quiet in *; cbn in *;
  match goal with
  | E : pr_owner ?p = _ |- _ => rewrite ?E in *
  | |- context [pr_owner ?p] => destruct (pr_owner p)
  | _ => idtac
  end; cbn in *; intuition congruence.

Lemma accept_wf p p' : accept_step p p' -> process_wf p -> process_wf p'.
Proof.
  intros Hs [Hf Hk Hu Ho Hv Hl Hw]. destruct Hs; split; try assumption; try owner_cases; cbn.
  - intros i Hi. rewrite lookup_insert_ne by lia. apply Hf. lia.
  - intros i t [Hin|[-> _]%list_elem_of_singleton%pair_equal_spec]%elem_of_app; [|lia].
    apply Hk in Hin. lia.
  - rewrite fmap_app. apply NoDup_app. split_and!; [exact Hu| |apply NoDup_singleton].
    intros j [[j' t] [E Hj]]%list_elem_of_fmap Hs%list_elem_of_singleton. apply Hk in Hj. cbn in *. lia.
  - intros i pc [Hin|[-> _]%list_elem_of_singleton%pair_equal_spec]%elem_of_app.
    + apply lookup_insert_is_Some'. right. by eapply Ho.
    + rewrite lookup_insert_eq. eauto.
Qed.

Lemma liveness_wf p p' : liveness_step p p' -> process_wf p -> process_wf p'.
Proof.
  intros Hs [Hf Hk Hu Ho Hv Hl Hw]. destruct Hs; split; try assumption; try owner_cases.
Qed.

(** A connection's thread that is running rules out that all is quiet. *)
Lemma running_not_quiet p i t : (i, t) ∈ pr_conns p -> ~ quiet p.
Proof. intros Hin (_ & _ & E). rewrite E in Hin. by apply not_elem_of_nil in Hin. Qed.

Lemma busy_owner p i t l s :
  (i, t) ∈ pr_conns p -> owner_inv p -> owner_inv (set_conns l (set_server s p)).
Proof.
  intros Hin Hw. pose proof (running_not_quiet p i t Hin) as Hq. unfold owner_inv in *. cbn.
  destruct (pr_owner p); tauto.
Qed.

(** A connection's thread that moves, and what it does to its own connection. *)
Lemma moved_wf i t u s p :
  process_wf p -> (i, u) ∈ pr_conns p -> sv_overdue s = sv_overdue (pr_server p) ->
  (forall j, j <> i -> sv_conns s !! j = sv_conns (pr_server p) !! j) ->
  (forall pc, t = At pc -> is_Some (sv_conns s !! i)) -> process_wf (set_conn i t (set_server s p)).
Proof.
  intros [Hf Hk Hu Ho Hv Hl Hw] Hin Hov Hj Ht. split; cbn -[move_conn]; try assumption.
  - intros j Hn. rewrite Hj; [by apply Hf|]. intros ->. apply Hk in Hin. lia.
  - intros j v Hv'. destruct (move_conn_known i t _ j v u Hin Hv') as [w Hw']. by apply Hk in Hw'.
  - by rewrite move_conn_ids.
  - intros j pc [[-> E]|[Hne Hp]]%move_conn_elem; [by eapply Ht|].
    rewrite Hj by done. by eapply Ho.
  - by rewrite Hov.
  - by apply (busy_owner p i u).
Qed.

(** The same for a thread that stays where it is. *)
Lemma served_wf i u s p :
  process_wf p -> (i, u) ∈ pr_conns p -> sv_overdue s = sv_overdue (pr_server p) ->
  (forall j, j <> i -> sv_conns s !! j = sv_conns (pr_server p) !! j) ->
  is_Some (sv_conns s !! i) -> process_wf (set_server s p).
Proof.
  intros [Hf Hk Hu Ho Hv Hl Hw] Hin Hov Hj Ht. split; cbn; try assumption.
  - intros j Hn. rewrite Hj; [by apply Hf|]. intros ->. apply Hk in Hin. lia.
  - intros j pc Hp. destruct (decide (j = i)) as [->|Hne]; [exact Ht|]. rewrite Hj by done.
    by eapply Ho.
  - by rewrite Hov.
Qed.

Lemma set_server_same p : set_server (pr_server p) p = p.
Proof. by destruct p. Qed.

Lemma conn_wf i p p' : conn_step i p p' -> process_wf p -> process_wf p'.
Proof.
  intros Hs Hwf. pose proof (pw_open p Hwf) as Ho.
  assert (forall t u, (i, At u) ∈ pr_conns p -> (exists pc, t = At pc) -> process_wf (set_conn i t p)) as Hsame.
  { intros t u Hu [pc ->]. rewrite <- (set_server_same p). eapply moved_wf; eauto. }
  destruct Hs; try (eapply Hsame; [eassumption|by eexists]).
  - eapply moved_wf; cbn; eauto; intros; [by rewrite lookup_insert_ne|by rewrite lookup_insert_eq].
  - eapply served_wf; cbn; eauto; [|by rewrite lookup_insert_eq].
    intros j Hj. by rewrite lookup_insert_ne.
  - eapply moved_wf; cbn; eauto; intros; by rewrite lookup_delete_ne.
  - eapply moved_wf; cbn; eauto; intros; by rewrite lookup_delete_ne.
  - eapply moved_wf; cbn; eauto; intros; by rewrite lookup_delete_ne.
Qed.

Lemma owner_wf p p' : owner_step p p' -> process_wf p -> process_wf p'.
Proof.
  intros Hs [Hf Hk Hu Ho Hv Hl Hw]. destruct Hs; split; try assumption; try owner_cases; cbn.
  - intros j u Hin. apply (Hk j u). rewrite H0. by right.
  - rewrite H0 in Hu. by apply NoDup_cons in Hu as [_ Hu].
  - intros j pc Hin. apply (Ho j pc). rewrite H0. by right.
Qed.

Lemma step_wf p p' : process_step p p' -> process_wf p -> process_wf p'.
Proof.
  destruct 1 as [Hs|Hs|i Hs|Hs]; [by apply accept_wf|by apply liveness_wf|by eapply conn_wf|by apply owner_wf].
Qed.

Lemma reachable_wf opts fs p : rtc process_step (process_init opts fs) p -> process_wf p.
Proof.
  intros Hr. pose proof (init_wf opts fs) as Hi.
  induction Hr as [p|p1 p2 p3 H12 _ IH]; [done|]. apply IH. by eapply step_wf.
Qed.

(* ------------------------------------------------------------------ *)
(** ** Lemmas: what the threads do to the server *)

Lemma server_eta s : MkServer (sv_co s) (sv_conns s) (sv_overdue s) = s.
Proof. by destruct s. Qed.

(** The threads other than the owner's act on the server by its own steps. *)
Lemma thread_step_server p p' :
  process_wf p -> accept_step p p' \/ liveness_step p p' \/ (exists i, conn_step i p p') ->
  rtc server_step (pr_server p) (pr_server p').
Proof.
  intros Hwf Hs. pose proof (server_eta (pr_server p)) as Eta.
  destruct Hs as [Hs|[Hs|[i Hs]]]; destruct Hs; cbn -[move_conn]; try reflexivity;
    apply rtc_once; rewrite <- Eta at 1.
  - apply SV_accept. by apply Hwf.
  - unfold put_overdue. rewrite (pw_overdue p Hwf) by congruence. apply SV_scan.
  - rewrite H0. apply SV_mark.
  - by apply SV_recv.
  - by eapply SV_frame.
  - by eapply SV_drop.
  - by apply SV_close.
  - destruct (pw_open p Hwf i CnClose H) as [cn Hcn]. by eapply SV_leave.
Qed.

Lemma owner_step_server p p' :
  owner_step p p' ->
  pr_server p' = pr_server p \/
  exists io, co_store (sv_co (pr_server p')) = co_store (load_state io (sv_co (pr_server p))).1.
Proof.
  destruct 1 as [p io c e _ _ E|p io c _ _ E| | | | | | | | | |]; cbn; try by left.
  all: right; exists io; by rewrite E.
Qed.

Lemma load_state_placed io c :
  (forall k d, fs_devices (co_store c) !! k = Some d -> placed d) ->
  forall k d, fs_devices (co_store (load_state io c).1) !! k = Some d -> placed d.
Proof.
  intros Hc k d. unfold load_state. case_bool_decide; [apply Hc|].
  destruct (co_fs c !! _); [|apply Hc]. destruct (lio_open io); cbn [negb]; [|apply Hc].
  destruct (load_snapshot _ _ _) as [s|]; [|apply Hc]. cbn.
  rewrite lookup_fmap. destruct (s_devices s !! k) as [d0|]; cbn; [|done].
  intros [= <-]. unfold placed. by rewrite (proj1 (proj2 (proj2 (recover_device_spec d0)))).
Qed.

Definition process_store (p : Process) : FleetState := co_store (sv_co (pr_server p)).

Lemma step_placed p p' :
  process_wf p -> process_step p p' ->
  (forall k d, fs_devices (process_store p) !! k = Some d -> placed d) ->
  forall k d, fs_devices (process_store p') !! k = Some d -> placed d.
Proof.
  intros Hwf Hs Hp. unfold process_store in *.
  assert (forall s s', rtc server_step s s' ->
            (forall k d, fs_devices (co_store (sv_co s)) !! k = Some d -> placed d) ->
            forall k d, fs_devices (co_store (sv_co s')) !! k = Some d -> placed d) as Hserver.
  { intros s s' Hr H. destruct (server_history _ _ Hr) as [ops ->]. by apply run_ops_placed. }
  destruct Hs as [Hs|Hs|i Hs|Hs].
  - eapply Hserver; [|exact Hp]. apply thread_step_server; auto.
  - eapply Hserver; [|exact Hp]. apply thread_step_server; auto.
  - eapply Hserver; [|exact Hp]. apply thread_step_server; eauto.
  - destruct (owner_step_server p p' Hs) as [->|[io ->]]; [exact Hp|by apply load_state_placed].
Qed.

(* ------------------------------------------------------------------ *)
(** ** Lemmas: the way to the end of [stop] *)

Lemma stopping_not_running p : process_wf p -> stopping p = true -> pr_running p = false.
Proof. intros Hwf. pose proof (pw_owner p Hwf) as Ho. unfold owner_inv, stopping in *.
  destruct (pr_owner p); try done; tauto. Qed.

Lemma accept_progress p pc :
  pr_accept p = At pc -> pr_running p = false -> (pc = AcLock -> pr_locked p = false) ->
  exists p', process_step p p'.
Proof.
  intros E Hr Hl. destruct pc; eexists; apply PS_accept.
  - by apply AS_end.
  - by apply AS_failed.
  - apply AS_lock; auto.
  - by apply AS_spawn.
  - by apply AS_again.
Qed.

Lemma liveness_progress p pc :
  pr_liveness p = At pc -> pr_running p = false -> exists p', process_step p p'.
Proof.
  intros E Hr. destruct pc; [| |destruct (sv_overdue (pr_server p)) as [|w ws] eqn:Eo];
    eexists; apply PS_liveness.
  - by apply LS_end.
  - by apply (LS_scan p 0).
  - by apply LS_done.
  - by apply (LS_mark p w ws 0).
Qed.

Lemma conn_progress p i pc :
  process_wf p -> (i, At pc) ∈ pr_conns p -> pr_running p = false -> exists p', process_step p p'.
Proof.
  intros Hwf Hin Hr. destruct (pw_open p Hwf i pc Hin) as [cn Hcn].
  pose (io := MkSaveIo false 0 false false false false false false false).
  destruct pc.
  - eexists. apply (PS_conn _ _ i). by apply CS_stop.
  - eexists. apply (PS_conn _ _ i). by apply CS_nothing.
  - destruct (serve_one 0 io (sv_co (pr_server p)) cn) as [[[[c' cn'] reply] [|]]|] eqn:E;
      eexists; apply (PS_conn _ _ i); [by eapply CS_frame|by eapply CS_drop|by eapply CS_more].
  - eexists. apply (PS_conn _ _ i). by apply CS_leave.
Qed.

(** Somebody can always move: no thread waits for one that waits for it. *)
Lemma stopping_progress p : process_wf p -> stopping p = true -> exists p', process_step p p'.
Proof.
  intros Hwf Hs. pose proof (stopping_not_running p Hwf Hs) as Hr.
  pose proof (pw_lock p Hwf) as Hl. pose proof (pw_owner p Hwf) as Ho.
  unfold owner_inv, stopping in *. destruct (pr_owner p) eqn:E; try done.
  - eexists. apply PS_owner. by apply OS_close.
  - destruct (pr_accept p) as [|pc|] eqn:Ea.
    2:{ apply (accept_progress p pc); [done|done|]. intros ->.
        destruct (pr_locked p); [|done]. by destruct (proj1 Hl eq_refl). }
    all: eexists; apply PS_owner, OS_join_accept; [done|congruence].
  - destruct (pr_liveness p) as [|pc|] eqn:Ea; [|by apply (liveness_progress p pc)|].
    all: eexists; apply PS_owner, OS_join_liveness; [done|congruence].
  - eexists. apply PS_owner, OS_lock; [done|]. destruct Ho as (_ & _ & Ha & _).
    destruct (pr_locked p); [|done]. destruct (proj1 Hl eq_refl); congruence.
  - destruct (pr_conns p) as [|[i [|pc|]] l] eqn:Ec.
    + eexists. apply PS_owner. by apply OS_return.
    + eexists. eapply PS_owner, OS_join_conn; [done|exact Ec|congruence].
    + apply (conn_progress p i pc Hwf); [rewrite Ec; by left|done].
    + eexists. eapply PS_owner, OS_join_conn; [done|exact Ec|congruence].
Qed.

(** The distance to the end: the points each thread has still to pass, and then the
    work at the point where it is. *)
Definition accept_weight (t : Thread AcceptPc) : nat :=
  match t with
  | At AcTest => 1 | At AcPause => 2 | At AcSpawn => 5 | At AcLock => 6 | At AcAccept => 7 | _ => 0
  end.
Definition liveness_weight (t : Thread LivePc) : nat :=
  match t with At LvTest => 1 | At LvMark => 2 | At LvScan => 3 | _ => 0 end.
Definition conn_weight (t : Thread ConnPc) : nat :=
  match t with At CnClose => 2 | At CnTest => 3 | At CnFrames => 4 | At CnRecv => 5 | _ => 1 end.
Definition owner_weight (o : OwnerPc) : nat :=
  match o with
  | OwClose => 5 | OwJoinAccept => 4 | OwJoinLiveness => 3 | OwLock => 2 | OwJoinConns => 1 | _ => 0
  end.

Definition points_left (p : Process) : nat :=
  accept_weight (pr_accept p) + liveness_weight (pr_liveness p) +
  sum_list_with (fun it => conn_weight it.2) (pr_conns p) + owner_weight (pr_owner p).

Definition buffered (s : Server) (i : nat) : nat :=
  match sv_conns s !! i with Some cn => length (cn_buf cn) | None => 0 end.
Definition work_left (p : Process) : nat :=
  sum_list_with (fun it => buffered (pr_server p) it.1) (pr_conns p) +
  length (sv_overdue (pr_server p)).

Lemma sum_list_with_map {A B} (f : B -> nat) (g : A -> B) l :
  sum_list_with f (map g l) = sum_list_with (fun x => f (g x)) l.
Proof. induction l as [|x l IH]; [done|]. cbn. by rewrite IH. Qed.

Lemma sum_map_le {A} (f g : A -> nat) l :
  (forall x, x ∈ l -> f x <= g x)%nat -> (sum_list_with f l <= sum_list_with g l)%nat.
Proof.
  intros H. induction l as [|x l IH]; [done|]. cbn.
  pose proof (H x ltac:(by left)). specialize (IH ltac:(intros y Hy; apply H; by right)). lia.
Qed.

Lemma sum_map_lt {A} (f g : A -> nat) l x :
  (forall y, y ∈ l -> f y <= g y)%nat -> x ∈ l -> (f x < g x)%nat ->
  (sum_list_with f l < sum_list_with g l)%nat.
Proof.
  intros H Hx Hlt. induction l as [|y l IH]; [by apply not_elem_of_nil in Hx|]. cbn.
  apply elem_of_cons in Hx as [->|Hx].
  - pose proof (sum_map_le f g l ltac:(intros z Hz; apply H; by right)). lia.
  - pose proof (H y ltac:(by left)).
    specialize (IH ltac:(intros z Hz; apply H; by right) Hx). lia.
Qed.

Lemma unique_thread i (t u : Thread ConnPc) (l : list (nat * Thread ConnPc)) :
  NoDup l.*1 -> (i, t) ∈ l -> (i, u) ∈ l -> t = u.
Proof.
  intros Hn Ht Hu. apply (elem_of_list_to_map_1 (M := gmap nat) l i t Hn) in Ht.
  apply (elem_of_list_to_map_1 (M := gmap nat) l i u Hn) in Hu. congruence.
Qed.

(** Moving the thread of a connection to a lighter point. *)
Lemma move_conn_lighter i t u (l : list (nat * Thread ConnPc)) :
  NoDup l.*1 -> (i, u) ∈ l ->
  (conn_weight t < conn_weight u)%nat ->
  (sum_list_with (fun it => conn_weight it.2) (move_conn i t l) <
   sum_list_with (fun it => conn_weight it.2) l)%nat.
Proof.
  intros Hn Hin Hlt. unfold move_conn. rewrite sum_list_with_map.
  apply (sum_map_lt _ _ l (i, u)); [|exact Hin|].
  - intros [j v] Hj. case_bool_decide as Hi; [|done]. cbn in *. subst j.
    rewrite (unique_thread i v u l Hn Hj Hin). lia.
  - cbn. by rewrite bool_decide_true.
Qed.

(** Every step taken inside [stop] passes a point or does some of the work. *)
Definition closer (p' p : Process) : Prop :=
  (points_left p' < points_left p)%nat \/
  (points_left p' = points_left p /\ (work_left p' < work_left p)%nat).

Lemma closer_wf : well_founded closer.
Proof.
  intros p. remember (points_left p) as n eqn:En. revert p En.
  induction (lt_wf n) as [n _ IHn]. intros p En.
  remember (work_left p) as k eqn:Ek. revert p En Ek.
  induction (lt_wf k) as [k _ IHk]. intros p En Ek. constructor.
  intros q [Hq|[Hq Hw]].
  - by apply (IHn (points_left q) ltac:(lia)).
  - apply (IHk (work_left q) ltac:(lia)); lia.
Qed.

Lemma step_closer p p' :
  process_wf p -> stopping p = true -> process_step p p' -> closer p' p.
Proof.
  intros Hwf Hst Hs. pose proof (stopping_not_running p Hwf Hst) as Hr.
  destruct Hs as [Hs|Hs|i Hs|Hs].
  - left. destruct Hs as [|p Ha|p Ha|p Ha|p Ha|p Ha Hlk|p Ha]; try congruence;
      unfold points_left; cbn; rewrite Ha; cbn; try lia.
    rewrite sum_list_with_app. cbn. lia.
  - destruct Hs as [|p Ha|p now Ha|p w ws now Ha Ho|p Ha]; try congruence.
    1, 2, 4: left; unfold points_left; cbn; rewrite Ha; cbn; lia.
    right. split; [done|]. unfold work_left. cbn. rewrite Ho. cbn.
    unfold buffered. cbn. lia.
  - pose proof (pw_unique p Hwf) as Hu.
    assert (forall t u s, (i, u) ∈ pr_conns p -> (conn_weight t < conn_weight u)%nat ->
              closer (set_conn i t (set_server s p)) p) as Hmove.
    { intros t u s Hin Hlt. left. unfold points_left. cbn -[move_conn].
      pose proof (move_conn_lighter i t u _ Hu Hin Hlt). lia. }
    destruct Hs; try congruence; try (eapply Hmove; [eassumption|cbn; lia]);
      try (rewrite <- (set_server_same p); eapply Hmove; [eassumption|cbn; lia]).
    right. split; [done|]. unfold work_left. cbn.
    apply Nat.add_lt_mono_r. apply (sum_map_lt _ _ _ (i, At CnFrames)); [|done|].
    + intros [j v] _. unfold buffered. cbn. destruct (decide (j = i)) as [->|Hne].
      * rewrite lookup_insert_eq, H0. apply (serve_one_more _ _ _ _ _ _ _ _ []) in H1 as [_ H1].
        specialize (H1 eq_refl). lia.
      * by rewrite lookup_insert_ne.
    + unfold buffered. cbn. rewrite lookup_insert_eq, H0.
      by apply (serve_one_more _ _ _ _ _ _ _ _ []) in H1 as [_ H1]; apply H1.
  - left. unfold stopping in Hst. destruct Hs; unfold points_left; cbn in *;
      try (rewrite H in *; cbn in *; congruence || lia).
    match goal with E : pr_conns p = _ |- _ => rewrite E end.
    match goal with |- context [(_, ?t) :: _] => destruct t as [|[]|]; cbn; lia end.
Qed.

Lemma stopping_step p p' :
  process_wf p -> stopping p = true -> process_step p p' -> stopping p' = true \/ stopped p'.
Proof.
  intros Hwf Hst Hs. pose proof (pw_owner p Hwf) as Ho. pose proof (stopping_not_running p Hwf Hst) as Hr.
  destruct Hs as [Hs|Hs|i Hs|Hs]; [destruct Hs; by left..|].
  unfold stopping, owner_inv in *.
  destruct Hs; cbn in *; rewrite ?H in *; cbn in *; try congruence; try by left.
  right. unfold stopped, quiet. cbn. intuition congruence.
Qed.

Lemma stopping_inevitable p :
  process_wf p -> stopping p = true -> inevitable process_step stopped p.
Proof.
  induction (closer_wf p) as [p _ IH]. intros Hwf Hst.
  apply inevitable_later; [by apply stopping_progress|]. intros p' Hs.
  destruct (stopping_step p p' Hwf Hst Hs) as [Hst'|Hdone]; [|by apply inevitable_now].
  apply IH; [by apply step_closer|by eapply step_wf|done].
Qed.

(* ------------------------------------------------------------------ *)
(** ** Properties *)

(** C16. [stop] returns: from any state the process can be in when its owner is inside
    [stop], however the threads are scheduled, whatever arrives on the connections
    and whether or not another is accepted meanwhile, there is always a thread that
    can move, and after finitely many steps [stop] has returned with the listener
    closed, [conn_mu_] free and every thread joined. *)
Theorem stop_returns opts fs p :
  rtc process_step (process_init opts fs) p -> stopping p = true ->
  inevitable process_step stopped p.
Proof. intros Hr. apply stopping_inevitable. by eapply reachable_wf. Qed.

(** No thread outlives [stop]: whenever the owner is outside [start] and [stop] and
    the coordinator is not running, no thread of it exists, no connection thread
    waits to be joined, and the mutex is free; and the only steps left are those of
    [start]. *)
Theorem no_thread_outlives_stop opts fs p :
  rtc process_step (process_init opts fs) p -> pr_owner p = OwOutside -> pr_running p = false ->
  quiet p /\ pr_locked p = false /\ forall p', process_step p p' -> owner_step p p'.
Proof.
  intros Hr Ho Hrun. pose proof (reachable_wf opts fs p Hr) as Hwf.
  pose proof (pw_owner p Hwf) as Hq. unfold owner_inv in Hq. rewrite Ho in Hq. specialize (Hq Hrun).
  split; [exact Hq|]. destruct Hq as (Ha & Hl & Hc). split.
  - destruct (pr_locked p) eqn:E; [|done]. destruct (proj1 (pw_lock p Hwf) E); congruence.
  - intros p' [Hs|Hs|i Hs|Hs]; [| | |exact Hs].
    + destruct Hs; congruence.
    + destruct Hs; congruence.
    + exfalso. destruct Hs;
        match goal with Hin : (i, _) ∈ _ |- _ => rewrite Hc in Hin; by apply not_elem_of_nil in Hin end.
Qed.

(** Placement safety for the life of the process: through any sequence of starts,
    recoveries, connections, liveness passes and stops, on any schedule of the
    threads, a device held schedulable has fresh evidence, is present, not
    quarantined, not draining, and of proven health. *)
Theorem process_placement_safe opts fs p k d :
  rtc process_step (process_init opts fs) p ->
  fs_devices (process_store p) !! k = Some d -> schedulable (d_eligibility d) = true ->
  device_proven d.
Proof.
  intros Hr. revert k d.
  assert (forall q, rtc process_step q p -> process_wf q ->
            (forall k d, fs_devices (process_store q) !! k = Some d -> placed d) ->
            forall k d, fs_devices (process_store p) !! k = Some d -> placed d) as H.
  { intros q Hq. induction Hq as [q|q1 q2 q3 H12 _ IH]; [done|]. intros Hwf Hp.
    apply IH; [exact Hr|by eapply step_wf|by eapply step_placed]. }
  intros k d. apply (H _ Hr); [apply init_wf|]. done.
Qed.
