(* ===== verification/LifecycleWitness.v ===== *)
(** * The coordinator's threads on one schedule

    A coordinator that starts, accepts the sample agent's connection, serves it, and
    stops: the instances of the theorems on the threads. *)

From stdpp Require Import relations.
From S2P Require Import Prelude Core Codec Message Framing Identity Health Eligibility Device.
From S2P Require Import Observation FleetState FleetSteps FleetInv FleetSafety Store Coordinator.
From S2P Require Import CoordinatorSafety Agent EndToEnd EndToEndWitness Lifecycle.

Definition load_ok : LoadIo := MkLoadIo true true true.

(** The process after a sequence of the owner's and the accept thread's steps. *)
Definition sample_process : Process := process_init sample_opts ∅.
Definition started_process : Process :=
  MkProcess true true OwOutside (At AcTest) (At LvTest) [] 0 false (server_init sample_coordinator).

Lemma started_reachable : rtc process_step sample_process started_process.
Proof.
  eapply rtc_l; [eapply PS_owner, (OS_start _ load_ok); reflexivity|].
  eapply rtc_l; [by apply PS_owner, OS_run|].
  eapply rtc_l; [by apply PS_owner, OS_spawn_accept|].
  eapply rtc_l; [by apply PS_owner, OS_spawn_liveness|]. reflexivity.
Qed.

(** One connection is accepted and receives some bytes. *)
Definition receiving (bytes : list byte) : Process :=
  MkProcess true true OwOutside (At AcTest) (At LvTest) [(0%nat, At CnFrames)] 1 false
    (MkServer sample_coordinator {[ 0%nat := MkConn bytes None ]} []).

Lemma receiving_reachable bytes : rtc process_step sample_process (receiving bytes).
Proof.
  etransitivity; [exact started_reachable|].
  eapply rtc_l; [by apply PS_accept, AS_go|].
  eapply rtc_l; [by apply PS_accept, AS_accepted|].
  eapply rtc_l; [by apply PS_accept, AS_lock|].
  eapply rtc_l; [by apply PS_accept, AS_spawn|].
  eapply rtc_l; [apply (PS_conn _ _ 0), CS_go; [by left|done]|].
  eapply rtc_l; [apply (PS_conn _ _ 0); eapply (CS_data _ _ _ bytes); [by left|reflexivity]|].
  reflexivity.
Qed.

Definition receiving_process : Process := receiving (register_bytes ++ publish_bytes registered_agent).

(** The frames of a connection, one by one. *)
Lemma frames_steps env i n p c' cn' cn out :
  (i, At CnFrames) ∈ pr_conns p -> sv_conns (pr_server p) !! i = Some cn ->
  serve n env (sv_co (pr_server p)) cn = (c', cn', out, Open) ->
  rtc process_step p (set_server (put_conn i cn' (put_co c' (pr_server p))) p).
Proof.
  revert p cn out. induction n as [|n IH]; intros p cn out Hin Hcn; cbn [serve].
  - intros [= <- <- _]. destruct p as [? ? ? ? ? ? ? ? [c conns ws]]. cbn in *.
    unfold set_server, put_conn, put_co. cbn. rewrite insert_id by exact Hcn. reflexivity.
  - destruct (serve_one _ _ _ cn) as [[[[c1 cn1] reply] [|]]|] eqn:E; [|done|].
    + destruct (serve n env c1 cn1) as [[[c2 cn2] out2] e] eqn:E2. intros [= <- <- _ ->].
      eapply rtc_l; [apply (PS_conn _ _ i); by eapply CS_frame|].
      specialize (IH (set_server (put_conn i cn1 (put_co c1 (pr_server p))) p) cn1 out2 Hin).
      cbn in IH. specialize (IH (lookup_insert_eq _ _ _) E2).
      unfold put_conn, put_co in *. cbn in IH |- *. rewrite insert_insert_eq in IH. exact IH.
    + intros [= <- <- _]. destruct p as [? ? ? ? ? ? ? ? [c conns ws]]. cbn in *.
      unfold set_server, put_conn, put_co. cbn. rewrite insert_id by exact Hcn. reflexivity.
Qed.

Definition served_process : Process :=
  set_server (put_conn 0 served.1.1.2 (put_co served.1.1.1 (pr_server receiving_process)))
    receiving_process.

Lemma served_process_reachable : rtc process_step sample_process served_process.
Proof.
  etransitivity; [apply receiving_reachable|].
  apply (frames_steps sample_env 0 (S (length (cn_buf sample_conn))) receiving_process
           served.1.1.1 served.1.1.2 sample_conn served.1.2).
  - by left.
  - reflexivity.
  - change (served = (served.1.1.1, served.1.1.2, served.1.2, Open)).
    pose proof served_replies as [_ <-]. by destruct served as [[[? ?] ?] ?].
Qed.

Lemma process_placement_safe_witness :
  schedulable (d_eligibility served_device) = true /\ device_proven served_device.
Proof.
  split; [exact served_schedulable|].
  exact (process_placement_safe sample_opts ∅ served_process synthetic_key served_device
    served_process_reachable served_lookup served_schedulable).
Defined.

(** The owner calls [stop] while the connection is being served. *)
Definition stopping_process : Process := set_owner OwClose (set_running false served_process).

Lemma stopping_reachable : rtc process_step sample_process stopping_process.
Proof.
  eapply rtc_r; [exact served_process_reachable|]. by apply PS_owner, OS_stop.
Qed.

Lemma stop_returns_witness : inevitable process_step stopped stopping_process.
Proof. exact (stop_returns sample_opts ∅ stopping_process stopping_reachable eq_refl). Defined.

(** A schedule of a stop without connections, to its end. *)
Definition stopped_process : Process :=
  MkProcess false false OwOutside Absent Absent [] 0 false (server_init sample_coordinator).

Lemma stopped_reachable : rtc process_step sample_process stopped_process.
Proof.
  etransitivity; [exact started_reachable|].
  eapply rtc_l; [by apply PS_owner, OS_stop|].
  eapply rtc_l; [by apply PS_owner, OS_close|].
  eapply rtc_l; [by apply PS_accept, AS_end|].
  eapply rtc_l; [by apply PS_owner, OS_join_accept|].
  eapply rtc_l; [by apply PS_liveness, LS_end|].
  eapply rtc_l; [by apply PS_owner, OS_join_liveness|].
  eapply rtc_l; [by apply PS_owner, OS_lock|].
  eapply rtc_l; [by apply PS_owner, OS_return|]. reflexivity.
Qed.

Lemma no_thread_outlives_stop_witness : quiet stopped_process /\ pr_locked stopped_process = false.
Proof.
  destruct (no_thread_outlives_stop sample_opts ∅ stopped_process stopped_reachable eq_refl eq_refl)
    as (H1 & H2 & _).
  exact (conj H1 H2).
Defined.
