(* ===== verification/Transport.v ===== *)
(** * TCP transport ([transport/transport.hpp], [src/transport/transport.cpp])

    Streams and listeners over a parameter for the socket library: each Winsock
    function is a field of [Winsock], a function of the library's own state.
    The second part is the ownership of sockets by the movable handle classes. *)

From stdpp Require Import gmultiset.
From S2P Require Import Prelude Core Codec Effects Message Framing Coordinator Agent EndToEnd.

(* ------------------------------------------------------------------ *)
(** ** The socket library *)

Definition INVALID_SOCKET : Z := 2 ^ 64 - 1.
Definition SOCKET_ERROR : Z := -1.
Definition WSAEWOULDBLOCK : Z := 10035.
Definition WSAETIMEDOUT : Z := 10060.

(** [static_cast<std::uintptr_t>(-1)]: the handle of a closed stream. *)
Definition kClosedSocket : Z := 2 ^ 64 - 1.

(** Each function with its out-parameters as results. [select] is given the set it
    watches; [recv] the size of the buffer. *)
Record Winsock (S : Type) := MkWinsock {
  ws_socket : S -> Z * S;
  ws_last_error : S -> Z * S;
  ws_getaddrinfo : option string -> string -> bool -> S -> (Z * Z) * S;
  ws_freeaddrinfo : Z -> S -> unit * S;
  ws_ioctl_nonblocking : Z -> bool -> S -> unit * S;
  ws_connect : Z -> Z -> S -> Z * S;
  ws_select : bool -> Z -> Z * Z -> S -> Z * S;
  ws_so_error : Z -> S -> Z * S;
  ws_set_timeouts : Z -> Z -> S -> unit * S;
  ws_set_reuseaddr : Z -> S -> unit * S;
  ws_closesocket : Z -> S -> unit * S;
  ws_send : Z -> list byte -> S -> Z * S;
  ws_recv : Z -> Z -> S -> (Z * list byte) * S;
  ws_bind : Z -> Z -> S -> Z * S;
  ws_getsockname : Z -> S -> Z * S;
  ws_listen : Z -> S -> Z * S;
  ws_accept : Z -> S -> Z * S;
  ws_getpeername : Z -> S -> (string * Z) * S;
  ws_sleep : Z -> S -> unit * S
}.
Arguments ws_socket {S}.
Arguments ws_last_error {S}.
Arguments ws_getaddrinfo {S}.
Arguments ws_freeaddrinfo {S}.
Arguments ws_ioctl_nonblocking {S}.
Arguments ws_connect {S}.
Arguments ws_select {S}.
Arguments ws_so_error {S}.
Arguments ws_set_timeouts {S}.
Arguments ws_set_reuseaddr {S}.
Arguments ws_closesocket {S}.
Arguments ws_send {S}.
Arguments ws_recv {S}.
Arguments ws_bind {S}.
Arguments ws_getsockname {S}.
Arguments ws_listen {S}.
Arguments ws_accept {S}.
Arguments ws_getpeername {S}.
Arguments ws_sleep {S}.

Inductive NetEvent :=
  | NewSocket (s : Z)
  | LastErrorIs (e : Z)
  | Resolve (rc res : Z)
  | FreeAddr (res : Z)
  | Nonblocking (s : Z) (on : bool)
  | Connect (s res rc : Z)
  | Select (s rc : Z)
  | SoError (s e : Z)
  | SetTimeouts (s ms : Z)
  | SetReuse (s : Z)
  | CloseSocket (s : Z)
  | Send (s : Z) (chunk : list byte) (rc : Z)
  | Received (s cap rc : Z) (data : list byte)
  | Bind (s res rc : Z)
  | SockName (s port : Z)
  | Listen (s rc : Z)
  | Accept (s c : Z)
  | PeerName (s : Z)
  | Sleep (ms : Z).

(** The sockets and address lists a call opens, uses and gives back. *)
#[export] Instance net_ledger : Ledger NetEvent := fun ev =>
  match ev with
  | NewSocket s => if s =? INVALID_SOCKET then [] else [Acquire (Socket s)]
  | Resolve rc res => if negb (rc =? 0) || (res =? 0) then [] else [Acquire (AddrInfo res)]
  | FreeAddr res => [Release (AddrInfo res)]
  | Connect s res _ | Bind s res _ => [Use (Socket s); Use (AddrInfo res)]
  | CloseSocket s => [Release (Socket s)]
  | Accept s c =>
      Use (Socket s) :: (if c =? INVALID_SOCKET then [] else [Acquire (Socket c)])
  | Nonblocking s _ | Select s _ | SoError s _ | SetTimeouts s _ | SetReuse s | Send s _ _
  | Received s _ _ _ | SockName s _ | Listen s _ | PeerName s => [Use (Socket s)]
  | LastErrorIs _ | Sleep _ => []
  end.

Section Calls.
Context {S : Type} (ws : Winsock S).

Definition call_socket : Eff S NetEvent Z := eff_call (ws_socket ws) NewSocket.
Definition call_wsa_error : Eff S NetEvent Z := eff_call (ws_last_error ws) LastErrorIs.
Definition call_getaddrinfo (host : option string) (port : string) (passive : bool)
  : Eff S NetEvent (Z * Z) :=
  eff_call (ws_getaddrinfo ws host port passive) (fun r => Resolve r.1 r.2).
Definition call_freeaddrinfo (res : Z) : Eff S NetEvent unit :=
  eff_call (ws_freeaddrinfo ws res) (fun _ => FreeAddr res).
Definition call_nonblocking (s : Z) (on : bool) : Eff S NetEvent unit :=
  eff_call (ws_ioctl_nonblocking ws s on) (fun _ => Nonblocking s on).
Definition call_connect (s res : Z) : Eff S NetEvent Z :=
  eff_call (ws_connect ws s res) (Connect s res).
Definition call_select (writable : bool) (s : Z) (tv : Z * Z) : Eff S NetEvent Z :=
  eff_call (ws_select ws writable s tv) (Select s).
Definition call_so_error (s : Z) : Eff S NetEvent Z := eff_call (ws_so_error ws s) (SoError s).
Definition call_set_timeouts (s ms : Z) : Eff S NetEvent unit :=
  eff_call (ws_set_timeouts ws s ms) (fun _ => SetTimeouts s ms).
Definition call_set_reuseaddr (s : Z) : Eff S NetEvent unit :=
  eff_call (ws_set_reuseaddr ws s) (fun _ => SetReuse s).
Definition call_closesocket (s : Z) : Eff S NetEvent unit :=
  eff_call (ws_closesocket ws s) (fun _ => CloseSocket s).
Definition call_send (s : Z) (chunk : list byte) : Eff S NetEvent Z :=
  eff_call (ws_send ws s chunk) (Send s chunk).
Definition call_recv (s cap : Z) : Eff S NetEvent (Z * list byte) :=
  eff_call (ws_recv ws s cap) (fun r => Received s cap r.1 r.2).
Definition call_bind (s res : Z) : Eff S NetEvent Z := eff_call (ws_bind ws s res) (Bind s res).
Definition call_getsockname (s : Z) : Eff S NetEvent Z :=
  eff_call (ws_getsockname ws s) (SockName s).
Definition call_listen (s : Z) : Eff S NetEvent Z := eff_call (ws_listen ws s) (Listen s).
Definition call_accept (s : Z) : Eff S NetEvent Z := eff_call (ws_accept ws s) (Accept s).
Definition call_getpeername (s : Z) : Eff S NetEvent (string * Z) :=
  eff_call (ws_getpeername ws s) (fun _ => PeerName s).
Definition call_sleep (ms : Z) : Eff S NetEvent unit := eff_call (ws_sleep ws ms) (fun _ => Sleep ms).

(* ------------------------------------------------------------------ *)
(** ** Streams and listeners *)

Definition wsa_error_str (code : Z) : string := "winsock error " +:+ to_dec_signed code.

(** [error_result(Status::Io, wsa_error_str(WSAGetLastError()))]. *)
Definition last_error_result {T} : Eff S NetEvent (Result T) :=
  e <- call_wsa_error ;; eff_ret (error_result Io (wsa_error_str e)).

Definition wrap_socket (s : Z) : Result Z :=
  if s =? INVALID_SOCKET then error_result Io "invalid socket" else Ok s.

(** [timeval] of a number of milliseconds. *)
Definition timeval_of (ms : Z) : Z * Z := (Z.quot ms 1000, Z.rem ms 1000 * 1000).

(** The common end of [connect]: blocking again, with timeouts. *)
Definition connected (s timeout_ms : Z) : Eff S NetEvent (Result Z) :=
  call_nonblocking s false ;;;
  call_set_timeouts s (wrap 32 timeout_ms) ;;;
  eff_ret (wrap_socket s).

(** A connection still in progress: wait until writable, then ask for its error. *)
Definition await_connected (s timeout_ms : Z) : Eff S NetEvent (Result Z) :=
  sel <- call_select true s (timeval_of timeout_ms) ;;
  if sel <=? 0 then call_closesocket s ;;; eff_ret (error_result Io "connect timeout") else
  soerr <- call_so_error s ;;
  if negb (soerr =? 0) then call_closesocket s ;;; eff_ret (error_result Io (wsa_error_str soerr))
  else connected s timeout_ms.

(** [TcpStream::connect]: the new stream's socket. *)
Definition tcp_connect (host : string) (port timeout_ms : Z) : Eff S NetEvent (Result Z) :=
  s <- call_socket ;;
  if s =? INVALID_SOCKET then last_error_result else
  r <- call_getaddrinfo (Some host) (to_dec port) false ;;
  if negb (r.1 =? 0) || (r.2 =? 0) then
    call_closesocket s ;;; eff_ret (error_result Io "getaddrinfo failed")
  else
  call_nonblocking s true ;;;
  rc <- call_connect s r.2 ;;
  call_freeaddrinfo r.2 ;;;
  if rc =? 0 then connected s timeout_ms else
  err <- call_wsa_error ;;
  if negb (err =? WSAEWOULDBLOCK) then
    call_closesocket s ;;; eff_ret (error_result Io (wsa_error_str err))
  else await_connected s timeout_ms.

(** One [send] takes at most [0x7FFFFFFF] bytes. *)
Definition send_chunk (data : list byte) : list byte :=
  if Z.of_nat (length data) >? 0x7FFFFFFF then take (Z.to_nat 0x7FFFFFFF) data else data.

(** The loop of [send_all]; [None] when the fuel ends before the loop does. *)
Fixpoint send_loop (fuel : nat) (sock : Z) (data : list byte)
  : Eff S NetEvent (option (Result unit)) :=
  match data, fuel with
  | [], _ => eff_ret (Some (Ok tt))
  | _, O => eff_ret None
  | _, Datatypes.S fuel =>
      sent <- call_send sock (send_chunk data) ;;
      if sent =? SOCKET_ERROR then
        err <- call_wsa_error ;;
        if err =? WSAEWOULDBLOCK then call_sleep 1 ;;; send_loop fuel sock data
        else eff_ret (Some (error_result Io (wsa_error_str err)))
      else send_loop fuel sock (drop (Z.to_nat sent) data)
  end.

Definition send_all (fuel : nat) (sock : Z) (data : list byte)
  : Eff S NetEvent (option (Result unit)) :=
  if sock =? kClosedSocket then eff_ret (Some (error_result Io "socket closed"))
  else send_loop fuel sock data.

(** [recv_some]: the bytes received, none for a clean close. *)
Definition recv_some (sock cap : Z) : Eff S NetEvent (Result (list byte)) :=
  if sock =? kClosedSocket then eff_ret (error_result Io "socket closed") else
  r <- call_recv sock cap ;;
  if r.1 =? 0 then eff_ret (Ok []) else
  if r.1 =? SOCKET_ERROR then
    err <- call_wsa_error ;;
    eff_ret (if (err =? WSAEWOULDBLOCK) || (err =? WSAETIMEDOUT) then error_result Io "timeout"
             else error_result Io (wsa_error_str err))
  else eff_ret (Ok (take (Z.to_nat r.1) r.2)).

(** [recv_some_opt]: [None] when there is nothing yet. *)
Definition recv_some_opt (sock cap : Z) : Eff S NetEvent (Result (option (list byte))) :=
  if sock =? kClosedSocket then eff_ret (error_result Io "socket closed") else
  r <- call_recv sock cap ;;
  if r.1 =? 0 then eff_ret (Ok (Some [])) else
  if r.1 =? SOCKET_ERROR then
    err <- call_wsa_error ;;
    eff_ret (if (err =? WSAEWOULDBLOCK) || (err =? WSAETIMEDOUT) then Ok None
             else error_result Io (wsa_error_str err))
  else eff_ret (Ok (Some (take (Z.to_nat r.1) r.2))).

Definition set_timeout (sock ms : Z) : Eff S NetEvent unit :=
  if sock =? kClosedSocket then eff_ret tt else call_set_timeouts sock (wrap 32 ms).

(** [peer_desc]; the address as [inet_ntop] prints it. *)
Definition peer_desc (sock : Z) : Eff S NetEvent string :=
  if sock =? kClosedSocket then eff_ret "(closed)" else
  r <- call_getpeername sock ;; eff_ret (r.1 +:+ ":" +:+ to_dec r.2).

(** [TcpListener::bind]: the socket and the port it is bound to. *)
Definition tcp_bind (host : string) (port : Z) : Eff S NetEvent (Result (Z * Z)) :=
  s <- call_socket ;;
  if s =? INVALID_SOCKET then last_error_result else
  call_set_reuseaddr s ;;;
  r <- call_getaddrinfo (if bool_decide (host = "") then None else Some host) (to_dec port) true ;;
  if negb (r.1 =? 0) || (r.2 =? 0) then
    call_closesocket s ;;; eff_ret (error_result Io "getaddrinfo failed")
  else
  rc <- call_bind s r.2 ;;
  call_freeaddrinfo r.2 ;;;
  if negb (rc =? 0) then call_closesocket s ;;; last_error_result else
  actual_port <- call_getsockname s ;;
  rc <- call_listen s ;;
  if negb (rc =? 0) then call_closesocket s ;;; last_error_result else
  eff_ret (Ok (s, actual_port)).

(** [TcpListener::accept]. *)
Definition tcp_accept (sock timeout_ms : Z) : Eff S NetEvent (Result Z) :=
  if sock =? kClosedSocket then eff_ret (error_result Io "listener closed") else
  call_nonblocking sock true ;;;
  sel <- call_select false sock (timeval_of timeout_ms) ;;
  if sel <=? 0 then
    call_nonblocking sock false ;;; eff_ret (error_result Io "accept timeout")
  else
  c <- call_accept sock ;;
  call_nonblocking sock false ;;;
  if c =? INVALID_SOCKET then last_error_result else
  call_set_timeouts c (wrap 32 timeout_ms) ;;;
  eff_ret (wrap_socket c).

(** [send_message] of the coordinator and the sends of the agent: one frame by
    [send_all]. In sequence, the first failure ends it. *)
Fixpoint send_messages (fuel : nat) (sock : Z) (ms : list Message)
  : Eff S NetEvent (option (Result unit)) :=
  match ms with
  | [] => eff_ret (Some (Ok tt))
  | m :: ms =>
      r <- send_all fuel sock (message_frame m) ;;
      match r with
      | Some (Ok _) => send_messages fuel sock ms
      | _ => eff_ret r
      end
  end.

(** What the receiving loops see of a call of [recv_some_opt]. *)
Definition recv_event (r : Result (option (list byte))) : Recv :=
  match r with
  | Err _ => RecvError
  | Ok None => RecvNone
  | Ok (Some data) => RecvData data
  end.

(** [n] turns of a receiving loop with its buffer of 64 KiB. *)
Fixpoint recv_events (n : nat) (sock : Z) : Eff S NetEvent (list Recv) :=
  match n with
  | O => eff_ret []
  | Datatypes.S n =>
      r <- recv_some_opt sock (64 * 1024) ;;
      evs <- recv_events n sock ;;
      eff_ret (recv_event r :: evs)
  end.

End Calls.

(** The chunks among the events. *)
Definition data_chunks (evs : list Recv) : list (list byte) :=
  omap (fun ev => match ev with RecvData d => Some d | _ => None end) evs.

(** [transport_init] with the flag [g_initialized]: it is set once. *)
Definition transport_init (initialized : bool) : bool * bool :=
  (true, if negb initialized then true else initialized).

(* ------------------------------------------------------------------ *)
(** ** What is asked of the library *)

(** [send] accepts part of the chunk or fails. *)
Class WinsockTyped {S} (ws : Winsock S) : Prop :=
  ty_send : forall sock chunk s,
    (ws_send ws sock chunk s).1 = SOCKET_ERROR \/
    0 <= (ws_send ws sock chunk s).1 <= Z.of_nat (length chunk).

(** A peer that makes room again: each call of [send] that accepts nothing either
    ends with an error other than "would block" or uses up one of finitely many
    stalls. *)
Class Draining {S} (ws : Winsock S) (stalls : S -> nat) : Prop := {
  dr_send : forall sock chunk s, chunk <> [] ->
    let r := ws_send ws sock chunk s in
    (0 < r.1 /\ (stalls r.2 <= stalls s)%nat) \/
    (r.1 <= 0 /\ (stalls r.2 < stalls s)%nat) \/
    (r.1 = SOCKET_ERROR /\ (ws_last_error ws r.2).1 <> WSAEWOULDBLOCK);
  dr_last_error : forall s, (stalls (ws_last_error ws s).2 <= stalls s)%nat;
  dr_sleep : forall ms s, (stalls (ws_sleep ws ms s).2 <= stalls s)%nat
}.

(** The bytes the library accepted along a log. *)
Definition sent_bytes (log : list NetEvent) : list byte :=
  concat (map (fun ev => match ev with
                         | Send _ chunk rc => take (Z.to_nat rc) chunk
                         | _ => []
                         end) log).

(** The bytes it handed over. *)
Definition received_bytes (log : list NetEvent) : list byte :=
  concat (map (fun ev => match ev with
                         | Received _ _ rc data => take (Z.to_nat rc) data
                         | _ => []
                         end) log).

(* ------------------------------------------------------------------ *)
(** ** Lemmas: handles *)

Section HandleRules.
Context {S : Type} (ws : Winsock S).

Lemma holds_socket {B} live (k : Z -> Eff S NetEvent B) Q :
  (forall s, (s =? INVALID_SOCKET) = true -> holds live (k s) Q) ->
  (forall s, (s =? INVALID_SOCKET) = false -> holds ({[+ Socket s +]} ⊎ live) (k s) Q) ->
  holds live (eff_bind (call_socket ws) k) Q.
Proof.
  intros Ht Hf. apply holds_call. intros s. specialize (Ht s). specialize (Hf s). cbn.
  destruct (s =? INVALID_SOCKET); eauto.
Qed.

Lemma holds_getaddrinfo {B} live host port passive (k : Z * Z -> Eff S NetEvent B) Q :
  (forall r, negb (r.1 =? 0) || (r.2 =? 0) = true -> holds live (k r) Q) ->
  (forall r, negb (r.1 =? 0) || (r.2 =? 0) = false ->
     holds ({[+ AddrInfo r.2 +]} ⊎ live) (k r) Q) ->
  holds live (eff_bind (call_getaddrinfo ws host port passive) k) Q.
Proof.
  intros Ht Hf. apply holds_call. intros r. specialize (Ht r). specialize (Hf r). cbn.
  destruct (negb _ || _); eauto.
Qed.

Lemma holds_accept {B} live l (k : Z -> Eff S NetEvent B) Q :
  Socket l ∈ live ->
  (forall s, (s =? INVALID_SOCKET) = true -> holds live (k s) Q) ->
  (forall s, (s =? INVALID_SOCKET) = false -> holds ({[+ Socket s +]} ⊎ live) (k s) Q) ->
  holds live (eff_bind (call_accept ws l) k) Q.
Proof.
  intros Hl Ht Hf. apply holds_call. intros s. specialize (Ht s). specialize (Hf s).
  destruct (s =? INVALID_SOCKET) eqn:E.
  - exists live. split; [|auto]. cbn [actions_of net_ledger]. rewrite E. by apply acts_use.
  - eexists. split; [|by apply Hf]. cbn [actions_of net_ledger]. rewrite E. by apply acts_use.
Qed.

End HandleRules.

Ltac net_step :=
  first
    [ apply holds_socket; (let H := fresh "Hs" in intros ? H; rewrite H)
    | apply holds_getaddrinfo; (let H := fresh "Hr" in intros ? H; rewrite H)
    | apply holds_accept; [multiset_solver|..]; (let H := fresh "Ha" in intros ? H; rewrite !H)
    | ledger_step ].

(** The handles after an attempt to open a socket: it, or nothing new. *)
Definition opened_only {T} (live : Handles) (sock_of : T -> Z) (r : Result T) (live' : Handles)
  : Prop :=
  match r with
  | Ok t => live' = {[+ Socket (sock_of t) +]} ⊎ live
  | Err _ => live' = live
  end.

Lemma opened_err {T} live (f : T -> Z) code msg live' :
  live' = live -> opened_only live f (error_result code msg) live'.
Proof. done. Qed.

Section Handles.
Context {S : Type} (ws : Winsock S).

Lemma connected_holds live s timeout :
  (s =? INVALID_SOCKET) = false ->
  holds ({[+ Socket s +]} ⊎ live) (connected ws s timeout) (opened_only live id).
Proof.
  intros Hs. unfold connected, wrap_socket. rewrite Hs. repeat net_step. done.
Qed.

Lemma await_connected_holds live s timeout :
  (s =? INVALID_SOCKET) = false ->
  holds ({[+ Socket s +]} ⊎ live) (await_connected ws s timeout) (opened_only live id).
Proof.
  intros Hs. unfold await_connected.
  repeat first [ by apply connected_holds | net_step ]; apply opened_err; multiset_solver.
Qed.

Lemma tcp_connect_holds live host port timeout :
  holds live (tcp_connect ws host port timeout) (opened_only live id).
Proof.
  unfold tcp_connect, last_error_result. net_step; [repeat net_step; done|].
  net_step; [repeat net_step; apply opened_err; multiset_solver|].
  do 3 net_step. replace (_ ∖ _) with ({[+ Socket s +]} ⊎ live) by multiset_solver.
  repeat first [ by apply connected_holds | by apply await_connected_holds | net_step ];
    apply opened_err; multiset_solver.
Qed.

Lemma tcp_bind_holds live host port :
  holds live (tcp_bind ws host port) (opened_only live fst).
Proof.
  unfold tcp_bind, last_error_result.
  repeat net_step; first [apply opened_err | unfold opened_only, fst]; multiset_solver.
Qed.

Lemma tcp_accept_holds live l timeout :
  Socket l ∈ live -> holds live (tcp_accept ws l timeout) (opened_only live id).
Proof.
  intros Hl. unfold tcp_accept, last_error_result, wrap_socket.
  repeat net_step; first [apply opened_err; multiset_solver | done].
Qed.

Lemma recv_some_opt_holds live sock cap :
  Socket sock ∈ live -> holds live (recv_some_opt ws sock cap) (fun _ live' => live' = live).
Proof.
  intros Hs. unfold recv_some_opt. repeat ledger_step; done.
Qed.

Lemma send_loop_holds live fuel sock data :
  Socket sock ∈ live -> holds live (send_loop ws fuel sock data) (fun _ live' => live' = live).
Proof.
  intros Hs. revert data. induction fuel as [|fuel IH]; intros [|b data]; cbn [send_loop];
    try by apply holds_ret.
  ledger_step. match goal with |- holds _ (if ?c then _ else _) _ => destruct c end; [|apply IH].
  ledger_step. match goal with |- holds _ (if ?c then _ else _) _ => destruct c end;
    [|by apply holds_ret].
  ledger_step. apply IH.
Qed.

Lemma send_all_holds live fuel sock data :
  Socket sock ∈ live -> holds live (send_all ws fuel sock data) (fun _ live' => live' = live).
Proof.
  intros Hs. unfold send_all. destruct (_ =? _); [by apply holds_ret|by apply send_loop_holds].
Qed.

Lemma set_timeout_holds live sock ms :
  Socket sock ∈ live -> holds live (set_timeout ws sock ms) (fun _ live' => live' = live).
Proof.
  intros Hs. unfold set_timeout. destruct (_ =? _); [by apply holds_ret|].
  apply holds_last. intros []. exists live. split; [by apply acts_use|done].
Qed.

End Handles.

(* ------------------------------------------------------------------ *)
(** ** Lemmas: sending *)

Lemma send_chunk_prefix data : exists rest, data = send_chunk data ++ rest.
Proof.
  unfold send_chunk. case_branch; [|exists []; by rewrite app_nil_r].
  eexists. symmetry. apply take_drop.
Qed.

Lemma send_chunk_nonempty data : data <> [] -> send_chunk data <> [].
Proof.
  unfold send_chunk. case_branch; [|done]. intros Hd. destruct data as [|b data]; [done|].
  replace (Z.to_nat 0x7FFFFFFF) with (Datatypes.S (Z.to_nat 0x7FFFFFFE))
    by (rewrite <- Z2Nat.inj_succ by lia; reflexivity). done.
Qed.

(** Accepting part of the chunk is accepting part of the data. *)
Lemma chunk_accepted data n :
  0 <= n <= Z.of_nat (length (send_chunk data)) ->
  take (Z.to_nat n) (send_chunk data) ++ drop (Z.to_nat n) data = data.
Proof.
  intros Hn. destruct (send_chunk_prefix data) as [rest E].
  rewrite E at 2. rewrite drop_app_le by lia. rewrite app_assoc, take_drop. done.
Qed.

(** A stream of whole messages. *)
Lemma drain_frames ms :
  Forall message_fits ms ->
  stream_view (drain (concat (map message_frame ms))) =
    (map (fun m => MkFrame (m_type m) (encode_message m)) ms, inl []).
Proof.
  intros Hms.
  replace (map message_frame ms) with
    (map (fun f => encode_frame (f_type f) (f_payload f))
       (map (fun m => MkFrame (m_type m) (encode_message m)) ms)) by (by rewrite map_map).
  rewrite drain_encoded; [done|]. apply Forall_map.
  eapply Forall_impl; [exact Hms|]. apply message_fits_frame.
Qed.

(** How the bytes accepted relate to the data, by the way the loop ended. *)
Definition sent_as (data : list byte) (r : option (Result unit)) (sent : list byte) : Prop :=
  match r with
  | Some (Ok _) => sent = data
  | _ => sent `prefix_of` data
  end.

Lemma sent_as_app a data r sent : sent_as data r sent -> sent_as (a ++ data) r (a ++ sent).
Proof.
  destruct r as [[]|]; cbn; [by intros ->|apply prefix_app|apply prefix_app].
Qed.

Section Sending.
Context {S : Type} (ws : Winsock S).

Lemma send_loop_logs {Hty : WinsockTyped ws} fuel sock data :
  logs (send_loop ws fuel sock data) (fun r log => sent_as data r (sent_bytes log)).
Proof.
  revert data. induction fuel as [|fuel IH]; intros [|b data]; cbn [send_loop];
    try (apply logs_ret; try done; apply prefix_nil).
  set (bytes := b :: data).
  apply (logs_call_where (fun rc => rc = SOCKET_ERROR \/
    0 <= rc <= Z.of_nat (length (send_chunk bytes)))); [intros s; apply ty_send|].
  intros rc Hrc. destruct (Z.eqb_spec rc SOCKET_ERROR) as [->|Hne].
  - apply logs_call. intros err. destruct (err =? WSAEWOULDBLOCK).
    + apply logs_call. intros _. eapply logs_weaken; [apply IH|]. intros r log Hr. exact Hr.
    + apply logs_ret. apply prefix_nil.
  - destruct Hrc as [|Hrc]; [done|]. eapply logs_weaken; [apply IH|]. intros r log Hr.
    change (sent_bytes (Send sock (send_chunk bytes) rc :: log)) with
      (take (Z.to_nat rc) (send_chunk bytes) ++ sent_bytes log).
    rewrite <- (chunk_accepted bytes rc Hrc) at 1. by apply sent_as_app.
Qed.

Lemma send_loop_fuel (stalls : S -> nat) {Hdr : Draining ws stalls} fuel sock data s :
  (length data + stalls s <= fuel)%nat ->
  eff_result (send_loop ws fuel sock data) s <> None.
Proof.
  enough (forall f s, (length data + stalls s <= f)%nat ->
    runs (send_loop ws f sock data) s (fun r _ _ => r <> None)) as H by apply H.
  clear s fuel. intros fuel. revert data.
  induction fuel as [|fuel IH]; intros [|b data] s Hf; cbn [send_loop];
    try (by apply runs_ret); [cbn in Hf; lia|].
  set (bytes := b :: data) in *.
  pose proof (dr_send sock (send_chunk bytes) s ltac:(by apply send_chunk_nonempty)) as Hs.
  cbn zeta in Hs. destruct (ws_send ws sock (send_chunk bytes) s) as [rc s1] eqn:E.
  cbn [fst snd] in Hs. eapply runs_call; [exact E|].
  destruct (Z.eqb_spec rc SOCKET_ERROR) as [->|Hne].
  - pose proof (dr_last_error s1) as Hl.
    destruct (ws_last_error ws s1) as [err s2] eqn:E2. cbn [fst snd] in *.
    eapply runs_call; [exact E2|]. destruct (Z.eqb_spec err WSAEWOULDBLOCK) as [->|Herr];
      [|by apply runs_ret].
    pose proof (dr_sleep 1 s2) as Hsl. destruct (ws_sleep ws 1 s2) as [[] s3] eqn:E3.
    cbn [snd] in Hsl. eapply runs_call; [exact E3|]. apply IH.
    unfold SOCKET_ERROR in Hs. destruct Hs as [[? _]|[[_ ?]|[_ ?]]]; [lia|lia|done].
  - apply IH. rewrite length_drop. cbn [length] in Hf |- *. fold bytes.
    destruct Hs as [[Hpos Hst]|[[Hle Hst]|[-> _]]]; [|lia|done].
    assert (length bytes = Datatypes.S (length data)) by done. lia.
Qed.

Lemma sent_bytes_app l1 l2 : sent_bytes (l1 ++ l2) = sent_bytes l1 ++ sent_bytes l2.
Proof. unfold sent_bytes. by rewrite map_app, concat_app. Qed.

Lemma received_bytes_app l1 l2 : received_bytes (l1 ++ l2) = received_bytes l1 ++ received_bytes l2.
Proof. unfold received_bytes. by rewrite map_app, concat_app. Qed.

Lemma send_all_logs {Hty : WinsockTyped ws} fuel sock data :
  logs (send_all ws fuel sock data) (fun r log => sent_as data r (sent_bytes log)).
Proof.
  unfold send_all. destruct (sock =? kClosedSocket); [|apply send_loop_logs].
  apply logs_ret. apply prefix_nil.
Qed.

Lemma send_messages_logs {Hty : WinsockTyped ws} fuel sock ms :
  logs (send_messages ws fuel sock ms)
    (fun r log => r = Some (Ok tt) -> sent_bytes log = concat (map message_frame ms)).
Proof.
  induction ms as [|m ms IH]; cbn [send_messages]; [by apply logs_ret|].
  eapply logs_bind; [apply send_all_logs|]. intros r l Hr.
  destruct r as [[[]|]|]; [|by apply logs_ret..].
  eapply logs_weaken; [exact IH|]. intros r l' Hl ->. cbn [map concat].
  rewrite sent_bytes_app, (Hl eq_refl). cbn in Hr. by rewrite Hr.
Qed.

Lemma recv_some_opt_logs sock cap :
  logs (recv_some_opt ws sock cap)
    (fun r log => concat (data_chunks [recv_event r]) = received_bytes log).
Proof.
  unfold recv_some_opt. destruct (sock =? kClosedSocket); [by apply logs_ret|].
  apply logs_call. intros [rc data]. cbn [fst snd].
  destruct (Z.eqb_spec rc 0) as [->|H0]; [by apply logs_ret|].
  destruct (Z.eqb_spec rc SOCKET_ERROR) as [->|H1].
  - apply logs_call. intros err. apply logs_ret. by destruct (_ || _).
  - apply logs_ret. done.
Qed.

Lemma recv_events_logs n sock :
  logs (recv_events ws n sock) (fun evs log => concat (data_chunks evs) = received_bytes log).
Proof.
  induction n as [|n IH]; cbn [recv_events]; [by apply logs_ret|].
  eapply logs_bind; [apply recv_some_opt_logs|]. intros r l Hr.
  eapply logs_bind; [exact IH|]. intros evs l' Hevs. apply logs_ret.
  rewrite !received_bytes_app, <- Hr, <- Hevs.
  change (received_bytes []) with ([] : list byte). rewrite app_nil_r, <- concat_app.
  f_equal. unfold data_chunks. by rewrite <- omap_app.
Qed.

End Sending.

(* ------------------------------------------------------------------ *)
(** ** Properties *)

(** C24. Sockets: whatever the socket library answers, [connect], [bind] and [accept]
    release every address list they resolve, use only sockets that are open, and on
    every path leave open exactly the socket they return, or nothing on an error. *)
Theorem sockets_settled {S} (ws : Winsock S) host port timeout listener s :
  (exists live, settle ∅ (eff_log (tcp_connect ws host port timeout) s) = Some live /\
     opened_only ∅ id (eff_result (tcp_connect ws host port timeout) s) live) /\
  (exists live, settle ∅ (eff_log (tcp_bind ws host port) s) = Some live /\
     opened_only ∅ fst (eff_result (tcp_bind ws host port) s) live) /\
  (exists live,
     settle {[+ Socket listener +]} (eff_log (tcp_accept ws listener timeout) s) = Some live /\
     opened_only {[+ Socket listener +]} id (eff_result (tcp_accept ws listener timeout) s) live).
Proof.
  split_and!.
  - exact (tcp_connect_holds ws ∅ host port timeout s).
  - exact (tcp_bind_holds ws ∅ host port s).
  - apply (tcp_accept_holds ws {[+ Socket listener +]} listener timeout). multiset_solver.
Qed.

(** [send_all] sends the data or says so: if it reports success the library accepted
    exactly the data, in order and once, whatever partial sends and stalls occurred;
    otherwise a prefix of it. *)
Theorem send_all_delivers {S} (ws : Winsock S) `{!WinsockTyped ws} fuel sock data s :
  sent_as data (eff_result (send_all ws fuel sock data) s)
    (sent_bytes (eff_log (send_all ws fuel sock data) s)).
Proof.
  unfold send_all. destruct (sock =? kClosedSocket).
  - apply prefix_nil.
  - exact (send_loop_logs ws fuel sock data s).
Qed.

(** C31. [send_all] returns: against a peer that stalls finitely often, [length data]
    plus the number of stalls bounds the turns of its loop. *)
Theorem send_all_terminates {S} (ws : Winsock S) (stalls : S -> nat) `{!Draining ws stalls}
    fuel sock data s :
  (length data + stalls s <= fuel)%nat -> eff_result (send_all ws fuel sock data) s <> None.
Proof.
  intros Hf. unfold send_all. destruct (sock =? kClosedSocket); [done|].
  by apply (send_loop_fuel ws stalls).
Qed.

(** C30. Messages cross the wire: if every [send_all] of a sequence of messages succeeded,
    and the peer's receives, of whatever sizes and with whatever timeouts between
    them, have handed over the bytes the sender's library accepted, then the
    peer's decoder delivers exactly those messages, in order. *)
Theorem messages_cross_the_wire {S S'} (ws : Winsock S) (ws' : Winsock S') `{!WinsockTyped ws}
    fuel n sock sock' ms s s' :
  Forall message_fits ms ->
  eff_result (send_messages ws fuel sock ms) s = Some (Ok tt) ->
  received_bytes (eff_log (recv_events ws' n sock') s') =
    sent_bytes (eff_log (send_messages ws fuel sock ms) s) ->
  stream_view (stream_chunks [] (data_chunks (eff_result (recv_events ws' n sock') s'))) =
    (map (fun m => MkFrame (m_type m) (encode_message m)) ms, inl []) /\
  Forall (fun m => decode_message (encode_message m) = Ok m) ms.
Proof.
  intros Hms Hok Hwire. split.
  - rewrite stream_chunks_view by done. cbn [app].
    rewrite (recv_events_logs ws' n sock' s'), Hwire, (send_messages_logs ws fuel sock ms s Hok).
    by apply drain_frames.
  - eapply Forall_impl; [exact Hms|]. intros m Hm. apply message_decodes. apply Hm.
Qed.
