(* ===== verification/SocketOwner.v ===== *)
(** * Ownership of sockets ([TcpStream] and [TcpListener] of [transport/transport.hpp])

    The two handle classes are movable and not copyable: construction from a
    socket, move construction, move assignment, [close] and the destructor. A
    program is a sequence of these operations on named objects; the theorem is that
    every socket handed to an object is closed exactly once. *)

From stdpp Require Import gmultiset.
From S2P Require Import Prelude Core Effects Transport.

(** What the two classes have in common: the socket held, the value of a
    default-constructed or moved-from object, and the object after its socket was
    closed. *)
Class SocketHolder (A : Type) := {
  sock_of : A -> Z;
  vacant : A;
  vacate : A -> A
}.

(** Their destructor, assignment and [close] rely on this. *)
Class HolderLaws (A : Type) `{SocketHolder A} : Prop := {
  vacant_closed : sock_of vacant = kClosedSocket;
  vacate_closed : forall a, sock_of (vacate a) = kClosedSocket
}.

(** [TcpStream]: the member [sock_]. *)
Record TcpStream := MkStream { st_sock : Z }.
#[export] Instance stream_holder : SocketHolder TcpStream := {|
  sock_of := st_sock;
  vacant := MkStream kClosedSocket;
  vacate := fun _ => MkStream kClosedSocket
|}.
#[export] Instance stream_laws : HolderLaws TcpStream.
Proof. by split. Qed.

(** [TcpListener]: [sock_] and [port_]. A moved-from listener loses its port, a
    closed one keeps it. *)
Record TcpListener := MkListener { li_sock : Z; li_port : Z }.
#[export] Instance listener_holder : SocketHolder TcpListener := {|
  sock_of := li_sock;
  vacant := MkListener kClosedSocket 0;
  vacate := fun l => MkListener kClosedSocket (li_port l)
|}.
#[export] Instance listener_laws : HolderLaws TcpListener.
Proof. by split. Qed.

Section Owner.
Context {A : Type} `{SocketHolder A}.

Definition is_open (a : A) : bool := negb (sock_of a =? kClosedSocket).

(** [close]: the object after it, and the sockets closed. *)
Definition close (a : A) : A * list Z :=
  if is_open a then (vacate a, [sock_of a]) else (a, []).

(** The move constructor: the new object and the source after it. *)
Definition move_construct (other : A) : A * A := (other, vacant).

(** The move assignment of distinct objects: the target, the source, and the sockets
    closed. *)
Definition move_assign (this other : A) : A * A * list Z :=
  let '(_, closed) := close this in (other, vacant, closed).

(** An operation on the objects of a program, by name. *)
Inductive OwnerOp :=
  | Default (i : nat)                 (** default construction *)
  | Adopt (i : nat) (a : A)           (** construction around a socket just opened *)
  | MoveConstruct (i j : nat)
  | MoveAssign (i j : nat)
  | Close (i : nat)
  | Destroy (i : nat).

(** The effect of an operation: the objects, the sockets opened, the sockets closed.
    A name is constructed once; an operation on a name that is not an object does
    not compile, and does nothing here. *)
Definition hold_step (op : OwnerOp) (objs : gmap nat A) : gmap nat A * list Z * list Z :=
  match op with
  | Default i => match objs !! i with
                 | None => (<[i := vacant]> objs, [], [])
                 | Some _ => (objs, [], [])
                 end
  | Adopt i a => match objs !! i with
                 | None => (<[i := a]> objs, if is_open a then [sock_of a] else [], [])
                 | Some _ => (objs, [], [])
                 end
  | MoveConstruct i j =>
      match objs !! i, objs !! j with
      | None, Some other =>
          let '(this, other) := move_construct other in (<[i := this]> (<[j := other]> objs), [], [])
      | _, _ => (objs, [], [])
      end
  | MoveAssign i j =>
      match objs !! i, objs !! j with
      | Some this, Some other =>
          if decide (i = j) then (objs, [], [])
          else let '(this, other, closed) := move_assign this other in
               (<[i := this]> (<[j := other]> objs), [], closed)
      | _, _ => (objs, [], [])
      end
  | Close i => match objs !! i with
               | Some this => let '(this, closed) := close this in (<[i := this]> objs, [], closed)
               | None => (objs, [], [])
               end
  | Destroy i => match objs !! i with
                 | Some this => (delete i objs, [], (close this).2)
                 | None => (objs, [], [])
                 end
  end.

Fixpoint hold_run (ops : list OwnerOp) (objs : gmap nat A) : gmap nat A * list Z * list Z :=
  match ops with
  | [] => (objs, [], [])
  | op :: ops =>
      let '(objs, opened, closed) := hold_step op objs in
      let '(objs, opened', closed') := hold_run ops objs in
      (objs, opened ++ opened', closed ++ closed')
  end.

(** The sockets the objects hold, as a multiset. *)
Definition held_by (a : A) : gmultiset Z := if is_open a then {[+ sock_of a +]} else ∅.
Definition held (objs : gmap nat A) : gmultiset Z := map_fold (fun _ a m => held_by a ⊎ m) ∅ objs.

Definition sockets (l : list Z) : gmultiset Z := list_to_set_disj l.

(* ------------------------------------------------------------------ *)
(** ** Lemmas *)

(** Decides an equation between multisets of sockets. *)
Ltac balance :=
  cbv beta iota; unfold sockets in *;
  rewrite ?list_to_set_disj_nil, ?list_to_set_disj_cons in *; multiset_solver.

Lemma sockets_elements l : elements (sockets l) ≡ₚ l.
Proof.
  unfold sockets. induction l as [|x l IH].
  - by rewrite list_to_set_disj_nil, gmultiset_elements_empty.
  - by rewrite list_to_set_disj_cons, gmultiset_elements_disj_union,
      gmultiset_elements_singleton, IH.
Qed.

Lemma held_insert i a objs : objs !! i = None -> held (<[i := a]> objs) = held_by a ⊎ held objs.
Proof.
  intros Hi. unfold held. rewrite map_fold_insert_L; [done| |done].
  intros. balance.
Qed.

Lemma held_delete i a objs : objs !! i = Some a -> held objs = held_by a ⊎ held (delete i objs).
Proof.
  intros Hi. unfold held. rewrite (map_fold_delete_L _ _ i a); [done| |done].
  intros. balance.
Qed.

(** Replacing an object changes what is held by that object only. *)
Lemma held_replace i a b objs :
  objs !! i = Some a -> held (<[i := b]> objs) ⊎ held_by a = held_by b ⊎ held objs.
Proof.
  intros Hi. rewrite <- insert_delete_eq, held_insert by apply lookup_delete_eq.
  rewrite (held_delete i a objs Hi). balance.
Qed.

Context `{!HolderLaws A}.

Lemma held_vacant : held_by vacant = ∅.
Proof. unfold held_by, is_open. by rewrite vacant_closed, Z.eqb_refl. Qed.

Lemma close_held a : held_by a = sockets (close a).2 /\ held_by (close a).1 = ∅.
Proof.
  unfold close, held_by. destruct (is_open a) eqn:E; cbn [fst snd].
  - unfold is_open at 1. rewrite vacate_closed, Z.eqb_refl. split; [|done].
    balance.
  - by rewrite E.
Qed.

Lemma sockets_app l1 l2 : sockets (l1 ++ l2) = sockets l1 ⊎ sockets l2.
Proof. apply list_to_set_disj_app. Qed.

(** One operation: what was held and opened is what was closed and is held. *)
Lemma hold_step_balanced op objs :
  let '(objs', opened, closed) := hold_step op objs in
  held objs ⊎ sockets opened = sockets closed ⊎ held objs'.
Proof.
  destruct op as [i|i a|i j|i j|i|i]; cbn [hold_step].
  - destruct (objs !! i) eqn:Hi; [balance|].
    rewrite held_insert, held_vacant by done. balance.
  - destruct (objs !! i) eqn:Hi; [balance|]. rewrite held_insert by done.
    unfold held_by. destruct (is_open a); balance.
  - destruct (objs !! i) eqn:Hi; [balance|].
    destruct (objs !! j) as [b|] eqn:Hj; [|balance]. cbn [move_construct].
    rewrite held_insert by (rewrite lookup_insert_ne; congruence).
    pose proof (held_replace j b vacant objs Hj) as E. rewrite held_vacant in E. balance.
  - destruct (objs !! i) as [a|] eqn:Hi; [|balance].
    destruct (objs !! j) as [b|] eqn:Hj; [|balance].
    destruct (decide (i = j)) as [|Hne]; [balance|]. unfold move_assign.
    destruct (close_held a) as [Ea _]. destruct (close a) as [a' closed]. cbn [snd] in Ea.
    pose proof (held_replace j b vacant objs Hj) as E. rewrite held_vacant in E.
    pose proof (held_replace i a b (<[j := vacant]> objs)
      ltac:(by rewrite lookup_insert_ne)) as E'. balance.
  - destruct (objs !! i) as [a|] eqn:Hi; [|balance].
    destruct (close_held a) as [Ea Ea']. destruct (close a) as [a' closed]. cbn [fst snd] in *.
    pose proof (held_replace i a a' objs Hi) as E. rewrite Ea' in E. balance.
  - destruct (objs !! i) as [a|] eqn:Hi; [|balance].
    destruct (close_held a) as [Ea _]. rewrite (held_delete i a objs Hi). balance.
Qed.

Lemma hold_run_balanced ops objs :
  let '(objs', opened, closed) := hold_run ops objs in
  held objs ⊎ sockets opened = sockets closed ⊎ held objs'.
Proof.
  revert objs. induction ops as [|op ops IH]; intros objs; cbn [hold_run]; [balance|].
  pose proof (hold_step_balanced op objs) as Hs.
  destruct (hold_step op objs) as [[objs1 opened] closed]. specialize (IH objs1).
  destruct (hold_run ops objs1) as [[objs2 opened'] closed'].
  rewrite !sockets_app. balance.
Qed.

(** C32. Every socket is closed exactly once: along any sequence of constructions, moves,
    closes and destructions that starts and ends without objects, the sockets
    closed are, with multiplicity, the sockets adopted; and before the end the
    difference is what the objects hold. *)
Theorem sockets_closed_once ops :
  let '(objs, opened, closed) := hold_run ops ∅ in
  sockets opened = sockets closed ⊎ held objs /\ (objs = ∅ -> closed ≡ₚ opened).
Proof.
  pose proof (hold_run_balanced ops ∅) as Hb.
  destruct (hold_run ops ∅) as [[objs opened] closed].
  change (held ∅) with (∅ : gmultiset Z) in Hb. split; [balance|].
  intros ->. change (held ∅) with (∅ : gmultiset Z) in Hb.
  assert (sockets closed = sockets opened) as E by balance.
  by rewrite <- (sockets_elements closed), E, sockets_elements.
Qed.

End Owner.
