(* ===== verification/TransportWitness.v ===== *)
(** * A scripted socket library

    A library whose sends and receives follow a script: the instances of the
    theorems on the transport, and the behaviours worth knowing. *)

From stdpp Require Import gmultiset relations.
From S2P Require Import Prelude Core Codec Effects Message Framing Coordinator Agent EndToEnd.
From S2P Require Import EndToEndWitness Transport SocketOwner.

(** What each send accepts (0: it would block), the error to report, what is to be
    received and in which amounts (0: nothing yet), and the next handle. *)
Record Net := MkNet {
  net_sends : list nat;
  net_error : Z;
  net_incoming : list byte;
  net_recvs : list nat;
  net_next : Z
}.

Definition net_send (_ : Z) (chunk : list byte) (s : Net) : Z * Net :=
  match net_sends s with
  | [] => (Z.of_nat (length chunk), s)
  | O :: rest =>
      (SOCKET_ERROR, MkNet rest WSAEWOULDBLOCK (net_incoming s) (net_recvs s) (net_next s))
  | n :: rest =>
      (Z.of_nat (Nat.min n (length chunk)),
       MkNet rest (net_error s) (net_incoming s) (net_recvs s) (net_next s))
  end.

Definition net_recv (_ cap : Z) (s : Net) : (Z * list byte) * Net :=
  match net_recvs s with
  | [] => ((0, []), s)
  | O :: rest =>
      ((SOCKET_ERROR, []), MkNet (net_sends s) WSAETIMEDOUT (net_incoming s) rest (net_next s))
  | n :: rest =>
      let data := take (Nat.min n (Z.to_nat cap)) (net_incoming s) in
      ((Z.of_nat (length data), data),
       MkNet (net_sends s) (net_error s) (drop (length data) (net_incoming s)) rest (net_next s))
  end.

Definition net_open (s : Net) : Z * Net :=
  (net_next s, MkNet (net_sends s) (net_error s) (net_incoming s) (net_recvs s) (net_next s + 1)).

(** [bind_rc] is what [bind] answers; closing a socket clears the last error. *)
Definition net_library (bind_rc : Z) : Winsock Net := {|
  ws_socket := net_open;
  ws_last_error := fun s => (net_error s, s);
  ws_getaddrinfo := fun _ _ _ s => let (p, s) := net_open s in ((0, p), s);
  ws_freeaddrinfo := fun _ s => (tt, s);
  ws_ioctl_nonblocking := fun _ _ s => (tt, s);
  ws_connect := fun _ _ s => (0, s);
  ws_select := fun _ _ _ s => (1, s);
  ws_so_error := fun _ s => (0, s);
  ws_set_timeouts := fun _ _ s => (tt, s);
  ws_set_reuseaddr := fun _ s => (tt, s);
  ws_closesocket := fun _ s =>
    (tt, MkNet (net_sends s) 0 (net_incoming s) (net_recvs s) (net_next s));
  ws_send := net_send;
  ws_recv := net_recv;
  ws_bind := fun _ _ s =>
    (bind_rc, MkNet (net_sends s) 10048 (net_incoming s) (net_recvs s) (net_next s));
  ws_getsockname := fun _ s => (7000, s);
  ws_listen := fun _ s => (0, s);
  ws_accept := fun _ s => net_open s;
  ws_getpeername := fun _ s => (("127.0.0.1", 7000), s);
  ws_sleep := fun _ s => (tt, s)
|}.

Definition net : Winsock Net := net_library 0.

#[export] Instance net_typed : WinsockTyped net.
Proof.
  intros sock chunk s. cbn. unfold net_send.
  destruct (net_sends s) as [|[|n] rest]; cbn [fst]; [right; lia|by left|right; lia].
Qed.

Definition net_stalls (s : Net) : nat := length (filter (fun n => n = 0%nat) (net_sends s)).

#[export] Instance net_draining : Draining net net_stalls.
Proof.
  split; [|intros s; apply Nat.le_refl|intros ms s; apply Nat.le_refl].
  intros sock chunk [sends e inc recvs nx] Hc r. subst r. cbn. unfold net_send, net_stalls.
  cbn [net_sends]. destruct sends as [|[|n] rest]; cbn [fst snd net_sends].
  - left. split; [|done]. destruct chunk; [done|]. cbn. lia.
  - right. left. split; [done|]. rewrite filter_cons_True by done. cbn. lia.
  - left. split; [|by rewrite filter_cons_False].
    destruct chunk; [done|]. cbn [length]. lia.
Qed.

(* ------------------------------------------------------------------ *)
(** ** Witnesses *)

(** A send that would block twice and is otherwise cut into pieces. *)
Definition slow_net : Net := MkNet [3; 0; 10; 0; 1]%nat 0 [] [] 1.

Lemma send_all_terminates_witness :
  eff_result (send_all net 60 5 (replicate 50 Byte.x07)) slow_net <> None.
Proof.
  apply (send_all_terminates net net_stalls). vm_compute. lia.
Defined.

Lemma send_all_delivers_witness :
  sent_bytes (eff_log (send_all net 60 5 (replicate 50 Byte.x07)) slow_net) =
    replicate 50 Byte.x07.
Proof.
  pose proof (send_all_delivers net 60 5 (replicate 50 Byte.x07) slow_net) as H.
  replace (eff_result (send_all net 60 5 (replicate 50 Byte.x07)) slow_net) with (Some (Ok tt))
    in H by (vm_compute; reflexivity).
  exact H.
Defined.

(** Two messages through the slow sender, received in pieces with timeouts. *)
Definition wire_messages : list Message :=
  [hello_message sample_agent; heartbeat_message registered_agent].
Definition wire_peer : Net :=
  MkNet [] 0 (concat (map message_frame wire_messages)) [5; 0; 100; 1; 0; 500]%nat 1.

Lemma wire_messages_fit : Forall message_fits wire_messages.
Proof.
  repeat apply Forall_cons_2; [..|apply Forall_nil_2];
    apply agent_message_fits; try apply sample_agent_wf; try apply registered_agent_wf;
    try enum_wf_solve; wf_const.
Qed.

Lemma messages_cross_the_wire_witness :
  stream_view (stream_chunks []
    (data_chunks (eff_result (recv_events net 6 9) wire_peer))) =
  (map (fun m => MkFrame (m_type m) (encode_message m)) wire_messages, inl []).
Proof.
  apply (messages_cross_the_wire net net 1000 6 5 9 wire_messages slow_net wire_peer);
    [exact wire_messages_fit|vm_compute; reflexivity|vm_compute; reflexivity].
Defined.

(** Three streams and a listener-like life: adopted, moved twice, closed early or by
    the destructor. *)
Example stream_life :
  hold_run [Adopt 0 (MkStream 7); Adopt 1 (MkStream 8); Default 2; MoveAssign 2 0;
             MoveAssign 2 1; Close 1; MoveConstruct 3 2; Destroy 0; Destroy 1; Destroy 2; Destroy 3]
    (∅ : gmap nat TcpStream) = (∅, [7; 8], [7; 8]).
Proof. vm_compute. reflexivity. Qed.

(* ------------------------------------------------------------------ *)
(** ** What a reader of the documentation would not expect *)

(** [TcpListener::bind] asks for the error after it has closed the socket: on a
    library whose [closesocket] clears the error, the reason is lost. *)
Example bind_error_lost :
  eff_result (tcp_bind (net_library SOCKET_ERROR) "" 7000) slow_net =
    error_result Io "winsock error 0".
Proof. vm_compute. reflexivity. Qed.

(** Two threads in [send_all] on one stream: each turn of a loop takes some bytes of
    one of them. The header promises that a send is internally synchronised; no
    lock is taken. *)
Inductive sends_step : list byte * list byte * list byte -> list byte * list byte * list byte -> Prop :=
  | First n a b wire : sends_step (a, b, wire) (drop n a, b, wire ++ take n a)
  | Second n a b wire : sends_step (a, b, wire) (a, drop n b, wire ++ take n b).

Lemma sends_interleave n a b : rtc sends_step (a, b, []) ([], [], take n a ++ b ++ drop n a).
Proof.
  eapply rtc_l; [apply (First n)|]. eapply rtc_l; [apply (Second (length b))|].
  eapply rtc_l; [apply (First (length a))|].
  rewrite !drop_all, (take_ge b) by done.
  rewrite (drop_ge (drop n a)), (take_ge (drop n a)) by (rewrite length_drop; lia).
  cbn [app]. rewrite <- app_assoc. apply rtc_refl.
Qed.

(** Their frames can reach the peer mixed, and the peer drops the connection. *)
Definition mixed_wire : list byte :=
  take 20 (message_frame (hello_message sample_agent)) ++
  message_frame (heartbeat_message registered_agent) ++
  drop 20 (message_frame (hello_message sample_agent)).

Example concurrent_sends_corrupt :
  rtc sends_step
    (message_frame (hello_message sample_agent), message_frame (heartbeat_message registered_agent), [])
    ([], [], mixed_wire) /\
  match stream_view (stream_chunks [] [mixed_wire]) with (fs, inr _) => fs = [] | _ => False end.
Proof. split; [apply sends_interleave|vm_compute; reflexivity]. Qed.
