(* ===== verification/Wire.v ===== *)
(** * A connection over its socket ([src/coordinator/coordinator.cpp], over
      [src/src/transport/transport.cpp])

    [handle_connection] as it runs: each receive, each dispatch and each reply in
    turn, over a socket library, until the stream's destructor closes the socket.
    It does what the connection of [Coordinator] does, whose receives are a list. *)

From stdpp Require Import gmultiset.
From S2P Require Import Prelude Core Codec Effects Message Framing Store Coordinator.
From S2P Require Import CoordinatorSafety Agent EndToEnd Transport.

(** The replies, with what sending each returned; the source does not look at it. *)
Definition Sent : Type := list (Message * Result unit).

Section Connection.
Context {S : Type} (ws : Winsock S) (fuel : nat).

(** [while (res == FrameReady)]: the reply is sent before the next frame is looked
    for. [None] when [send_all] runs out of fuel. *)
Fixpoint serve_io (n : nat) (env : Env) (sock : Z) (c : Coordinator) (cn : Conn)
  : Eff S NetEvent (option (Coordinator * Conn * Sent * ConnEnd)) :=
  match n with
  | O => eff_ret (Some (c, cn, [], Open))
  | Datatypes.S n =>
      match serve_one (env (co_tick c)).1 (env (co_tick c)).2 c cn with
      | None => eff_ret (Some (c, cn, [], Open))
      | Some (c1, cn1, reply, e) =>
          sr <- send_all ws fuel sock (message_frame reply) ;;
          match sr with
          | None => eff_ret None
          | Some sr =>
              match e with
              | Dropped => eff_ret (Some (c1, cn1, [(reply, sr)], Dropped))
              | Open =>
                  rest <- serve_io n env sock c1 cn1 ;;
                  eff_ret (match rest with
                           | Some (c2, cn2, out, e) => Some (c2, cn2, (reply, sr) :: out, e)
                           | None => None
                           end)
              end
          end
      end
  end.

(** [while (running_)]: [turns] turns until the coordinator stops. *)
Fixpoint connection_loop (running : bool) (turns : nat) (env : Env) (sock : Z) (c : Coordinator) (cn : Conn)
  : Eff S NetEvent (option (Coordinator * Sent)) :=
  match turns with
  | O => eff_ret (Some (c, []))
  | Datatypes.S turns =>
      rr <- recv_some_opt ws sock (64 * 1024) ;;
      match rr with
      | Err _ | Ok (Some []) => eff_ret (Some (close_connection running (env (co_tick c)).1 c cn, []))
      | Ok None => connection_loop running turns env sock c cn
      | Ok (Some data) =>
          let buf := cn_buf cn ++ data in
          r <- serve_io (Datatypes.S (length buf)) env sock c (MkConn buf (cn_worker cn)) ;;
          match r with
          | None => eff_ret None
          | Some (c1, _, out, Dropped) => eff_ret (Some (c1, out))
          | Some (c1, cn1, out, Open) =>
              rest <- connection_loop running turns env sock c1 cn1 ;;
              eff_ret (match rest with
                       | Some (c2, out') => Some (c2, out ++ out')
                       | None => None
                       end)
          end
      end
  end.

Definition handle_stream (running : bool) (turns : nat) (env : Env) (sock : Z) (c : Coordinator)
  : Eff S NetEvent (option (Coordinator * Sent)) :=
  r <- connection_loop running turns env sock c conn_init ;;
  match r with
  | None => eff_ret None
  | Some r => call_closesocket ws sock ;;; eff_ret (Some r)
  end.

(* ------------------------------------------------------------------ *)
(** ** Lemmas: bytes *)

(** Every reply went out: its frame is what the library accepted. *)
Definition all_sent (out : Sent) : Prop := Forall (fun r => r.2 = Ok tt) out.
Definition replies (out : Sent) : list Message := map fst out.

Lemma send_all_receives_nothing sock data :
  logs (send_all ws fuel sock data) (fun _ log => received_bytes log = []).
Proof.
  unfold send_all. destruct (sock =? kClosedSocket); [by apply logs_ret|].
  revert data. induction fuel as [|f IH]; intros [|b data]; cbn [send_loop]; try by apply logs_ret.
  apply logs_call. intros rc. destruct (rc =? SOCKET_ERROR); [|apply IH].
  apply logs_call. intros err. destruct (err =? WSAEWOULDBLOCK); [|by apply logs_ret].
  apply logs_call. intros _. apply IH.
Qed.

Lemma recv_some_opt_sends_nothing sock cap :
  logs (recv_some_opt ws sock cap) (fun _ log => sent_bytes log = []).
Proof.
  unfold recv_some_opt. repeat logs_step; done.
Qed.

Context {Hty : WinsockTyped ws}.

Definition served_as (env : Env) (n : nat) (c : Coordinator) (cn : Conn)
  (r : option (Coordinator * Conn * Sent * ConnEnd)) (log : list NetEvent) : Prop :=
  received_bytes log = [] /\
  forall c' cn' out e, r = Some (c', cn', out, e) ->
    serve n env c cn = (c', cn', replies out, e) /\
    (all_sent out -> sent_bytes log = concat (map message_frame (replies out))).

(** Two conditions on the log of one routine. *)
Lemma logs_and {A} (m : Eff S NetEvent A) (P Q : A -> list NetEvent -> Prop) :
  logs m P -> logs m Q -> logs m (fun a l => P a l /\ Q a l).
Proof. intros HP HQ s. split; [apply HP|apply HQ]. Qed.

Lemma serve_io_logs n env sock c cn : logs (serve_io n env sock c cn) (served_as env n c cn).
Proof.
  revert c cn. induction n as [|n IH]; intros c cn; cbn [serve_io serve].
  { apply logs_ret. split; [done|]. by intros ? ? ? ? [= <- <- <- <-]. }
  unfold served_as. cbn [serve].
  destruct (serve_one _ _ c cn) as [[[[c1 cn1] reply] e]|].
  2:{ apply logs_ret. split; [done|]. by intros ? ? ? ? [= <- <- <- <-]. }
  eapply logs_bind; [apply logs_and; [apply (send_all_logs ws)|apply send_all_receives_nothing]|].
  intros [sr|] l [Hsent Hrecv]; [|apply logs_ret; split; [by rewrite app_nil_r|done]].
  assert (sr = Ok tt -> sent_bytes l = message_frame reply) as Hone by (intros ->; exact Hsent).
  destruct e.
  - eapply logs_bind; [apply IH|]. intros rest l' [Hr' Hrest]. apply logs_ret.
    rewrite app_nil_r, received_bytes_app, Hrecv, Hr'. split; [done|].
    destruct rest as [[[[c2 cn2] out2] e2]|]; [|done].
    destruct (Hrest _ _ _ _ eq_refl) as [-> Hout]. intros ? ? ? ? [= <- <- <- <-]. split; [done|].
    intros [Ho Hall]%Forall_cons. cbn in *. by rewrite sent_bytes_app, (Hone Ho), (Hout Hall).
  - apply logs_ret. rewrite app_nil_r. split; [done|]. intros ? ? ? ? [= <- <- <- <-]. split; [done|].
    intros [Ho _]%Forall_cons. cbn in *. by rewrite app_nil_r, (Hone Ho).
Qed.

(** What the connection of [Coordinator] would have received. *)
Definition served_events (running : bool) (env : Env) (turns : nat) (c : Coordinator) (cn : Conn)
  (r : option (Coordinator * Sent)) (log : list NetEvent) : Prop :=
  forall c' out, r = Some (c', out) -> exists events,
    (length events <= turns)%nat /\ concat (data_chunks events) = received_bytes log /\
    handle_connection running env events c cn = (c', replies out) /\
    (all_sent out -> sent_bytes log = concat (map message_frame (replies out))).

Lemma served_events_here running env turns c cn c' ev log :
  concat (data_chunks [ev]) = received_bytes log -> sent_bytes log = [] ->
  handle_connection running env [ev] c cn = (c', []) ->
  served_events running env (Datatypes.S turns) c cn (Some (c', [])) (log ++ []).
Proof.
  intros Hr Hs Hc c1 out [= <- <-]. exists [ev]. rewrite app_nil_r.
  split_and!; [cbn; lia|done|done|done].
Qed.

(** A receive that changes nothing, or whose frames are served, and what follows. *)
Lemma served_events_more running env turns c cn c1 cn1 out1 ev (r : option (Coordinator * Sent)) l l1 l2 :
  concat (data_chunks [ev]) = received_bytes l -> sent_bytes l = [] -> received_bytes l1 = [] ->
  (forall evs, handle_connection running env (ev :: evs) c cn =
     let '(c2, out2) := handle_connection running env evs c1 cn1 in (c2, replies out1 ++ out2)) ->
  (all_sent out1 -> sent_bytes l1 = concat (map message_frame (replies out1))) ->
  served_events running env turns c1 cn1 r l2 ->
  served_events running env (Datatypes.S turns) c cn
    (match r with Some (c2, out2) => Some (c2, out1 ++ out2) | None => None end) (l ++ l1 ++ l2).
Proof.
  intros Hev Hnone Hl1 Hstep Hsent Hrest. destruct r as [[c2 out2]|]; [|done].
  intros c3 out [= <- <-]. destruct (Hrest _ _ eq_refl) as (evs & Hn & Hb & Hh & Hs).
  exists (ev :: evs). split_and!.
  - cbn. lia.
  - rewrite !received_bytes_app, <- Hev, Hl1, <- Hb. cbn [app]. rewrite <- concat_app.
    f_equal. unfold data_chunks. by rewrite <- omap_app.
  - rewrite Hstep, Hh. unfold replies. by rewrite map_app.
  - intros Hall. apply Forall_app in Hall as [H1 H2].
    rewrite !sent_bytes_app, Hnone, (Hsent H1), (Hs H2). unfold replies.
    by rewrite map_app, map_app, concat_app.
Qed.

Lemma connection_loop_logs running turns env sock c cn :
  logs (connection_loop running turns env sock c cn) (served_events running env turns c cn).
Proof.
  revert c cn. induction turns as [|turns IH]; intros c cn; cbn [connection_loop].
  { apply logs_ret. intros c' out [= <- <-]. by exists []. }
  eapply logs_bind; [apply logs_and; [apply recv_some_opt_logs|apply recv_some_opt_sends_nothing]|].
  intros rr l [Hr Hs]. destruct rr as [[[|b data]|]|e]; cbn [recv_event] in Hr.
  - apply logs_ret. eapply served_events_here; [exact Hr|exact Hs|reflexivity].
  - eapply logs_bind; [apply serve_io_logs|]. intros r l1 [Hl1 Hserve].
    destruct r as [[[[c1 cn1] out1] [|]]|]; [| |by apply logs_ret].
    + destruct (Hserve _ _ _ _ eq_refl) as [Hsv Hout].
      eapply logs_bind; [apply IH|]. intros r l2 Hrest. apply logs_ret. rewrite app_nil_r.
      eapply served_events_more; [exact Hr|exact Hs|exact Hl1| |exact Hout|exact Hrest].
      intros evs. cbn [handle_connection]. unfold serve_chunk. by rewrite Hsv.
    + destruct (Hserve _ _ _ _ eq_refl) as [Hsv Hout]. apply logs_ret. rewrite app_nil_r.
      intros c' out [= <- <-]. exists [RecvData (b :: data)]. split_and!; [cbn; lia| | |].
      * by rewrite received_bytes_app, Hl1, app_nil_r.
      * cbn [handle_connection]. unfold serve_chunk. by rewrite Hsv.
      * intros Hall. by rewrite sent_bytes_app, Hs, (Hout Hall).
  - eapply logs_weaken; [apply IH|]. intros r l2 Hrest.
    assert (match r with Some (c2, out2) => Some (c2, [] ++ out2) | None => None end = r) as <-
      by (by destruct r as [[c2 out2]|]).
    change (l ++ l2) with (l ++ [] ++ l2).
    eapply (served_events_more running env turns c cn c cn [] RecvNone); [exact Hr|exact Hs|done| |done|exact Hrest].
    intros evs. cbn [handle_connection]. by destruct (handle_connection running env evs c cn).
  - apply logs_ret. eapply served_events_here; [exact Hr|exact Hs|reflexivity].
Qed.

End Connection.

Section ConnectionHandles.
Context {S : Type} (ws : Winsock S) (fuel : nat).

Lemma serve_io_holds live n env sock c cn :
  Socket sock ∈ live -> holds live (serve_io ws fuel n env sock c cn) (fun _ live' => live' = live).
Proof.
  intros Hs. revert c cn. induction n as [|n IH]; intros c cn; cbn [serve_io]; [by apply holds_ret|].
  destruct (serve_one _ _ c cn) as [[[[c1 cn1] reply] e]|]; [|by apply holds_ret].
  eapply holds_bind; [by apply send_all_holds|]. intros [sr|] live' ->; [|by apply holds_ret].
  destruct e; [|by apply holds_ret].
  eapply holds_bind; [apply IH|]. intros rest live' ->. by apply holds_ret.
Qed.

Lemma connection_loop_holds live running turns env sock c cn :
  Socket sock ∈ live ->
  holds live (connection_loop ws fuel running turns env sock c cn) (fun _ live' => live' = live).
Proof.
  intros Hs. revert c cn. induction turns as [|turns IH]; intros c cn; cbn [connection_loop];
    [by apply holds_ret|].
  eapply holds_bind; [by apply recv_some_opt_holds|]. intros rr live' ->.
  destruct rr as [[[|b data]|]|e]; [by apply holds_ret| |apply IH|by apply holds_ret].
  eapply holds_bind; [by apply serve_io_holds|]. intros r live' ->.
  destruct r as [[[[c1 cn1] out1] [|]]|]; [|by apply holds_ret..].
  eapply holds_bind; [apply IH|]. intros rest live' ->. by apply holds_ret.
Qed.

Lemma handle_stream_holds running turns env sock c :
  holds {[+ Socket sock +]} (handle_stream ws fuel running turns env sock c)
    (fun r live => match r with Some _ => live = ∅ | None => True end).
Proof.
  unfold handle_stream. eapply holds_bind; [apply connection_loop_holds; multiset_solver|].
  intros [r|] live ->; [|by apply holds_ret]. repeat ledger_step. multiset_solver.
Qed.

End ConnectionHandles.

(* ------------------------------------------------------------------ *)
(** ** Properties *)

(** C22. A connection over its socket refines the connection over a list of receives: on
    any socket library, whatever it answers, a handler that ends has done to the
    coordinator exactly what [handle_connection] does on receives that carry the
    bytes the library handed over; if every send succeeded the library accepted the
    frames of exactly its replies, in order; and the socket is closed once, used
    only before, and nothing else is left open. *)
Theorem connection_over_socket {S} (ws : Winsock S) `{!WinsockTyped ws} fuel running turns env sock c s c' out :
  eff_result (handle_stream ws fuel running turns env sock c) s = Some (c', out) ->
  let log := eff_log (handle_stream ws fuel running turns env sock c) s in
  settle {[+ Socket sock +]} log = Some (∅ : Handles) /\
  exists events, (length events <= turns)%nat /\
    concat (data_chunks events) = received_bytes log /\
    handle_connection running env events c conn_init = (c', replies out) /\
    (all_sent out -> sent_bytes log = concat (map message_frame (replies out))).
Proof.
  intros Hr log. split.
  - destruct (handle_stream_holds ws fuel running turns env sock c s) as (live & Hl & Hq).
    rewrite Hr in Hq. subst live. exact Hl.
  - assert (logs (handle_stream ws fuel running turns env sock c) (served_events running env turns c conn_init)) as H.
    { unfold handle_stream. eapply logs_bind; [by apply connection_loop_logs|].
      intros [[c1 o1]|] l Hev; [|by apply logs_ret]. apply logs_call. intros u. apply logs_ret.
      intros c2 o2 E. destruct (Hev _ _ E) as (evs & Hn & Hb & Hh & Hs). exists evs.
      rewrite received_bytes_app, sent_bytes_app.
      change (received_bytes [_]) with ([] : list byte). change (sent_bytes [_]) with ([] : list byte).
      by rewrite !app_nil_r. }
    exact (H s c' out Hr).
Qed.
