(* ===== verification/WireWitness.v ===== *)
(** * One connection over a scripted socket

    The sample agent's registration and snapshot arrive in pieces over the scripted
    library; the replies go out through a sender that blocks now and then. *)

From stdpp Require Import gmultiset.
From S2P Require Import Prelude Core Codec Effects Message Framing Store Coordinator.
From S2P Require Import CoordinatorSafety Agent EndToEnd EndToEndWitness Transport.
From S2P Require Import TransportWitness Wire.

Definition agent_bytes : list byte := register_bytes ++ publish_bytes registered_agent.

(** Seven bytes, nothing, the rest, and then the agent closes. *)
Definition agent_net : Net := MkNet [3; 0; 200]%nat 0 agent_bytes [7; 0; 4000; 1]%nat 6.

Definition wired : option (Coordinator * Sent) :=
  eff_result (handle_stream net 1000 true 10 sample_env 5 sample_coordinator) agent_net.

Definition wired_result : Coordinator * Sent := default (sample_coordinator, []) wired.

Lemma connection_over_socket_witness :
  settle {[+ Socket 5 +]} (eff_log (handle_stream net 1000 true 10 sample_env 5 sample_coordinator) agent_net)
    = Some (∅ : Handles) /\
  exists events, handle_connection true sample_env events sample_coordinator conn_init =
    (wired_result.1, replies wired_result.2).
Proof.
  destruct (connection_over_socket net 1000 true 10 sample_env 5 sample_coordinator agent_net
    wired_result.1 wired_result.2) as (H1 & events & _ & _ & H2 & _).
  - vm_compute. reflexivity.
  - split; [exact H1|]. exists events. exact H2.
Defined.

(** Both requests were accepted and their replies sent. *)
Example wired_replies :
  map m_ok (replies wired_result.2) = [true; true] /\
  map snd wired_result.2 = [Ok tt; Ok tt].
Proof. vm_compute. auto. Qed.
