(* ===== verification/Accessors.v ===== *)
(** * The remaining small operations

    Accessors and helpers that no other component calls: the cursor of the reader,
    the optional integers of the observation codec, hashing and printing of the
    strong types, the decoder's buffer, the store's accessors, the names of the
    capabilities, the version constants and the listener's [close]. *)

From S2P Require Import Prelude Core Codec WireFormats Framing Identity Device Health Eligibility.
From S2P Require Import Observation Change Pipeline Registration FleetState Effects Transport SocketOwner.
From S2P Require Import Cuda CudaBackend.

(* ------------------------------------------------------------------ *)
(** ** [core/codec.hpp] *)

(** The accessors of [ByteWriter]; [take] moves the buffer out. *)
Definition w_data (w : ByteWriter) : list byte := w.
Definition w_size (w : ByteWriter) : Z := Z.of_nat (length w).
Definition w_take (w : ByteWriter) : list byte * ByteWriter := (w, []).

Definition rd_position (r : ByteReader) : Z := Z.of_nat (rd_pos r).
(** [skip]: the sum is a [size_t]. *)
Definition rd_skip (n : Z) (r : ByteReader) : ByteReader :=
  let sum := wrap 64 (rd_position r + n) in
  if sum >? rd_size r then MkReader (rd_data r) (length (rd_data r))
  else MkReader (rd_data r) (Z.to_nat sum).

(* ------------------------------------------------------------------ *)
(** ** [observation/observation_codec.hpp] *)

Definition write_optional_u32 (v : option Z) (w : ByteWriter) : ByteWriter :=
  let w := w_u8 (match v with Some _ => 1 | None => 0 end) w in
  match v with Some x => w_u32 x w | None => w end.

Definition read_optional_u32 : Parser Error (option Z) :=
  present ← rd_u8 ?? MkError Truncated "optional presence truncated";
  if present =? 0 then mret None
  else v ← rd_u32 ?? MkError Truncated "optional value truncated"; mret (Some v).

(* ------------------------------------------------------------------ *)
(** ** [core/strong.hpp], [identity/device_identity.hpp] *)

(** [std::hash] of the strong types, over the standard library's [std::hash<Rep>]. *)
Definition id_hash {t} (hash_rep : Z -> Z) (a : StrongId t) : Z := hash_rep (id_value a).
Definition gen_hash {t} (hash_rep : Z -> Z) (g : Generation t) : Z := hash_rep (gen_value g).

(** [operator<<]: the stream's text with the value's appended. *)
Definition id_print {t} (os : string) (a : StrongId t) : string := os +:+ id_to_string a.
Definition gen_print {t} (os : string) (g : Generation t) : string := os +:+ gen_to_string g.

Record DeviceIdentityKey := MkKey { dik_value : string }.
Definition key_eqb (a b : DeviceIdentityKey) : bool := bool_decide (dik_value a = dik_value b).

(* ------------------------------------------------------------------ *)
(** ** [protocol/framing.hpp]: the decoder's buffer *)

Definition decoder_buffered (buf : list byte) : Z := Z.of_nat (length buf).
Definition decoder_reset (_ : list byte) : list byte := [].

(* ------------------------------------------------------------------ *)
(** ** [fleet/fleet_state.hpp]: the accessors, each under the lock *)

Definition accounting (st : FleetState) : Accounting := recompute_accounting st.
Definition changes (st : FleetState) : list ChangeRecord := fs_change_log st.
Definition accepted_observations (st : FleetState) : Z := fs_accepted st.
Definition update_worker_devices (enumerated : list string) (wr : WorkerRecord) : WorkerRecord :=
  MkWorker (w_worker wr) (w_boot wr) (w_registration_generation wr) (w_node wr) (w_agent wr)
    (w_agent_version wr) (w_protocol_version wr) (w_os_platform wr) (w_driver_version wr)
    enumerated (w_supported_capabilities wr) (w_registered_at wr) (w_last_heartbeat wr)
    (w_registered_epoch wr) (w_alive wr) (w_fenced wr) (w_lost wr).

(* ------------------------------------------------------------------ *)
(** ** [version.hpp], [capability/capability.hpp] *)

Definition kProductName : string := "GPU Fleet Agent".
Definition kVersion : SemanticVersion := MkSemanticVersion 1 0 0.
Definition kVersionString : string := "1.0.0".

(** The constants of [capname], in order. *)
Definition capname : list string :=
  ["vendor"; "architecture"; "compute_capability"; "total_memory"; "usable_memory"; "cuda_available";
   "runtime"; "dtypes"; "tensor_cores"; "peer_access"; "unified_addressing"; "graphs";
   "cooperative_launch"; "kernel_execution"; "memory_roundtrip"; "numa"; "mig"; "driver"].

(* ------------------------------------------------------------------ *)
(** ** [TcpListener::close] *)

Definition listener_close {S} (ws : Winsock S) (l : TcpListener) : Eff S NetEvent TcpListener :=
  if negb (li_sock l =? kClosedSocket) then
    call_closesocket ws (li_sock l) ;;; eff_ret (MkListener kClosedSocket (li_port l))
  else eff_ret l.

(* ------------------------------------------------------------------ *)
(** ** Lemmas *)

Lemma write_optional_u32_spec v w : write_optional_u32 v w = w ++ enc_optional be32 v.
Proof. destruct v; unfold write_optional_u32; writer_norm; reflexivity. Qed.

(* ------------------------------------------------------------------ *)
(** ** Properties *)

(** Optional integers round-trip: what is written is read back, at any place of a
    message, and the cursor is past it. *)
Theorem optional_u32_roundtrip v :
  (forall x, v = Some x -> is_u32 x) ->
  parses (fun e => err_code e = Truncated) read_optional_u32 (enc_optional be32 v) v /\
  forall w, write_optional_u32 v w = w ++ enc_optional be32 v.
Proof.
  intros Hv. split; [|intros w; apply write_optional_u32_spec].
  apply (parses_optional _ rd_u32 be32 v); [done|done|]. intros x Hx. by apply wire_u32, Hv.
Qed.

(** Skipping within 64 bits never passes the end and never moves back; past them it
    wraps and does move back. *)
Theorem skip_bounded r n :
  (rd_pos r <= length (rd_data r))%nat -> rd_size r < 2 ^ 63 -> 0 <= n ->
  (n < 2 ^ 63 ->
     rd_position (rd_skip n r) = Z.min (rd_position r + n) (rd_size r)) /\
  (n = 2 ^ 64 - 1 -> (0 < rd_pos r)%nat -> rd_position (rd_skip n r) = rd_position r - 1).
Proof.
  unfold rd_skip, rd_position, rd_size. intros Hp Hs Hn. change (2 ^ 63) with 9223372036854775808 in *.
  change (2 ^ 64) with 18446744073709551616. split.
  - intros Hn'. rewrite wrap_small by (unfold is_u; change (2 ^ 64) with 18446744073709551616; lia).
    destruct (_ >? _) eqn:E; zbool; cbn [rd_pos]; lia.
  - intros -> Hp'. unfold wrap. change (2 ^ 64) with 18446744073709551616.
    replace (Z.of_nat (rd_pos r) + (18446744073709551616 - 1))
      with (Z.of_nat (rd_pos r) - 1 + 1 * 18446744073709551616) by lia.
    rewrite Z.mod_add, Z.mod_small by lia. destruct (_ >? _) eqn:E; zbool; cbn [rd_pos]; lia.
Qed.

(** Hashes agree with equality on the strong types, whatever hash the standard
    library gives the representation, and distinct tags never meet. *)
Theorem strong_hash_respects_equality {t u} (h : Z -> Z) (a b : StrongId t) (g g' : Generation u) :
  (id_eqb a b = true -> id_hash h a = id_hash h b) /\ (gen_eqb g g' = true -> gen_hash h g = gen_hash h g').
Proof.
  split; intros E; unfold id_hash, gen_hash.
  - destruct (id_eqb_spec a b) as [->|]; done.
  - destruct (gen_eqb_spec g g') as [->|]; done.
Qed.

(** Every capability a backend publishes has a name of [capname], no name twice. *)
Theorem published_names_known id total_b free_b rv b d p :
  (Forall (fun c => cap_name c ∈ capname) (cuda_capabilities id total_b free_b rv) /\
   NoDup (map cap_name (cuda_capabilities id total_b free_b rv))) /\
  (synthetic_probe b d = Ok p ->
   Forall (fun c => cap_name c ∈ capname) (p_capabilities p) /\ NoDup (map cap_name (p_capabilities p))).
Proof.
  split; [split|intros [= <-]; split]; unfold cuda_capabilities, make_cap; cbn [map cap_name p_capabilities].
  - repeat (apply List.Forall_cons; [by apply (bool_decide_unpack _); vm_compute|]). apply List.Forall_nil.
  - by apply (bool_decide_unpack _); vm_compute.
  - repeat (apply List.Forall_cons; [by apply (bool_decide_unpack _); vm_compute|]). apply List.Forall_nil.
  - by apply (bool_decide_unpack _); vm_compute.
Qed.

(** Closing a listener closes its socket once: the second [close] does nothing. *)
Theorem listener_close_once {S} (ws : Winsock S) l s :
  li_sock l <> kClosedSocket ->
  eff_log (listener_close ws l) s = [CloseSocket (li_sock l)] /\
  eff_log (listener_close ws (eff_result (listener_close ws l) s)) (eff_state (listener_close ws l) s) = [].
Proof.
  intros Hl. unfold listener_close. destruct (Z.eqb_spec (li_sock l) kClosedSocket) as [|_]; [done|].
  cbn [negb]. unfold eff_log, eff_result, eff_state, eff_bind, call_closesocket, eff_call, eff_ret.
  destruct (ws_closesocket ws (li_sock l) s) as [u s']. done.
Qed.
