(* ===== verification/Json.v ===== *)
(** * JSON: the grammar the command line tool's output is held to

    A reader for the values the tool prints (RFC 8259: objects, arrays, strings,
    non-negative integers, booleans), and the printer they are compared with. The
    escaping is the tool's own [jesc] ([src/tools/gpufleet.cpp]). *)

From S2P Require Import Prelude.

Definition char (n : N) : ascii := Ascii.ascii_of_N n.
Definition quote : ascii := char 34.
Definition backslash : ascii := char 92.
Definition newline : ascii := char 10.
Definition tab : ascii := char 9.
Definition comma : ascii := char 44.
Definition code (c : ascii) : N := Ascii.N_of_ascii c.

Definition str1 (c : ascii) : string := String c "".
Definition str2 (c d : ascii) : string := String c (String d "").

(** One character of [jesc]. *)
Definition jesc_char (c : ascii) : string :=
  if Ascii.eqb c quote then str2 backslash quote
  else if Ascii.eqb c backslash then str2 backslash backslash
  else if Ascii.eqb c newline then str2 backslash (char 110)
  else if Ascii.eqb c tab then str2 backslash (char 116)
  else str1 c.

Fixpoint jesc (s : string) : string :=
  match s with
  | "" => ""
  | String c s => jesc_char c +:+ jesc s
  end%string.

(** The tool's [J]. *)
Definition J (s : string) : string := str1 quote +:+ jesc s +:+ str1 quote.

#[local] Unset Elimination Schemes.
Inductive json :=
  | JNum (n : Z)
  | JBool (b : bool)
  | JStr (s : string)
  | JArr (l : list json)
  | JObj (l : list (string * json)).
#[local] Set Elimination Schemes.

Fixpoint join (l : list string) : string :=
  match l with
  | [] => ""
  | [x] => x
  | x :: l => x +:+ "," +:+ join l
  end.

Definition bool_text (b : bool) : string := if b then "true" else "false".

(** A member of an object. *)
Definition field (k v : string) : string := J k +:+ ":" +:+ v.

Fixpoint render (j : json) : string :=
  match j with
  | JNum n => to_dec n
  | JBool b => bool_text b
  | JStr s => J s
  | JArr l => "[" +:+ join (map render l) +:+ "]"
  | JObj l => "{" +:+ join (map (fun kv => field kv.1 (render kv.2)) l) +:+ "}"
  end.

(* ------------------------------------------------------------------ *)
(** ** The reader *)

(** The escapes of one character the grammar has. *)
Definition unescape (c : ascii) : option ascii :=
  if Ascii.eqb c quote then Some quote
  else if Ascii.eqb c backslash then Some backslash
  else if Ascii.eqb c (char 47) then Some (char 47)
  else if Ascii.eqb c (char 110) then Some newline
  else if Ascii.eqb c (char 116) then Some tab
  else if Ascii.eqb c (char 114) then Some (char 13)
  else if Ascii.eqb c (char 98) then Some (char 8)
  else if Ascii.eqb c (char 102) then Some (char 12)
  else None.

(** The rest of a string, up to its closing quote. A control character may not
    appear unescaped. *)
Fixpoint read_chars (s : string) : option (string * string) :=
  match s with
  | "" => None
  | String c s =>
      if Ascii.eqb c quote then Some ("", s)
      else if Ascii.eqb c backslash then
        match s with
        | "" => None
        | String e s =>
            match unescape e, read_chars s with
            | Some x, Some (t, rest) => Some (String x t, rest)
            | _, _ => None
            end
        end
      else if (code c <? 32)%N then None
      else match read_chars s with
           | Some (t, rest) => Some (String c t, rest)
           | None => None
           end
  end%string.

Definition read_string (s : string) : option (string * string) :=
  match s with
  | String c s => if Ascii.eqb c quote then read_chars s else None
  | _ => None
  end.

Definition is_dec (c : ascii) : bool := ((48 <=? code c) && (code c <=? 57))%N.

Fixpoint read_digits (s : string) (acc : Z) : Z * string :=
  match s with
  | String c s' => if is_dec c then read_digits s' (acc * 10 + digit_value c) else (acc, s)
  | _ => (acc, s)
  end.

(** A number has no leading zero. *)
Definition read_number (s : string) : option (Z * string) :=
  match s with
  | String c s' =>
      if negb (is_dec c) then None
      else if Ascii.eqb c (char 48) then Some (0, s')
      else Some (read_digits s 0)
  | _ => None
  end.

(** A literal at the head of the input. *)
Fixpoint strip (lit s : string) : option string :=
  match lit, s with
  | "", _ => Some s
  | String a lit, String b s => if Ascii.eqb a b then strip lit s else None
  | _, _ => None
  end%string.

(** Items separated by commas up to a closing character. *)
Fixpoint read_items {A} (item : string -> option (A * string)) (close : ascii) (n : nat)
  (s : string) : option (list A * string) :=
  match n with
  | O => None
  | S n =>
      match item s with
      | Some (x, String c s) =>
          if Ascii.eqb c close then Some ([x], s)
          else if Ascii.eqb c comma then
            match read_items item close n s with
            | Some (l, s) => Some (x :: l, s)
            | None => None
            end
          else None
      | _ => None
      end
  end.

(** A possibly empty sequence, after its opening character. *)
Definition read_seq {A} (item : string -> option (A * string)) (close : ascii) (s : string)
  : option (list A * string) :=
  match s with
  | String c s' =>
      if Ascii.eqb c close then Some ([], s') else read_items item close (String.length s) s
  | _ => None
  end.

Definition read_member (value : string -> option (json * string)) (s : string)
  : option ((string * json) * string) :=
  match read_string s with
  | Some (k, s) =>
      match strip ":" s with
      | Some s => match value s with Some (v, s) => Some ((k, v), s) | None => None end
      | None => None
      end
  | None => None
  end.

(** A value, to a depth of nesting. *)
Fixpoint read_value (depth : nat) (s : string) : option (json * string) :=
  match depth with
  | O => None
  | S depth =>
      match s with
      | "" => None
      | String c s' =>
          if Ascii.eqb c quote then
            match read_chars s' with Some (t, s) => Some (JStr t, s) | None => None end
          else if Ascii.eqb c (char 91) then
            match read_seq (read_value depth) (char 93) s' with
            | Some (l, s) => Some (JArr l, s)
            | None => None
            end
          else if Ascii.eqb c (char 123) then
            match read_seq (read_member (read_value depth)) (char 125) s' with
            | Some (l, s) => Some (JObj l, s)
            | None => None
            end
          else if Ascii.eqb c (char 116) then
            match strip "true" s with Some s => Some (JBool true, s) | None => None end
          else if Ascii.eqb c (char 102) then
            match strip "false" s with Some s => Some (JBool false, s) | None => None end
          else match read_number s with Some (n, s) => Some (JNum n, s) | None => None end
      end%string
  end.

(** A document: one value and nothing after it. *)
Definition read_document (depth : nat) (s : string) : option json :=
  match read_value depth s with
  | Some (j, "") => Some j
  | _ => None
  end%string.

(* ------------------------------------------------------------------ *)
(** ** What can be read back *)

(** No control character but the two that [jesc] escapes. *)
Definition json_char (c : ascii) : bool :=
  (32 <=? code c)%N || Ascii.eqb c newline || Ascii.eqb c tab.
Definition json_text (s : string) : bool := str_all json_char s.

(** Values whose strings are such, whose numbers are 64-bit, and whose nesting is
    at most [depth]. *)
Fixpoint readable (depth : nat) (j : json) : Prop :=
  match depth with
  | O => False
  | S depth =>
      match j with
      | JNum n => is_u64 n
      | JBool _ => True
      | JStr s => json_text s = true
      | JArr l => Forall (readable depth) l
      | JObj l => Forall (fun kv => json_text kv.1 = true /\ readable depth kv.2) l
      end
  end.

(** The input does not go on with a digit. *)
Definition no_digit_head (s : string) : Prop :=
  match s with String c _ => is_dec c = false | _ => True end.

(* ------------------------------------------------------------------ *)
(** ** Lemmas *)

Lemma string_app_nil (a : string) : a +:+ "" = a.
Proof. induction a as [|x a IH]; [done|]. exact (f_equal (String x) IH). Qed.

(** Every character, by its code. *)
Lemma char_cases (P : ascii -> bool) : forallb P (map char (map N.of_nat (seq 0 256))) = true ->
  forall c, P c = true.
Proof.
  intros H c. apply (proj1 (forallb_forall _ _) H). apply in_map_iff.
  exists (Ascii.N_of_ascii c). split; [apply Ascii.ascii_N_embedding|]. apply in_map_iff.
  exists (N.to_nat (Ascii.N_of_ascii c)). split; [lia|]. apply in_seq.
  pose proof (Ascii.N_ascii_bounded c). lia.
Qed.

(** One escaped character is read back as that character, if the grammar has it. *)
Lemma read_chars_jesc_char c s :
  read_chars (jesc_char c +:+ s) =
    if json_char c then match read_chars s with Some (t, rest) => Some (String c t, rest) | None => None end
    else None.
Proof.
  unfold jesc_char.
  destruct (Ascii.eqb_spec c quote) as [->|Hq]; [by vm_compute|].
  destruct (Ascii.eqb_spec c backslash) as [->|Hb]; [by vm_compute|].
  destruct (Ascii.eqb_spec c newline) as [->|Hn]; [by vm_compute|].
  destruct (Ascii.eqb_spec c tab) as [->|Ht]; [by vm_compute|].
  unfold str1, json_char.
  change (String c "" +:+ s) with (String c s). cbn [read_chars].
  rewrite (proj2 (Ascii.eqb_neq _ _) Hq), (proj2 (Ascii.eqb_neq _ _) Hb),
    (proj2 (Ascii.eqb_neq _ _) Hn), (proj2 (Ascii.eqb_neq _ _) Ht), !orb_false_r.
  destruct (N.ltb_spec (code c) 32), (N.leb_spec 32 (code c)); try lia; done.
Qed.

(** Escaping is exact: the reader takes it back, and stops at the closing quote, if
    and only if the text has no control character it leaves alone. *)
Lemma read_chars_jesc s rest :
  read_chars (jesc s +:+ String quote rest) = if json_text s then Some (s, rest) else None.
Proof.
  induction s as [|c s IH]; [done|]. cbn [jesc]. unfold json_text in *. cbn [str_all].
  rewrite string_app_assoc, read_chars_jesc_char, IH.
  destruct (json_char c); [|done]. cbn [andb]. by destruct (str_all json_char s).
Qed.

Lemma read_string_J s rest :
  read_string (J s +:+ rest) = if json_text s then Some (s, rest) else None.
Proof.
  unfold J. rewrite !string_app_assoc. change (str1 quote +:+ rest) with (String quote rest).
  change (read_string (str1 quote +:+ ?x)) with (read_chars x). apply read_chars_jesc.
Qed.

(** ** Numbers *)

Lemma digit_char_dec d : 0 <= d < 10 -> is_dec (digit_char d) = true.
Proof.
  intros H. assert (exists n, d = Z.of_nat n /\ (n < 10)%nat) as (n & -> & Hn)
    by (exists (Z.to_nat d); lia).
  do 10 (destruct n as [|n]; [by vm_compute|]). lia.
Qed.

Lemma digits_go_dec fuel n acc :
  str_all is_dec acc = true -> str_all is_dec (digits_go 10 fuel n acc) = true.
Proof.
  revert n acc. induction fuel as [|fuel IH]; intros n acc Ha; cbn [digits_go]; [done|].
  pose proof (digit_char_dec (n mod 10) (Z.mod_pos_bound n 10 eq_refl)) as Hd.
  destruct (n / 10 =? 0); [|apply IH]; cbn [str_all]; by rewrite Hd.
Qed.

Lemma read_digits_app s rest acc :
  str_all is_dec s = true -> no_digit_head rest ->
  read_digits (s +:+ rest) acc = (digits_value 10 s acc, rest).
Proof.
  intros Hs Hr. revert acc Hs. induction s as [|c s IH]; intros acc Hs.
  - change ("" +:+ rest) with rest. destruct rest as [|c rest]; [done|].
    cbn [no_digit_head] in Hr. cbn [read_digits digits_value]. by rewrite Hr.
  - cbn [str_all] in Hs. apply andb_true_iff in Hs as [Hc Hs].
    change (String c s +:+ rest) with (String c (s +:+ rest)). cbn [read_digits digits_value].
    rewrite Hc. by apply IH.
Qed.

(** The first digit of a positive number is not zero. *)
Lemma digits_go_head fuel n acc :
  0 < n < 10 ^ Z.of_nat fuel -> exists c s, digits_go 10 fuel n acc = String c s /\
    Ascii.eqb c (char 48) = false.
Proof.
  revert n acc. induction fuel as [|fuel IH]; intros n acc Hn; cbn [digits_go].
  - change (10 ^ Z.of_nat 0) with 1 in Hn. lia.
  - pose proof (Z.div_mod n 10 ltac:(lia)) as Hd. pose proof (Z.mod_pos_bound n 10 eq_refl) as Hm.
    destruct (Z.eqb_spec (n / 10) 0) as [E|E].
    + eexists _, _. split; [reflexivity|]. replace (n mod 10) with n by lia.
      assert (exists k, n = Z.of_nat k /\ (0 < k < 10)%nat) as (k & -> & Hk)
        by (exists (Z.to_nat n); lia).
      do 10 (destruct k as [|k]; [first [lia | by vm_compute]|]). lia.
    + apply IH. rewrite Nat2Z.inj_succ, Z.pow_succ_r in Hn by lia.
      pose proof (Z.div_pos n 10 ltac:(lia) ltac:(lia)).
      split; [lia|]. apply Z.div_lt_upper_bound; lia.
Qed.

Lemma read_number_to_dec n rest :
  is_u64 n -> no_digit_head rest -> read_number (to_dec n +:+ rest) = Some (n, rest).
Proof.
  intros Hn Hr. destruct (Z.eq_dec n 0) as [->|Hz]; [done|].
  assert (0 < n < 10 ^ Z.of_nat 20) as Hb
    by (change (10 ^ Z.of_nat 20) with 100000000000000000000; unfold is_u in Hn; lia).
  pose proof (digits_go_dec 20 n "" eq_refl) as Hd. fold (to_dec n) in Hd.
  destruct (digits_go_head 20 n "" Hb) as (c & s & E & Hc). fold (to_dec n) in E.
  pose proof (read_digits_app (to_dec n) rest 0 Hd Hr) as Hv.
  unfold to_dec in Hv at 2. rewrite digits_value_go in Hv by lia.
  change (digits_value 10 "" n) with n in Hv.
  rewrite E in *. cbn [str_all] in Hd. apply andb_true_iff in Hd as [Hcd _].
  change (String c s +:+ rest) with (String c (s +:+ rest)) in *.
  unfold read_number. by rewrite Hcd, Hc, Hv.
Qed.

(** ** Sequences *)

Lemma read_items_join {A} (item : string -> option (A * string)) (text : A -> string)
    close l x rest n :
  is_dec close = false -> Ascii.eqb comma close = false ->
  Forall (fun y => forall r, no_digit_head r -> item (text y +:+ r) = Some (y, r)) (x :: l) ->
  (length (x :: l) <= n)%nat ->
  read_items item close n (join (map text (x :: l)) +:+ String close rest) = Some (x :: l, rest).
Proof.
  intros Hc1 Hc2. revert x n. induction l as [|y l IH]; intros x n Hall Hn;
    (destruct n as [|n]; [cbn in Hn; lia|]); apply Forall_cons in Hall as [Hx Hall].
  - cbn [map join read_items]. rewrite Hx by exact Hc1. by rewrite Ascii.eqb_refl.
  - change (join (map text (x :: y :: l))) with (text x +:+ "," +:+ join (map text (y :: l))).
    rewrite !string_app_assoc. cbn [read_items]. rewrite Hx by done.
    change ("," +:+ ?z) with (String comma z). cbn iota. rewrite Hc2, Ascii.eqb_refl.
    rewrite IH; [done|exact Hall|cbn in *; lia].
Qed.

Lemma join_length (l : list string) :
  Forall (fun t => (0 < String.length t)%nat) l -> (length l <= String.length (join l))%nat.
Proof.
  induction 1 as [|t l Ht Hl IH]; [done|]. destruct l as [|u l]; [cbn in *; lia|].
  change (join (t :: u :: l)) with (t +:+ "," +:+ join (u :: l)).
  rewrite !string_length_app. cbn [length] in *. cbn [String.length]. lia.
Qed.

Lemma read_seq_join {A} (item : string -> option (A * string)) (text : A -> string) close l rest :
  is_dec close = false -> Ascii.eqb comma close = false ->
  Forall (fun y => (0 < String.length (text y))%nat /\
                   (forall c s, text y = String c s -> Ascii.eqb c close = false) /\
                   forall r, no_digit_head r -> item (text y +:+ r) = Some (y, r)) l ->
  read_seq item close (join (map text l) +:+ String close rest) = Some (l, rest).
Proof.
  intros Hc1 Hc2 Hall. destruct l as [|x l].
  - change (join (map text []) +:+ String close rest) with (String close rest).
    unfold read_seq. by rewrite Ascii.eqb_refl.
  - pose proof (Forall_inv Hall) as (Hlen & Hhead & _).
    assert (exists c s, join (map text (x :: l)) +:+ String close rest = String c s /\
              Ascii.eqb c close = false) as (c & s & E & Hc).
    { destruct (text x) as [|c s] eqn:Ex; [cbn in Hlen; lia|].
      destruct l as [|y l]; cbn [map join]; rewrite Ex; eexists c, _;
        (split; [reflexivity|by eapply Hhead]). }
    unfold read_seq. rewrite E, Hc, <- E.
    apply read_items_join; [done|done| |].
    + eapply Forall_impl; [exact Hall|]. by intros y (_ & _ & H).
    + rewrite string_length_app.
      pose proof (join_length (map text (x :: l))) as Hj. rewrite length_map in Hj.
      enough (length (x :: l) <= String.length (join (map text (x :: l))))%nat by lia.
      apply Hj. apply Forall_map. eapply Forall_impl; [exact Hall|]. by intros y (H & _).
Qed.

(** ** Values *)

Lemma digits_go_nonempty fuel n acc : acc <> "" -> digits_go 10 fuel n acc <> "".
Proof.
  revert n acc. induction fuel as [|fuel IH]; intros n acc Ha; cbn [digits_go]; [done|].
  destruct (n / 10 =? 0); [done|]. by apply IH.
Qed.

Lemma to_dec_nonempty n : to_dec n <> "".
Proof.
  unfold to_dec. generalize 19%nat as fuel. intros fuel. cbn [digits_go].
  destruct (n / 10 =? 0); [done|]. by apply digits_go_nonempty.
Qed.

(** The head of a value's text is none of the characters that close a sequence. *)
Lemma render_head depth j :
  readable depth j -> exists c s, render j = String c s /\
    Ascii.eqb c (char 93) = false /\ Ascii.eqb c (char 125) = false.
Proof.
  destruct depth as [|depth]; [done|]. destruct j as [n|b|t|l|l]; intros Hj.
  - pose proof (digits_go_dec 20 n "" eq_refl) as Hd. fold (to_dec n) in Hd. cbn [render].
    destruct (to_dec n) as [|c s] eqn:E.
    { by apply to_dec_nonempty in E. }
    exists c, s. split; [done|]. cbn [str_all] in Hd. apply andb_true_iff in Hd as [Hd _].
    split; destruct (Ascii.eqb_spec c (char 93)), (Ascii.eqb_spec c (char 125)); subst; done.
  - by destruct b; do 2 eexists.
  - by do 2 eexists.
  - by do 2 eexists.
  - by do 2 eexists.
Qed.

Lemma render_length depth j : readable depth j -> (0 < String.length (render j))%nat.
Proof. intros Hj. destruct (render_head depth j Hj) as (c & s & -> & _). cbn. lia. Qed.

Lemma strip_app lit s : strip lit (lit +:+ s) = Some s.
Proof.
  induction lit as [|c lit IH]; [done|].
  change (String c lit +:+ s) with (String c (lit +:+ s)). cbn [strip]. by rewrite Ascii.eqb_refl.
Qed.

(** A digit starts none of the other values. *)
Lemma dec_head c :
  is_dec c = true -> Ascii.eqb c quote = false /\ Ascii.eqb c (char 91) = false /\
    Ascii.eqb c (char 123) = false /\ Ascii.eqb c (char 116) = false /\
    Ascii.eqb c (char 102) = false.
Proof. intros Hc. repeat split; apply Ascii.eqb_neq; intros ->; done. Qed.

Lemma read_number_head s n rest : read_number s = Some (n, rest) -> exists c t, s = String c t /\ is_dec c = true.
Proof.
  destruct s as [|c t]; [done|]. unfold read_number. destruct (is_dec c) eqn:E; [|done]. eauto.
Qed.

Lemma read_value_render depth j rest :
  readable depth j -> no_digit_head rest -> read_value depth (render j +:+ rest) = Some (j, rest).
Proof.
  revert j rest. induction depth as [|depth IH]; intros j rest Hj Hr; [done|].
  destruct j as [n|b|t|l|l]; cbn [readable] in Hj; cbn [render].
  - pose proof (read_number_to_dec n rest Hj Hr) as Hn.
    destruct (read_number_head _ _ _ Hn) as (c & s & E & Hc). rewrite E in *.
    destruct (dec_head c Hc) as (H1 & H2 & H3 & H4 & H5).
    cbn [read_value]. by rewrite H1, H2, H3, H4, H5, Hn.
  - by destruct b.
  - unfold J. rewrite !string_app_assoc. change (str1 quote +:+ rest) with (String quote rest).
    change (str1 quote +:+ ?x) with (String quote x). cbn [read_value].
    by rewrite Ascii.eqb_refl, read_chars_jesc, Hj.
  - rewrite !string_app_assoc. change ("]" +:+ rest) with (String (char 93) rest).
    change ("[" +:+ ?x) with (String (char 91) x). cbn [read_value].
    rewrite read_seq_join; [done|done|done|].
    eapply Forall_impl; [exact Hj|]. intros y Hy.
    destruct (render_head depth y Hy) as (c & s & E & Hc & _).
    split_and!; [by eapply render_length|intros c' s' E'; congruence|intros r; by apply IH].
  - rewrite !string_app_assoc. change ("}" +:+ rest) with (String (char 125) rest).
    change ("{" +:+ ?x) with (String (char 123) x). cbn [read_value].
    rewrite (read_seq_join (read_member (read_value depth)) (fun kv => field kv.1 (render kv.2)));
      [done|done|done|].
    eapply Forall_impl; [exact Hj|]. intros [k v] [Hk Hv]. cbn [fst snd] in *. split_and!.
    + unfold field. rewrite !string_length_app. change (String.length ":") with 1%nat. lia.
    + by intros c s [= <- _].
    + intros r Hnr. unfold field, read_member. rewrite !string_app_assoc, read_string_J, Hk.
      by rewrite strip_app, IH.
Qed.

(* ------------------------------------------------------------------ *)
(** ** Properties *)

(** The tool's JSON is JSON: whatever is printed from values whose strings have no
    control character other than the newline and the tab that [jesc] escapes is
    read back as exactly those values, with nothing left over. *)
Theorem json_roundtrip depth j : readable depth j -> read_document depth (render j) = Some j.
Proof.
  intros Hj. unfold read_document. rewrite <- (string_app_nil (render j)).
  by rewrite read_value_render.
Qed.

(** [jesc] is exact: for any text and any continuation the reader takes the escaped
    text back and stops at the closing quote if and only if the text has no other
    control character. *)
Theorem jesc_exact s rest :
  read_string (J s +:+ rest) = Some (s, rest) <-> json_text s = true.
Proof. rewrite read_string_J. by destruct (json_text s). Qed.
