(* ===== verification/Cli.v ===== *)
(** * The command line tool ([src/tools/gpufleet.cpp])

    Arguments, the request to the coordinator over the transport, the commands with
    what they print, and [main]. What a command meets outside (the socket library,
    the files, the outcome of running a server) is the record [World]. *)

From stdpp Require Import gmultiset.
From S2P Require Import Prelude Core Codec Effects Message Framing Identity Health Eligibility.
From S2P Require Import Device Observation Change Pipeline Registration WireFormats.
From S2P Require Import ObservationCodec AdminPayload FleetState FleetSteps FleetInv FleetSafety.
From S2P Require Import FleetIngest SnapshotCodec Store Coordinator CoordinatorSafety Agent.
From S2P Require Import EndToEnd Transport Json.

(* ------------------------------------------------------------------ *)
(** ** Arguments *)

Record Params := MkParams {
  pa_host : string;
  pa_port : Z;
  pa_state : string;
  pa_device : string;
  pa_worker : string;
  pa_reason : string;
  pa_source : string;
  pa_backend : string;
  pa_node : string;
  pa_worker_id : string;
  pa_boot : string;
  pa_json : bool;
  pa_command : string
}.

Definition params_default : Params :=
  MkParams "127.0.0.1" 0 "" "" "" "" "admin" "synthetic" "1" "1" "" false "".

(** The characters [std::stoi] and [std::stoull] skip first ([isspace]). *)
Definition is_space (c : ascii) : bool :=
  (code c =? 32)%N || ((9 <=? code c) && (code c <=? 13))%N.

Fixpoint skip_space (s : string) : string :=
  match s with String c s' => if is_space c then skip_space s' else s | _ => s end.

(** A sign and the digits after it: at least one; what follows is ignored. *)
Definition read_signed (s : string) : option Z :=
  let digits (s : string) := match s with
    | String c _ => if is_dec c then Some (read_digits s 0).1 else None
    | _ => None
    end in
  match skip_space s with
  | String c s' =>
      if Ascii.eqb c (char 45) then option_map Z.opp (digits s')
      else if Ascii.eqb c (char 43) then digits s'
      else digits (String c s')
  | _ => None
  end.

(** [std::stoi]: [None] when it throws. *)
Definition stoi (s : string) : option Z :=
  match read_signed s with
  | Some n => if decide (is_i32 n) then Some n else None
  | None => None
  end.

(** [std::stoull]: a negative numeral is negated in 64 bits. *)
Definition stoull (s : string) : option Z :=
  match read_signed s with
  | Some n => if Z.abs n <? 2 ^ 64 then Some (wrap 64 n) else None
  | None => None
  end.

Inductive Parsed := Parsed_ok (p : Params) | Parsed_help | Parsed_throws.

Definition set_option (a v : string) (p : Params) : Params :=
  let '(MkParams host port state device worker reason source backend node wid boot json cmd) := p in
  if bool_decide (a = "--host") then
    MkParams v port state device worker reason source backend node wid boot json cmd
  else if bool_decide (a = "--state") then
    MkParams host port v device worker reason source backend node wid boot json cmd
  else if bool_decide (a = "--device") then
    MkParams host port state v worker reason source backend node wid boot json cmd
  else if bool_decide (a = "--worker") then
    MkParams host port state device v reason source backend node wid boot json cmd
  else if bool_decide (a = "--reason") then
    MkParams host port state device worker v source backend node wid boot json cmd
  else if bool_decide (a = "--source") then
    MkParams host port state device worker reason v backend node wid boot json cmd
  else if bool_decide (a = "--backend") then
    MkParams host port state device worker reason source v node wid boot json cmd
  else if bool_decide (a = "--node-id") then
    MkParams host port state device worker reason source backend v wid boot json cmd
  else if bool_decide (a = "--worker-id") then
    MkParams host port state device worker reason source backend node v boot json cmd
  else MkParams host port state device worker reason source backend node wid v json cmd.

Definition set_port (n : Z) (p : Params) : Params :=
  MkParams (pa_host p) n (pa_state p) (pa_device p) (pa_worker p) (pa_reason p) (pa_source p)
    (pa_backend p) (pa_node p) (pa_worker_id p) (pa_boot p) (pa_json p) (pa_command p).
Definition set_json (p : Params) : Params :=
  MkParams (pa_host p) (pa_port p) (pa_state p) (pa_device p) (pa_worker p) (pa_reason p)
    (pa_source p) (pa_backend p) (pa_node p) (pa_worker_id p) (pa_boot p) true (pa_command p).
Definition set_command (c : string) (p : Params) : Params :=
  MkParams (pa_host p) (pa_port p) (pa_state p) (pa_device p) (pa_worker p) (pa_reason p)
    (pa_source p) (pa_backend p) (pa_node p) (pa_worker_id p) (pa_boot p) (pa_json p) c.

(** The options that take the next argument as a text. *)
Definition takes_text (a : string) : bool :=
  bool_decide (a ∈ ["--host"; "--state"; "--device"; "--worker"; "--reason"; "--source"; "--backend";
                    "--node-id"; "--worker-id"; "--boot-id"]).

(** [next()]: the following argument, or the empty string at the end. *)
Definition next_arg (args : list string) : string * list string :=
  match args with [] => ("", []) | v :: args => (v, args) end.

(** [parse], on the arguments after the program's name. The fuel is their number. *)
Fixpoint parse_loop (fuel : nat) (args : list string) (p : Params) : Parsed :=
  match fuel, args with
  | _, [] | O, _ => Parsed_ok p
  | S fuel, a :: args =>
      if takes_text a then
        let '(v, args) := next_arg args in parse_loop fuel args (set_option a v p)
      else if bool_decide (a = "--port") then
        let '(v, args) := next_arg args in
        match stoi v with
        | Some n => parse_loop fuel args (set_port (wrap 16 n) p)
        | None => Parsed_throws
        end
      else if bool_decide (a = "--json") then parse_loop fuel args (set_json p)
      else if bool_decide (a = "--help") || bool_decide (a = "-h") then Parsed_help
      else if bool_decide (pa_command p = "") then parse_loop fuel args (set_command a p)
      else parse_loop fuel args p
  end.

Definition parse (args : list string) : Parsed := parse_loop (length args) args params_default.

(* ------------------------------------------------------------------ *)
(** ** The request *)

(** The frames of the buffer up to the first that decodes, or the decoder's error. *)
Inductive Reply := Got (m : Message) | More (buf : list byte) | BadStream (perr : string).

Fixpoint first_reply (fuel : nat) (buf : list byte) : Reply :=
  match fuel with
  | O => More buf
  | S n =>
      match scan buf with
      | (NeedMore, buf) => More buf
      | (FeedError perr, _) => BadStream perr
      | (FrameReady pending, buf) =>
          match decode_message (f_payload pending) with
          | Ok m => Got m
          | Err _ => first_reply n buf
          end
      end
  end.

Section Request.
Context {S : Type} (ws : Winsock S).

(** At most 64 receives; a receive that finds nothing counts as one. *)
Fixpoint reply_loop (tries : nat) (sock : Z) (buf : list byte)
  : Eff S NetEvent (Result Message) :=
  match tries with
  | O => eff_ret (error_result Io "no reply from coordinator")
  | Datatypes.S tries =>
      rr <- recv_some_opt ws sock (64 * 1024) ;;
      match rr with
      | Err e => eff_ret (error_result Io ("recv: " +:+ err_message e))
      | Ok None => reply_loop tries sock buf
      | Ok (Some []) => eff_ret (error_result Io "connection closed before reply")
      | Ok (Some data) =>
          match first_reply (Datatypes.S (length (buf ++ data))) (buf ++ data) with
          | Got m => eff_ret (Ok m)
          | More buf => reply_loop tries sock buf
          | BadStream perr => eff_ret (error_result Io ("frame error: " +:+ perr))
          end
      end
  end.

(** [request]; the stream's destructor closes the socket at each return. [fuel]
    bounds the turns of the loop in [send_all]. *)
Definition request (fuel : nat) (host : string) (port : Z) (req : Message)
  : Eff S NetEvent (option (Result Message)) :=
  c <- tcp_connect ws host port 5000 ;;
  match c with
  | Err e => eff_ret (Some (error_result Io ("connect: " +:+ err_message e)))
  | Ok s =>
      set_timeout ws s 5000 ;;;
      sr <- send_all ws fuel s (message_frame req) ;;
      match sr with
      | None => eff_ret None
      | Some (Err e) =>
          call_closesocket ws s ;;; eff_ret (Some (error_result Io ("send: " +:+ err_message e)))
      | Some (Ok _) =>
          r <- reply_loop 64 s [] ;;
          call_closesocket ws s ;;; eff_ret (Some r)
      end
  end.

End Request.

(* ------------------------------------------------------------------ *)
(** ** Printing *)

Definition endl : string := str1 newline.

(** [{"k1":v1,"k2":v2}]. *)
Definition obj (l : list (string * string)) : string :=
  "{" +:+ join (map (fun kv => field kv.1 kv.2) l) +:+ "}".

Definition print_node (n : NodeRecord) (json : bool) : string :=
  if json then
    obj [("node", id_to_string (n_node n)); ("gen", gen_to_string (n_generation n))]
  else "node " +:+ id_to_string (n_node n) +:+ " gen " +:+ gen_to_string (n_generation n).

Definition print_worker (w : WorkerRecord) (json : bool) : string :=
  if json then
    obj [("worker", id_to_string (w_worker w)); ("boot", id_to_string (w_boot w));
         ("node", id_to_string (w_node w)); ("alive", bool_text (w_alive w));
         ("fenced", bool_text (w_fenced w)); ("lost", bool_text (w_lost w));
         ("os", J (w_os_platform w));
         ("devices", to_dec (Z.of_nat (length (w_device_identities w))))]
  else "worker " +:+ id_to_string (w_worker w) +:+ " boot " +:+ id_to_string (w_boot w) +:+
       " node " +:+ id_to_string (w_node w).

Definition print_device (d : DeviceState) (json : bool) : string :=
  let key := canonical_device_identity (d_identity d) in
  if json then
    obj [("id", id_to_string (d_device_id d)); ("key", J key);
         ("vendor", J (AcceleratorVendor.to_string (id_vendor (d_identity d))));
         ("pci", J (pci_to_string (id_pci (d_identity d))));
         ("arch", J (id_architecture (d_identity d)));
         ("health", J (HealthState.to_string (d_health d)));
         ("eligibility", J (EligibilityState.to_string (d_eligibility d)));
         ("present", bool_text (d_present d));
         ("drain", J (DrainState.to_string (d_drain d)));
         ("quarantined", bool_text (d_quarantined d));
         ("fresh", bool_text (d_observation_fresh d));
         ("totalMem", to_dec (d_total_memory d)); ("usedMem", to_dec (d_used_memory d));
         ("freeMem", to_dec (d_free_memory d))]
  else "device " +:+ id_to_string (d_device_id d) +:+ " key=" +:+ key +:+ " " +:+
       AcceleratorVendor.to_string (id_vendor (d_identity d)) +:+ " pci=" +:+
       pci_to_string (id_pci (d_identity d)) +:+ " arch=" +:+ id_architecture (d_identity d) +:+
       " health=" +:+ HealthState.to_string (d_health d) +:+ " elig=" +:+
       EligibilityState.to_string (d_eligibility d) +:+ " fresh=" +:+
       (if d_observation_fresh d then "yes" else "no").

(** Each item on a line of its own. *)
Definition lines {A} (text : A -> string) (l : list A) : string :=
  String.concat "" (map (fun x => text x +:+ endl) l).

(* ------------------------------------------------------------------ *)
(** ** Commands *)

(** How the process ends: an exit status with what it wrote and the files it leaves,
    an uncaught exception, or not at all: it serves, or a send stalls for longer than
    the bound given. *)
Inductive Exit :=
  | Exits (out err : string) (status : Z) (fs : FileSystem)
  | Throws
  | Serves (out : string)
  | Stalls.

(** What lies outside: the socket library with its state and the turns a send may
    take, the outcome of starting a coordinator (its port and epoch) and of running
    an agent (its boot id and result), the CUDA summary, and the file system with the
    outcomes of its calls. *)
Record World (S : Type) := MkWorld {
  wd_net : Winsock S;
  wd_state : S;
  wd_turns : nat;
  wd_coordinator : string -> Z -> string -> Result (Z * CoordinatorEpoch);
  wd_agent : Params -> NodeId -> WorkerId -> WorkerBootId -> WorkerBootId * Result unit;
  wd_cuda_summary : string;
  wd_files : FileSystem;
  wd_load : LoadIo;
  wd_save : SaveIo
}.
Arguments wd_net {S}.
Arguments wd_state {S}.
Arguments wd_turns {S}.
Arguments wd_coordinator {S}.
Arguments wd_agent {S}.
Arguments wd_cuda_summary {S}.
Arguments wd_files {S}.
Arguments wd_load {S}.
Arguments wd_save {S}.

Section Commands.
Context {S : Type} (w : World S).

(** [request(p, req)]: a command makes at most one, so the state it leaves the
    library in is not needed. *)
Definition request_to (p : Params) (req : Message) : option (Result Message) :=
  eff_result (request (wd_net w) (wd_turns w) (pa_host p) (pa_port p) req) (wd_state w).

Definition done_with (out : string) : Exit := Exits out "" 0 (wd_files w).
Definition fails (err : string) (status : Z) : Exit := Exits "" err status (wd_files w).

(** [fetch_snapshot], or how it ends the process. *)
Definition fetch_snapshot (p : Params) : StateSnapshot + Exit :=
  match request_to p (new_message MessageType.SNAPSHOT_REQUEST) with
  | None => inr Stalls
  | Some (Err e) => inr (fails ("error: " +:+ err_message e +:+ endl) 2)
  | Some (Ok r) =>
      if negb (bool_decide (m_type r = MessageType.SNAPSHOT_RESPONSE)) then
        inr (fails ("error: unexpected reply" +:+ endl) 2)
      else match decode_snapshot (m_payload r) with
           | Err e => inr (fails ("error: snapshot decode failed: " +:+ err_message e +:+ endl) 2)
           | Ok s => inl s
           end
  end.

Definition with_snapshot (p : Params) (k : StateSnapshot -> Exit) : Exit :=
  match fetch_snapshot p with inl s => k s | inr e => e end.

Definition cmd_run_coordinator (p : Params) : Exit :=
  match wd_coordinator w (pa_host p) (pa_port p) (pa_state p) with
  | Err e => fails ("coordinator error: " +:+ err_message e +:+ endl) 2
  | Ok (port, epoch) =>
      Serves ("coordinator 127.0.0.1:" +:+ to_dec port +:+ " epoch=" +:+ gen_to_string epoch +:+ endl)
  end.

Definition cmd_run_agent (p : Params) : Exit :=
  match stoull (pa_node p), stoull (pa_worker_id p),
        (if bool_decide (pa_boot p = "") then Some 0 else stoull (pa_boot p)) with
  | Some node, Some worker, Some boot =>
      let '(boot, r) := wd_agent w p (MkId node) (MkId worker) (MkId boot) in
      Exits ("agent worker=" +:+ to_dec worker +:+ " boot=" +:+ id_to_string boot +:+
             " backend=" +:+ pa_backend p +:+ endl) "" (if result_ok r then 0 else 2) (wd_files w)
  | _, _, _ => Throws
  end.

Definition count_text {A} (l : list A) : string := to_dec (Z.of_nat (length l)).

Definition snapshot_text (s : StateSnapshot) (json : bool) : string :=
  (if json then
     obj [("epoch", gen_to_string (s_epoch s)); ("workers", count_text (map_entries (s_workers s)));
          ("devices", count_text (map_entries (s_devices s)))]
   else
     "epoch=" +:+ gen_to_string (s_epoch s) +:+ " coordinator=" +:+ id_to_string (s_coordinator s) +:+
     endl +:+
     lines (fun kw => print_worker kw.2 false) (map_entries (s_workers s)) +:+
     lines (fun kd => print_device kd.2 false) (map_entries (s_devices s))) +:+ endl.

Definition cmd_snapshot (p : Params) : Exit :=
  with_snapshot p (fun s => done_with (snapshot_text s (pa_json p))).

Inductive Kind := Nodes | Workers | Devices.

(** The items of a list, separated by commas also in the plain format. *)
Definition list_items (kind : Kind) (s : StateSnapshot) (json : bool) : list string :=
  match kind with
  | Nodes => map (fun kn => print_node kn.2 json) (map_entries (s_nodes s))
  | Workers => map (fun kw => print_worker kw.2 json) (map_entries (s_workers s))
  | Devices => map (fun kd => print_device kd.2 json) (map_entries (s_devices s))
  end.

Definition list_text (kind : Kind) (s : StateSnapshot) (json : bool) : string :=
  (if json then "[" +:+ join (list_items kind s json) +:+ "]" else join (list_items kind s json)).

Definition cmd_list (p : Params) (kind : Kind) : Exit :=
  with_snapshot p (fun s => done_with (list_text kind s (pa_json p) +:+ endl)).

Definition cmd_health (p : Params) : Exit :=
  with_snapshot p (fun s => done_with (lines (fun kd =>
    HealthState.to_string (d_health kd.2) +:+ " " +:+
    EligibilityState.to_string (d_eligibility kd.2) +:+ " " +:+ kd.1) (map_entries (s_devices s)))).

Definition cmd_eligibility (p : Params) : Exit :=
  with_snapshot p (fun s => done_with (lines (fun kd =>
    EligibilityState.to_string (d_eligibility kd.2) +:+ " " +:+ kd.1 +:+ " [" +:+
    join (map EligibilityReason.to_string (d_eligibility_reasons kd.2)) +:+ "]")
    (map_entries (s_devices s)))).

Definition cmd_capabilities (p : Params) : Exit :=
  with_snapshot p (fun s => done_with (String.concat "" (map (fun kd =>
    "device " +:+ kd.1 +:+ ":" +:+ endl +:+
    lines (fun c => "  " +:+ cap_name c +:+ "=" +:+ cap_value c +:+ " [" +:+
                    CapabilityKind.to_string (cap_kind c) +:+ "]") (d_capabilities kd.2))
    (map_entries (s_devices s))))).

Definition cmd_changes (p : Params) : Exit :=
  with_snapshot p (fun s => done_with (lines (fun c =>
    ChangeKind.to_string (c_kind c) +:+ " device=" +:+ id_to_string (c_device_id c) +:+ " at=" +:+
    to_dec_signed (c_at c) +:+ " gen=" +:+ gen_to_string (c_generation c) +:+ " epoch=" +:+
    gen_to_string (c_epoch c)) (s_change_log s))).

(** [hay.find(needle) != npos]. *)
Fixpoint contains (needle hay : string) : bool :=
  String.prefix needle hay ||
  match hay with String _ hay => contains needle hay | _ => false end.

Definition cmd_inspect_device (p : Params) : Exit :=
  with_snapshot p (fun s => done_with (lines (fun kd => print_device kd.2 (pa_json p))
    (List.filter (fun kd => bool_decide (pa_device p = "") || contains (pa_device p) kd.1)
       (map_entries (s_devices s))))).

Definition cmd_inspect_worker (p : Params) : Exit :=
  with_snapshot p (fun s => done_with (lines (fun kw => print_worker kw.2 (pa_json p))
    (List.filter (fun kw => bool_decide (pa_worker p = "") ||
                            bool_decide (id_to_string kw.1 = pa_worker p))
       (map_entries (s_workers s))))).

Inductive AdminCommand := AdminSave | AdminDrain | AdminUndrain | AdminQuarantine | AdminClear.

Definition with_payload (t : MessageType) (payload : list byte) : Message :=
  let m := new_message t in
  MkMessage t (m_coordinator m) (m_epoch m) (m_worker_boot m) (m_worker m) (m_node m) (m_agent m)
    (m_reg_gen m) (m_obs_gen m) (m_health_gen m) (m_device_gen m) (m_cap_gen m) (m_request_id m)
    (m_ok m) (m_reason m) payload.

Definition admin_message (which : AdminCommand) (p : Params) : Message :=
  match which with
  | AdminSave => new_message MessageType.SAVE
  | AdminDrain =>
      with_payload MessageType.DRAIN (encode_drain_target (pa_device p) DrainState.DRAINING)
  | AdminUndrain =>
      with_payload MessageType.UNDRAIN (encode_drain_target (pa_device p) DrainState.ACTIVE)
  | AdminQuarantine =>
      with_payload MessageType.QUARANTINE
        (encode_quarantine (pa_device p) (pa_reason p) (pa_source p) (MkGen 1))
  | AdminClear => with_payload MessageType.CLEAR_QUARANTINE (encode_identity_target (pa_device p))
  end.

Definition cmd_admin (p : Params) (which : AdminCommand) : Exit :=
  match request_to p (admin_message which p) with
  | None => Stalls
  | Some (Err e) => fails ("error: " +:+ err_message e +:+ endl) 2
  | Some (Ok r) =>
      Exits ((if m_ok r then "ok" else "rejected: " +:+ m_reason r) +:+ endl) ""
        (if m_ok r then 0 else 1) (wd_files w)
  end.

Definition cmd_recover (p : Params) : Exit :=
  match load_snapshot (pa_state p) (wd_load w) (wd_files w) with
  | Err e => fails ("recover failed: " +:+ err_message e +:+ endl) 2
  | Ok s =>
      done_with ("recovered epoch=" +:+ gen_to_string (s_epoch s) +:+ " workers=" +:+
        count_text (map_entries (s_workers s)) +:+ " devices=" +:+ count_text (map_entries (s_devices s)) +:+
        " digest=" +:+ to_dec (snapshot_digest s) +:+ endl)
  end.

Definition cmd_save_local (p : Params) : Exit :=
  with_snapshot p (fun s =>
    match save_snapshot (pa_state p) s (wd_save w) (wd_files w) with
    | (fs, Err e) => Exits "" ("save failed: " +:+ err_message e +:+ endl) 2 fs
    | (fs, Ok _) =>
        Exits ("saved " +:+ pa_state p +:+ " digest=" +:+ to_dec (snapshot_digest s) +:+ endl) "" 0 fs
    end).

Definition version_string : string := "1.0.0".
Definition kPublisher : string := "Summon Software Labs".

Definition cmd_info : Exit :=
  done_with ("GPU Fleet Agent " +:+ version_string +:+ " by " +:+ kPublisher +:+ endl +:+
    "protocol=" +:+ to_dec protocol_version +:+ " store_schema=" +:+ to_dec store_schema_version +:+
    endl +:+ "cuda: " +:+ wd_cuda_summary w +:+ endl).

Definition usage : string :=
  "GPU Fleet Agent CLI" +:+ endl +:+
  "commands: run-coordinator run-agent list-devices list-workers list-nodes " +:+ endl +:+
  "inspect-device inspect-worker health eligibility capabilities changes snapshot save " +:+ endl +:+
  "drain undrain quarantine clear-quarantine recover info" +:+ endl.

(** The dispatch of [main] on the command. *)
Definition run_command (p : Params) : Exit :=
  let named (c : string) := bool_decide (pa_command p = c) in
  if named "run-coordinator" then cmd_run_coordinator p
  else if named "run-agent" then cmd_run_agent p
  else if named "snapshot" then cmd_snapshot p
  else if named "list-devices" then cmd_list p Devices
  else if named "list-workers" then cmd_list p Workers
  else if named "list-nodes" then cmd_list p Nodes
  else if named "health" then cmd_health p
  else if named "eligibility" then cmd_eligibility p
  else if named "capabilities" then cmd_capabilities p
  else if named "changes" then cmd_changes p
  else if named "inspect-device" then cmd_inspect_device p
  else if named "inspect-worker" then cmd_inspect_worker p
  else if named "drain" then cmd_admin p AdminDrain
  else if named "undrain" then cmd_admin p AdminUndrain
  else if named "quarantine" then cmd_admin p AdminQuarantine
  else if named "clear-quarantine" then cmd_admin p AdminClear
  else if named "save" then cmd_save_local p
  else if named "recover" then cmd_recover p
  else if named "info" then cmd_info
  else Exits usage "" 1 (wd_files w).

Definition main (args : list string) : Exit :=
  match parse args with
  | Parsed_throws => Throws
  | Parsed_help => Exits usage "" 0 (wd_files w)
  | Parsed_ok p => run_command p
  end.

End Commands.

(* ------------------------------------------------------------------ *)
(** ** Lemmas: the request *)

Section RequestLemmas.
Context {S : Type} (ws : Winsock S).

Lemma reply_loop_holds live tries sock buf :
  Socket sock ∈ live -> holds live (reply_loop ws tries sock buf) (fun _ live' => live' = live).
Proof.
  intros Hs. revert buf. induction tries as [|tries IH]; intros buf; cbn [reply_loop];
    [by apply holds_ret|].
  eapply holds_bind; [by apply recv_some_opt_holds|]. intros rr live' ->.
  destruct rr as [[[|b data]|]|]; [by apply holds_ret| |apply IH|by apply holds_ret].
  destruct (first_reply _ _); [by apply holds_ret|apply IH|by apply holds_ret].
Qed.

Lemma close_last (sock : Z) : ({[+ Socket sock +]} ⊎ (∅ : Handles)) ∖ {[+ Socket sock +]} = ∅.
Proof. multiset_solver. Qed.

Lemma request_holds fuel host port req :
  holds ∅ (request ws fuel host port req)
    (fun r live => match r with Some _ => live = ∅ | None => True end).
Proof.
  unfold request. eapply holds_bind; [apply tcp_connect_holds|]. intros [s|e] live Hl; cbn in Hl.
  2: { subst live. by apply holds_ret. }
  unfold id in Hl. subst live. assert (Socket s ∈ {[+ Socket s +]} ⊎ (∅ : Handles)) as Hs
    by multiset_solver.
  eapply holds_bind; [by apply set_timeout_holds|]. intros _ live ->.
  eapply holds_bind; [by apply send_all_holds|]. intros [[u|e]|] live ->.
  - eapply holds_bind; [by apply reply_loop_holds|]. intros r live ->.
    repeat ledger_step. apply close_last.
  - repeat ledger_step. apply close_last.
  - by apply holds_ret.
Qed.

End RequestLemmas.

(* ------------------------------------------------------------------ *)
(** ** Lemmas: the reply *)

(** A frame that is not all there is waited for. *)
Lemma prefix_needs_more m p q :
  message_fits m -> message_frame m = p ++ q -> q <> [] -> scan p = (NeedMore, p).
Proof.
  intros Hfit E Hq. pose proof (scan_extend p q) as Hs. rewrite <- E in Hs.
  pose proof (scan_message m [] Hfit) as Hm. rewrite app_nil_r in Hm. rewrite Hm in Hs.
  destruct (scan p) as [[|f|e] rest]; [by rewrite Hs| |by destruct Hs].
  destruct Hs as [[= _ Hr] _]. symmetry in Hr. by apply app_eq_nil in Hr as [_ ?].
Qed.

(** A buffer that starts with the whole frame gives the message. *)
Lemma whole_frame_got m rest n : message_fits m -> first_reply (S n) (message_frame m ++ rest) = Got m.
Proof.
  intros Hfit. cbn [first_reply]. rewrite scan_message by exact Hfit. cbn [f_payload].
  by rewrite message_decodes by apply Hfit.
Qed.

(** A buffer that shares its bytes with a stream that starts with the frame: it has
    the whole frame, or it is waited for. *)
Lemma buffer_cases m buf more rest :
  message_fits m -> buf ++ more = message_frame m ++ rest ->
  (exists tail, buf = message_frame m ++ tail) \/
  (scan buf = (NeedMore, buf) /\ (length buf < length (message_frame m))%nat).
Proof.
  intros Hfit E. destruct (Nat.le_gt_cases (length (message_frame m)) (length buf)) as [Hl|Hl].
  - left. exists (drop (length (message_frame m)) buf).
    rewrite <- (take_drop (length (message_frame m)) buf) at 1. f_equal.
    apply (f_equal (take (length (message_frame m)))) in E.
    by rewrite take_app_le, take_app_length in E.
  - right. split; [|exact Hl].
    apply (prefix_needs_more m buf (drop (length buf) (message_frame m)) Hfit).
    + apply (f_equal (take (length buf))) in E.
      rewrite take_app_length, take_app_le in E by lia. rewrite E at 1. by rewrite take_drop.
    + intros Hd. apply (f_equal length) in Hd. rewrite length_drop in Hd.
      change (length (@nil byte)) with 0%nat in Hd. lia.
Qed.

Section ReplyLemmas.
Context {S : Type} (ws : Winsock S).

(** What the next receives find, in order: nothing yet, or a chunk. *)
Fixpoint arrives (sock : Z) (evs : list (option (list byte))) (s : S) : Prop :=
  match evs with
  | [] => True
  | ev :: evs =>
      ev <> Some [] /\ eff_result (recv_some_opt ws sock (64 * 1024)) s = Ok ev /\
      arrives sock evs (eff_state (recv_some_opt ws sock (64 * 1024)) s)
  end.

Lemma reply_loop_reads sock m rest evs tries buf s :
  message_fits m -> (length evs <= tries)%nat -> arrives sock evs s ->
  scan buf = (NeedMore, buf) -> buf ++ concat (omap id evs) = message_frame m ++ rest ->
  eff_result (reply_loop ws tries sock buf) s = Ok m.
Proof.
  intros Hfit. revert tries buf s. induction evs as [|ev evs IH]; intros tries buf s Hn Ha Hscan E.
  - change (buf ++ [] = message_frame m ++ rest) in E. rewrite app_nil_r in E. subst buf. by rewrite scan_message in Hscan.
  - destruct tries as [|tries]; [cbn in Hn; lia|]. destruct Ha as (Hne & Hev & Ha).
    cbn [reply_loop]. unfold eff_result, eff_state, eff_bind in *.
    destruct (recv_some_opt ws sock (64 * 1024) s) as [[r s1] l]. cbn [fst snd] in *. subst r.
    destruct ev as [data|].
    2: { cbn [omap list_omap id] in E. specialize (IH tries buf s1 ltac:(cbn in Hn; lia) Ha Hscan E).
         by destruct (reply_loop ws tries sock buf s1) as [[r s2] l2]. }
    destruct data as [|b data]; [done|]. cbn [omap list_omap id concat] in E.
    rewrite app_assoc in E. set (buf' := buf ++ b :: data) in *.
    destruct (buffer_cases m buf' _ rest Hfit E) as [[tail Ht]|[Hs' _]].
    + by rewrite Ht, whole_frame_got.
    + cbn [first_reply]. rewrite Hs'.
      specialize (IH tries buf' s1 ltac:(cbn in Hn; lia) Ha Hs' E).
      by destruct (reply_loop ws tries sock buf' s1) as [[r s2] l2].
Qed.

(** [recv] hands over at most what it was asked for. *)
Class RecvBounded : Prop :=
  rb_recv : forall sock cap s, 0 <= cap -> Z.of_nat (length (ws_recv ws sock cap s).1.2) <= cap.

Lemma recv_some_opt_bounded `{!RecvBounded} sock :
  logs (recv_some_opt ws sock (64 * 1024))
    (fun r log => Z.of_nat (length (received_bytes log)) <= 64 * 1024 /\
       match r with Ok (Some data) => data = received_bytes log | _ => received_bytes log = [] end).
Proof.
  unfold recv_some_opt. destruct (sock =? kClosedSocket); [apply logs_ret; by split|].
  unfold call_recv. eapply (logs_call_where (fun r => Z.of_nat (length r.2) <= 64 * 1024));
    [intros s; by apply rb_recv|]. intros [rc data] Hl. cbn [fst snd] in *.
  destruct (Z.eqb_spec rc 0) as [->|H0]; [apply logs_ret; by split|].
  destruct (Z.eqb_spec rc SOCKET_ERROR) as [->|H1].
  - apply logs_call. intros err. apply logs_ret. by destruct (_ || _).
  - apply logs_ret. unfold received_bytes. cbn [map concat]. rewrite app_nil_r. split; [|done].
    rewrite length_take. lia.
Qed.

Lemma reply_loop_starved `{!RecvBounded} sock m tries buf :
  message_fits m ->
  Z.of_nat (length buf) + Z.of_nat tries * (64 * 1024) < Z.of_nat (length (message_frame m)) ->
  logs (reply_loop ws tries sock buf) (fun r log =>
    forall rest, message_frame m = buf ++ received_bytes log ++ rest -> result_ok r = false).
Proof.
  intros Hfit. revert buf. induction tries as [|tries IH]; intros buf Hlen; cbn [reply_loop];
    [by apply logs_ret|].
  eapply logs_bind; [by apply recv_some_opt_bounded|]. intros rr log [Hl Hr].
  destruct rr as [[[|b data]|]|e]; [by apply logs_ret| | |by apply logs_ret].
  - rewrite <- Hr in Hl.
    assert (forall rest, message_frame m = (buf ++ b :: data) ++ rest ->
              first_reply (Datatypes.S (length (buf ++ b :: data))) (buf ++ b :: data) =
                More (buf ++ b :: data)) as Hmore.
    { intros rest E. cbn [first_reply]. rewrite (prefix_needs_more m _ rest Hfit E); [done|].
      intros ->. rewrite E, app_nil_r, length_app in Hlen. lia. }
    intros s rest E. rewrite received_bytes_app, <- Hr, <- app_assoc, app_assoc in E.
    pose proof (Hmore _ E) as Hf. rewrite Hf in E |- *. revert rest E.
    refine (IH (buf ++ b :: data) _ s). rewrite length_app. lia.
  - intros s rest E. rewrite received_bytes_app, Hr in E. revert rest E.
    refine (IH buf _ s). lia.
Qed.

End ReplyLemmas.

(* ------------------------------------------------------------------ *)
(** ** Lemmas: what is printed *)

(** The values the tool prints in its JSON mode. *)
Definition node_json (n : NodeRecord) : json :=
  JObj [("node", JNum (id_value (n_node n))); ("gen", JNum (gen_value (n_generation n)))].

Definition worker_json (w : WorkerRecord) : json :=
  JObj [("worker", JNum (id_value (w_worker w))); ("boot", JNum (id_value (w_boot w)));
        ("node", JNum (id_value (w_node w))); ("alive", JBool (w_alive w));
        ("fenced", JBool (w_fenced w)); ("lost", JBool (w_lost w)); ("os", JStr (w_os_platform w));
        ("devices", JNum (Z.of_nat (length (w_device_identities w))))].

Definition device_json (d : DeviceState) : json :=
  JObj [("id", JNum (id_value (d_device_id d)));
        ("key", JStr (canonical_device_identity (d_identity d)));
        ("vendor", JStr (AcceleratorVendor.to_string (id_vendor (d_identity d))));
        ("pci", JStr (pci_to_string (id_pci (d_identity d))));
        ("arch", JStr (id_architecture (d_identity d)));
        ("health", JStr (HealthState.to_string (d_health d)));
        ("eligibility", JStr (EligibilityState.to_string (d_eligibility d)));
        ("present", JBool (d_present d)); ("drain", JStr (DrainState.to_string (d_drain d)));
        ("quarantined", JBool (d_quarantined d)); ("fresh", JBool (d_observation_fresh d));
        ("totalMem", JNum (d_total_memory d)); ("usedMem", JNum (d_used_memory d));
        ("freeMem", JNum (d_free_memory d))].

Definition list_json (kind : Kind) (s : StateSnapshot) : list json :=
  match kind with
  | Nodes => map (fun kn => node_json kn.2) (map_entries (s_nodes s))
  | Workers => map (fun kw => worker_json kw.2) (map_entries (s_workers s))
  | Devices => map (fun kd => device_json kd.2) (map_entries (s_devices s))
  end.

Lemma list_text_render kind s : list_text kind s true = render (JArr (list_json kind s)).
Proof.
  unfold list_text. cbn [render]. do 3 f_equal. unfold list_json, list_items.
  destruct kind; rewrite map_map; apply map_ext; reflexivity.
Qed.

(** The texts of a device that come from outside. *)
Definition identity_text (i : DeviceIdentity) : Prop :=
  json_text (id_vendor_name i) = true /\ json_text (uuid_value (id_uuid i)) = true /\
  json_text (id_architecture i) = true /\ json_text (dv_text (id_driver_version i)) = true.

Record printable (s : StateSnapshot) : Prop := {
  pr_workers : forall k w, s_workers s !! k = Some w -> json_text (w_os_platform w) = true;
  pr_devices : forall k d, s_devices s !! k = Some d -> identity_text (d_identity d)
}.

Lemma json_text_app s t : json_text (s +:+ t) = json_text s && json_text t.
Proof. apply str_all_app. Qed.

Lemma digits_json s : str_all is_digit_char s = true -> json_text s = true.
Proof.
  apply str_all_impl. intros c Hc.
  pose proof (char_cases (fun c => implb (is_digit_char c) (json_char c)) eq_refl c) as H.
  cbn beta in H. by rewrite Hc in H.
Qed.

Lemma pci_json p : json_text (pci_to_string p) = true.
Proof.
  unfold pci_to_string. rewrite !json_text_app, !(digits_json (to_hex _ _) (to_hex_chars _ _)).
  reflexivity.
Qed.

Lemma key_json i : identity_text i -> json_text (canonical_device_identity i) = true.
Proof.
  intros (Hn & Hu & Ha & Hd). unfold canonical_device_identity, cc_to_string.
  rewrite !json_text_app, Hn, Hu, Ha, Hd, pci_json, !(digits_json (to_dec _) (to_dec_chars _)).
  by destruct (id_vendor i).
Qed.

Lemma length_u64 {A} (l : list A) n : Z.of_nat (length l) <= n -> n < 2 ^ 64 -> is_u64 (Z.of_nat (length l)).
Proof. unfold is_u. lia. Qed.

(** The members of an object, each with its own condition. *)
Ltac readable_members :=
  cbn; repeat (apply Forall_cons_2; [split; [done|]|]); try apply Forall_nil_2; cbn.

Lemma list_readable kind s :
  snapshot_codec_wf s -> printable s -> Forall (readable 2) (list_json kind s).
Proof.
  intros Hwf [Hpw Hpd]. unfold list_json.
  destruct kind; apply Forall_map, Forall_forall; intros [k x] Hx; cbn [snd];
    apply map_entries_elem in Hx.
  - destruct (scw_nodes _ Hwf _ _ Hx) as [_ []]. by readable_members.
  - destruct (scw_workers _ Hwf _ _ Hx) as [_ []]. readable_members; try done.
    + by eapply Hpw.
    + by apply (length_u64 _ 4096).
  - destruct (scw_devices _ Hwf _ _ Hx) as [_ []]. pose proof (Hpd _ _ Hx) as Ht.
    readable_members; try done.
    + by apply key_json.
    + by destruct (id_vendor (d_identity x)).
    + apply pci_json.
    + apply Ht.
    + by destruct (d_health x).
    + by destruct (d_eligibility x).
    + by destruct (d_drain x).
Qed.

(* ------------------------------------------------------------------ *)
(** ** Lemmas: a coordinator that answers *)

(** A reply reaches the tool: the library connects, takes the request, and its next
    receives, 64 at most, hand over the bytes of the reply's frame, in any pieces. *)
Definition answered {S} (w : World S) (p : Params) (req reply : Message) : Prop :=
  exists sock evs,
    let net := wd_net w in
    let connect := tcp_connect net (pa_host p) (pa_port p) 5000 in
    let s1 := eff_state connect (wd_state w) in
    let s2 := eff_state (set_timeout net sock 5000) s1 in
    let send := send_all net (wd_turns w) sock (message_frame req) in
    eff_result connect (wd_state w) = Ok sock /\ eff_result send s2 = Some (Ok tt) /\
    (length evs <= 64)%nat /\ arrives net sock evs (eff_state send s2) /\
    concat (omap id evs) = message_frame reply.

Lemma request_answered {S} (w : World S) p req reply :
  message_fits reply -> answered w p req reply -> request_to w p req = Some (Ok reply).
Proof.
  intros Hfit (sock & evs & Hc & Hs & Hn & Ha & E). unfold request_to, request.
  rewrite eff_bind_result, Hc, eff_bind_result, eff_bind_result, Hs, eff_bind_result.
  rewrite (reply_loop_reads (wd_net w) sock reply [] evs 64 [] _ Hfit Hn Ha eq_refl);
    [by rewrite eff_bind_result|]. by rewrite app_nil_r.
Qed.

Lemma with_payload_fits t payload :
  valid_message_type (to_u8 t) = true -> enum_wf t -> payload_fits payload ->
  message_fits (with_payload t payload).
Proof. intros. apply plain_message_fits; cbn; try assumption; auto with fleet; wf_const. Qed.

Lemma respond_ack_fits t payload epoch :
  gen_wf epoch -> message_fits (respond_ack (with_payload t payload) true "" epoch).
Proof.
  intros. apply plain_message_fits; cbn; try assumption; auto with fleet; try wf_const. enum_wf_solve.
Qed.

(** The coordinator's answer to a request for its snapshot. *)
Definition snapshot_reply (now : Timestamp) (io : SaveIo) (c : Coordinator) : Message :=
  (dispatch now io (new_message MessageType.SNAPSHOT_REQUEST) c).2.

Lemma fetch_answered {S} (w : World S) now io c p :
  answered w p (new_message MessageType.SNAPSHOT_REQUEST) (snapshot_reply now io c) ->
  snapshot_codec_wf (snapshot (co_store c)) ->
  payload_fits (encode_snapshot (snapshot (co_store c))) ->
  fetch_snapshot w p = inl (strip_accounting (snapshot (co_store c))).
Proof.
  intros Hw Hwf Hfit. assert (message_fits (snapshot_reply now io c)) as Hm.
  { pose proof (scw_epoch _ Hwf) as He.
    apply plain_message_fits; cbn; try assumption; auto with fleet; try wf_const. enum_wf_solve. }
  unfold fetch_snapshot. rewrite (request_answered w p _ _ Hm Hw).
  change (m_type (snapshot_reply now io c)) with MessageType.SNAPSHOT_RESPONSE.
  change (m_payload (snapshot_reply now io c)) with (encode_snapshot (snapshot (co_store c))).
  rewrite bool_decide_true by done. cbn [negb]. unfold decode_snapshot.
  by rewrite (run_decoder_ok (strip_parses _ Hwf)).
Qed.

Lemma drain_request_fits t key d :
  valid_message_type (to_u8 t) = true -> enum_wf t -> str_fits 1024 key ->
  message_fits (with_payload t (encode_drain_target key d)).
Proof.
  intros Ht He Hk. apply with_payload_fits; [done|done|]. unfold payload_fits, encode_drain_target.
  writer_norm. rewrite length_app, be8_length, enc_string_length by exact Hk.
  unfold str_fits, str_len in Hk. unfold kMaxPayloadLength. lia.
Qed.

(** The two commands that set the drain level. *)
Definition drain_type (t : MessageType) : bool :=
  bool_decide (t = MessageType.DRAIN \/ t = MessageType.UNDRAIN).

Lemma dispatch_drain t key d now io c :
  drain_type t = true -> str_fits 1024 key -> enum_wf d -> to_u8 d <= 2 ->
  let msg := with_payload t (encode_drain_target key d) in
  dispatch now io msg c =
    ack_result msg c (set_drain (owner_of key (co_store c)) key d now (co_store c)).
Proof.
  intros Ht Hk Hd Hle msg. apply bool_decide_eq_true in Ht. unfold dispatch.
  assert (decode_drain_target (m_payload msg) = Ok (MkDrainTarget key d)) as ->
    by exact (run_decoder_ok (drain_target_parses key d Hk Hd Hle)).
  by destruct Ht as [-> | ->].
Qed.

Lemma set_drain_spec w key d now st dev :
  fs_devices st !! key = Some dev ->
  (set_drain w key d now st).2 = Ok tt /\
  (exists dev', fs_devices (set_drain w key d now st).1 !! key = Some dev' /\
     d_identity dev' = d_identity dev /\ d_drain dev' = d) /\
  (forall k, k <> key -> fs_devices (set_drain w key d now st).1 !! k = fs_devices st !! k) /\
  fs_epoch (set_drain w key d now st).1 = fs_epoch st.
Proof.
  intros Hdev. unfold set_drain. rewrite Hdev. case_bool_decide as Hd; cbn [fst snd].
  - by split_and!; [|exists dev| |].
  - split_and!; [done| |intros k Hk|done]; cbn.
    + eexists. by rewrite lookup_insert_eq.
    + by rewrite lookup_insert_ne.
Qed.

(* ------------------------------------------------------------------ *)
(** ** Properties *)

(** The tool leaves no socket open: whatever the socket library answers, a request
    that ends, with a reply or with any of its errors, has closed the socket it
    opened, used no socket it did not hold, and released the addresses it resolved. *)
Theorem request_settled {S} (ws : Winsock S) fuel host port req s r :
  eff_result (request ws fuel host port req) s = Some r ->
  settle ∅ (eff_log (request ws fuel host port req) s) = Some (∅ : Handles).
Proof.
  intros Hr. destruct (request_holds ws fuel host port req s) as (live & Hl & Hq).
  rewrite Hr in Hq. by rewrite Hl, Hq.
Qed.

(** The reply is found however it is cut: if within 64 receives, some of which may
    find nothing, bytes arrive that begin with the frame of a message, the request
    returns exactly that message, whatever follows it. *)
Theorem reply_read_whole {S} (ws : Winsock S) sock m rest evs s :
  message_fits m -> (length evs <= 64)%nat -> arrives ws sock evs s ->
  concat (omap id evs) = message_frame m ++ rest ->
  eff_result (reply_loop ws 64 sock []) s = Ok m.
Proof.
  intros Hfit Hn Ha E. by apply (reply_loop_reads ws sock m rest evs).
Qed.

(** C39. The largest reply: a frame may carry 16 MiB, but from a peer that sends one frame
    longer than 64 receives of 64 KiB the request never returns a reply, however the
    bytes are cut. *)
Theorem reply_size_limit {S} (ws : Winsock S) `{!RecvBounded ws} sock m rest s :
  message_fits m -> 4 * 1024 * 1024 < Z.of_nat (length (message_frame m)) ->
  message_frame m = received_bytes (eff_log (reply_loop ws 64 sock []) s) ++ rest ->
  result_ok (eff_result (reply_loop ws 64 sock []) s) = false.
Proof.
  intros Hfit Hlen E.
  assert (Z.of_nat (length (@nil byte)) + Z.of_nat 64 * (64 * 1024) <
            Z.of_nat (length (message_frame m))) as Hl
    by (change (length (@nil byte)) with 0%nat; lia).
  pose proof (reply_loop_starved ws sock m 64 [] Hfit Hl) as H. unfold logs in H.
  apply (H s rest). rewrite app_nil_l. exact E.
Qed.



