(* ===== verification/CliWitness.v ===== *)
(** * The command line tool at a concrete fleet

    A coordinator that holds the sample fleet, reached by the tool: the instances
    of the theorems on the tool and on JSON, and the behaviours worth knowing. *)

From stdpp Require Import gmultiset.
From S2P Require Import Prelude Core Codec Effects Message Framing Identity Health Eligibility.
From S2P Require Import Device Observation Change Pipeline Registration WireFormats.
From S2P Require Import ObservationCodec AdminPayload FleetState FleetSteps FleetInv FleetSafety.
From S2P Require Import FleetIngest FleetWitness SnapshotCodec Store CodecWitness Coordinator.
From S2P Require Import CoordinatorSafety Agent EndToEnd EndToEndWitness Transport.
From S2P Require Import SocketOwner TransportWitness Json Cli.

(* ------------------------------------------------------------------ *)
(** ** The world *)

(** A reply of the coordinator that holds the sample fleet, handed over in two pieces
    with a timeout in between. *)
Definition carrying (reply : Message) : Net :=
  MkNet [] 0 (message_frame reply) [40; 0; length (message_frame reply)]%nat 5.

Definition world_with (reply : Message) (files : FileSystem) : World Net := {|
  wd_net := net;
  wd_state := carrying reply;
  wd_turns := 100;
  wd_coordinator := fun _ port _ => Ok (port, MkGen 1);
  wd_agent := fun _ _ _ boot => (boot, Ok tt);
  wd_cuda_summary := "CUDA backend disabled at build time";
  wd_files := files;
  wd_load := MkLoadIo true true true;
  wd_save := io_ok
|}.

Definition sample_reply : Message := snapshot_reply 3000 io_ok saving_coordinator.
Definition drain_reply : Message :=
  (dispatch 3000 io_ok (with_payload MessageType.DRAIN
     (encode_drain_target sample_key DrainState.DRAINING)) saving_coordinator).2.

Definition sample_world : World Net := world_with sample_reply ∅.
Definition drain_world : World Net := world_with drain_reply ∅.
Definition saved_world : World Net :=
  world_with sample_reply (save_snapshot "copy" (strip_accounting sample_snapshot) io_ok ∅).1.

Definition carried_pieces (reply : Message) : list (option (list byte)) :=
  [Some (take 40 (message_frame reply)); None; Some (drop 40 (message_frame reply))].

Ltac carried reply :=
  exists 5, (carried_pieces reply); cbn zeta; split_and!;
  [vm_compute; reflexivity|vm_compute; reflexivity|apply Nat.leb_le; reflexivity| |vm_compute; reflexivity];
  cbn [arrives carried_pieces];
  repeat (split; [vm_compute; discriminate|split; [vm_compute; reflexivity|]]); exact I.

Lemma sample_answered p :
  pa_host p = pa_host params_default -> pa_port p = pa_port params_default ->
  answered sample_world p (new_message MessageType.SNAPSHOT_REQUEST) sample_reply.
Proof. intros Hh Hp. unfold answered. rewrite Hh, Hp. carried sample_reply. Qed.

Lemma drain_answered p :
  parse ["drain"; "--device"; sample_key] = Parsed_ok p ->
  answered drain_world p (admin_message AdminDrain p)
    (dispatch 3000 io_ok (admin_message AdminDrain p) saving_coordinator).2.
Proof.
  assert (parse ["drain"; "--device"; sample_key] =
    Parsed_ok (set_option "--device" sample_key (set_command "drain" params_default))) as ->
    by reflexivity.
  intros [= <-]. carried drain_reply.
Qed.

Lemma sample_payload_fits : payload_fits (encode_snapshot (snapshot (co_store saving_coordinator))).
Proof. vm_compute. congruence. Qed.

Lemma sample_printable : printable (snapshot (co_store saving_coordinator)).
Proof.
  split; apply map_all;
    match goal with |- Forall _ ?l =>
      let l' := eval vm_compute in l in replace l with l' by (vm_compute; reflexivity) end;
    repeat apply Forall_cons_2; try apply Forall_nil_2; vm_compute; auto.
Qed.

(* ------------------------------------------------------------------ *)
(** ** Witnesses *)

(** The reply to a HELLO, cut in pieces, with timeouts in between. *)
Definition reply_message : Message :=
  (dispatch 3000 io_ok (hello_message sample_agent) saving_coordinator).2.
Definition reply_net : Net := MkNet [] 0 (message_frame reply_message) [7; 0; 30; 1; 0; 500]%nat 5.

Lemma request_settled_witness :
  settle ∅ (eff_log (request net 100 "127.0.0.1" 7000 (hello_message sample_agent)) reply_net) =
    Some (∅ : Handles).
Proof.
  apply (request_settled net 100 "127.0.0.1" 7000 (hello_message sample_agent) reply_net
           (Ok reply_message)).
  vm_compute. reflexivity.
Defined.

Lemma reply_message_fits : message_fits reply_message.
Proof. apply hello_ack_fits; wf_const. Qed.

Definition reply_pieces : list (option (list byte)) :=
  let f := message_frame reply_message in
  [Some (take 7 f); None; Some (take 30 (drop 7 f)); Some (take 1 (drop 37 f)); None;
   Some (drop 38 f)].

Lemma reply_read_whole_witness : eff_result (reply_loop net 64 5 []) reply_net = Ok reply_message.
Proof.
  apply (reply_read_whole net 5 reply_message [] reply_pieces reply_net).
  - exact reply_message_fits.
  - apply Nat.leb_le. reflexivity.
  - cbn [arrives reply_pieces].
    repeat (split; [vm_compute; discriminate|split; [vm_compute; reflexivity|]]). exact I.
  - vm_compute. reflexivity.
Defined.

#[export] Instance net_bounded : RecvBounded net.
Proof.
  intros sock cap s Hcap. cbn. unfold net_recv.
  destruct (net_recvs s) as [|[|n] rest]; cbn [fst snd length]; [lia..|].
  rewrite length_take. lia.
Qed.

(** A snapshot of five million bytes. *)
Definition large_message : Message :=
  with_payload MessageType.SNAPSHOT_RESPONSE (replicate (Z.to_nat 5000000) Byte.x00).

Lemma large_message_fits : message_fits large_message.
Proof.
  apply with_payload_fits; [done|enum_wf_solve|].
  unfold payload_fits, kMaxPayloadLength. rewrite length_replicate. lia.
Qed.

Lemma message_frame_long m :
  message_fits m -> Z.of_nat (length (m_payload m)) <= Z.of_nat (length (message_frame m)).
Proof.
  intros [Hwf _]. unfold message_frame. rewrite encode_frame_shape, !length_app.
  pose proof (mw_reason _ Hwf) as Hr.
  rewrite encode_message_length; [lia|]. unfold str_fits in *. by etransitivity; [exact Hr|].
Qed.

Lemma message_frame_magic m : exists rest, message_frame m = be32 kFrameMagic ++ rest.
Proof. unfold message_frame, encode_frame, frame_signed_part. writer_norm. eauto. Qed.

(** The peer sends four bytes of it, and then nothing while the tool waits. *)
Definition stalled_net : Net := MkNet [] 0 (be32 kFrameMagic) (4 :: replicate 63 0)%nat 5.

Lemma reply_size_limit_witness :
  result_ok (eff_result (reply_loop net 64 5 []) stalled_net) = false.
Proof.
  destruct (message_frame_magic large_message) as [rest E].
  apply (reply_size_limit net 5 large_message rest).
  - exact large_message_fits.
  - pose proof (message_frame_long large_message large_message_fits) as H.
    replace (length (m_payload large_message)) with (Z.to_nat 5000000) in H
      by (symmetry; apply length_replicate).
    lia.
  - rewrite E. f_equal.
Defined.




Lemma json_roundtrip_witness :
  read_document 2 (render (JObj [("k", JStr "a tab is escaped"); ("n", JNum 18446744073709551615)])) =
    Some (JObj [("k", JStr "a tab is escaped"); ("n", JNum 18446744073709551615)]).
Proof.
  apply (json_roundtrip 2).
  repeat apply Forall_cons_2; [split; [reflexivity|reflexivity]|split; [reflexivity|wf_const]|].
  apply Forall_nil_2.
Defined.

(** The holder of a stream: a socket adopted, moved and closed. *)
Lemma sockets_closed_once_witness :
  let '(objs, opened, closed) :=
    hold_run [Adopt 0 (MkStream 7); Default 2; MoveAssign 2 0; Destroy 0; Destroy 2]
      (∅ : gmap nat TcpStream) in
  sockets opened = sockets closed ⊎ held objs /\ (objs = ∅ -> closed ≡ₚ opened).
Proof.
  exact (sockets_closed_once (A := TcpStream)
    [Adopt 0 (MkStream 7); Default 2; MoveAssign 2 0; Destroy 0; Destroy 2]).
Defined.

(* ------------------------------------------------------------------ *)
(** ** What a reader of the documentation would not expect *)

(** A port out of range is taken modulo 2^16. *)
Example port_wraps :
  parse ["snapshot"; "--port"; "70000"] =
    Parsed_ok (set_port 4464 (set_command "snapshot" params_default)) .
Proof. vm_compute. reflexivity. Qed.

(** A carriage return in a worker's platform makes the output unreadable. *)
Example control_character_breaks_json :
  read_string (J ("linux" +:+ str1 (char 13))) = None.
Proof. vm_compute. reflexivity. Qed.

(** [save] does not ask the coordinator to save its state: it fetches a snapshot and
    writes a file of the tool's own. *)
Example save_is_local :
  main sample_world ["save"; "--state"; "copy"] = cmd_save_local sample_world
    (set_option "--state" "copy" (set_command "save" params_default)).
Proof. reflexivity. Qed.
