(* ===== verification/Examples.v ===== *)
(** * The example programs ([src/examples], [src/consumer/main.cpp])

    Each [main] as what it writes to the standard output and the status it
    returns. The programs that open the file system or the CUDA runtime take them
    as arguments. *)

From S2P Require Import Prelude Core Codec Identity Device Health Eligibility Observation Change.
From S2P Require Import Pipeline Registration FleetState SnapshotCodec Store Json Effects Cuda CudaBackend.

(** How a [main] ends: it returns a status, or an exception leaves it. *)
Inductive Ran := Returned (out : string) (code : Z) | Threw (out : string).

Definition quoted (s : string) : string := str1 quote +:+ s +:+ str1 quote.
Definition nl : string := str1 newline.

(** [%-<width>s]. *)
Fixpoint spaces (n : nat) : string := match n with O => "" | S n => String (char 32) (spaces n) end.
Definition pad_right (width : nat) (s : string) : string := s +:+ spaces (width - String.length s).

Definition ok_err {T} (r : Result T) : string := if result_ok r then "ok" else "err".
Definition accepted_rejected {T} (r : Result T) : string := if result_ok r then "accepted" else "rejected".

(* ------------------------------------------------------------------ *)
(** ** Data *)

(** [FleetStateStore store(CoordinatorId(1), CoordinatorEpoch(1));] *)
Definition example_store : FleetState := fleet_init (MkId 1) (MkGen 1).

(** The default-initialised [Registration]. *)
Definition registration_default : Registration :=
  MkRegistration (MkId 0) (MkId 0) (MkId 0) (MkAgentVersion (MkSemanticVersion 0 0 0))
    (MkProtocolVersion 0) "" (MkDriverVersion "") (MkRuntimeVersion 0 0) [] [] (MkGen 0) (MkGen 0).

(** A default [Registration] with the fields the programs set. *)
Definition example_registration (worker boot generation epoch : Z) : Registration :=
  let d := registration_default in
  MkRegistration (r_node d) (MkId worker) (MkId boot) (r_agent_version d) (MkProtocolVersion 1)
    (r_os_platform d) (r_driver_version d) (r_runtime_version d) (r_enumerated_devices d)
    (r_supported_capabilities d) (MkGen generation) (MkGen epoch).

Definition example_key : string :=
  "nvidia|NVIDIA|GPU-1|0000:01:00.0|blackwell|12.0|34359738368|13040".

(* ------------------------------------------------------------------ *)
(** ** Programs on the store *)

Definition coordinator_epoch_rollover : Ran :=
  let reg := example_registration 10 100 1 1 in
  let st := (register_worker reg 1000 example_store).1 in
  let out := "=== coordinator epoch rollover ===" +:+ nl +:+
             "epoch before = " +:+ gen_to_string (fs_epoch st) +:+ nl in
  let st := (roll_epoch (MkGen 2) st).1 in
  let out := out +:+ "epoch after = " +:+ gen_to_string (fs_epoch st) +:+ nl in
  let stale := example_registration 10 100 1 1 in
  let r := register_worker stale 2000 st in
  Returned (out +:+ "stale epoch registration -> " +:+ accepted_rejected r.2 +:+ nl) 0.

Definition drain_undrain : Ran :=
  let st := (register_worker (example_registration 10 100 1 1) 1000 example_store).1 in
  let drained := set_drain (MkId 10) example_key DrainState.DRAINING 2000 st in
  let undrained := set_drain (MkId 10) example_key DrainState.ACTIVE 3000 drained.1 in
  Returned ("=== drain / undrain ===" +:+ nl +:+ "drain -> " +:+ ok_err drained.2 +:+ nl +:+
            "undrain -> " +:+ ok_err undrained.2 +:+ nl) 0.

Definition quarantine_recovery : Ran :=
  let q := MkQuarantine "repeated validation failure" "operator" (MkGen 1) 2000
             (q_device_id quarantine_default) (MkGen 1) in
  let held := set_quarantine (MkId 10) example_key q 2000 example_store in
  let cleared := clear_quarantine (MkId 10) example_key (MkGen 1) 3000 held.1 in
  Returned ("=== quarantine / recovery ===" +:+ nl +:+ "quarantine -> " +:+ ok_err held.2 +:+ nl +:+
            "clear -> " +:+ ok_err cleared.2 +:+ nl) 0.

Definition stale_authority_rejection : Ran :=
  let st := (register_worker (example_registration 10 100 1 1) 1000 example_store).1 in
  let r1 := register_worker (example_registration 10 100 1 0) 1000 st in
  let r2 := register_worker (example_registration 10 555 1 1) 1000 r1.1 in
  Returned ("=== stale authority rejection ===" +:+ nl +:+
            "stale epoch  -> " +:+ accepted_rejected r1.2 +:+ nl +:+
            "stale boot   -> " +:+ accepted_rejected r2.2 +:+ nl) 0.

(** [snapshot().workers.at(w).boot.to_string()]: [at] throws when there is none. *)
Definition boot_of (w : Z) (st : FleetState) : option string :=
  wr ← s_workers (snapshot st) !! (MkId w : WorkerId); Some (id_to_string (w_boot wr)).

Definition worker_restart : Ran :=
  let out := "=== worker restart (WorkerBootId fencing) ===" +:+ nl in
  let st := (register_worker (example_registration 10 100 1 1) 1000 example_store).1 in
  match boot_of 10 st with
  | None => Threw out
  | Some boot =>
      let out := out +:+ "boot after start = " +:+ boot +:+ nl in
      let r := register_worker (example_registration 10 100 1 1) 1100 st in
      let out := out +:+ "stale re-register same gen -> " +:+ accepted_rejected r.2 +:+ nl in
      let st := (mark_worker_lost (MkId 10) 1200 r.1).1 in
      let st := (register_worker (example_registration 10 999 2 1) 1300 st).1 in
      match boot_of 10 st with
      | None => Threw out
      | Some boot =>
          Returned (out +:+ "fresh boot after restart = " +:+ boot +:+ " (old boot is fenced)" +:+ nl) 0
      end
  end.

(** The blob is encoded and not used. *)
Definition json_snapshot : Ran :=
  let snap := snapshot example_store in
  Returned ("=== JSON snapshot ===" +:+ nl +:+
            "{" +:+ quoted "epoch" +:+ ":" +:+ gen_to_string (s_epoch snap) +:+ "," +:+
            quoted "workers" +:+ ":" +:+ to_dec (Z.of_nat (size (s_workers snap))) +:+ "," +:+
            quoted "devices" +:+ ":" +:+ to_dec (Z.of_nat (size (s_devices snap))) +:+ "}" +:+ nl) 0.

(** [example_state.gfle] is removed before and after; [rm1] and [rm2] say whether
    these removals succeed. *)
Definition persistence_recovery (rm1 rm2 : bool) (sio : SaveIo) (lio : LoadIo) (fs : FileSystem)
  : Ran * FileSystem :=
  let path := "example_state.gfle" in
  let fs := fs_remove rm1 path fs in
  let snap := snapshot example_store in
  let r := save_snapshot path snap sio fs in
  let l := load_snapshot path lio r.1 in
  (Returned ("=== persistence / recovery ===" +:+ nl +:+ "save -> " +:+ ok_err r.2 +:+ nl +:+
             "load -> " +:+ ok_err l +:+ ", digest=" +:+
             to_dec (match l with Ok s => snapshot_digest s | Err _ => 0 end) +:+ nl) 0,
   fs_remove rm2 path r.1).

(** [src/consumer/main.cpp]. *)
Definition consumer_main : Ran :=
  let r := register_worker (example_registration 42 7 1 1) 1000 (fleet_init (MkId 1) (MkGen 1)) in
  match r.2 with
  | Err e => Returned ("register failed: " +:+ err_message e +:+ nl) 1
  | Ok _ =>
      let snap := snapshot r.1 in
      Returned ("consumer ok: workers=" +:+ to_dec (Z.of_nat (size (s_workers snap))) +:+ " devices=" +:+
                to_dec (Z.of_nat (size (s_devices snap))) +:+ " epoch=" +:+
                gen_to_string (s_epoch snap) +:+ nl) 0
  end.

(* ------------------------------------------------------------------ *)
(** ** Programs on the evaluators *)

Definition execution_eligibility : Ran :=
  let input (fresh : bool) := MkEligInput HealthState.HEALTHY fresh (MkGen 0) (MkGen 0) true true true true
    true false false true true false 0 (24 * 1024 * 1024 * 1024) in
  let r1 := evaluate_eligibility (input true) in
  let r2 := evaluate_eligibility (input false) in
  Returned ("=== execution eligibility ===" +:+ nl +:+
            "fresh+healthy => " +:+ EligibilityState.to_string (el_state r1) +:+ nl +:+
            "stale         => " +:+ EligibilityState.to_string (el_state r2) +:+ " reasons=[" +:+
            foldl (fun out x => out +:+ EligibilityReason.to_string x +:+ ",") "" (el_reasons r2) +:+
            "]" +:+ nl) 0.

Definition health_transition : Ran :=
  let signals (stale : bool) (failures : Z) :=
    MkSignals true true true true true true true true true false true true failures stale false false
      false true 3 in
  let show s := HealthState.to_string (h_state (evaluate_health s)) in
  Returned ("=== health transition ===" +:+ nl +:+ "all ok     => " +:+ show (signals false 0) +:+ nl +:+
            "going stale=> " +:+ show (signals true 0) +:+ nl +:+
            "5 failures => " +:+ show (signals false 5) +:+ nl) 0.

Definition healthy_probe : DeviceProbe :=
  let d := identity_default in
  MkProbe (MkIdentity AcceleratorVendor.Nvidia (id_vendor_name d) (id_uuid d) (id_pci d) "blackwell"
             (MkCC 12 0) (32 * 1024 * 1024 * 1024) (id_numa_node d) (MkDriverVersion "13040")
             (id_runtime_version d) (id_mig d) (id_parent_device d))
    true true true true 0 0 0 None None true true true true true true true "" [].

Definition stale_observation : Ran :=
  let policy := MkPolicy 1000 "" cc_zero 0 true [] in
  let meta := MkMeta (MkId 1) (MkGen 1) (MkGen 1) 1000 (MkId 1) (MkId 1) (MkId 1) (MkGen 1) (MkGen 1) in
  let o := normalize_observation healthy_probe meta in
  let show now := EligibilityState.to_string
    (d_eligibility (ao_state (apply_observation device_default o policy now (MkGen 1)))) in
  Returned ("=== stale observation ===" +:+ nl +:+ "fresh (now=1500) => " +:+ show 1500 +:+ nl +:+
            "stale (now=100000) => " +:+ show 100000 +:+ nl) 0.

(* ------------------------------------------------------------------ *)
(** ** Programs on the device backends *)

(** [ev.value()[0]] exists: the synthetic backend has at least one device. *)
Definition capability_inspection : option Ran :=
  let backend := synthetic_backend 1 (32 * 1024 * 1024 * 1024) in
  match backend_enumerate backend with
  | Err _ => Some (Returned "" 1)
  | Ok [] => None
  | Ok (d :: _) =>
      match backend_probe backend d with
      | Err _ => Some (Returned "" 1)
      | Ok probe =>
          Some (Returned (foldl (fun out c =>
              out +:+ pad_right 20 (cap_name c) +:+ " = " +:+ pad_right 8 (cap_value c) +:+ " [" +:+
              CapabilityKind.to_string (cap_kind c) +:+ "]" +:+ nl)
            ("=== capability inspection ===" +:+ nl) (p_capabilities probe)) 0)
      end
  end.

Definition synthetic_line (d : EnumeratedDevice) : string :=
  "synthetic[" +:+ to_dec_signed (ed_ordinal d) +:+ "] id=" +:+ uuid_value (id_uuid (ed_identity d)) +:+
  " cc=" +:+ cc_sm_string (id_compute_capability (ed_identity d)) +:+ " mem=" +:+
  to_dec (id_total_physical_memory (ed_identity d)) +:+ nl.

Definition cuda_line (d : EnumeratedDevice) : string :=
  "cuda[" +:+ to_dec_signed (ed_ordinal d) +:+ "] pci=" +:+ pci_to_string (id_pci (ed_identity d)) +:+
  " arch=" +:+ id_architecture (ed_identity d) +:+ " cc=" +:+
  cc_sm_string (id_compute_capability (ed_identity d)) +:+ " mem=" +:+
  to_dec (id_total_physical_memory (ed_identity d)) +:+ nl.

Definition lines {A} (line : A -> string) (r : Result (list A)) : string :=
  match r with Ok xs => foldl (fun out x => out +:+ line x) "" xs | Err _ => "" end.

(** [host] is the CUDA backend the machine would have. *)
Definition local_device_discovery {S} (host : CudaDeviceBackend S) : Ran :=
  Returned ("=== local device discovery ===" +:+ nl +:+
    lines synthetic_line (backend_enumerate (synthetic_backend 2 (24 * 1024 * 1024 * 1024))) +:+
    match make_cuda_backend host with
    | Some cuda => lines cuda_line (backend_enumerate cuda)
    | None => "(no CUDA backend available)" +:+ nl
    end) 0.

Definition hardware_validation {S} (rt : CudaRuntime S) : Eff S CudaEvent Ran :=
  let out := "=== hardware validation (RTX 5090, sm_120) ===" +:+ nl in
  available <- cuda_available rt ;;
  if negb available then eff_ret (Returned (out +:+ "no CUDA device present" +:+ nl) 0)
  else
    r <- run_cuda_validation rt 0 ;;
    eff_ret (Returned (out +:+ "ok=" +:+ (if v_ok r then "1" else "0") +:+ " detail=" +:+ v_detail r +:+ nl) 0).

(* ------------------------------------------------------------------ *)
(** ** Lemmas *)

(** A line of the output. *)
Definition text (ls : list string) : string := foldr (fun l out => l +:+ nl +:+ out) "" ls.

Lemma fresh_snapshot_wf : snapshot_codec_wf (snapshot example_store).
Proof. split; try (intros ? ? H; discriminate H); try apply List.Forall_nil; vm_compute; try split; congruence. Qed.

Lemma fresh_snapshot_fits : store_fits (snapshot example_store).
Proof. vm_compute. congruence. Qed.

(** What a load reads. *)
Lemma load_reads path lio fs :
  let reads := lio_open lio && lio_size lio && lio_read lio in
  match fs !! path with
  | Some bytes =>
      if reads then
        load_snapshot path lio fs =
          (if (length bytes =? 0)%nat then error_result Truncated "store file empty" else parse_store bytes)
      else exists e, load_snapshot path lio fs = Err e
  | None => exists e, load_snapshot path lio fs = Err e
  end.
Proof.
  cbn zeta. unfold load_snapshot. destruct (fs !! path); [|by eexists].
  destruct (lio_open lio), (lio_size lio), (lio_read lio), (_ =? 0)%nat; cbn [andb negb]; try done; by eexists.
Qed.

Lemma store_nonempty s : (length (store_bytes s) =? 0)%nat = false.
Proof. apply Nat.eqb_neq. rewrite store_bytes_checksummed, checksummed_length. lia. Qed.

(* ------------------------------------------------------------------ *)
(** ** Properties *)

(** What the programs on the store and on the evaluators print. *)
Theorem example_programs_print :
  coordinator_epoch_rollover = Returned (text ["=== coordinator epoch rollover ==="; "epoch before = 1";
    "epoch after = 2"; "stale epoch registration -> rejected"]) 0 /\
  stale_authority_rejection = Returned (text ["=== stale authority rejection ===";
    "stale epoch  -> rejected"; "stale boot   -> rejected"]) 0 /\
  worker_restart = Returned (text ["=== worker restart (WorkerBootId fencing) ==="; "boot after start = 100";
    "stale re-register same gen -> rejected";
    "fresh boot after restart = 999 (old boot is fenced)"]) 0 /\
  consumer_main = Returned (text ["consumer ok: workers=1 devices=0 epoch=1"]) 0 /\
  execution_eligibility = Returned (text ["=== execution eligibility ==="; "fresh+healthy => ELIGIBLE";
    "stale         => STALE reasons=[stale_observation,]"]) 0 /\
  health_transition = Returned (text ["=== health transition ==="; "all ok     => HEALTHY";
    "going stale=> RECOVERING"; "5 failures => UNHEALTHY"]) 0 /\
  stale_observation = Returned (text ["=== stale observation ==="; "fresh (now=1500) => ELIGIBLE";
    "stale (now=100000) => STALE"]) 0 /\
  capability_inspection = Some (Returned (text ["=== capability inspection ===";
    "vendor               = synthetic [inferred]"; "kernel_execution     = true     [validated]"]) 0).
Proof. vm_compute. split_and!; reflexivity. Qed.

(** The drain and quarantine programs demonstrate neither: no device was ever
    observed, so every operation they try is refused. *)
Theorem drain_and_quarantine_programs_fail :
  drain_undrain = Returned (text ["=== drain / undrain ==="; "drain -> err"; "undrain -> err"]) 0 /\
  quarantine_recovery = Returned (text ["=== quarantine / recovery ==="; "quarantine -> err"; "clear -> err"]) 0.
Proof. vm_compute. split; reflexivity. Qed.

(** C40. The persistence program, whatever the disk holds and each call of the C library
    answers, the removals included. A save that is reported is loaded back with the
    digest of what was saved if the calls of the load succeed, and reported as not
    loaded otherwise. After a save that fails the load fails too, unless an older
    file could not be removed first: then what it may load is that file. The file is
    gone at the end if its removal succeeds, and no other file but the temporary is
    touched. *)
Theorem persistence_program rm1 rm2 sio lio fs :
  let path := "example_state.gfle" in
  let r := persistence_recovery rm1 rm2 sio lio fs in
  let saved := (save_snapshot path (snapshot example_store) sio (fs_remove rm1 path fs)).2 in
  let reads := lio_open lio && lio_size lio && lio_read lio in
  exists loaded,
    r.1 = Returned (text ["=== persistence / recovery ==="; "save -> " +:+ ok_err saved; loaded]) 0 /\
    (result_ok saved = true ->
       loaded = if reads then "load -> ok, digest=239134858" else "load -> err, digest=0") /\
    (result_ok saved = false -> loaded = "load -> err, digest=0" \/
       exists old s, rm1 = false /\ fs !! path = Some old /\ reads = true /\ parse_store old = Ok s /\
         loaded = "load -> ok, digest=" +:+ to_dec (snapshot_digest s)) /\
    (rm2 = true -> r.2 !! path = None) /\
    (forall k, k <> path -> k <> path +:+ ".tmp" -> r.2 !! k = fs !! k).
Proof.
  cbn zeta. unfold persistence_recovery. set (path := "example_state.gfle").
  pose proof (save_outcome path (snapshot example_store) sio (fs_remove rm1 path fs)) as [Hk Ho].
  destruct (save_snapshot _ _ _ _) as [fs' r]. cbn [fst snd] in *.
  pose proof (load_reads path lio fs') as Hl. cbn zeta in Hl.
  set (l := load_snapshot path lio fs') in *. set (reads := lio_open lio && _ && _) in *.
  exists ("load -> " +:+ ok_err l +:+ ", digest=" +:+
     to_dec (match l with Ok s => snapshot_digest s | Err _ => 0 end)).
  split_and!.
  - f_equal. unfold text. cbn [foldr]. rewrite !string_app_assoc. by rewrite string_app_nil.
  - intros Hr. destruct Ho as [(-> & Hin & _)|[(E & _)|(E & _)]]; [|congruence..].
    rewrite Hin in Hl. destruct reads; [|by destruct Hl as [e ->]].
    rewrite store_nonempty, (parse_store_saved _ fresh_snapshot_wf fresh_snapshot_fits) in Hl.
    rewrite Hl. vm_compute. reflexivity.
  - intros Hr. destruct Ho as [(-> & _)|[(_ & E)|(_ & _ & _ & _ & E & _)]]; [done| |].
    + rewrite fs_remove_eq in E. destruct rm1; [rewrite E in Hl; left; by destruct Hl as [e ->]|].
      destruct (fs !! path) as [old|] eqn:Eo; rewrite E in Hl; [|left; by destruct Hl as [e ->]].
      destruct reads; [|left; by destruct Hl as [e ->]].
      destruct (length old =? 0)%nat; [left; by rewrite Hl|].
      destruct (parse_store old) as [s|e] eqn:Ep; rewrite Hl; [right|by left].
      exists old, s. by split_and!.
    + left. rewrite E in Hl. by destruct Hl as [e ->].
  - intros ->. apply lookup_delete_eq.
  - intros k H1 H2. by rewrite fs_remove_ne, Hk, fs_remove_ne.
Qed.

(** The hardware program: whatever the runtime answers, it reports a device
    validated exactly when the calls it made prove device 0. *)
Theorem hardware_program_sound {S} (rt : CudaRuntime S) s :
  let r := eff_result (hardware_validation rt) s in
  let log := eff_log (hardware_validation rt) s in
  let title := "=== hardware validation (RTX 5090, sm_120) ===" in
  (r = Returned (text [title; "no CUDA device present"]) 0 /\ length log = 1%nat) \/
  exists ev proof (ok : bool) detail, log = ev :: proof /\
    r = Returned (text [title; "ok=" +:+ (if ok then "1" else "0") +:+ " detail=" +:+ detail]) 0 /\
    (ok = true <-> proves_device 0 proof).
Proof.
  cbn zeta. generalize s. change (logs (hardware_validation rt) (fun r log =>
    (r = Returned (text ["=== hardware validation (RTX 5090, sm_120) ==="; "no CUDA device present"]) 0 /\
       length log = 1%nat) \/
    exists ev proof (ok : bool) detail, log = ev :: proof /\
      r = Returned (text ["=== hardware validation (RTX 5090, sm_120) ===";
                          "ok=" +:+ (if ok then "1" else "0") +:+ " detail=" +:+ detail]) 0 /\
      (ok = true <-> proves_device 0 proof))).
  unfold hardware_validation. eapply (logs_bind _ _ (fun _ l => exists ev, l = [ev])).
  { unfold cuda_available, call_get_device_count. apply logs_call. intros a. apply logs_ret. eauto. }
  intros [|] l [ev ->]; cbn [negb].
  - eapply logs_bind; [apply run_cuda_validation_proves|]. intros v proof Hv. apply logs_ret. right.
    exists ev, proof, (v_ok v), (v_detail v). rewrite app_nil_r. split_and!; [done| |done].
    f_equal. unfold text. cbn [foldr]. rewrite !string_app_assoc; reflexivity.
  - apply logs_ret. left. by split.
Qed.
