(* ===== verification/AgentStart.v ===== *)
(** * Starting and stopping the agent ([agent/agent.hpp], [src/agent/agent.cpp])

    The options, the choice of a backend by its name, and [run] and [stop] on their
    two threads. A turn of the agent's loops is one step here; what it does is in
    [Agent]. Each call, each sleep and each turn is taken to return. *)

From stdpp Require Import relations.
From S2P Require Import Prelude Core Codec Effects Cuda Identity Device Observation Pipeline.
From S2P Require Import Message Coordinator Agent EndToEnd CudaBackend.

Record AgentOptions := MkAgentOptions {
  ao_coordinator_host : string;
  ao_coordinator_port : Z;
  ao_node : NodeId;
  ao_worker : WorkerId;
  ao_boot : WorkerBootId;
  ao_os_platform : string;
  ao_heartbeat_interval_ms : DurationMs;
  ao_reconnect_backoff_ms : DurationMs;
  ao_backend : string
}.

Definition agent_options_default : AgentOptions :=
  MkAgentOptions "127.0.0.1" 0 (MkId 1) (MkId 1) (MkId 0) "unknown" 250 100 "synthetic".

(* ------------------------------------------------------------------ *)
(** ** The backend *)

(** What [backend_] points to. *)
Inductive AnyBackend (S : Type) :=
  | Cuda (b : CudaDeviceBackend S)
  | Synthetic (b : SyntheticDeviceBackend).
Arguments Cuda {S}.
Arguments Synthetic {S}.

#[export] Instance any_backend_instance {S} : DeviceBackend (AnyBackend S) := {|
  backend_name := fun b => match b with Cuda b => backend_name b | Synthetic b => backend_name b end;
  backend_available := fun b =>
    match b with Cuda b => backend_available b | Synthetic b => backend_available b end;
  backend_enumerate := fun b =>
    match b with Cuda b => backend_enumerate b | Synthetic b => backend_enumerate b end;
  backend_probe := fun b =>
    match b with Cuda b => backend_probe b | Synthetic b => backend_probe b end
|}.

(** The constructor's choice, on a host whose CUDA backend would be [host]. *)
Definition choose_backend {S} (name : string) (host : CudaDeviceBackend S) : AnyBackend S :=
  if bool_decide (name = "cuda") then
    match make_cuda_backend host with
    | Some b => Cuda b
    | None => Synthetic synthetic_default
    end
  else Synthetic synthetic_default.

(** The constructor. [t], [pid] and [counter] are what [make_fresh_boot_id] reads. *)
Definition agent_construct {S} (opts : AgentOptions) (host : CudaDeviceBackend S) (t pid counter : Z)
  : Agent * AnyBackend S :=
  (agent_init (ao_node opts) (ao_worker opts) (ao_boot opts) (ao_os_platform opts) t pid counter,
   choose_backend (ao_backend opts) host).

(** [to_observation]. *)
Definition to_observation (dev : EnumeratedDevice) (probe : DeviceProbe) (meta : ObservationMetadata)
  : DeviceObservation := normalize_observation probe meta.

(* ------------------------------------------------------------------ *)
(** ** The run *)

(** [run] and [reconnect_loop]: called and about to set the flag; at the test of the
    outer loop; connecting; registering; at the test of the inner loop; in a turn of
    it; after it; in the pause before the next attempt; returned. *)
Inductive RunPc :=
  | RnSetFlag | RnOuter | RnConnect | RnRegister | RnInner | RnTurn | RnClose | RnPause | RnReturned.

#[export] Instance RunPc_eq_dec : EqDecision RunPc.
Proof. solve_decision. Defined.

Record Run := MkRun { rn_running : bool; rn_pc : RunPc }.

(** The agent's thread. How a connection, a handshake or a turn ends is the
    environment's choice. *)
Inductive run_step : Run -> Run -> Prop :=
  | RS_set b : run_step (MkRun b RnSetFlag) (MkRun true RnOuter)
  | RS_outer_go : run_step (MkRun true RnOuter) (MkRun true RnConnect)
  | RS_outer_end : run_step (MkRun false RnOuter) (MkRun false RnReturned)
  | RS_connect_failed b : run_step (MkRun b RnConnect) (MkRun b RnPause)
  | RS_connected b : run_step (MkRun b RnConnect) (MkRun b RnRegister)
  | RS_register_failed b : run_step (MkRun b RnRegister) (MkRun b RnPause)
  | RS_registered b : run_step (MkRun b RnRegister) (MkRun b RnInner)
  | RS_inner_go : run_step (MkRun true RnInner) (MkRun true RnTurn)
  | RS_inner_end : run_step (MkRun false RnInner) (MkRun false RnClose)
  | RS_turn b : run_step (MkRun b RnTurn) (MkRun b RnInner)
  | RS_turn_failed b : run_step (MkRun b RnTurn) (MkRun b RnClose)
  | RS_close_go : run_step (MkRun true RnClose) (MkRun true RnPause)
  | RS_close_end : run_step (MkRun false RnClose) (MkRun false RnReturned)
  | RS_pause b : run_step (MkRun b RnPause) (MkRun b RnOuter).

(** [stop], by another thread or by the destructor. *)
Definition stop_run (r : Run) : Run := MkRun false (rn_pc r).

Definition returned (r : Run) : Prop := rn_pc r = RnReturned.

(* ------------------------------------------------------------------ *)
(** ** Lemmas *)

(** The points still to pass once the flag is down. *)
Definition run_weight (pc : RunPc) : nat :=
  match pc with
  | RnReturned => 0 | RnOuter => 1 | RnPause => 2 | RnClose => 3 | RnInner => 4 | RnTurn => 5
  | RnRegister => 5 | RnConnect => 6 | RnSetFlag => 7
  end.

Lemma run_progress r : ~ returned r -> exists r', run_step r r'.
Proof. destruct r as [[|] []]; unfold returned; cbn; intros H; try done; eexists; constructor. Qed.

Lemma run_closer r r' :
  rn_running r = false -> rn_pc r <> RnSetFlag -> run_step r r' ->
  rn_running r' = false /\ rn_pc r' <> RnSetFlag /\ (run_weight (rn_pc r') < run_weight (rn_pc r))%nat.
Proof. intros Hf Hp Hs. destruct Hs; cbn in *; try done; split_and!; try done; lia. Qed.

Lemma any_backend_laws {S} (b : AnyBackend S) :
  match b with Cuda b => BackendLaws b | Synthetic b => BackendLaws b end -> BackendLaws b.
Proof. destruct b as [b|b]; intros [Hc Hk Hp]; split; intros; cbn in *; eauto. Qed.

(* ------------------------------------------------------------------ *)
(** ** Properties *)

(** Once [stop] has lowered the flag of an agent whose [run] has begun, [run] returns
    within finitely many steps, whatever becomes of its connections. *)
Theorem agent_stops r :
  rn_pc r <> RnSetFlag -> inevitable run_step returned (stop_run r).
Proof.
  intros Hp. assert (rn_running (stop_run r) = false) as Hf by done.
  assert (rn_pc (stop_run r) <> RnSetFlag) as Hp' by exact Hp. clear Hp.
  revert Hf Hp'. generalize (stop_run r) as q. intros q.
  remember (run_weight (rn_pc q)) as n eqn:En. revert q En.
  induction (lt_wf n) as [n _ IH]. intros q -> Hf Hp.
  destruct (decide (rn_pc q = RnReturned)) as [Hr|Hr]; [by apply inevitable_now|].
  apply inevitable_later; [by apply run_progress|]. intros q' Hs.
  destruct (run_closer q q' Hf Hp Hs) as (Hf' & Hp' & Hlt). by eapply IH.
Qed.

(** A [stop] that comes before [run] has set the flag is lost: the agent may run for
    ever. *)
Theorem stop_before_run_lost :
  ~ inevitable run_step returned (stop_run (MkRun false RnSetFlag)).
Proof.
  apply (avoidable run_step returned
    (fun r => r = MkRun false RnSetFlag \/
              r = MkRun true RnOuter \/ r = MkRun true RnConnect \/ r = MkRun true RnPause));
    [|by left].
  intros r [-> | [-> | [-> | ->]]]; (split; [done|]); eexists; (split; [constructor|]); tauto.
Qed.

(** The backend an agent gets: the CUDA backend exactly when it is asked for by name
    and the runtime reports a device, and otherwise one that reports synthetic
    devices - also when CUDA was asked for. *)
Theorem backend_chosen {S} (opts : AgentOptions) (host : CudaDeviceBackend S) t pid counter :
  let b := (agent_construct opts host t pid counter).2 in
  (ao_backend opts = "cuda" /\ backend_available host = true /\ b = Cuda host) \/
  ((ao_backend opts <> "cuda" \/ backend_available host = false) /\ b = Synthetic synthetic_default).
Proof.
  unfold agent_construct, choose_backend, make_cuda_backend. cbn [snd].
  case_bool_decide as Hn; [|right; auto].
  destruct (backend_available host) eqn:E; cbn [negb]; [left|right]; auto.
Qed.

(** An agent stopped in the middle of a turn. *)
Lemma agent_stops_witness : inevitable run_step returned (stop_run (MkRun true RnTurn)).
Proof. apply agent_stops. discriminate. Defined.

(* ------------------------------------------------------------------ *)
(** ** What a reader of the documentation would not expect *)

(** Asked for CUDA on a host where the runtime reports no device, the agent publishes
    a device of vendor NVIDIA that passes every check. *)
Lemma cuda_agent_without_device {S} (host : CudaDeviceBackend S) :
  backend_available host = false ->
  exists d p, backend_enumerate (choose_backend "cuda" host) = Ok [d] /\
    id_vendor (ed_identity d) = AcceleratorVendor.Nvidia /\
    backend_probe (choose_backend "cuda" host) d = Ok p /\ probe_healthy p.
Proof.
  intros Hn. unfold choose_backend, make_cuda_backend. rewrite Hn. cbn -[synthetic_default].
  do 2 eexists. split; [reflexivity|]. split; [reflexivity|]. split; [reflexivity|]. by split_and!.
Qed.
