(* ===== verification/AgentWire.v ===== *)
(** * The agent over its socket ([src/agent/agent.cpp], over
      [src/src/transport/transport.cpp])

    [reconnect_loop] as it runs: each connection, each send and each receive in
    turn, over a socket library. It does what the agent of [Agent] does, whose
    receives are lists, and it closes every socket it opens. *)

From stdpp Require Import gmultiset list.
From S2P Require Import Prelude Core Codec Effects Message Framing Device Observation Pipeline.
From S2P Require Import Registration Store Coordinator CoordinatorSafety Agent EndToEnd Transport Wire.
From S2P Require Import Cuda CudaBackend AgentStart.

(** A routine whose sends may run out of fuel, followed by another. *)
Definition eff_try {S A C} (m : Eff S NetEvent (option A)) (k : A -> Eff S NetEvent (option C))
  : Eff S NetEvent (option C) :=
  eff_bind m (fun r => match r with Some a => k a | None => eff_ret None end).

Notation "x <-! m ;; k" := (eff_try m (fun x => k))
  (at level 100, m at next level, right associativity) : fleet_scope.

(** The environment of one turn of [reconnect_loop]: the hardware at the handshake,
    and the hardware and the clock at each turn of the main loop until the
    connection fails or the agent is stopped. *)
Record AttemptEnv (B : Type) := MkEnv {
  ae_backend : B;
  ae_turns : list (B * (nat -> Timestamp))
}.
Arguments MkEnv {B}.
Arguments ae_backend {B}.
Arguments ae_turns {B}.

Section AgentWire.
Context {S : Type} (ws : Winsock S) (fuel : nat) {B : Type} `{!DeviceBackend B} (opts : AgentOptions).

(** One frame by [send_all]; its loop may stall [fuel] times. *)
Definition send_frame (sock : Z) (m : Message) : Eff S NetEvent (option Sent) :=
  r <- send_all ws (length (message_frame m) + fuel) sock (message_frame m) ;;
  eff_ret (match r with Some r => Some [(m, r)] | None => None end).

(** Sends whose results nothing looks at. *)
Fixpoint send_each (sock : Z) (ms : list Message) : Eff S NetEvent (option Sent) :=
  match ms with
  | [] => eff_ret (Some [])
  | m :: ms =>
      sent <-! send_frame sock m ;;
      rest <-! send_each sock ms ;; eff_ret (Some (sent ++ rest))
  end.

(** [read_one_message]. *)
Fixpoint read_io (tries : nat) (sock : Z) (buf : list byte) : Eff S NetEvent (Result Message) :=
  match tries with
  | O => eff_ret (error_result Io "timeout waiting for message")
  | Datatypes.S n =>
      r <- recv_some_opt ws sock (64 * 1024) ;;
      match r with
      | Err _ => eff_ret (error_result Io "recv error waiting for message")
      | Ok None => read_io n sock buf
      | Ok (Some []) => eff_ret (error_result Io "connection closed waiting for message")
      | Ok (Some data) =>
          match first_message (Datatypes.S (length (buf ++ data))) (buf ++ data) with
          | Found m => eff_ret (Ok m)
          | Wait buf => read_io n sock buf
          | BadFrame => eff_ret (error_result Io "frame error waiting for message")
          end
      end
  end.

(** The frames of one receive, each acknowledged before the next is looked for. *)
Fixpoint admin_io (n : nat) (ag : Agent) (sock : Z) (buf : list byte)
  : Eff S NetEvent (option (Sent * list byte * bool)) :=
  match n with
  | O => eff_ret (Some ([], buf, true))
  | Datatypes.S n =>
      match scan buf with
      | (NeedMore, buf) => eff_ret (Some ([], buf, true))
      | (FeedError _, buf) => eff_ret (Some ([], buf, false))
      | (FrameReady pending, buf) =>
          acked <-! send_each sock
            (match decode_message (f_payload pending) with
             | Ok m => option_list (handle_admin m ag)
             | Err _ => []
             end) ;;
          rest <-! admin_io n ag sock buf ;;
          let '(out, buf', alive) := rest in eff_ret (Some (acked ++ out, buf', alive))
      end
  end.

(** The loop over the inbound frames. *)
Fixpoint poll_io (tries : nat) (ag : Agent) (sock : Z) (buf : list byte)
  : Eff S NetEvent (option (Sent * list byte * bool)) :=
  match tries with
  | O => eff_ret (Some ([], buf, true))
  | Datatypes.S n =>
      r <- recv_some_opt ws sock (64 * 1024) ;;
      match r with
      | Err _ => eff_ret (Some ([], buf, false))
      | Ok None => eff_ret (Some ([], buf, true))
      | Ok (Some []) => eff_ret (Some ([], buf, false))
      | Ok (Some data) =>
          f <-! admin_io (Datatypes.S (length (buf ++ data))) ag sock (buf ++ data) ;;
          let '(out, buf, alive) := f in
          if alive then
            rest <-! poll_io n ag sock buf ;;
            let '(out', buf', alive') := rest in eff_ret (Some (out ++ out', buf', alive'))
          else eff_ret (Some (out, buf, false))
      end
  end.

(** One turn of the main loop. *)
Definition turn_io (b : B) (clock : nat -> Timestamp) (sock : Z) (buf : list byte) (ag : Agent)
  : Eff S NetEvent (option (Agent * Sent * list byte * bool)) :=
  let '(ag, ms) := publish_snapshot b clock ag in
  published <-! send_each sock ms ;;
  p <-! poll_io 16 ag sock buf ;;
  let '(acks, buf, alive) := p in
  if alive then
    beat <-! send_each sock [heartbeat_message ag] ;;
    call_sleep ws (ao_heartbeat_interval_ms opts) ;;;
    eff_ret (Some (ag, published ++ acks ++ beat, buf, true))
  else eff_ret (Some (ag, published ++ acks ++ [], buf, false)).

(** The main loop; [true] when it was left because [running_] was lowered. *)
Fixpoint session_io (turns : list (B * (nat -> Timestamp))) (sock : Z) (buf : list byte) (ag : Agent)
  : Eff S NetEvent (option (Agent * Sent * bool)) :=
  match turns with
  | [] => eff_ret (Some (ag, [], true))
  | (b, clock) :: turns =>
      t <-! turn_io b clock sock buf ag ;;
      let '(ag, out, buf, alive) := t in
      if alive then
        rest <-! session_io turns sock buf ag ;;
        let '(ag, out', stopped) := rest in eff_ret (Some (ag, out ++ out', stopped))
      else eff_ret (Some (ag, out, false))
  end.

(** [connect_and_register]. *)
Definition register_io (b : B) (sock : Z) (ag : Agent)
  : Eff S NetEvent (option (Agent * Result unit * Sent)) :=
  hello <-! send_frame sock (hello_message ag) ;;
  if negb (forallb (fun r => result_ok r.2) hello) then
    eff_ret (Some (ag, error_result Io "hello send failed", hello))
  else
    r <- read_io 64 sock [] ;;
    match r with
    | Err _ => eff_ret (Some (ag, error_result Io "no hello ack", hello))
    | Ok ack =>
        let ag := learn_epoch (m_epoch ack) ag in
        register <-! send_frame sock (register_message (make_registration b ag) ag) ;;
        if negb (forallb (fun r => result_ok r.2) register) then
          eff_ret (Some (ag, error_result Io "register send failed", hello ++ register))
        else
          r <- read_io 64 sock [] ;;
          match r with
          | Err _ => eff_ret (Some (ag, error_result Io "no register ack", hello ++ register))
          | Ok ack2 =>
              if negb (m_ok ack2) then
                eff_ret (Some (ag, error_result Rejected ("registration rejected: " +:+ m_reason ack2),
                               hello ++ register))
              else eff_ret (Some (next_registration ag, Ok tt, hello ++ register))
          end
    end.

Definition backoff : Eff S NetEvent unit := call_sleep ws (ao_reconnect_backoff_ms opts).

(** [reconnect_loop]: the turns it makes until [running_] is lowered. *)
Fixpoint reconnect_io (envs : list (AttemptEnv B)) (ag : Agent)
  : Eff S NetEvent (option (Agent * Sent)) :=
  match envs with
  | [] => eff_ret (Some (ag, []))
  | e :: envs =>
      conn <- tcp_connect ws (ao_coordinator_host opts) (ao_coordinator_port opts) 2000 ;;
      match conn with
      | Err _ => backoff ;;; reconnect_io envs ag
      | Ok sock =>
          set_timeout ws sock 200 ;;;
          h <-! register_io (ae_backend e) sock ag ;;
          let '(ag, registered, out) := h in
          match registered with
          | Err _ =>
              call_closesocket ws sock ;;;
              backoff ;;;
              rest <-! reconnect_io envs ag ;;
              let '(ag, out') := rest in eff_ret (Some (ag, out ++ out'))
          | Ok _ =>
              t <-! session_io (ae_turns e) sock [] ag ;;
              let '(ag, out', stopped) := t in
              call_closesocket ws sock ;;;
              if stopped : bool then eff_ret (Some (ag, out ++ out'))
              else
                backoff ;;;
                rest <-! reconnect_io envs ag ;;
                let '(ag, out'') := rest in eff_ret (Some (ag, out ++ out' ++ out''))
          end
      end
  end.

End AgentWire.

(* ------------------------------------------------------------------ *)
(** ** Lemmas: rules *)

Definition some_of {A} (Q : A -> list NetEvent -> Prop) (r : option A) (l : list NetEvent) : Prop :=
  forall a, r = Some a -> Q a l.

Lemma logs_try {S A C} (m : Eff S NetEvent (option A)) (k : A -> Eff S NetEvent (option C)) P Q :
  logs m (some_of P) ->
  (forall a l, P a l -> logs (k a) (some_of (fun c l' => Q c (l ++ l')))) ->
  logs (eff_try m k) (some_of Q).
Proof.
  intros Hm Hk. unfold eff_try. eapply logs_bind; [exact Hm|]. intros [a|] l Hl.
  - eapply logs_weaken; [exact (Hk a l (Hl a eq_refl))|].
    intros c l' H x Hx. exact (H x Hx).
  - by apply logs_ret.
Qed.

Lemma logs_some_ret {S A} (a : A) (Q : A -> list NetEvent -> Prop) :
  Q a [] -> logs (eff_ret (Some a) : Eff S NetEvent (option A)) (some_of Q).
Proof. intros HQ. apply logs_ret. by intros ? [= <-]. Qed.

(** From any state of the library the routine returns. *)
Definition returns {S A} (m : Eff S NetEvent (option A)) : Prop := forall s, eff_result m s <> None.

Lemma returns_ret {S A} (a : A) : returns (eff_ret (Some a) : Eff S NetEvent (option A)).
Proof. by intros s. Qed.

Lemma returns_bind {S A C} (m : Eff S NetEvent A) (k : A -> Eff S NetEvent (option C)) :
  (forall a, returns (k a)) -> returns (eff_bind m k).
Proof.
  intros Hk s. unfold eff_result, eff_bind. destruct (m s) as [[a s1] l]. specialize (Hk a s1).
  unfold eff_result in Hk. by destruct (k a s1) as [[b s2] l'].
Qed.

Lemma returns_try {S A C} (m : Eff S NetEvent (option A)) (k : A -> Eff S NetEvent (option C)) :
  returns m -> (forall a, returns (k a)) -> returns (eff_try m k).
Proof.
  intros Hm Hk s. unfold eff_try, eff_result, eff_bind. specialize (Hm s). unfold eff_result in Hm.
  destruct (m s) as [[[a|] s1] l]; [|done]. specialize (Hk a s1). unfold eff_result in Hk.
  by destruct (k a s1) as [[b s2] l'].
Qed.

Lemma holds_try {S A C} live (m : Eff S NetEvent (option A)) (k : A -> Eff S NetEvent (option C)) Q :
  holds live m (fun _ live' => live' = live) -> Q None live -> (forall a, holds live (k a) Q) ->
  holds live (eff_try m k) Q.
Proof.
  intros Hm Hn Hk. unfold eff_try. eapply holds_bind; [exact Hm|]. intros [a|] live' ->; [apply Hk|].
  by apply holds_ret.
Qed.

(** Runs a routine that returns to its leaves. *)
Ltac returns_step :=
  first
    [ apply returns_ret
    | match goal with
      | |- returns (let '(_, _) := ?p in _) => destruct p
      | |- returns (match ?x with _ => _ end) => destruct x eqn:?
      | |- returns (if ?b then _ else _) => destruct b
      end
    | apply returns_try; [|intros ?]
    | apply returns_bind; intros ? ].

(* ------------------------------------------------------------------ *)
(** ** Lemmas: what the agent's routines do *)

(** If every send succeeded, the library accepted exactly the frames. *)
Definition frames_out (out : Sent) (log : list NetEvent) : Prop :=
  all_sent out -> sent_bytes log = concat (map message_frame (replies out)).

Lemma frames_out_app out1 out2 l1 l2 :
  frames_out out1 l1 -> frames_out out2 l2 -> frames_out (out1 ++ out2) (l1 ++ l2).
Proof.
  intros H1 H2 [Ha Hb]%Forall_app. unfold replies.
  by rewrite sent_bytes_app, (H1 Ha), (H2 Hb), map_app, map_app, concat_app.
Qed.

Lemma frames_out_none l : sent_bytes l = [] -> frames_out [] l.
Proof. intros H _. exact H. Qed.

Lemma replies_app out1 out2 : replies (out1 ++ out2) = replies out1 ++ replies out2.
Proof. apply map_app. Qed.

(** The events carry the bytes the library handed over. *)
Definition carry (events : list Recv) (log : list NetEvent) : Prop :=
  concat (data_chunks events) = received_bytes log.

Lemma carry_app e1 e2 l1 l2 : carry e1 l1 -> carry e2 l2 -> carry (e1 ++ e2) (l1 ++ l2).
Proof.
  unfold carry. intros H1 H2. rewrite received_bytes_app, <- H1, <- H2, <- concat_app.
  f_equal. unfold data_chunks. by rewrite <- omap_app.
Qed.

Lemma carry_cons e es l1 l2 : carry [e] l1 -> carry es l2 -> carry (e :: es) (l1 ++ l2).
Proof. apply (carry_app [e] es). Qed.

Section Lemmas.
Context {S : Type} (ws : Winsock S) {Hty : WinsockTyped ws} (fuel : nat).

Lemma send_frame_logs sock m :
  logs (send_frame ws fuel sock m)
    (some_of (fun out l => received_bytes l = [] /\ replies out = [m] /\ frames_out out l)).
Proof.
  unfold send_frame. eapply logs_bind;
    [apply logs_and; [apply (send_all_logs ws)|apply send_all_receives_nothing]|].
  intros [r|] l [Hs Hr]; apply logs_ret; intros out [= <-]. rewrite app_nil_r. split_and!; [done|done|].
  intros [Ho _]%Forall_cons. cbn in *. subst r. rewrite app_nil_r. exact Hs.
Qed.

Lemma send_each_logs sock ms :
  logs (send_each ws fuel sock ms)
    (some_of (fun out l => received_bytes l = [] /\ replies out = ms /\ frames_out out l)).
Proof.
  induction ms as [|m ms IH]; cbn [send_each]; [by apply logs_some_ret|].
  eapply logs_try; [apply send_frame_logs|]. intros out l (Hr & Hm & Hf).
  eapply logs_try; [exact IH|]. intros out' l' (Hr' & Hm' & Hf'). apply logs_some_ret.
  rewrite app_nil_r, received_bytes_app, Hr, Hr', replies_app, Hm, Hm'. split_and!; [done|done|].
  by apply frames_out_app.
Qed.

Lemma recv_logs sock :
  logs (recv_some_opt ws sock (64 * 1024)) (fun r l => carry [recv_event r] l /\ sent_bytes l = []).
Proof. apply logs_and; [apply recv_some_opt_logs|apply recv_some_opt_sends_nothing]. Qed.

Lemma read_io_logs tries sock buf :
  logs (read_io ws tries sock buf) (fun r l => sent_bytes l = [] /\
    exists events, carry events l /\ read_message tries buf events = (r, [])).
Proof.
  revert buf. induction tries as [|n IH]; intros buf; cbn [read_io read_message].
  { apply logs_ret. split; [done|]. by exists []. }
  eapply logs_bind; [apply recv_logs|]. intros [[[|b data]|]|e] l [Hr Hs]; cbn [recv_event] in Hr.
  - apply logs_ret. rewrite app_nil_r. split; [done|]. by exists [RecvData []].
  - destruct (first_message _ _) as [m|buf'|] eqn:E.
    + apply logs_ret. rewrite app_nil_r. split; [done|]. exists [RecvData (b :: data)]. by rewrite E.
    + eapply logs_weaken; [apply IH|]. intros r l' (Hs' & evs & Hc & Hread).
      rewrite sent_bytes_app, Hs, Hs'. split; [done|]. exists (RecvData (b :: data) :: evs).
      split; [by apply carry_cons|]. by rewrite E.
    + apply logs_ret. rewrite app_nil_r. split; [done|]. exists [RecvData (b :: data)]. by rewrite E.
  - eapply logs_weaken; [apply IH|]. intros r l' (Hs' & evs & Hc & Hread).
    rewrite sent_bytes_app, Hs, Hs'. split; [done|]. exists (RecvNone :: evs).
    split; [by apply carry_cons|done].
  - apply logs_ret. rewrite app_nil_r. split; [done|]. by exists [RecvError].
Qed.

Lemma admin_io_logs n ag sock buf :
  logs (admin_io ws fuel n ag sock buf) (some_of (fun r l => received_bytes l = [] /\
    admin_frames n ag buf = (replies r.1.1, r.1.2, r.2) /\ frames_out r.1.1 l)).
Proof.
  revert buf. induction n as [|n IH]; intros buf; cbn [admin_io admin_frames]; [by apply logs_some_ret|].
  destruct (scan buf) as [[|f|e] rest]; [by apply logs_some_ret| |by apply logs_some_ret].
  eapply logs_try; [apply send_each_logs|]. intros acked l (Hr & Hm & Hf).
  eapply logs_try; [apply IH|]. intros [[out buf'] alive] l' (Hr' & Ha & Hf'). cbn [fst snd] in Ha, Hf'.
  apply logs_some_ret. rewrite app_nil_r, received_bytes_app, Hr, Hr', Ha. cbn.
  rewrite replies_app, Hm. split_and!; [done|done|]. by apply frames_out_app.
Qed.

Lemma poll_io_logs tries ag sock buf :
  logs (poll_io ws fuel tries ag sock buf) (some_of (fun r l => exists events, carry events l /\
    poll tries ag buf events = (replies r.1.1, r.1.2, r.2, []) /\ frames_out r.1.1 l)).
Proof.
  revert buf. induction tries as [|n IH]; intros buf; cbn [poll_io poll].
  { apply logs_some_ret. by exists []. }
  eapply logs_bind; [apply recv_logs|]. intros [[[|b data]|]|e] l [Hr Hs]; cbn [recv_event] in Hr.
  - apply logs_some_ret. rewrite app_nil_r. exists [RecvData []].
    split_and!; [exact Hr|done|exact (frames_out_none _ Hs)].
  - eapply logs_try; [apply admin_io_logs|]. intros [[out buf'] alive] l' (Hr' & Ha & Hf). cbn [fst snd] in Ha, Hf.
    assert (carry [RecvData (b :: data)] (l ++ l')) as Hc
      by (unfold carry; by rewrite received_bytes_app, Hr', app_nil_r).
    assert (frames_out out (l ++ l')) as Hf1 by (apply (frames_out_app [] out l l'); [apply frames_out_none; exact Hs|exact Hf]).
    destruct alive.
    + eapply logs_try; [apply IH|]. intros [[out' buf2] alive'] l2 (evs & Hc2 & Hp & Hf2). cbn [fst snd] in Hp, Hf2.
      apply logs_some_ret. rewrite app_nil_r. exists (RecvData (b :: data) :: evs).
      rewrite Ha, Hp. cbn. rewrite replies_app, app_assoc.
      split_and!; [by apply carry_cons|done|by apply frames_out_app].
    + apply logs_some_ret. rewrite app_nil_r. exists [RecvData (b :: data)]. rewrite Ha.
      split_and!; [exact Hc|done|exact Hf1].
  - apply logs_some_ret. rewrite app_nil_r. exists [RecvNone].
    split_and!; [exact Hr|done|exact (frames_out_none _ Hs)].
  - apply logs_some_ret. rewrite app_nil_r. exists [RecvError].
    split_and!; [exact Hr|done|exact (frames_out_none _ Hs)].
Qed.

(** The turns of a session with what each received. *)
Definition turns_of {B} (ts : list (Turn B)) : list (B * (nat -> Timestamp)) :=
  map (fun t => (tn_backend t, tn_clock t)) ts.
Definition turn_events {B} (ts : list (Turn B)) : list Recv := concat (map tn_events ts).

(** The attempts with what each received. *)
Definition attempt_events {B} (a : Attempt B) : list Recv := at_handshake a ++ turn_events (at_turns a).
Definition all_events {B} (ats : list (Attempt B)) : list Recv := concat (map attempt_events ats).

Context {B : Type} `{!DeviceBackend B} (opts : AgentOptions).

Lemma call_sleep_logs ms :
  logs (call_sleep ws ms) (fun _ l => received_bytes l = [] /\ sent_bytes l = []).
Proof. intros s. unfold call_sleep, eff_log, eff_call. by destruct (ws_sleep ws ms s). Qed.

Lemma call_closesocket_logs sock :
  logs (call_closesocket ws sock) (fun _ l => received_bytes l = [] /\ sent_bytes l = []).
Proof. intros s. unfold call_closesocket, eff_log, eff_call. by destruct (ws_closesocket ws sock s). Qed.

Lemma set_timeout_logs sock ms :
  logs (set_timeout ws sock ms) (fun _ l => received_bytes l = [] /\ sent_bytes l = []).
Proof.
  unfold set_timeout. case_branch; [by apply logs_ret|].
  intros s. unfold call_set_timeouts, eff_log, eff_call. by destruct (ws_set_timeouts ws sock _ s).
Qed.

Lemma tcp_connect_logs host port ms :
  logs (tcp_connect ws host port ms) (fun _ l => received_bytes l = [] /\ sent_bytes l = []).
Proof.
  unfold tcp_connect, last_error_result, await_connected, connected. repeat logs_step; done.
Qed.

(** A routine that neither sends nor receives, and what follows. *)
Lemma quiet_logs {A C} (m : Eff S NetEvent A) (k : A -> Eff S NetEvent (option C)) Q :
  logs m (fun _ l => received_bytes l = [] /\ sent_bytes l = []) ->
  (forall l c l', received_bytes l = [] -> sent_bytes l = [] -> Q c l' -> Q c (l ++ l')) ->
  (forall a, logs (k a) (some_of Q)) -> logs (eff_bind m k) (some_of Q).
Proof.
  intros Hm HQ Hk. eapply logs_bind; [exact Hm|]. intros a l [Hr Hs].
  eapply logs_weaken; [apply Hk|]. intros c l' H x Hx. apply HQ; [done|done|]. by apply H.
Qed.

(** What a part of the agent's life did: the bytes it received came as [events],
    and [out] went out. *)
Definition did (events : list Recv) (out : Sent) (log : list NetEvent) : Prop :=
  carry events log /\ frames_out out log.

Lemma did_app e1 e2 o1 o2 l1 l2 : did e1 o1 l1 -> did e2 o2 l2 -> did (e1 ++ e2) (o1 ++ o2) (l1 ++ l2).
Proof. intros [? ?] [? ?]. split; [by apply carry_app|by apply frames_out_app]. Qed.

Lemma did_quiet l e o l' : received_bytes l = [] -> sent_bytes l = [] -> did e o l' -> did e o (l ++ l').
Proof.
  intros Hr Hs. apply (did_app [] e [] o l l'). split; [unfold carry; by rewrite Hr|by apply frames_out_none].
Qed.

Lemma did_sent out l : received_bytes l = [] -> frames_out out l -> did [] out l.
Proof. intros Hr Hf. split; [unfold carry; by rewrite Hr|done]. Qed.

Lemma did_heard e l : carry e l -> sent_bytes l = [] -> did e [] l.
Proof. intros Hc Hs. split; [done|by apply frames_out_none]. Qed.

Lemma turn_io_logs (b : B) clock sock buf ag :
  logs (turn_io ws fuel opts b clock sock buf ag) (some_of (fun r l => exists events,
    session_turn b clock buf events ag = (r.1.1.1, replies r.1.1.2, r.1.2, r.2, []) /\
    did events r.1.1.2 l)).
Proof.
  unfold turn_io, session_turn. destruct (publish_snapshot b clock ag) as [ag1 ms].
  eapply logs_try; [apply send_each_logs|]. intros published l (Hr & Hm & Hf).
  eapply logs_try; [apply poll_io_logs|]. intros [[acks buf'] alive] l1 (evs & Hc & Hp & Hf1).
  cbn [fst snd] in Hp, Hf1. pose proof (did_app _ _ _ _ _ _ (did_sent _ _ Hr Hf) (conj Hc Hf1)) as Hd.
  destruct alive.
  - eapply logs_try; [apply send_each_logs|]. intros beat l2 (Hr2 & Hm2 & Hf2).
    eapply logs_bind; [apply call_sleep_logs|]. intros _ l3 [Hr3 Hs3]. apply logs_some_ret.
    exists evs. cbn [fst snd]. rewrite Hp, !replies_app, Hm, Hm2. split; [done|].
    rewrite app_nil_r, !app_assoc, <- (app_nil_r evs).
    change (did ([] ++ evs ++ []) ((published ++ acks) ++ beat) (((l ++ l1) ++ l2) ++ l3)).
    rewrite (app_assoc [] evs), <- (app_assoc (l ++ l1)). apply did_app; [exact Hd|].
    rewrite <- (app_nil_r beat), <- (app_nil_r []).
    apply did_app; [by apply did_sent|]. apply did_sent; [done|by apply frames_out_none].
  - apply logs_some_ret. exists evs. cbn [fst snd]. rewrite Hp, !replies_app, Hm. split; [done|].
    rewrite !app_nil_r. exact Hd.
Qed.

Lemma session_io_logs turns sock buf ag :
  logs (session_io ws fuel opts turns sock buf ag) (some_of (fun r l => exists ts : list (Turn B),
    turns_of ts `prefix_of` turns /\ session ts buf ag = (r.1.1, replies r.1.2) /\
    did (turn_events ts) r.1.2 l)).
Proof.
  revert buf ag. induction turns as [|[b clock] turns IH]; intros buf ag; cbn [session_io].
  { apply logs_some_ret. exists []. split_and!; [apply prefix_nil|done|done]. }
  eapply logs_try; [apply turn_io_logs|]. intros [[[ag1 out] buf1] alive] l (evs & Ht & Hd).
  cbn [fst snd] in Ht, Hd. destruct alive.
  - eapply logs_try; [apply IH|]. intros [[ag2 out2] stopped] l2 (ts & Hpre & Hs & Hd2).
    cbn [fst snd] in Hs, Hd2. apply logs_some_ret. exists (MkTurn b clock evs :: ts).
    cbn [fst snd session tn_backend tn_clock tn_events]. rewrite Ht, Hs, replies_app, app_nil_r.
    split_and!; [by apply prefix_cons|done|]. by apply did_app.
  - apply logs_some_ret. exists [MkTurn b clock evs].
    cbn [fst snd session tn_backend tn_clock tn_events]. rewrite Ht, app_nil_r.
    split_and!; [by apply prefix_cons, prefix_nil|done|]. unfold turn_events. cbn. by rewrite app_nil_r.
Qed.

(** Every send of a handshake succeeded or the handshake stopped there. *)
Lemma all_sent_ok (out : Sent) : forallb (fun r => result_ok r.2) out = true <-> all_sent out.
Proof.
  unfold all_sent. rewrite forallb_forall, Forall_forall. split; intros H [m r] Hin.
  - apply list_elem_of_In in Hin. specialize (H _ Hin). by destruct r as [[]|].
  - apply list_elem_of_In in Hin. specialize (H _ Hin). cbn in *. by rewrite H.
Qed.

Lemma not_all_sent_app (out1 out2 : Sent) :
  forallb (fun r => result_ok r.2) out2 = false -> ~ all_sent (out1 ++ out2).
Proof. intros Hf [_ Ha]%Forall_app. apply all_sent_ok in Ha. congruence. Qed.

(** The messages the agent counts as sent are among those it tried to send, and all
    of them when every send succeeded. *)
Definition counted (ms : list Message) (out : Sent) : Prop :=
  (all_sent out -> ms = replies out) /\ ms `sublist_of` replies out.

Lemma counted_all out : counted (replies out) out.
Proof. by split. Qed.

Lemma counted_app ms1 ms2 out1 out2 :
  counted ms1 out1 -> counted ms2 out2 -> counted (ms1 ++ ms2) (out1 ++ out2).
Proof.
  intros [H1 S1] [H2 S2]. unfold counted. rewrite replies_app. split; [|by apply sublist_app].
  intros [Ha Hb]%Forall_app. by rewrite (H1 Ha), (H2 Hb).
Qed.

Lemma register_io_logs (b : B) sock ag :
  logs (register_io ws fuel b sock ag) (some_of (fun r l => exists h rg events ms,
    connect_and_register b h rg events ag = (r.1.1, r.1.2, ms, []) /\ did events r.2 l /\
    counted ms r.2)).
Proof.
  unfold register_io.
  eapply logs_try; [apply send_frame_logs|]. intros hello l (Hr & Hm & Hf).
  destruct (forallb _ hello) eqn:Hh; cbn [negb].
  2:{ apply logs_some_ret. rewrite app_nil_r. exists false, false, [], []. split_and!; [done|by apply did_sent|].
      split; [|apply sublist_nil_l]. intros Ha%all_sent_ok. cbn in Ha. congruence. }
  eapply logs_bind; [apply read_io_logs|]. intros [ack|e] l1 (Hs1 & ev1 & Hc1 & Hread1).
  2:{ apply logs_some_ret. rewrite app_nil_r. exists true, false, ev1, [hello_message ag].
      unfold connect_and_register, read_one_message. rewrite Hread1. cbn [negb fst snd].
      split_and!; [done| |rewrite <- Hm; apply counted_all].
      rewrite <- (app_nil_r hello). by apply (did_app [] ev1); [apply did_sent|apply did_heard]. }
  eapply logs_try; [apply send_frame_logs|]. intros register l2 (Hr2 & Hm2 & Hf2).
  assert (did ev1 (hello ++ register) (l ++ l1 ++ l2)) as Hd.
  { rewrite <- (app_nil_r ev1). apply (did_app [] (ev1 ++ [])); [by apply did_sent|].
    apply (did_app ev1 [] [] register); [by apply did_heard|by apply did_sent]. }
  destruct (forallb _ register) eqn:Hrg; cbn [negb].
  2:{ apply logs_some_ret. rewrite app_nil_r. exists true, false, ev1, [hello_message ag].
      unfold connect_and_register, read_one_message. rewrite Hread1. cbn [negb fst snd]. split_and!; [done|exact Hd|].
      split; [intros Ha; by destruct (not_all_sent_app hello _ Hrg)|].
      rewrite replies_app, Hm. apply sublist_inserts_r. done. }
  eapply logs_bind; [apply read_io_logs|]. intros r l3 (Hs3 & ev3 & Hc3 & Hread3).
  assert (did (ev1 ++ ev3) (hello ++ register) (l ++ l1 ++ l2 ++ l3)) as Hd3.
  { rewrite <- (app_nil_r (hello ++ register)), !app_assoc, <- (app_assoc l).
    apply did_app; [exact Hd|by apply did_heard]. }
  assert (exists ms,
      connect_and_register b true true (ev1 ++ ev3) ag =
      (match r with
       | Err _ => (learn_epoch (m_epoch ack) ag, error_result Io "no register ack", ms, [])
       | Ok ack2 =>
           if negb (m_ok ack2) then
             (learn_epoch (m_epoch ack) ag,
              error_result Rejected ("registration rejected: " +:+ m_reason ack2), ms, [])
           else (next_registration (learn_epoch (m_epoch ack) ag), Ok tt, ms, [])
       end) /\ ms = replies (hello ++ register)) as (ms & Hcr & Hms).
  { eexists. split; [|reflexivity]. unfold connect_and_register. cbn [negb].
    rewrite (read_one_app _ _ _ Hread1). unfold read_one_message at 1. rewrite Hread3.
    rewrite replies_app, Hm, Hm2. by destruct r. }
  assert (counted ms (hello ++ register)) as Hcnt by (rewrite Hms; apply counted_all).
  destruct r as [ack2|e]; [destruct (m_ok ack2)|]; cbn [negb] in Hcr |- *; apply logs_some_ret;
    rewrite app_nil_r; cbn [fst snd]; exists true, true, (ev1 ++ ev3), ms; exact (conj Hcr (conj Hd3 Hcnt)).
Qed.

(** An attempt met the environment: the backend at the handshake, and the backends
    and clocks of its turns. *)
Definition in_env (a : Attempt B) (e : AttemptEnv B) : Prop :=
  at_backend a = ae_backend e /\ turns_of (at_turns a) `prefix_of` ae_turns e.

(** What the loop did is what the agent does in attempts that met the environments
    and received what the library handed over. *)
Definition lived (envs : list (AttemptEnv B)) (ag : Agent) (r : Agent * Sent) (l : list NetEvent) : Prop :=
  exists ats ms, reconnect_loop ats ag = (r.1, ms) /\ Forall2 in_env ats (take (length ats) envs) /\
    did (all_events ats) r.2 l /\ counted ms r.2.

Lemma lived_none envs ag : lived envs ag (ag, []) [].
Proof. exists [], []. split_and!; [done|by constructor|done|apply counted_all]. Qed.

(** One attempt and the rest. *)
Lemma lived_cons a e envs ag ag1 ag2 ms out1 out2 l1 l2 :
  in_env a e -> attempt_connection a ag = (ag1, ms) -> did (attempt_events a) out1 l1 -> counted ms out1 ->
  lived envs ag1 (ag2, out2) l2 -> lived (e :: envs) ag (ag2, out1 ++ out2) (l1 ++ l2).
Proof.
  intros He Ha Hd Hc (ats & ms2 & Hr & Hin & Hd2 & Hc2). exists (a :: ats), (ms ++ ms2). cbn [fst snd] in *.
  cbn [reconnect_loop length take]. rewrite Ha, Hr. split_and!; [done|by constructor| |by apply counted_app].
  by apply did_app.
Qed.

Lemma lived_last a e envs ag ag1 ms out l :
  in_env a e -> attempt_connection a ag = (ag1, ms) -> did (attempt_events a) out l -> counted ms out ->
  lived (e :: envs) ag (ag1, out) l.
Proof.
  intros He Ha Hd Hc. rewrite <- (app_nil_r out), <- (app_nil_r l).
  eapply lived_cons; [exact He|exact Ha|exact Hd|exact Hc|apply lived_none].
Qed.

Lemma did_after e o l l' : received_bytes l' = [] -> sent_bytes l' = [] -> did e o l -> did e o (l ++ l').
Proof.
  intros Hr Hs Hd. rewrite <- (app_nil_r e), <- (app_nil_r o). apply did_app; [exact Hd|].
  apply did_sent; [done|by apply frames_out_none].
Qed.

Lemma did_before e o l l' : received_bytes l' = [] -> sent_bytes l' = [] -> did e o l -> did e o (l' ++ l).
Proof.
  intros Hr Hs Hd. change e with ([] ++ e). change o with ([] ++ o). apply did_app; [|exact Hd].
  apply did_sent; [done|by apply frames_out_none].
Qed.

Lemma reconnect_io_logs envs ag :
  logs (reconnect_io ws fuel opts envs ag) (some_of (lived envs ag)).
Proof.
  revert ag. induction envs as [|e envs IH]; intros ag; cbn [reconnect_io].
  { apply logs_some_ret, lived_none. }
  eapply logs_bind; [apply tcp_connect_logs|]. intros [sock|err] l0 [Hr0 Hs0].
  2:{ eapply logs_bind; [apply call_sleep_logs|]. intros _ l1 [Hr1 Hs1].
      eapply logs_weaken; [apply IH|]. intros r l2 H [ag2 out] ->. rewrite app_assoc.
      apply (lived_cons (MkAttempt false (ae_backend e) true true [] []) e envs ag ag ag2 [] [] out).
      - split; [done|apply prefix_nil].
      - done.
      - apply did_after; [done|done|]. by apply did_sent; [|apply frames_out_none].
      - apply counted_all.
      - exact (H _ eq_refl). }
  eapply logs_bind; [apply set_timeout_logs|]. intros _ l1 [Hr1 Hs1].
  eapply logs_try; [apply register_io_logs|]. intros [[ag1 res] out] l2 (h & rg & evs & ms & Hcr & Hd & Hc).
  cbn [fst snd] in Hcr, Hd, Hc.
  assert (did evs out (l0 ++ l1 ++ l2)) as Hd'
    by (apply did_before; [done|done|]; by apply did_before).
  destruct res as [u|err].
  - eapply logs_try; [apply session_io_logs|].
    intros [[ag2 out2] stopped] l3 (ts & Hpre & Hses & Hd3). cbn [fst snd] in Hses, Hd3.
    eapply logs_bind; [apply call_closesocket_logs|]. intros _ l4 [Hr4 Hs4].
    set (a := MkAttempt true (ae_backend e) h rg evs ts).
    assert (attempt_connection a ag = (ag2, ms ++ replies out2)) as Ha.
    { unfold attempt_connection, a. cbn [at_connected at_backend at_hello_sent at_register_sent at_handshake
        at_turns negb]. by rewrite Hcr, Hses. }
    assert (in_env a e) as He by by split.
    assert (did (attempt_events a) (out ++ out2) ((l0 ++ l1 ++ l2) ++ l3 ++ l4)) as Hda.
    { apply did_app; [exact Hd'|]. by apply did_after. }
    assert (counted (ms ++ replies out2) (out ++ out2)) as Hca
      by (apply counted_app; [done|apply counted_all]).
    destruct stopped.
    + apply logs_some_ret. rewrite app_nil_r. rewrite <- !app_assoc in Hda. by eapply lived_last.
    + eapply logs_bind; [apply call_sleep_logs|]. intros _ l5 [Hr5 Hs5].
      eapply logs_try; [apply IH|]. intros [ag3 out3] l6 H6. apply logs_some_ret. rewrite app_nil_r.
      rewrite (app_assoc out).
      replace (l0 ++ l1 ++ l2 ++ l3 ++ l4 ++ l5 ++ l6) with ((((l0 ++ l1 ++ l2) ++ l3 ++ l4) ++ l5) ++ l6)
        by (by rewrite <- !app_assoc).
      eapply lived_cons; [exact He|exact Ha|by apply did_after|exact Hca|exact H6].
  - eapply logs_bind; [apply call_closesocket_logs|]. intros _ l4 [Hr4 Hs4].
    eapply logs_bind; [apply call_sleep_logs|]. intros _ l5 [Hr5 Hs5].
    eapply logs_try; [apply IH|]. intros [ag3 out3] l6 H6. apply logs_some_ret. rewrite app_nil_r.
    replace (l0 ++ l1 ++ l2 ++ l4 ++ l5 ++ l6) with ((((l0 ++ l1 ++ l2) ++ l4) ++ l5) ++ l6)
      by (by rewrite <- !app_assoc).
    eapply (lived_cons (MkAttempt true (ae_backend e) h rg evs [])); [by split; [|apply prefix_nil]| | |exact Hc|exact H6].
    + unfold attempt_connection. cbn [at_connected at_backend at_hello_sent at_register_sent at_handshake
        at_turns negb]. by rewrite Hcr.
    + unfold attempt_events. cbn. rewrite app_nil_r. by do 2 (apply did_after; [done|done|]).
Qed.

End Lemmas.

Lemma one_socket sock : Socket sock ∈ ({[+ Socket sock +]} ⊎ ∅ : Handles).
Proof. multiset_solver. Qed.
Lemma no_socket sock : ({[+ Socket sock +]} ⊎ ∅) ∖ {[+ Socket sock +]} = (∅ : Handles).
Proof. multiset_solver. Qed.

Section AgentHandles.
Context {S : Type} (ws : Winsock S) (fuel : nat) {B : Type} `{!DeviceBackend B} (opts : AgentOptions).

Definition keeps {A} (live : Handles) (m : Eff S NetEvent A) : Prop :=
  holds live m (fun _ live' => live' = live).

Lemma keeps_ret {A} live (a : A) : keeps live (eff_ret a).
Proof. by apply holds_ret. Qed.

Lemma keeps_bind {A C} live (m : Eff S NetEvent A) (k : A -> Eff S NetEvent C) :
  keeps live m -> (forall a, keeps live (k a)) -> keeps live (eff_bind m k).
Proof. intros Hm Hk. eapply holds_bind; [exact Hm|]. intros a live' ->. apply Hk. Qed.

Lemma keeps_try {A C} live (m : Eff S NetEvent (option A)) (k : A -> Eff S NetEvent (option C)) :
  keeps live m -> (forall a, keeps live (k a)) -> keeps live (eff_try m k).
Proof. intros Hm Hk. apply keeps_bind; [exact Hm|]. intros [a|]; [apply Hk|apply keeps_ret]. Qed.

Lemma sleep_keeps live ms : keeps live (call_sleep ws ms).
Proof. apply holds_last. intros a. by exists live. Qed.

(** Runs a routine that neither opens nor closes to its leaves. *)
Ltac keeps_step :=
  first
    [ apply keeps_ret
    | apply sleep_keeps
    | assumption
    | match goal with
      | |- keeps _ (let '(_, _) := ?p in _) => destruct p
      | |- keeps _ (match ?x with _ => _ end) => destruct x eqn:?
      | |- keeps _ (if ?b then _ else _) => destruct b
      end
    | apply keeps_try; [|intros ?]
    | apply keeps_bind; [|intros ?] ].

Section OneSocket.
Context (live : Handles) (sock : Z) (Hsock : Socket sock ∈ live).

Lemma recv_keeps cap : keeps live (recv_some_opt ws sock cap).
Proof using Hsock. by apply recv_some_opt_holds. Qed.

Lemma send_frame_keeps m : keeps live (send_frame ws fuel sock m).
Proof using Hsock. apply keeps_bind; [by apply send_all_holds|intros r; apply keeps_ret]. Qed.

Lemma send_each_keeps ms : keeps live (send_each ws fuel sock ms).
Proof using Hsock.
  induction ms as [|m ms IH]; cbn [send_each]; [apply keeps_ret|].
  repeat first [apply send_frame_keeps | keeps_step].
Qed.

Lemma read_io_keeps tries buf : keeps live (read_io ws tries sock buf).
Proof using Hsock.
  revert buf. induction tries as [|n IH]; intros buf; cbn [read_io]; [apply keeps_ret|].
  apply keeps_bind; [apply recv_keeps|]. intros r. repeat first [apply IH | keeps_step].
Qed.

Lemma admin_io_keeps n ag buf : keeps live (admin_io ws fuel n ag sock buf).
Proof using Hsock.
  revert buf. induction n as [|n IH]; intros buf; cbn [admin_io]; [apply keeps_ret|].
  repeat first [apply send_each_keeps | apply IH | keeps_step].
Qed.

Lemma poll_io_keeps tries ag buf : keeps live (poll_io ws fuel tries ag sock buf).
Proof using Hsock.
  revert buf. induction tries as [|n IH]; intros buf; cbn [poll_io]; [apply keeps_ret|].
  apply keeps_bind; [apply recv_keeps|]. intros r.
  repeat first [apply admin_io_keeps | apply IH | keeps_step].
Qed.

Lemma turn_io_keeps (b : B) clock buf ag : keeps live (turn_io ws fuel opts b clock sock buf ag).
Proof using Hsock.
  unfold turn_io. repeat first [apply send_each_keeps | apply poll_io_keeps | keeps_step].
Qed.

Lemma session_io_keeps turns buf ag :
  keeps live (session_io (B := B) ws fuel opts turns sock buf ag).
Proof using Hsock.
  revert buf ag. induction turns as [|[b clock] turns IH]; intros buf ag; cbn [session_io]; [apply keeps_ret|].
  repeat first [apply turn_io_keeps | apply IH | keeps_step].
Qed.

Lemma register_io_keeps (b : B) ag : keeps live (register_io ws fuel b sock ag).
Proof using Hsock.
  unfold register_io. repeat first [apply send_frame_keeps | apply read_io_keeps | keeps_step].
Qed.

Lemma set_timeout_keeps ms : keeps live (set_timeout ws sock ms).
Proof using Hsock. by apply set_timeout_holds. Qed.

End OneSocket.

(** The loop starts and ends without a socket. *)
Lemma reconnect_io_holds envs ag :
  holds ∅ (reconnect_io (B := B) ws fuel opts envs ag)
    (fun r live => match r with Some _ => live = ∅ | None => True end).
Proof.
  revert ag. induction envs as [|e envs IH]; intros ag; cbn [reconnect_io]; [by apply holds_ret|].
  assert (forall out ag', holds ∅ (eff_try (reconnect_io ws fuel opts envs ag')
      (fun r => let '(ag, out') := r in eff_ret (Some (ag, out ++ out'))))
      (fun r live => match r with Some _ => live = ∅ | None => True end)) as Hrest.
  { intros out ag'. unfold eff_try. eapply holds_bind; [apply IH|].
    intros [[ag2 out2]|] live Hl; by apply holds_ret. }
  eapply holds_bind; [apply (tcp_connect_holds ws ∅)|]. intros [sock|err] live Hl; unfold opened_only, id in Hl; subst live.
  2:{ eapply holds_bind; [apply sleep_keeps|]. intros _ live ->. apply IH. }
  assert (Socket sock ∈ ({[+ Socket sock +]} ⊎ ∅ : Handles)) as Hs by apply one_socket.
  eapply holds_bind; [by apply set_timeout_keeps|]. intros _ live ->.
  apply holds_try; [by apply register_io_keeps|done|]. intros [[ag1 [u|err]] out].
  - apply holds_try; [by apply session_io_keeps|done|]. intros [[ag2 out2] stopped].
    ledger_step. rewrite no_socket.
    destruct stopped; [by apply holds_ret|].
    eapply holds_bind; [apply sleep_keeps|]. intros _ live ->.
    unfold eff_try. eapply holds_bind; [apply IH|]. intros [[ag3 out3]|] live Hl; by apply holds_ret.
  - ledger_step. rewrite no_socket.
    eapply holds_bind; [apply sleep_keeps|]. intros _ live ->. apply Hrest.
Qed.

(* ------------------------------------------------------------------ *)
(** ** Lemmas: every routine returns *)

Context (stalls : S -> nat) {Hdr : Draining ws stalls} (Hstalls : forall s, (stalls s <= fuel)%nat).

Lemma send_frame_returns sock m : returns (send_frame ws fuel sock m).
Proof using Hdr Hstalls.
  unfold send_frame. intros s.
  assert (eff_result (send_all ws (length (message_frame m) + fuel) sock (message_frame m)) s <> None) as Hs.
  { unfold send_all. destruct (sock =? kClosedSocket); [done|]. apply (send_loop_fuel ws stalls).
    specialize (Hstalls s). lia. }
  unfold eff_result, eff_bind in *. by destruct (send_all _ _ _ _ s) as [[[r|] s1] l].
Qed.

Lemma send_each_returns sock ms : returns (send_each ws fuel sock ms).
Proof using Hdr Hstalls.
  induction ms as [|m ms IH]; cbn [send_each]; [apply returns_ret|].
  repeat first [apply send_frame_returns | apply IH | returns_step].
Qed.

Lemma admin_io_returns n ag sock buf : returns (admin_io ws fuel n ag sock buf).
Proof using Hdr Hstalls.
  revert buf. induction n as [|n IH]; intros buf; cbn [admin_io]; [apply returns_ret|].
  repeat first [apply send_each_returns | apply IH | returns_step].
Qed.

Lemma poll_io_returns tries ag sock buf : returns (poll_io ws fuel tries ag sock buf).
Proof using Hdr Hstalls.
  revert buf. induction tries as [|n IH]; intros buf; cbn [poll_io]; [apply returns_ret|].
  apply returns_bind. intros r. repeat first [apply admin_io_returns | apply IH | returns_step].
Qed.

Lemma turn_io_returns (b : B) clock sock buf ag : returns (turn_io ws fuel opts b clock sock buf ag).
Proof using Hdr Hstalls.
  unfold turn_io. repeat first [apply send_each_returns | apply poll_io_returns | returns_step].
Qed.

Lemma session_io_returns turns sock buf ag :
  returns (session_io (B := B) ws fuel opts turns sock buf ag).
Proof using Hdr Hstalls.
  revert buf ag. induction turns as [|[b clock] turns IH]; intros buf ag; cbn [session_io]; [apply returns_ret|].
  repeat first [apply turn_io_returns | apply IH | returns_step].
Qed.

Lemma register_io_returns (b : B) sock ag : returns (register_io ws fuel b sock ag).
Proof using Hdr Hstalls.
  unfold register_io.
  repeat first [apply send_frame_returns | returns_step].
Qed.

Lemma reconnect_io_returns envs ag : returns (reconnect_io (B := B) ws fuel opts envs ag).
Proof using Hdr Hstalls.
  revert ag. induction envs as [|e envs IH]; intros ag; cbn [reconnect_io]; [apply returns_ret|].
  repeat first [apply register_io_returns | apply session_io_returns | apply IH | returns_step].
Qed.

End AgentHandles.

(* ------------------------------------------------------------------ *)
(** ** Properties *)

(** C13. The agent over its socket refines the agent over lists of receives: on any
    socket library whose sends stall at most [fuel] times, whatever it answers,
    [reconnect_loop] returns; it has done to the agent what [Agent.reconnect_loop]
    does in attempts that met the same backends and clocks and received the bytes
    the library handed over; if every send succeeded the library accepted the
    frames of exactly that agent's messages, in order; and every socket it opened
    is closed once and used only before. *)
Theorem agent_over_socket {S B} (ws : Winsock S) `{!WinsockTyped ws} (stalls : S -> nat)
    `{!Draining ws stalls} `{!DeviceBackend B} fuel opts (envs : list (AttemptEnv B)) ag s :
  (forall s, (stalls s <= fuel)%nat) ->
  exists ag' out, eff_result (reconnect_io ws fuel opts envs ag) s = Some (ag', out) /\
    let log := eff_log (reconnect_io ws fuel opts envs ag) s in
    settle ∅ log = Some (∅ : Handles) /\
    exists ats ms, reconnect_loop ats ag = (ag', ms) /\
      Forall2 in_env ats (take (length ats) envs) /\
      concat (data_chunks (all_events ats)) = received_bytes log /\
      ms `sublist_of` replies out /\
      (all_sent out -> ms = replies out /\ sent_bytes log = concat (map message_frame ms)).
Proof.
  intros Hst.
  pose proof (reconnect_io_returns ws fuel opts stalls Hst envs ag s) as Hret.
  destruct (eff_result (reconnect_io ws fuel opts envs ag) s) as [[ag' out]|] eqn:E; [|done].
  exists ag', out. split; [done|]. cbn zeta. split.
  - destruct (reconnect_io_holds ws fuel opts envs ag s) as (live & Hl & Hq).
    rewrite E in Hq. by subst live.
  - destruct (reconnect_io_logs ws fuel opts envs ag s _ E) as (ats & ms & Hr & Hin & [Hc Hf] & Hall & Hsub).
    exists ats, ms. split_and!; try assumption. intros Ha. split; [by apply Hall|].
    rewrite (Hf Ha). by rewrite (Hall Ha).
Qed.
