(* ===== verification/AgentWireWitness.v ===== *)
(** * The agent over a scripted socket library

    A library that never stalls, handing over the coordinator's two
    acknowledgements: the agent registers, publishes and sends a heartbeat. *)

From stdpp Require Import gmultiset.
From S2P Require Import Prelude Core Codec Effects Message Framing Device Observation Pipeline.
From S2P Require Import Registration Store Coordinator CoordinatorSafety Agent EndToEnd EndToEndWitness.
From S2P Require Import Transport TransportWitness Wire AgentStart AgentWire.

(** Each send accepts something. *)
Definition prompt_send (_ : Z) (chunk : list byte) (s : Net) : Z * Net :=
  match net_sends s with
  | [] => (Z.of_nat (length chunk), s)
  | n :: rest =>
      (Z.of_nat (Nat.min (Datatypes.S n) (length chunk)),
       MkNet rest (net_error s) (net_incoming s) (net_recvs s) (net_next s))
  end.

Definition prompt : Winsock Net :=
  let n := net_library 0 in
  MkWinsock Net (ws_socket n) (ws_last_error n) (ws_getaddrinfo n) (ws_freeaddrinfo n)
    (ws_ioctl_nonblocking n) (ws_connect n) (ws_select n) (ws_so_error n) (ws_set_timeouts n)
    (ws_set_reuseaddr n) (ws_closesocket n) prompt_send (ws_recv n) (ws_bind n) (ws_getsockname n)
    (ws_listen n) (ws_accept n) (ws_getpeername n) (ws_sleep n).

#[export] Instance prompt_typed : WinsockTyped prompt.
Proof.
  intros sock chunk s. cbn. unfold prompt_send. right.
  destruct (net_sends s) as [|n rest]; cbn [fst]; lia.
Qed.

#[export] Instance prompt_draining : Draining prompt (fun _ => 0%nat).
Proof.
  split; [|done|done]. intros sock chunk s Hc r. subst r. cbn. unfold prompt_send. left.
  destruct chunk; [done|]. destruct (net_sends s) as [|n rest]; cbn [fst length]; split; lia.
Qed.

(** The coordinator's replies to the HELLO and to the REGISTER. *)
Definition hello_served : Coordinator * Conn * list Message * ConnEnd :=
  all_frames sample_env sample_coordinator (MkConn (message_frame (hello_message sample_agent)) None).
Definition register_served : Coordinator * Conn * list Message * ConnEnd :=
  all_frames sample_env hello_served.1.1.1 (MkConn register_bytes None).
Definition first_ack : list byte := concat (map message_frame hello_served.1.2).
Definition second_ack : list byte := concat (map message_frame register_served.1.2).

Definition coordinator_net : Net :=
  MkNet [100; 7]%nat 0 (first_ack ++ second_ack) [length first_ack; length second_ack; 0%nat] 1.

Definition one_session : list (AttemptEnv SyntheticDeviceBackend) :=
  [MkEnv synthetic_default [(synthetic_default, sample_clock)]].

Lemma agent_over_socket_witness :
  exists ag' out,
    eff_result (reconnect_io prompt 0 agent_options_default one_session sample_agent) coordinator_net =
      Some (ag', out) /\
    ag_reg_gen ag' = MkGen 2 /\
    map m_type (replies out) = [MessageType.HELLO; MessageType.REGISTER; MessageType.DEVICE_SNAPSHOT;
                                MessageType.HEARTBEAT] /\
    settle ∅ (eff_log (reconnect_io prompt 0 agent_options_default one_session sample_agent)
                coordinator_net) = Some (∅ : Handles).
Proof.
  destruct (agent_over_socket prompt (fun _ => 0%nat) 0 agent_options_default one_session sample_agent
    coordinator_net (fun _ => Nat.le_refl 0)) as (ag' & out & E & Hs & _).
  exists ag', out. split; [exact E|].
  assert (ag_reg_gen ag' = MkGen 2 /\ map m_type (replies out) = [MessageType.HELLO; MessageType.REGISTER;
    MessageType.DEVICE_SNAPSHOT; MessageType.HEARTBEAT]) as [H1 H2].
  { vm_compute in E. injection E as <- <-. vm_compute. split; reflexivity. }
  exact (conj H1 (conj H2 Hs)).
Defined.
